(** * PDFeditor: viewer / editor / redaction core

    A shallow embedding of the state-carrying JavaScript modules of the
    repository:

    - [PDFViewer]  (pdf-viewer.js, continuous-scroll version and the older
                    single-page version: they differ in the toolbar id lists
                    and in [refreshDocument]'s trailing [goToPage]);
    - [PDFEditor]  (pdf-editor.js: text boxes, delete / reorder, undo / redo);
    - [PDFRedact]  (pdf-redact.js: draw-box redaction and its commit);
    - [PDFAnnotate] (pdf-annotate.js: commit of highlights, underlines, paths
                    and sticky notes);
    - [App]        (app.js: the delete-page command).

    Around this core, the listeners and tools that drive it: navigation,
    thumbnail clicks and scroll tracking of the viewer, the save path of
    the editor ([PDFEditorSave]), search-and-redact, the click and stroke
    listeners of the annotation tools, [PDFPages] (pdf-pages.js: rotate,
    insert blank page), [PDFMerge] (pdf-merge.js: move page up / down) and
    [PDFConvert] (pdf-convert.js: [escapeXml]).

    Conventions.
    - JS numbers that are counts, ids, indexes or page numbers are [Z]
      ([findIndex] answers [-1]); coordinates and zoom factors are exact
      rationals [Q] (the quarter steps of zoomIn / zoomOut and the values of
      the scenarios are exactly representable doubles; NaN and the
      infinities are outside the model, so divisions are only read at a
      non-zero zoom).
    - JS arrays are lists in array order: [push] appends at the end, [pop]
      takes the last element, [shift] drops the first.
    - A byte payload is a value, the list of its bytes: which JavaScript
      object holds it is not modelled, nor what pdf.js does to a buffer it
      is handed.  [refreshDocument] hands pdf.js a copy of the Uint8Array
      a [save()] made, but a view of the session's own buffer when it is
      called with the ArrayBuffer that [loadPDF] stored (undo of the first
      commit); where a theorem below reads the bytes of a session after
      an undo, the snapshot reloaded is one that a [save()] made.
    - Text is kept as a [string]; what JavaScript computes on it ([trim],
      [toLowerCase], [includes], [length]) is left to the members of
      [StringBuiltins].
    - The module-level [let] variables of every IIFE module are the fields
      of one [State] record that is threaded through the operations.
    - [async] functions are run to completion; a rejected promise or a
      thrown exception is an explicit outcome ([None], [Threw]) that the
      caller's [catch] handles.
    - Every module is an IIFE that returns an object; a call across
      modules reaches a function only if the object has that member.
    - pdf.js and pdf-lib are external: they are the members of the [Engine]
      class.  DOM painting (canvases, banners, tabs) carries no state that
      the operations read back and is left out; what the operations do read
      or what the properties observe (button enablement, dialogs, viewport
      size) is in [DomState]. *)

From Stdlib Require Import ZArith QArith Qminmax Qabs Strings.Byte Ascii String List Lia Lqa.
From stdpp Require Import base gmap strings list sorting.

Local Open Scope string_scope.
Local Open Scope list_scope.
Local Open Scope Z_scope.

(** ** JavaScript array helpers *)

Fixpoint findIndex_from {A} (p : A -> bool) (l : list A) (i : Z) : Z :=
  match l with
  | [] => -1
  | x :: r => if p x then i else findIndex_from p r (i + 1)
  end.

(** [arr.findIndex(p)]: index of the first element satisfying [p], else -1. *)
Definition findIndex {A} (p : A -> bool) (l : list A) : Z :=
  findIndex_from p l 0.

(** [arr[i]]: [undefined] (here [None]) outside [0 .. length-1]. *)
Definition at_index {A} (l : list A) (i : Z) : option A :=
  if 0 <=? i then l !! Z.to_nat i else None.

(** [arr.splice(i, 1)], only ever called with [0 <= i]. *)
Definition splice1 {A} (l : list A) (i : Z) : list A :=
  delete (Z.to_nat i) l.

(** [arr.push(x)]. *)
Definition push {A} (l : list A) (x : A) : list A := l ++ [x].

(** [arr.pop()]: the last element and the array without it. *)
Definition pop {A} (l : list A) : option (A * list A) :=
  match last l with
  | Some x => Some (x, removelast l)
  | None => None
  end.

(** [arr.shift()] (the removed element is never used). *)
Definition shift {A} (l : list A) : list A := tail l.

(** [arr.length]. *)
Definition len {A} (l : list A) : Z := Z.of_nat (length l).

(** [arr[i] = f(arr[i])] for an existing index: in-place mutation of the
    object stored at [i]. *)
Definition mutate_at {A} (f : A -> A) (l : list A) (i : Z) : list A :=
  if 0 <=? i then alter f (Z.to_nat i) l else l.

(** ** The document engine (pdf.js and pdf-lib) *)

Definition bytes := list byte.

Inductive Color := rgb (r g b : Q).

(** Drawing calls of pdf-lib, in document space. *)
Inductive DrawOp :=
| DrawRectangle (x y width height : Q) (color : Color) (opacity : option Q)
| DrawLine (startX startY endX endY thickness : Q) (color : Color)
| DrawText (text : string) (x y size : Q) (color : Color).

(** A page as both libraries see it: [getSize()] / [getViewport({scale:1})],
    [getRotation().angle] and the drawing calls appended to it. *)
Record Page := mkPage {
  pageWidth : Q;
  pageHeight : Q;
  rotation : Z;
  content : list DrawOp
}.

Definition draw (op : DrawOp) (p : Page) : Page :=
  mkPage (pageWidth p) (pageHeight p) (rotation p) (push (content p) op).

Class Engine := {
  (** [pdfjsLib.getDocument({data}).promise]; [None] when it rejects. *)
  getDocument : bytes -> option (list Page);
  (** [PDFLib.PDFDocument.load(bytes)]; [None] when it rejects. *)
  PDFDocument_load : bytes -> option (list Page);
  (** [pdfDoc.save()]. *)
  PDFDocument_save : list Page -> bytes;
  (** [page.drawText(text, { font })] with the Helvetica that
      [pdfDoc.embedFont(StandardFonts.Helvetica)] answers: [false] when
      pdf-lib throws because the encoding of the font has no code for a
      character of the text. *)
  drawText_accepts : string -> bool
}.

(** ** JavaScript strings

    Text that the user types or that pdf.js extracts is kept as a
    [string].  What the modules compute on it they compute with the
    String built-ins of the JavaScript engine, which are the members of
    [StringBuiltins]: the model does not depend on how a character
    outside ASCII is spelled, nor on the Unicode tables behind [trim]
    and [toLowerCase]. *)
Class StringBuiltins := {
  (** [s.trim()]. *)
  trim : string -> string;
  (** [s.toLowerCase()]. *)
  toLowerCase : string -> string;
  (** [s.includes(t)]. *)
  includes : string -> string -> bool;
  (** [s.length], in UTF-16 code units. *)
  strLength : string -> Z
}.

(** ** State *)

(** One entry of [openDocs]. *)
Record Doc := mkDoc {
  docId : Z;
  docName : string;
  pdfDoc : list Page;
  pdfBytes : bytes;
  pageCount : Z;
  currentPage : Z;
  zoom : Q;
  thumbnails : list Z;
  selectedPages : gset Z
}.

Definition set_zoom (z : Q) (d : Doc) : Doc :=
  mkDoc (docId d) (docName d) (pdfDoc d) (pdfBytes d) (pageCount d)
        (currentPage d) z (thumbnails d) (selectedPages d).

Definition set_currentPage (p : Z) (d : Doc) : Doc :=
  mkDoc (docId d) (docName d) (pdfDoc d) (pdfBytes d) (pageCount d)
        p (zoom d) (thumbnails d) (selectedPages d).

Definition set_selectedPages (s : gset Z) (d : Doc) : Doc :=
  mkDoc (docId d) (docName d) (pdfDoc d) (pdfBytes d) (pageCount d)
        (currentPage d) (zoom d) (thumbnails d) s.

Definition set_thumbnails (t : list Z) (d : Doc) : Doc :=
  mkDoc (docId d) (docName d) (pdfDoc d) (pdfBytes d) (pageCount d)
        (currentPage d) (zoom d) t (selectedPages d).

Record ViewerState := mkViewer {
  openDocs : list Doc;
  activeDocIndex : Z;
  nextDocId : Z
}.

(** [{ id, pageNum, x, y, width, height, text, fontSize, fontFamily }]. *)
Record TextBox := mkTextBox {
  boxId : Z;
  boxPageNum : Z;
  boxX : Q;
  boxY : Q;
  boxWidth : Q;
  boxHeight : Q;
  boxText : string;
  boxFontSize : Q;
  boxFontFamily : string
}.

(** An undo action object: its [type] tag, the [box] of an add-text action
    and the [prevBytes] snapshot of an action pushed after an engine call.
    The remaining properties ([pages], [fromPage], [toPage], [degrees]) are
    written by the callers and never read by undo / redo. *)
Record UndoAction := mkAction {
  actionType : string;
  actionBox : option TextBox;
  prevBytes : option bytes
}.

Record EditorState := mkEditor {
  editMode : bool;
  textBoxes : list TextBox;
  nextBoxId : Z;
  undoStack : list UndoAction;
  redoStack : list UndoAction
}.

(** [{ pageNum, x, y, w, h, color }], in screen space. *)
Record RedactRect := mkRedactRect {
  rPageNum : Z;
  rX : Q;
  rY : Q;
  rW : Q;
  rH : Q;
  rColor : string
}.

(** [drawStart = { x, y, overlay }]; of the overlay only [dataset.page]
    is read. *)
Record DrawStart := mkDrawStart {
  startX : Q;
  startY : Q;
  overlayPage : Z
}.

Record RedactState := mkRedact {
  redactMode : bool;
  redactRects : list RedactRect;
  isDrawing : bool;
  drawStart : option DrawStart;
  currentColor : string
}.

(** [{ type, pageNum, x, y, w, h }], in screen space. *)
Record Annotation := mkAnnotation {
  aType : string;
  aPageNum : Z;
  aX : Q;
  aY : Q;
  aW : Q;
  aH : Q
}.

(** [{ pageNum, points: [{x,y}], color, width }]. *)
Record DrawPath := mkDrawPath {
  pathPageNum : Z;
  points : list (Q * Q);
  pathWidth : Q
}.

(** [{ pageNum, x, y, text }]. *)
Record StickyNote := mkStickyNote {
  notePageNum : Z;
  noteX : Q;
  noteY : Q;
  noteText : string
}.

Record AnnotateState := mkAnnotate {
  annotations : list Annotation;
  drawPaths : list DrawPath;
  stickyNotes : list StickyNote
}.

(** The dialogs the modelled operations request. *)
Inductive Dialog :=
| LoadFailed (fileName : string)      (* 'Failed to load <name>.' *)
| CannotDeleteAll                     (* 'Cannot delete all pages.' *)
| ConfirmDelete (n : Z)               (* 'Delete <n> page(s)?' *)
| DeleteFailed                        (* 'Failed to delete pages.' *)
| ReorderFailed                       (* 'Failed to reorder pages.' *)
| RedactFailed                        (* 'Failed to apply redactions.' *)
| RedactionApplied.                   (* 'Redaction rectangles have been drawn...' *)

(** What the operations read from, or leave observable in, the page:
    [toolbar] maps the id of every existing button element to its
    [disabled] flag, [dialogs] lists the dialogs shown (oldest first),
    [clientWidth] / [clientHeight] are those of #canvas-viewport. *)
Record DomState := mkDom {
  toolbar : gmap string bool;
  dialogs : list Dialog;
  clientWidth : Z;
  clientHeight : Z
}.

(** Calls into the engine, oldest first. *)
Inductive EngineCall :=
| CallGetDocument (b : bytes)
| CallLoad (b : bytes)
| CallSave (pages : list Page).

Record State := mkState {
  viewer : ViewerState;
  editor : EditorState;
  redact : RedactState;
  annotate : AnnotateState;
  dom : DomState;
  engineLog : list EngineCall
}.

Definition with_viewer (f : ViewerState -> ViewerState) (s : State) : State :=
  mkState (f (viewer s)) (editor s) (redact s) (annotate s) (dom s) (engineLog s).

Definition with_editor (f : EditorState -> EditorState) (s : State) : State :=
  mkState (viewer s) (f (editor s)) (redact s) (annotate s) (dom s) (engineLog s).

Definition with_redact (f : RedactState -> RedactState) (s : State) : State :=
  mkState (viewer s) (editor s) (f (redact s)) (annotate s) (dom s) (engineLog s).

Definition with_dom (f : DomState -> DomState) (s : State) : State :=
  mkState (viewer s) (editor s) (redact s) (annotate s) (f (dom s)) (engineLog s).

Definition logCall (c : EngineCall) (s : State) : State :=
  mkState (viewer s) (editor s) (redact s) (annotate s) (dom s)
          (push (engineLog s) c).

(** Result of running an [async] function body: it either returns or
    throws, and in both cases the mutations made so far remain. *)
Inductive Outcome :=
| Returned (s : State)
| Threw (s : State).

Definition stateOf (o : Outcome) : State :=
  match o with Returned s | Threw s => s end.

(** The two versions of pdf-viewer.js in the repository. *)
Inductive Version := SinglePage | Continuous.

(** ** UI (ui.js) *)

Module UI.

(** [const el = document.getElementById(id); if (el) el.disabled = v;] *)
Definition setDisabled (v : bool) (tb : gmap string bool) (id : string)
  : gmap string bool :=
  match tb !! id with
  | Some _ => <[id := v]> tb
  | None => tb
  end.

Definition setButtons (v : bool) (ids : list string) (s : State) : State :=
  with_dom (fun d => mkDom (foldl (setDisabled v) (toolbar d) ids)
                           (dialogs d) (clientWidth d) (clientHeight d)) s.

Definition enableToolbarButtons (ids : list string) : State -> State :=
  setButtons false ids.

Definition disableToolbarButtons (ids : list string) : State -> State :=
  setButtons true ids.

Definition showDialog (d : Dialog) (s : State) : State :=
  with_dom (fun m => mkDom (toolbar m) (push (dialogs m) d)
                           (clientWidth m) (clientHeight m)) s.

End UI.

(** ** PDFViewer (pdf-viewer.js) *)

Module PDFViewer.

(** The ids enabled by [loadPDF]. *)
Definition PDF_OPEN_BUTTONS (ver : Version) : list string :=
  match ver with
  | SinglePage =>
      ["tb-save"; "tb-print"; "tb-merge"; "tb-extract"; "tb-toword";
       "tb-zoomin"; "tb-zoomout"; "tb-fitpage"; "tb-editmode";
       "side-merge"; "side-extract"; "side-edit"; "side-toword";
       "side-print"; "side-save"]
  | Continuous =>
      ["tb-save"; "tb-print"; "tb-merge"; "tb-extract"; "tb-toword";
       "tb-zoomin"; "tb-zoomout"; "tb-fitpage"; "tb-editmode"; "tb-rotate";
       "side-merge"; "side-extract"; "side-toword";
       "side-print"; "side-save";
       "side-redact-draw"; "side-redact-search";
       "side-highlight"; "side-underline"; "side-sticky"; "side-draw";
       "side-stamp";
       "side-rotate"; "side-crop"; "side-insert-blank"; "side-split";
       "side-page-numbers";
       "side-fill-fields"; "side-add-fields"; "side-flatten";
       "side-to-images"; "side-compress"]
  end.

(** The ids disabled by [closeDocument] when the last document closes. *)
Definition PDF_CLOSE_BUTTONS (ver : Version) : list string :=
  match ver with
  | SinglePage =>
      ["tb-save"; "tb-print"; "tb-merge"; "tb-extract"; "tb-toword";
       "tb-zoomin"; "tb-zoomout"; "tb-fitpage"; "tb-editmode";
       "tb-undo"; "tb-redo";
       "side-merge"; "side-extract"; "side-edit"; "side-toword";
       "side-print"; "side-save"]
  | Continuous =>
      ["tb-save"; "tb-print"; "tb-merge"; "tb-extract"; "tb-toword";
       "tb-zoomin"; "tb-zoomout"; "tb-fitpage"; "tb-editmode"; "tb-rotate";
       "tb-undo"; "tb-redo";
       "side-merge"; "side-extract"; "side-toword";
       "side-print"; "side-save";
       "side-redact-draw"; "side-redact-search";
       "side-highlight"; "side-underline"; "side-sticky"; "side-draw";
       "side-stamp";
       "side-rotate"; "side-crop"; "side-insert-blank"; "side-split";
       "side-page-numbers";
       "side-fill-fields"; "side-add-fields"; "side-flatten";
       "side-to-images"; "side-compress"]
  end.

Definition getActiveDoc (s : State) : option Doc :=
  let v := viewer s in
  if (activeDocIndex v <? 0) || (activeDocIndex v >=? len (openDocs v))
  then None
  else at_index (openDocs v) (activeDocIndex v).

Definition getAllDocs (s : State) : list Doc := openDocs (viewer s).

(** [Array.from(doc.selectedPages).sort((a, b) => a - b)]. *)
Definition getSelectedPages (s : State) : list Z :=
  match getActiveDoc s with
  | None => []
  | Some doc => merge_sort Z.le (elements (selectedPages doc))
  end.

(** Assignment to fields of the object [getActiveDoc()] returned. *)
Definition updateActiveDoc (f : Doc -> Doc) (s : State) : State :=
  with_viewer (fun v => mkViewer (mutate_at f (openDocs v) (activeDocIndex v))
                                 (activeDocIndex v) (nextDocId v)) s.

Definition setActiveDocIndex (i : Z) (s : State) : State :=
  with_viewer (fun v => mkViewer (openDocs v) i (nextDocId v)) s.

(** One thumbnail canvas per page [1 .. pageCount] (a placeholder when
    the page fails to render). *)
Definition generateThumbnails (s : State) : State :=
  updateActiveDoc (fun d => set_thumbnails (seqZ 1 (pageCount d)) d) s.

Definition goToPage (pageNum : Z) (s : State) : State :=
  match getActiveDoc s with
  | None => s
  | Some doc =>
      let pageNum := Z.max 1 (Z.min (pageCount doc) pageNum) in
      updateActiveDoc (set_currentPage pageNum) s
  end.

(** What follows the assignment to [doc.zoom]: the continuous viewer
    re-renders and then scrolls back, [renderAllPages().then(() =>
    goToPage(currentPage))]; the single-page viewer only re-renders. *)
Definition afterZoom (ver : Version) (page : Z) (s : State) : State :=
  match ver with
  | Continuous => goToPage page s
  | SinglePage => s
  end.

(** The argument of [setZoom]: the string 'fit', or what [parseFloat]
    makes of it. *)
Inductive ZoomArg := Fit | ZoomValue (v : Q).

Definition setZoom (ver : Version) (zoom : ZoomArg) (s : State) : State :=
  match getActiveDoc s with
  | None => s
  | Some doc =>
      match zoom with
      | Fit =>
          (* doc.pdfDoc.getPage(doc.currentPage).then(page => ...) *)
          match at_index (pdfDoc doc) (currentPage doc - 1) with
          | None => s
          | Some page =>
              let scaleX :=
                (inject_Z (clientWidth (dom s) - 40) / pageWidth page)%Q in
              let scaleY :=
                (inject_Z (clientHeight (dom s) - 40) / pageHeight page)%Q in
              let s := updateActiveDoc (set_zoom (Qmin scaleX scaleY)) s in
              afterZoom ver (currentPage doc) s
          end
      | ZoomValue v =>
          let s := updateActiveDoc (set_zoom v) s in
          afterZoom ver (currentPage doc) s
      end
  end.

Definition zoomIn (ver : Version) (s : State) : State :=
  match getActiveDoc s with
  | None => s
  | Some doc =>
      let s := updateActiveDoc (set_zoom (Qmin 4 (zoom doc + (1 # 4)))) s in
      afterZoom ver (currentPage doc) s
  end.

Definition zoomOut (ver : Version) (s : State) : State :=
  match getActiveDoc s with
  | None => s
  | Some doc =>
      let s := updateActiveDoc (set_zoom (Qmax (1 # 4) (zoom doc - (1 # 4)))) s in
      afterZoom ver (currentPage doc) s
  end.

Definition switchToDocument (id : Z) (s : State) : State :=
  let idx := findIndex (fun d => docId d =? id) (openDocs (viewer s)) in
  if idx =? -1 then s
  else setActiveDocIndex idx s.

Definition closeDocument (ver : Version) (id : Z) (s : State) : State :=
  let idx := findIndex (fun d => docId d =? id) (openDocs (viewer s)) in
  if idx =? -1 then s
  else
    let s := with_viewer (fun v => mkViewer (splice1 (openDocs v) idx)
                                            (activeDocIndex v) (nextDocId v)) s in
    if len (openDocs (viewer s)) =? 0 then
      let s := setActiveDocIndex (-1) s in
      UI.disableToolbarButtons (PDF_CLOSE_BUTTONS ver) s
    else
      let s := setActiveDocIndex (Z.min idx (len (openDocs (viewer s)) - 1)) s in
      match at_index (openDocs (viewer s)) (activeDocIndex (viewer s)) with
      | Some d => switchToDocument (docId d) s
      | None => s
      end.

Section WithEngine.
Context `{Engine}.

Definition loadPDF (ver : Version) (arrayBuffer : bytes) (fileName : string)
           (s : State) : State :=
  let s := logCall (CallGetDocument arrayBuffer) s in
  match getDocument arrayBuffer with
  | None => UI.showDialog (LoadFailed fileName) s
  | Some pdf =>
      let v := viewer s in
      let doc := mkDoc (nextDocId v) fileName pdf arrayBuffer (len pdf)
                       1 1%Q [] ∅ in
      let docs := push (openDocs v) doc in
      let s := with_viewer
                 (fun _ => mkViewer docs (len docs - 1) (nextDocId v + 1)) s in
      let s := generateThumbnails s in
      UI.enableToolbarButtons (PDF_OPEN_BUTTONS ver) s
  end.

(** [refreshDocument(pdfBytes, keepPage)]; [keepPage] is [None] when the
    caller omits it, and [keepPage || doc.currentPage] also falls back
    on a zero. *)
Definition refreshDocument (ver : Version) (pdfBytes' : bytes)
           (keepPage : option Z) (s : State) : Outcome :=
  match getActiveDoc s with
  | None => Returned s
  | Some doc =>
      let page :=
        match keepPage with
        | Some k => if k =? 0 then currentPage doc else k
        | None => currentPage doc
        end in
      let s := logCall (CallGetDocument pdfBytes') s in
      match getDocument pdfBytes' with
      | None => Threw s
      | Some pdf =>
          let s := updateActiveDoc
                     (fun d => mkDoc (docId d) (docName d) pdf pdfBytes'
                                     (len pdf) (Z.min page (len pdf))
                                     (zoom d) (thumbnails d) ∅) s in
          let s := generateThumbnails s in
          match ver with
          | Continuous => Returned (goToPage (Z.min page (len pdf)) s)
          | SinglePage => Returned s
          end
      end
  end.

End WithEngine.

(** *** Navigation *)

Definition nextPage (s : State) : State :=
  match getActiveDoc s with
  | Some doc =>
      if currentPage doc <? pageCount doc then goToPage (currentPage doc + 1) s
      else s
  | None => s
  end.

Definition prevPage (s : State) : State :=
  match getActiveDoc s with
  | Some doc =>
      if currentPage doc >? 1 then goToPage (currentPage doc - 1) s else s
  | None => s
  end.

Definition firstPage (s : State) : State := goToPage 1 s.

Definition lastPage (s : State) : State :=
  match getActiveDoc s with
  | Some doc => goToPage (pageCount doc) s
  | None => s
  end.

(** *** The listeners [renderThumbnails] puts on the thumbnail of page
    [pageNum]

    [doc.thumbnails.forEach((canvas, i) => { const pageNum = i + 1; ... })]:
    there is a thumbnail element, and so a listener, for
    [1 <= pageNum <= doc.thumbnails.length] only. *)

Definition hasThumbnail (doc : Doc) (pageNum : Z) : bool :=
  (1 <=? pageNum) && (pageNum <=? len (thumbnails doc)).

(** The ['click'] listener; [ctrl] is [e.ctrlKey || e.metaKey]. *)
Definition thumbnailClick (ctrl : bool) (pageNum : Z) (s : State) : State :=
  match getActiveDoc s with
  | None => s
  | Some doc =>
      if negb (hasThumbnail doc pageNum) then s
      else if ctrl then
        updateActiveDoc
          (fun d => if decide (pageNum ∈ selectedPages d)
                    then set_selectedPages (selectedPages d ∖ {[pageNum]}) d
                    else set_selectedPages (selectedPages d ∪ {[pageNum]}) d) s
      else
        goToPage pageNum (updateActiveDoc (set_selectedPages ∅) s)
  end.

(** The ['contextmenu'] listener. *)
Definition thumbnailContextMenu (pageNum : Z) (s : State) : State :=
  match getActiveDoc s with
  | None => s
  | Some doc =>
      if negb (hasThumbnail doc pageNum) then s
      else
        let s :=
          updateActiveDoc
            (fun d => if decide (pageNum ∈ selectedPages d) then d
                      else set_selectedPages (∅ ∪ {[pageNum]}) d) s in
        goToPage pageNum s
  end.

(** *** Scroll tracking (continuous viewer)

    A page wrapper of the render area, as the listener reads it:
    [dataset.page] and the [top] and [height] of its bounding rectangle. *)
Record Wrapper := mkWrapper {
  wrapperPage : Z;
  wrapperTop : Q;
  wrapperHeight : Q
}.

(** [dist < closestDist]; [None] is the initial [Infinity]. *)
Definition closer (dist : Q) (closestDist : option Q) : bool :=
  match closestDist with
  | None => true
  | Some d => negb (Qle_bool d dist)
  end.

(** [Math.abs(mid - viewportMid)] for one wrapper. *)
Definition wrapperDist (viewportMid : Q) (w : Wrapper) : Q :=
  Qabs (wrapperTop w + wrapperHeight w / 2 - viewportMid).

(** One iteration of [wrappers.forEach], on
    [(closestPage, closestDist)]. *)
Definition scrollStep (viewportMid : Q) (acc : Z * option Q) (w : Wrapper)
  : Z * option Q :=
  let dist := wrapperDist viewportMid w in
  if closer dist (snd acc) then (wrapperPage w, Some dist) else acc.

Definition closestPage (viewportMid : Q) (wrappers : list Wrapper) : Z :=
  fst (foldl (scrollStep viewportMid) (1, None) wrappers).

(** The ['scroll'] listener of the viewport; [scrollTracking] is the
    module flag that [goToPage] clears for 500 ms, [viewportTop] and
    [viewportHeight] are the viewport's bounding rectangle and [wrappers]
    the [.pdf-page-wrapper] elements in document order. *)
Definition onScroll (scrollTracking : bool) (viewportTop viewportHeight : Q)
           (wrappers : list Wrapper) (s : State) : State :=
  if negb scrollTracking then s
  else
    match getActiveDoc s with
    | None => s
    | Some doc =>
        if len wrappers =? 0 then s
        else
          let viewportMid := (viewportTop + viewportHeight / 2)%Q in
          let page := closestPage viewportMid wrappers in
          if page =? currentPage doc then s
          else updateActiveDoc (set_currentPage page) s
    end.

End PDFViewer.

(** ** pdf-lib page-tree calls *)

(** [pdfDoc.removePage(index)]: throws for an index outside
    [0 .. pageCount-1]. *)
Definition removePage (index : Z) (pages : list Page) : option (list Page) :=
  if (0 <=? index) && (index <? len pages)
  then Some (delete (Z.to_nat index) pages)
  else None.

(** [pdfDoc.insertPage(index, page)]: throws for an index outside
    [0 .. pageCount]. *)
Definition insertPage (index : Z) (p : Page) (pages : list Page)
  : option (list Page) :=
  if (0 <=? index) && (index <=? len pages)
  then Some (take (Z.to_nat index) pages ++ p :: drop (Z.to_nat index) pages)
  else None.

(** [sorted.forEach(p => pdfDoc.removePage(p - 1))]. *)
Fixpoint removePages (sorted : list Z) (pages : list Page)
  : option (list Page) :=
  match sorted with
  | [] => Some pages
  | p :: rest =>
      match removePage (p - 1) pages with
      | Some pages' => removePages rest pages'
      | None => None
      end
  end.

(** ** PDFEditor (pdf-editor.js) *)

Module PDFEditor.

Definition MAX_UNDO : Z := 50.

Definition set_undoStack (u : list UndoAction) (e : EditorState) : EditorState :=
  mkEditor (editMode e) (textBoxes e) (nextBoxId e) u (redoStack e).

Definition set_redoStack (r : list UndoAction) (e : EditorState) : EditorState :=
  mkEditor (editMode e) (textBoxes e) (nextBoxId e) (undoStack e) r.

Definition set_textBoxes (t : list TextBox) (e : EditorState) : EditorState :=
  mkEditor (editMode e) t (nextBoxId e) (undoStack e) (redoStack e).

Definition updateUndoButtons (s : State) : State :=
  let s := if len (undoStack (editor s)) >? 0
           then UI.enableToolbarButtons ["tb-undo"] s
           else UI.disableToolbarButtons ["tb-undo"] s in
  if len (redoStack (editor s)) >? 0
  then UI.enableToolbarButtons ["tb-redo"] s
  else UI.disableToolbarButtons ["tb-redo"] s.

Definition pushUndo (action : UndoAction) (s : State) : State :=
  let s := with_editor (fun e => set_undoStack (push (undoStack e) action) e) s in
  let s := if len (undoStack (editor s)) >? MAX_UNDO
           then with_editor (fun e => set_undoStack (shift (undoStack e)) e) s
           else s in
  let s := with_editor (set_redoStack []) s in
  updateUndoButtons s.

(** The members of the object the module returns,
    [return { init, toggleEditMode, isEditMode, reorderPage, deletePages,
    selectAllPages, getSaveData, undo, redo, onPageRendered,
    createTextBox }]. *)
Definition exports : list string :=
  ["init"; "toggleEditMode"; "isEditMode"; "reorderPage"; "deletePages";
   "selectAllPages"; "getSaveData"; "undo"; "redo"; "onPageRendered";
   "createTextBox"].

(** A sibling module's call [PDFEditor.pushUndo(action)], on a module
    object whose members are [api]: calling a member that is not there
    throws a TypeError. *)
Definition callPushUndo (api : list string) (action : UndoAction) (s : State)
  : Outcome :=
  if decide ("pushUndo" ∈ api) then Returned (pushUndo action s) else Threw s.

(** [createTextBox(pageNum, x, y, text = '', fontSize = 14)]: the new box
    is stored in [textBoxes]; the undo action holds a copy [{ ...box }]
    taken at creation. *)
Definition createTextBox (pageNum : Z) (x y : Q) (text : string) (fontSize : Q)
           (s : State) : State * TextBox :=
  let id := nextBoxId (editor s) in
  let box := mkTextBox id pageNum x y 150 24 text fontSize "Helvetica" in
  let s := with_editor
             (fun e => mkEditor (editMode e) (push (textBoxes e) box) (id + 1)
                                (undoStack e) (redoStack e)) s in
  let s := pushUndo (mkAction "add-text" (Some box) None) s in
  (s, box).

(** The [input] / [blur] and drag listeners of a rendered box write
    [box.text], [box.x] and [box.y] of the stored object. *)
Definition editTextBox (id : Z) (x y : Q) (text : string) (s : State) : State :=
  with_editor
    (fun e => set_textBoxes
                (map (fun b => if boxId b =? id
                               then mkTextBox (boxId b) (boxPageNum b) x y
                                              (boxWidth b) (boxHeight b) text
                                              (boxFontSize b) (boxFontFamily b)
                               else b)
                     (textBoxes e)) e) s.

Definition redo (s : State) : State :=
  match pop (redoStack (editor s)) with
  | None => s
  | Some (action, rest) =>
      let s := with_editor (set_redoStack rest) s in
      let s := with_editor (fun e => set_undoStack (push (undoStack e) action) e) s in
      let s :=
        if actionType action =? "add-text" then
          match actionBox action with
          | Some box => with_editor (fun e => set_textBoxes (push (textBoxes e) box) e) s
          | None => s
          end
        else s in
      updateUndoButtons s
  end%string.

Definition selectAllPages (s : State) : State :=
  match PDFViewer.getActiveDoc s with
  | None => s
  | Some doc =>
      PDFViewer.updateActiveDoc
        (fun d => set_selectedPages
                    (selectedPages d ∪ list_to_set (seqZ 1 (pageCount doc))) d) s
  end.

Section WithEngine.
Context `{Engine}.
Variable ver : Version.

Definition undo (s : State) : Outcome :=
  match pop (undoStack (editor s)) with
  | None => Returned s
  | Some (action, rest) =>
      let s := with_editor (set_undoStack rest) s in
      let s := with_editor (fun e => set_redoStack (push (redoStack e) action) e) s in
      if (actionType action =? "delete")%string
         || (actionType action =? "reorder")%string then
        match prevBytes action with
        | Some b =>
            match PDFViewer.refreshDocument ver b None s with
            | Returned s => Returned (updateUndoButtons s)
            | Threw s => Threw s
            end
        | None => Returned (updateUndoButtons s)
        end
      else if (actionType action =? "add-text")%string then
        match actionBox action with
        | Some box =>
            let s := with_editor
                       (fun e => set_textBoxes
                                   (filter (fun b => boxId b ≠ boxId box)
                                           (textBoxes e)) e) s in
            Returned (updateUndoButtons s)
        | None => Threw s
        end
      else Returned (updateUndoButtons s)
  end.

(** The [try] body of [deletePages], after the validation. *)
Definition deletePages_try (doc : Doc) (pageNums : list Z) (s : State)
  : Outcome :=
  let s := logCall (CallLoad (pdfBytes doc)) s in
  match PDFDocument_load (pdfBytes doc) with
  | None => Threw s
  | Some pages =>
      let sorted := merge_sort Z.ge pageNums in
      match removePages sorted pages with
      | None => Threw s
      | Some pages' =>
          let s := logCall (CallSave pages') s in
          let newBytes := PDFDocument_save pages' in
          let s := pushUndo (mkAction "delete" None (Some (pdfBytes doc))) s in
          PDFViewer.refreshDocument ver newBytes None s
      end
  end.

Definition deletePages (pageNums : list Z) (s : State) : State :=
  match PDFViewer.getActiveDoc s with
  | None => s
  | Some doc =>
      let pageNums := if len pageNums =? 0 then [currentPage doc] else pageNums in
      if len pageNums >=? pageCount doc then
        UI.showDialog CannotDeleteAll s
      else
        match deletePages_try doc pageNums s with
        | Returned s => s
        | Threw s => UI.showDialog DeleteFailed s
        end
  end.

(** The [try] body of [reorderPage]. *)
Definition reorderPage_try (doc : Doc) (fromPage toPage : Z) (s : State)
  : Outcome :=
  let s := logCall (CallLoad (pdfBytes doc)) s in
  match PDFDocument_load (pdfBytes doc) with
  | None => Threw s
  | Some pages =>
      if (fromPage <? 1) || (fromPage >? len pages)
         || (toPage <? 1) || (toPage >? len pages)
      then Returned s
      else
        let fromIdx := fromPage - 1 in
        let toIdx := toPage - 1 in
        match removePage fromIdx pages with
        | None => Threw s
        | Some pages1 =>
            let s := logCall (CallLoad (pdfBytes doc)) s in
            match PDFDocument_load (pdfBytes doc) with
            | None => Threw s
            | Some source =>
                match at_index source fromIdx with
                | None => Threw s
                | Some copiedPage =>
                    match insertPage toIdx copiedPage pages1 with
                    | None => Threw s
                    | Some pages2 =>
                        let s := logCall (CallSave pages2) s in
                        let newBytes := PDFDocument_save pages2 in
                        let s := pushUndo (mkAction "reorder" None
                                                    (Some (pdfBytes doc))) s in
                        PDFViewer.refreshDocument ver newBytes (Some toPage) s
                    end
                end
            end
        end
  end.

Definition reorderPage (fromPage toPage : Z) (s : State) : State :=
  match PDFViewer.getActiveDoc s with
  | None => s
  | Some doc =>
      match reorderPage_try doc fromPage toPage s with
      | Returned s => s
      | Threw s => UI.showDialog ReorderFailed s
      end
  end.

End WithEngine.

(** *** Edit mode *)

Definition toggleEditMode (s : State) : State :=
  with_editor (fun e => mkEditor (negb (editMode e)) (textBoxes e) (nextBoxId e)
                                 (undoStack e) (redoStack e)) s.

Definition isEditMode (s : State) : bool := editMode (editor s).

(** The ['click'] listener of the text overlay: a click on the overlay
    itself ([onOverlay], [e.target === e.currentTarget]) puts an empty
    14 pt box on the current page. *)
Definition onOverlayClick (onOverlay : bool) (x y : Q) (s : State) : State :=
  if negb onOverlay then s
  else
    match PDFViewer.getActiveDoc s with
    | None => s
    | Some doc => fst (createTextBox (currentPage doc) x y "" 14 s)
    end.

End PDFEditor.

(** ** JavaScript values shared by the commit paths *)

(** How an [async] function that answers a value completes: with the
    value, or by throwing. *)
Inductive Completion (A : Type) :=
| Value (a : A)
| Exception.

Arguments Value {A} a.
Arguments Exception {A}.

(** ** PDFRedact (pdf-redact.js) *)

Module PDFRedact.

Definition set_redactRects (l : list RedactRect) (r : RedactState) : RedactState :=
  mkRedact (redactMode r) l (isDrawing r) (drawStart r) (currentColor r).

Definition set_drawStart (d : option DrawStart) (r : RedactState) : RedactState :=
  mkRedact (redactMode r) (redactRects r) (isDrawing r) d (currentColor r).

Definition set_isDrawing (b : bool) (r : RedactState) : RedactState :=
  mkRedact (redactMode r) (redactRects r) b (drawStart r) (currentColor r).

Definition toggleRedactMode (s : State) : State :=
  with_redact (fun r => mkRedact (negb (redactMode r)) (redactRects r)
                                 (isDrawing r) (drawStart r) (currentColor r)) s.

(** The change listener of #redact-color-select. *)
Definition setColor (c : string) (s : State) : State :=
  with_redact (fun r => mkRedact (redactMode r) (redactRects r)
                                 (isDrawing r) (drawStart r) c) s.

(** [onMouseDown] on the redact overlay of page [page]; [x], [y] are
    [e.clientX - rect.left], [e.clientY - rect.top]; [onOverlay] is
    [e.target === e.currentTarget] (a press on an existing rectangle or
    another child starts nothing). *)
Definition onMouseDown (onOverlay : bool) (page : Z) (x y : Q) (s : State)
  : State :=
  if negb onOverlay then s
  else
    with_redact (fun r => set_drawStart (Some (mkDrawStart x y page))
                                        (set_isDrawing true r)) s.

Definition onMouseUp (x y : Q) (s : State) : State :=
  match drawStart (redact s) with
  | None => s
  | Some start =>
      if negb (isDrawing (redact s)) then s
      else
        let s := with_redact (set_isDrawing false) s in
        let left := Qmin (startX start) x in
        let top := Qmin (startY start) y in
        let width := Qabs (x - startX start) in
        let height := Qabs (y - startY start) in
        if negb (Qle_bool 5 width) || negb (Qle_bool 5 height) then
          with_redact (set_drawStart None) s
        else
          let pageNum := overlayPage start in
          if pageNum =? 0 then with_redact (set_drawStart None) s
          else
            let rect := mkRedactRect pageNum left top width height
                                     (currentColor (redact s)) in
            with_redact (fun r => set_drawStart None
                                    (set_redactRects (push (redactRects r) rect) r)) s
  end.

(** The rectangle [applyRedactions] draws for [r] on a page of height
    [height] at zoom [zoom]. *)
Definition redactOp (zoom height : Q) (r : RedactRect) : DrawOp :=
  let color := if (rColor r =? "white")%string then rgb 1 1 1 else rgb 0 0 0 in
  DrawRectangle (rX r / zoom)
                (height - (rY r / zoom) - (rH r / zoom))
                (rW r / zoom)
                (rH r / zoom)
                color None.

(** One iteration of [for (const r of redactRects)]. *)
Definition drawRedaction (zoom : Q) (pages : list Page) (r : RedactRect)
  : list Page :=
  match at_index pages (rPageNum r - 1) with
  | None => pages
  | Some page =>
      mutate_at (draw (redactOp zoom (pageHeight page) r)) pages (rPageNum r - 1)
  end.

Definition drawRedactions (zoom : Q) (rects : list RedactRect)
           (pages : list Page) : list Page :=
  foldl (drawRedaction zoom) pages rects.

Section WithEngine.
Context `{Engine}.

(** The members of the [PDFEditor] object of the page
    ([PDFEditor.exports] for pdf-editor.js as it is), and the viewer
    version. *)
Variable api : list string.
Variable ver : Version.

(** The [try] body of [applyRedactions]. *)
Definition applyRedactions_try (doc : Doc) (s : State) : Outcome :=
  let s := logCall (CallLoad (pdfBytes doc)) s in
  match PDFDocument_load (pdfBytes doc) with
  | None => Threw s
  | Some pages =>
      let pages' := drawRedactions (zoom doc) (redactRects (redact s)) pages in
      let s := logCall (CallSave pages') s in
      let newBytes := PDFDocument_save pages' in
      match PDFEditor.callPushUndo api
              (mkAction "redact" None (Some (pdfBytes doc))) s with
      | Threw s => Threw s
      | Returned s =>
          let s := with_redact (set_redactRects []) s in
          match PDFViewer.refreshDocument ver newBytes None s with
          | Returned s => Returned (UI.showDialog RedactionApplied s)
          | Threw s => Threw s
          end
      end
  end.

Definition applyRedactions (s : State) : State :=
  match PDFViewer.getActiveDoc s with
  | None => s
  | Some doc =>
      if len (redactRects (redact s)) =? 0 then s
      else
        match applyRedactions_try doc s with
        | Returned s => s
        | Threw s => UI.showDialog RedactFailed s
        end
  end.

End WithEngine.

(** *** Editing the pending rectangles *)

(** The ['contextmenu'] listener of the rendered rectangle [r]:
    [const rIdx = redactRects.indexOf(r); if (rIdx !== -1)
    redactRects.splice(rIdx, 1)].  [indexOf] finds the object itself; [i]
    is its position, past the end for a rectangle that is no longer
    stored. *)
Definition removeRect (i : nat) (s : State) : State :=
  with_redact (fun r => set_redactRects (delete i (redactRects r)) r) s.

(** The 'Clear All' button of the apply bar. *)
Definition clearAll (s : State) : State :=
  with_redact (set_redactRects []) s.

(** *** Search and redact *)

(** A text item of [page.getTextContent()]: [str], [transform[4]],
    [transform[5]], [width] and [height]. *)
Record TextItem := mkTextItem {
  itemStr : string;
  itemTx4 : Q;
  itemTx5 : Q;
  itemWidth : Q;
  itemHeight : Q
}.

(** [{ pageNum, text, x, y, w, h }]. *)
Record Match := mkMatch {
  mPageNum : Z;
  mText : string;
  mX : Q;
  mY : Q;
  mW : Q;
  mH : Q
}.

(** [a || b] on numbers: [b] when [a] is zero. *)
Definition orElse (a b : Q) : Q := if Qeq_bool a 0 then b else a.

Section Search.
Context `{JS : StringBuiltins}.

(** The object pushed for [item] on page [i]. *)
Definition matchOf (i : Z) (page : Page) (item : TextItem) : Match :=
  mkMatch i (itemStr item) (itemTx4 item) (pageHeight page - itemTx5 item)
          (orElse (itemWidth item) (inject_Z (strLength (itemStr item) * 6)))
          (orElse (itemHeight item) 12).

(** [page.getTextContent().items] of pdf.js. *)
Variable getTextContent : Page -> list TextItem.

(** One iteration of [for (const item of textContent.items)] on page
    [i]. *)
Definition pushMatch (lowerTerm : string) (i : Z) (page : Page)
           (matches : list Match) (item : TextItem) : list Match :=
  if includes (toLowerCase (itemStr item)) lowerTerm
  then push matches (matchOf i page item)
  else matches.

(** The inner loop of [findTextPositions] on page [i]. *)
Definition pageMatches (lowerTerm : string) (i : Z) (page : Page)
           (matches : list Match) : list Match :=
  foldl (pushMatch lowerTerm i page) matches (getTextContent page).

(** The outer loop, [for (let i = 1; i <= doc.pageCount; i++)]:
    [doc.pdfDoc.getPage(i)] rejects for a page the document does not
    have. *)
Definition findTextPositions (searchTerm : string) (s : State)
  : Completion (list Match) :=
  match PDFViewer.getActiveDoc s with
  | None => Value []
  | Some doc =>
      let lowerTerm := toLowerCase searchTerm in
      foldl (fun acc i =>
               match acc with
               | Exception => Exception
               | Value matches =>
                   match at_index (pdfDoc doc) (i - 1) with
                   | None => Exception
                   | Some page => Value (pageMatches lowerTerm i page matches)
                   end
               end)
            (Value []) (seqZ 1 (pageCount doc))
  end.

End Search.

(** The rectangle [executeSearchRedact] draws for the match [m] on a page
    of height [height]. *)
Definition searchRedactOp (color : string) (height : Q) (m : Match) : DrawOp :=
  let fillColor := if (color =? "white")%string then rgb 1 1 1 else rgb 0 0 0 in
  DrawRectangle (mX m - 1) (height - mY m - mH m) (mW m + 2) (mH m + 2)
                fillColor None.

(** One iteration of [for (const m of matches)]. *)
Definition drawSearchRedaction (color : string) (pages : list Page) (m : Match)
  : list Page :=
  match at_index pages (mPageNum m - 1) with
  | None => pages
  | Some page =>
      mutate_at (draw (searchRedactOp color (pageHeight page) m)) pages
                (mPageNum m - 1)
  end.

Definition drawSearchRedactions (color : string) (matches : list Match)
           (pages : list Page) : list Page :=
  foldl (drawSearchRedaction color) pages matches.

End PDFRedact.

(** ** PDFAnnotate (pdf-annotate.js): commit of the annotation stores *)

Module PDFAnnotate.

(** One iteration of the highlights-and-underlines loop. *)
Definition drawAnnotation (zoom : Q) (pages : list Page) (a : Annotation)
  : list Page :=
  match at_index pages (aPageNum a - 1) with
  | None => pages
  | Some page =>
      let height := pageHeight page in
      if (aType a =? "highlight")%string then
        mutate_at
          (draw (DrawRectangle (aX a / zoom)
                               (height - (aY a / zoom) - (aH a / zoom))
                               (aW a / zoom)
                               (aH a / zoom)
                               (rgb 1 1 0) (Some (4 # 10))))
          pages (aPageNum a - 1)
      else if (aType a =? "underline")%string then
        mutate_at
          (draw (DrawLine (aX a / zoom) (height - (aY a / zoom))
                          ((aX a + aW a) / zoom) (height - (aY a / zoom))
                          1 (rgb 1 0 0)))
          pages (aPageNum a - 1)
      else pages
  end.

(** [for (let i = 1; i < path.points.length; i++) page.drawLine(...)]. *)
Fixpoint pathSegments (zoom height width : Q) (pts : list (Q * Q))
  : list DrawOp :=
  match pts with
  | p :: ((q :: _) as rest) =>
      DrawLine (fst p / zoom) (height - snd p / zoom)
               (fst q / zoom) (height - snd q / zoom)
               (width / zoom) (rgb 1 0 0)
      :: pathSegments zoom height width rest
  | _ => []
  end.

Definition drawPath (zoom : Q) (pages : list Page) (path : DrawPath)
  : list Page :=
  match at_index pages (pathPageNum path - 1) with
  | None => pages
  | Some page =>
      mutate_at
        (fun pg => foldl (fun pg op => draw op pg) pg
                         (pathSegments zoom (pageHeight page) (pathWidth path)
                                       (points path)))
        pages (pathPageNum path - 1)
  end.

Section WithEngine.
Context `{Engine} `{JS : StringBuiltins}.

(** One iteration of the sticky-note loop; [pin] is the prefix put
    before the note text.  A [drawText] that throws ends the loop. *)
Definition drawNote (pin : string) (zoom : Q) (acc : Completion (list Page))
           (note : StickyNote) : Completion (list Page) :=
  match acc with
  | Exception => Exception
  | Value pages =>
      if (trim (noteText note) =? "")%string then Value pages
      else
        match at_index pages (notePageNum note - 1) with
        | None => Value pages
        | Some page =>
            if drawText_accepts (pin ++ noteText note)%string then
              Value (mutate_at
                       (draw (DrawText (pin ++ noteText note)%string
                                       (noteX note / zoom)
                                       (pageHeight page - (noteY note / zoom) - 12)
                                       9 (rgb (6 # 10) (3 # 10) 0)))
                       pages (notePageNum note - 1))
            else Exception
        end
  end.

(** The three loops of [applyAnnotations], in order. *)
Definition drawAll (pin : string) (zoom : Q) (a : AnnotateState)
           (pages : list Page) : Completion (list Page) :=
  let pages := foldl (drawAnnotation zoom) pages (annotations a) in
  let pages := foldl (drawPath zoom) pages (drawPaths a) in
  foldl (drawNote pin zoom) (Value pages) (stickyNotes a).

(** [applyAnnotations()]: the bytes with the marks drawn in, [None]
    for [null]; a failure inside the [try] answers the old bytes. *)
Definition applyAnnotations (pin : string) (s : State) : option bytes :=
  match PDFViewer.getActiveDoc s with
  | None => None
  | Some doc =>
      let a := annotate s in
      let hasAnnot :=
        (len (annotations a) >? 0) || (len (drawPaths a) >? 0)
        || existsb (fun n => negb (trim (noteText n) =? "")%string) (stickyNotes a) in
      if negb hasAnnot then Some (pdfBytes doc)
      else
        match PDFDocument_load (pdfBytes doc) with
        | None => Some (pdfBytes doc)
        | Some pages =>
            match drawAll pin (zoom doc) a pages with
            | Value pages => Some (PDFDocument_save pages)
            | Exception => Some (pdfBytes doc)
            end
        end
  end.

End WithEngine.

(** *** The stores and the listeners that fill them *)

Definition with_annotate (f : AnnotateState -> AnnotateState) (s : State) : State :=
  mkState (viewer s) (editor s) (redact s) (f (annotate s)) (dom s) (engineLog s).

Definition set_annotations (l : list Annotation) (a : AnnotateState) : AnnotateState :=
  mkAnnotate l (drawPaths a) (stickyNotes a).

Definition set_drawPaths (l : list DrawPath) (a : AnnotateState) : AnnotateState :=
  mkAnnotate (annotations a) l (stickyNotes a).

Definition set_stickyNotes (l : list StickyNote) (a : AnnotateState) : AnnotateState :=
  mkAnnotate (annotations a) (drawPaths a) l.

(** [annotClickHandler] on the annotation overlay of page [pageNum], with
    the tool [activeAnnotTool] names at the time of the click; [x], [y]
    are [e.clientX - rect.left], [e.clientY - rect.top]. *)
Definition annotClickHandler (activeAnnotTool : string) (onOverlay : bool)
           (pageNum : Z) (x y : Q) (s : State) : State :=
  if negb onOverlay then s
  else if pageNum =? 0 then s
  else
    let annot := mkAnnotation activeAnnotTool pageNum (x - 40) (y - 4) 80
                   (if (activeAnnotTool =? "highlight")%string then 16 else 2) in
    with_annotate (fun a => set_annotations (push (annotations a) annot) a) s.

(** The ['contextmenu'] listener of a rendered mark: [annotations.indexOf(a)]
    and [splice]; [i] is the position of the object, past the end for one
    that is no longer stored. *)
Definition removeAnnotation (i : nat) (s : State) : State :=
  with_annotate (fun a => set_annotations (delete i (annotations a)) a) s.

Definition stickyClickHandler (onOverlay : bool) (pageNum : Z) (x y : Q)
           (s : State) : State :=
  if negb onOverlay then s
  else if pageNum =? 0 then s
  else
    with_annotate
      (fun a => set_stickyNotes
                  (push (stickyNotes a) (mkStickyNote pageNum x y "")) a) s.

(** The ['input'] listener of a note's textarea: [note.text = e.target.value]
    on the stored object at position [i]. *)
Definition editStickyNote (i : nat) (text : string) (s : State) : State :=
  with_annotate
    (fun a => set_stickyNotes
                (alter (fun n => mkStickyNote (notePageNum n) (noteX n) (noteY n) text)
                       i (stickyNotes a)) a) s.

Definition removeStickyNote (i : nat) (s : State) : State :=
  with_annotate (fun a => set_stickyNotes (delete i (stickyNotes a)) a) s.

(** *** Freehand drawing

    [isDrawing] and [currentPath], the two module variables of a stroke in
    progress. *)
Record Stroke := mkStroke {
  strokeIsDrawing : bool;
  currentPath : option DrawPath
}.

(** [onDrawStart] on the canvas of page [pageNum]
    ([parseInt(canvas.dataset.page) || 1]). *)
Definition onDrawStart (pageNum : Z) (x y : Q) (k : Stroke) : Stroke :=
  mkStroke true
           (Some (mkDrawPath (if pageNum =? 0 then 1 else pageNum) [(x, y)] 2)).

Definition onDrawMove (x y : Q) (k : Stroke) : Stroke :=
  if negb (strokeIsDrawing k) then k
  else
    match currentPath k with
    | None => k
    | Some path =>
        mkStroke (strokeIsDrawing k)
                 (Some (mkDrawPath (pathPageNum path) (push (points path) (x, y))
                                   (pathWidth path)))
    end.

Definition onDrawEnd (k : Stroke) (s : State) : Stroke * State :=
  if negb (strokeIsDrawing k) then (k, s)
  else
    match currentPath k with
    | None => (k, s)
    | Some path =>
        let s := if len (points path) >? 1
                 then with_annotate
                        (fun a => set_drawPaths (push (drawPaths a) path) a) s
                 else s in
        (mkStroke false None, s)
    end.

(** A whole stroke: press at [p], move through [moves], release. *)
Definition stroke (pageNum : Z) (p : Q * Q) (moves : list (Q * Q)) (s : State)
  : Stroke * State :=
  let k := onDrawStart pageNum (fst p) (snd p) (mkStroke false None) in
  let k := foldl (fun k m => onDrawMove (fst m) (snd m) k) k moves in
  onDrawEnd k s.

End PDFAnnotate.

(** ** PDFEditor, the save path (pdf-editor.js) *)

Module PDFEditorSave.

Section WithEngine.
Context `{Engine} `{JS : StringBuiltins}.

(** One iteration of [for (const box of pageBoxes)]; a [drawText] that
    throws ends the loop. *)
Definition drawTextBox (zoom : Q) (acc : Completion (list Page)) (box : TextBox)
  : Completion (list Page) :=
  match acc with
  | Exception => Exception
  | Value pages =>
      match at_index pages (boxPageNum box - 1) with
      | None => Value pages
      | Some page =>
          if drawText_accepts (boxText box) then
            Value (mutate_at
                     (draw (DrawText (boxText box)
                                     (boxX box / zoom)
                                     (pageHeight page - (boxY box / zoom)
                                      - boxFontSize box)
                                     (boxFontSize box) (rgb 0 0 0)))
                     pages (boxPageNum box - 1))
          else Exception
      end
  end.

(** [textBoxes.filter(b => b.text.trim() !== '')]. *)
Definition pageBoxes (s : State) : list TextBox :=
  List.filter (fun b => negb (trim (boxText b) =? "")%string)
              (textBoxes (editor s)).

(** [applyTextEdits()]: [null] without a document, the stored bytes when
    no box has text, else the saved bytes; what the [try] body throws
    (a failing load, a text the font cannot encode) is rethrown. *)
Definition applyTextEdits (s : State) : Completion (option bytes) :=
  match PDFViewer.getActiveDoc s with
  | None => Value None
  | Some doc =>
      if len (pageBoxes s) =? 0 then Value (Some (pdfBytes doc))
      else
        match PDFDocument_load (pdfBytes doc) with
        | None => Exception
        | Some pages =>
            match foldl (drawTextBox (zoom doc)) (Value pages) (pageBoxes s) with
            | Value pages => Value (Some (PDFDocument_save pages))
            | Exception => Exception
            end
        end
  end.

End WithEngine.

End PDFEditorSave.

(** ** PDFPages (pdf-pages.js) *)

Module PDFPages.

(** [page.setRotation(degrees(angle))] of pdf-lib: throws unless [angle]
    is a multiple of 90. *)
Definition setRotation (angle : Z) (p : Page) : option Page :=
  if Z.rem angle 90 =? 0
  then Some (mkPage (pageWidth p) (pageHeight p) angle (content p))
  else None.

(** [for (const pageNum of pages)] of [rotatePage]; [%] is the remainder
    that takes the sign of the dividend. *)
Fixpoint rotatePages (degrees : Z) (pageNums : list Z) (allPages : list Page)
  : option (list Page) :=
  match pageNums with
  | [] => Some allPages
  | pageNum :: rest =>
      match at_index allPages (pageNum - 1) with
      | None => rotatePages degrees rest allPages
      | Some page =>
          match setRotation (Z.rem (rotation page + degrees) 360) page with
          | None => None
          | Some page' =>
              rotatePages degrees rest
                          (mutate_at (fun _ => page') allPages (pageNum - 1))
          end
      end
  end.

Section WithEngine.
Context `{Engine}.
Variable api : list string.
Variable ver : Version.

(** [rotatePage(degrees)] up to the end of its [try] body. *)
Definition rotatePage_try (degrees : Z) (s : State) : Outcome :=
  match PDFViewer.getActiveDoc s with
  | None => Returned s
  | Some doc =>
      let selected := PDFViewer.getSelectedPages s in
      let pages := if len selected >? 0 then selected else [currentPage doc] in
      let s := logCall (CallLoad (pdfBytes doc)) s in
      match PDFDocument_load (pdfBytes doc) with
      | None => Threw s
      | Some allPages =>
          match rotatePages degrees pages allPages with
          | None => Threw s
          | Some allPages' =>
              let s := logCall (CallSave allPages') s in
              let newBytes := PDFDocument_save allPages' in
              match PDFEditor.callPushUndo api
                      (mkAction "rotate" None (Some (pdfBytes doc))) s with
              | Threw s => Threw s
              | Returned s => PDFViewer.refreshDocument ver newBytes None s
              end
          end
      end
  end.

(** [insertBlankPage()] up to the end of its [try] body: the blank page
    takes the size of the current page (US Letter when there is none)
    and goes right after it. *)
Definition insertBlankPage_try (s : State) : Outcome :=
  match PDFViewer.getActiveDoc s with
  | None => Returned s
  | Some doc =>
      let s := logCall (CallLoad (pdfBytes doc)) s in
      match PDFDocument_load (pdfBytes doc) with
      | None => Threw s
      | Some pages =>
          let blank :=
            match at_index pages (currentPage doc - 1) with
            | Some page => mkPage (pageWidth page) (pageHeight page) 0 []
            | None => mkPage 612 792 0 []
            end in
          match insertPage (currentPage doc) blank pages with
          | None => Threw s
          | Some pages' =>
              let s := logCall (CallSave pages') s in
              let newBytes := PDFDocument_save pages' in
              match PDFEditor.callPushUndo api
                      (mkAction "insert-blank" None (Some (pdfBytes doc))) s with
              | Threw s => Threw s
              | Returned s =>
                  PDFViewer.refreshDocument ver newBytes
                                            (Some (currentPage doc + 1)) s
              end
          end
      end
  end.

End WithEngine.

End PDFPages.

(** ** PDFMerge (pdf-merge.js): moving the current page *)

Module PDFMerge.
Section WithEngine.
Context `{Engine}.
Variable ver : Version.

Definition movePageUp (s : State) : State :=
  match PDFViewer.getActiveDoc s with
  | None => s
  | Some doc =>
      if currentPage doc <=? 1 then s
      else PDFEditor.reorderPage ver (currentPage doc) (currentPage doc - 1) s
  end.

Definition movePageDown (s : State) : State :=
  match PDFViewer.getActiveDoc s with
  | None => s
  | Some doc =>
      if currentPage doc >=? pageCount doc then s
      else PDFEditor.reorderPage ver (currentPage doc) (currentPage doc + 1) s
  end.

End WithEngine.
End PDFMerge.

(** ** PDFConvert (pdf-convert.js): text written into the .docx *)

Module PDFConvert.

(** [t.replace(/c/g, replacement)] for a one-character pattern. *)
Fixpoint replaceAll (c : ascii) (replacement : string) (t : string) : string :=
  match t with
  | EmptyString => EmptyString
  | String a r =>
      if Ascii.eqb a c then (replacement ++ replaceAll c replacement r)%string
      else String a (replaceAll c replacement r)
  end.

(** The double-quote character. *)
Definition dquote : ascii := ascii_of_nat 34.

Definition escapeXml (str : string) : string :=
  replaceAll "'" "&apos;"
    (replaceAll dquote "&quot;"
       (replaceAll ">" "&gt;"
          (replaceAll "<" "&lt;"
             (replaceAll "&" "&amp;" str)))).

End PDFConvert.

(** ** App (app.js) *)

Module App.
Section WithEngine.
Context `{Engine}.
Variable ver : Version.

(** [deletePage()]; [confirmed] is the user's answer ('Delete' or
    'Cancel') to the confirmation dialog. *)
Definition deletePage (confirmed : bool) (s : State) : State :=
  match PDFViewer.getActiveDoc s with
  | None => s
  | Some doc =>
      let selected := PDFViewer.getSelectedPages s in
      let pages := if len selected >? 0 then selected else [currentPage doc] in
      if len pages >=? pageCount doc then
        UI.showDialog CannotDeleteAll s
      else
        let s := UI.showDialog (ConfirmDelete (len pages)) s in
        if confirmed then PDFEditor.deletePages ver pages s else s
  end.

End WithEngine.
End App.

(** ** Initial state, runs and invariants *)

(** The state after the scripts have loaded: no document, empty stores and
    stacks; [tb] is the toolbar of the page and [cw] x [ch] the size of the
    viewport element. *)
Definition initialState (tb : gmap string bool) (cw ch : Z) : State :=
  mkState (mkViewer [] (-1) 1)
          (mkEditor false [] 1 [] [])
          (mkRedact false [] false None "black")
          (mkAnnotate [] [] [])
          (mkDom tb [] cw ch)
          [].

(** The zoom commands of the viewer. *)
Inductive ZoomOp :=
| ZoomIn
| ZoomOut
| SetZoom (arg : PDFViewer.ZoomArg).

Definition runZoomOp (ver : Version) (s : State) (op : ZoomOp) : State :=
  match op with
  | ZoomIn => PDFViewer.zoomIn ver s
  | ZoomOut => PDFViewer.zoomOut ver s
  | SetZoom arg => PDFViewer.setZoom ver arg s
  end.

Definition runZoomOps (ver : Version) (ops : list ZoomOp) (s : State) : State :=
  foldl (runZoomOp ver) s ops.

(** The interval [0.25, 4.0]. *)
Definition zoomInRange (z : Q) : Prop := ((1 # 4) <= z /\ z <= 4)%Q.

(** Zoom commands that step, or set a numeric value inside the interval. *)
Definition steppingOp (op : ZoomOp) : Prop :=
  match op with
  | ZoomIn | ZoomOut => True
  | SetZoom (PDFViewer.ZoomValue v) => zoomInRange v
  | SetZoom PDFViewer.Fit => False
  end.

(** Successive [pushUndo] calls, first action first. *)
Definition pushAll (actions : list UndoAction) (s : State) : State :=
  foldl (fun s a => PDFEditor.pushUndo a s) s actions.

(** The last [n] elements of an array. *)
Definition lastN {A} (n : nat) (l : list A) : list A :=
  drop (length l - n) l.

(** Workspace invariant: ids are pairwise distinct and below [nextDocId];
    the active index is -1 exactly when no document is open and a valid
    index otherwise. *)
Definition wfViewer (v : ViewerState) : Prop :=
  NoDup (docId <$> openDocs v)
  /\ Forall (fun d => docId d < nextDocId v) (openDocs v)
  /\ (openDocs v = [] -> activeDocIndex v = -1)
  /\ (openDocs v <> [] -> 0 <= activeDocIndex v < len (openDocs v)).

(** Text-box invariant: the ids of the boxes in [textBoxes], and of the
    boxes recorded in the two stacks, are below [nextBoxId]. *)
Definition boxBelow (next : Z) (a : UndoAction) : Prop :=
  forall box, actionBox a = Some box -> boxId box < next.

Definition wfEditor (e : EditorState) : Prop :=
  Forall (fun b => boxId b < nextBoxId e) (textBoxes e)
  /\ Forall (boxBelow (nextBoxId e)) (undoStack e)
  /\ Forall (boxBelow (nextBoxId e)) (redoStack e).

(** The contract of section 4.1 in the spec's words,
    [toDocumentSpace(screenX, screenY, screenW, screenH, zoom,
    pageHeightInDocUnits) -> (docX, docY, docW, docH)], to be compared with
    the arithmetic the commit loops of the source inline. *)
Definition spec_toDocumentSpace (screenX screenY screenW screenH zoom pageHeightInDocUnits : Q)
  : Q * Q * Q * Q :=
  (screenX / zoom,
   pageHeightInDocUnits - screenY / zoom - screenH / zoom,
   screenW / zoom,
   screenH / zoom)%Q.

(** Component-wise equality of rationals on rectangles. *)
Definition rectEq (a b : Q * Q * Q * Q) : Prop :=
  let '(ax, ay, aw, ah) := a in
  let '(bx, b_y, bw, bh) := b in
  (ax == bx /\ ay == b_y /\ aw == bw /\ ah == bh)%Q.

(** The rectangle of a [drawRectangle] call. *)
Definition rectOf (op : DrawOp) : option (Q * Q * Q * Q) :=
  match op with
  | DrawRectangle x y w h _ _ => Some (x, y, w, h)
  | _ => None
  end.

(** The pages handed to the most recent [save()]. *)
Definition lastSaved (s : State) : option (list Page) :=
  last (omap (fun c => match c with CallSave p => Some p | _ => None end)
             (engineLog s)).

(** Bytes of the active session. *)
Definition activeBytes (s : State) : option bytes :=
  pdfBytes <$> PDFViewer.getActiveDoc s.

(** ** A small concrete engine

    Used to run the operations on concrete inputs: a file is one byte per
    page, the byte counting the drawing calls on that US-Letter page; the
    empty file does not load. *)

Definition demoMark : DrawOp := DrawRectangle 0 0 0 0 (rgb 0 0 0) None.

Definition demoDecode (b : bytes) : option (list Page) :=
  match b with
  | [] => None
  | _ => Some (map (fun c => mkPage 612 792 0 (repeat demoMark (Byte.to_nat c))) b)
  end.

Definition demoEncode (pages : list Page) : bytes :=
  map (fun p => default x00 (Byte.of_nat (length (content p)))) pages.

(** The printable ASCII characters and the line feed. *)
Definition demoPrintable (c : ascii) : bool :=
  let n := nat_of_ascii c in
  ((32 <=? n) && (n <=? 126) || (n =? 10))%nat.

Definition demoAccepts (t : string) : bool :=
  forallb demoPrintable (list_ascii_of_string t).

Definition demoEngine : Engine :=
  {| getDocument := demoDecode;
     PDFDocument_load := demoDecode;
     PDFDocument_save := demoEncode;
     drawText_accepts := demoAccepts |}.

(** The String built-ins on ASCII text, to run the operations on
    concrete inputs. *)
Definition asciiLower (c : ascii) : ascii :=
  let n := nat_of_ascii c in
  if ((65 <=? n) && (n <=? 90))%nat then ascii_of_nat (n + 32) else c.

Fixpoint asciiToLowerCase (t : string) : string :=
  match t with
  | EmptyString => EmptyString
  | String c r => String (asciiLower c) (asciiToLowerCase r)
  end.

Fixpoint asciiStartsWith (t term : string) : bool :=
  match term, t with
  | EmptyString, _ => true
  | String _ _, EmptyString => false
  | String a term', String b t' => Ascii.eqb a b && asciiStartsWith t' term'
  end.

Fixpoint asciiIncludes (t term : string) : bool :=
  asciiStartsWith t term
  || match t with
     | EmptyString => false
     | String _ r => asciiIncludes r term
     end.

Definition asciiWhite (c : ascii) : bool :=
  let n := nat_of_ascii c in
  ((9 <=? n) && (n <=? 13) || (n =? 32))%nat.

Fixpoint dropWhite (l : list ascii) : list ascii :=
  match l with
  | [] => []
  | c :: r => if asciiWhite c then dropWhite r else l
  end.

Definition asciiTrim (t : string) : string :=
  string_of_list_ascii
    (rev (dropWhite (rev (dropWhite (list_ascii_of_string t))))).

Definition asciiStrings : StringBuiltins :=
  {| trim := asciiTrim;
     toLowerCase := asciiToLowerCase;
     includes := asciiIncludes;
     strLength := fun t => Z.of_nat (String.length t) |}.

(** A toolbar holding every button the viewer and the editor name. *)
Definition demoToolbar : gmap string bool :=
  list_to_map (map (fun b => (b, true)) (PDFViewer.PDF_CLOSE_BUTTONS Continuous)).

Definition demoStart : State := initialState demoToolbar 1040 840.

(** Three blank pages. *)
Definition threePages : bytes := [x00; x00; x00].

(** The scenario of section 8, in the continuous viewer (the one with the
    per-page overlays pdf-redact.js draws on): open a 3-page document,
    zoom to 2.0, drag a redaction box from (100,100) to (150,120) on
    page 2. *)
Definition scenarioMarked (E : Engine) (file : bytes) : State :=
  let s := PDFViewer.loadPDF Continuous file "a.pdf"
                             (initialState demoToolbar 1040 840) in
  let s := PDFViewer.setZoom Continuous (PDFViewer.ZoomValue 2) s in
  let s := PDFRedact.toggleRedactMode s in
  let s := PDFRedact.onMouseDown true 2 100 100 s in
  PDFRedact.onMouseUp 150 120 s.

(** ... and press Apply. *)
Definition scenarioApplied (E : Engine) (file : bytes) : State :=
  PDFRedact.applyRedactions PDFEditor.exports Continuous (scenarioMarked E file).

(** A session with history: open a 3-page document, delete page 3, delete
    page 2, then drag a redaction box from (100,100) to (150,120) on the
    page that is left. *)
Definition scenarioAfterDeletions (E : Engine) (file : bytes) : State :=
  let s := PDFViewer.loadPDF Continuous file "a.pdf"
                             (initialState demoToolbar 1040 840) in
  let s := PDFEditor.deletePages Continuous [3] s in
  let s := PDFEditor.deletePages Continuous [2] s in
  let s := PDFRedact.toggleRedactMode s in
  let s := PDFRedact.onMouseDown true 1 100 100 s in
  PDFRedact.onMouseUp 150 120 s.

(** [n] successive undo commands (a rejected one leaves its mutations). *)
Definition undoN `{Engine} (ver : Version) (n : nat) (s : State) : State :=
  Nat.iter n (fun s => stateOf (PDFEditor.undo ver s)) s.

(** History invariant: the two stacks together hold at most [MAX_UNDO]
    actions. *)
Definition historyBounded (e : EditorState) : Prop :=
  len (undoStack e) + len (redoStack e) <= PDFEditor.MAX_UNDO.

(** ** The editor as a state machine *)

(** The commands of the modelled modules. *)
Inductive Command :=
| CmdLoadPDF (arrayBuffer : bytes) (fileName : string)
| CmdSwitchToDocument (id : Z)
| CmdCloseDocument (id : Z)
| CmdZoom (op : ZoomOp)
| CmdGoToPage (pageNum : Z)
| CmdSelectAllPages
| CmdCreateTextBox (pageNum : Z) (x y : Q) (text : string) (fontSize : Q)
| CmdEditTextBox (id : Z) (x y : Q) (text : string)
| CmdUndo
| CmdRedo
| CmdDeletePages (pageNums : list Z)
| CmdDeletePage (confirmed : bool)
| CmdReorderPage (fromPage toPage : Z)
| CmdToggleRedactMode
| CmdRedactMouseDown (onOverlay : bool) (page : Z) (x y : Q)
| CmdRedactMouseUp (x y : Q)
| CmdApplyRedactions.

Definition step `{Engine} (api : list string) (ver : Version) (s : State)
           (c : Command) : State :=
  match c with
  | CmdLoadPDF b name => PDFViewer.loadPDF ver b name s
  | CmdSwitchToDocument id => PDFViewer.switchToDocument id s
  | CmdCloseDocument id => PDFViewer.closeDocument ver id s
  | CmdZoom op => runZoomOp ver s op
  | CmdGoToPage n => PDFViewer.goToPage n s
  | CmdSelectAllPages => PDFEditor.selectAllPages s
  | CmdCreateTextBox page x y text size =>
      fst (PDFEditor.createTextBox page x y text size s)
  | CmdEditTextBox id x y text => PDFEditor.editTextBox id x y text s
  | CmdUndo => stateOf (PDFEditor.undo ver s)
  | CmdRedo => PDFEditor.redo s
  | CmdDeletePages l => PDFEditor.deletePages ver l s
  | CmdDeletePage confirmed => App.deletePage ver confirmed s
  | CmdReorderPage a b => PDFEditor.reorderPage ver a b s
  | CmdToggleRedactMode => PDFRedact.toggleRedactMode s
  | CmdRedactMouseDown o page x y => PDFRedact.onMouseDown o page x y s
  | CmdRedactMouseUp x y => PDFRedact.onMouseUp x y s
  | CmdApplyRedactions => PDFRedact.applyRedactions api ver s
  end.

Definition run `{Engine} (api : list string) (ver : Version)
           (cmds : list Command) (s : State) : State :=
  foldl (step api ver) s cmds.

(** What holds in every state the commands can reach. *)
Definition invariant (s : State) : Prop :=
  wfViewer (viewer s) /\ historyBounded (editor s) /\ wfEditor (editor s).

(** ** Concrete states *)

(** One 3-page document open. *)
Definition demoOne : State :=
  PDFViewer.loadPDF (H := demoEngine) Continuous threePages "a.pdf" demoStart.

(** Three documents open, the last one ("c.pdf", index 2) active. *)
Definition demoThree : State :=
  PDFViewer.loadPDF (H := demoEngine) Continuous [x00] "c.pdf"
    (PDFViewer.loadPDF (H := demoEngine) Continuous [x00; x00] "b.pdf" demoOne).

Definition blankPage : Page := mkPage 612 792 0 [].

Definition demoDocA : Doc :=
  mkDoc 1 "a.pdf" [blankPage; blankPage; blankPage] threePages 3 1 1 [1; 2; 3] ∅.

Definition demoDocC : Doc :=
  mkDoc 3 "c.pdf" [blankPage] [x00] 1 1 1 [1] ∅.

(** The active document of the scenario once the box is drawn. *)
Definition demoMarkedDoc : Doc :=
  mkDoc 1 "a.pdf" [blankPage; blankPage; blankPage] threePages 3 1 2 [1; 2; 3] ∅.

(** A page that holds [n] drawing calls, and a document whose pages
    can be told apart: page [i] holds [i] of them. *)
Definition markedPage (n : nat) : Page := mkPage 612 792 0 (repeat demoMark n).

Definition numberedPages : list Page := [markedPage 1; markedPage 2; markedPage 3].

Definition demoNumbered : State :=
  PDFViewer.loadPDF (H := demoEngine) Continuous [x01; x02; x03] "n.pdf" demoStart.

Definition demoNumberedDoc : Doc :=
  mkDoc 1 "n.pdf" numberedPages [x01; x02; x03] 3 1 1 [1; 2; 3] ∅.

(** 51 distinct snapshot actions. *)
Definition demoActions : list UndoAction :=
  map (fun n => mkAction "stamp" None (Some (repeat x00 n))) (seq 1 51).

(** An underline mark as the click handler makes it: 80 x 2 pixels. *)
Definition demoUnderline : Annotation := mkAnnotation "underline" 1 60 96 80 2.

Definition demoHighlight : Annotation := mkAnnotation "highlight" 1 60 96 80 16.

(** The five XML entities, as one substitution per character: what the
    chain of [replace] calls of [escapeXml] is compared with. *)
Definition xmlEntity (c : ascii) : string :=
  if Ascii.eqb c "&" then "&amp;"
  else if Ascii.eqb c "<" then "&lt;"
  else if Ascii.eqb c ">" then "&gt;"
  else if Ascii.eqb c PDFConvert.dquote then "&quot;"
  else if Ascii.eqb c "'" then "&apos;"
  else String c EmptyString.

Fixpoint escapeEach (t : string) : string :=
  match t with
  | EmptyString => EmptyString
  | String c r => (xmlEntity c ++ escapeEach r)%string
  end.

(** ** The page as the user drives it *)

(** The ['drop'] listener [renderThumbnails] puts on the thumbnail of
    [toPage]; [fromPage] is what [parseInt] makes of the dragged text. *)
Definition thumbnailDrop `{Engine} (ver : Version) (fromPage toPage : Z)
           (s : State) : State :=
  match PDFViewer.getActiveDoc s with
  | None => s
  | Some doc =>
      if negb (PDFViewer.hasThumbnail doc toPage) then s
      else if fromPage =? toPage then s
      else PDFEditor.reorderPage ver fromPage toPage s
  end.

(** The wrappers a finished [renderAllPages] has put into the render
    area for [doc], one per page from page 1 on, with the geometry the
    browser gives them. *)
Definition wrappersOf (doc : Doc) (geometry : list (Q * Q))
  : list PDFViewer.Wrapper :=
  zip_with (fun p g => PDFViewer.mkWrapper p (fst g) (snd g))
           (seqZ 1 (pageCount doc)) geometry.

(** User events: the commands, and the listeners of the viewer, the
    thumbnails and the tools.  A scroll event carries what the listener
    reads from the page when it fires: the flag, the viewport rectangle
    and whatever [.pdf-page-wrapper] elements the render area holds at
    that moment (the rendering that fills it is not awaited, so these
    need not be the wrappers of the active document). *)
Inductive Event :=
| EvCommand (c : Command)
| EvNextPage
| EvPrevPage
| EvFirstPage
| EvLastPage
| EvThumbnailClick (ctrl : bool) (pageNum : Z)
| EvThumbnailContextMenu (pageNum : Z)
| EvThumbnailDrop (fromPage toPage : Z)
| EvScroll (scrollTracking : bool) (viewportTop viewportHeight : Q)
           (wrappers : list PDFViewer.Wrapper)
| EvMovePageUp
| EvMovePageDown
| EvToggleEditMode
| EvOverlayClick (onOverlay : bool) (x y : Q)
| EvRemoveRect (i : nat)
| EvClearAll
| EvAnnotClick (tool : string) (onOverlay : bool) (pageNum : Z) (x y : Q)
| EvStickyClick (onOverlay : bool) (pageNum : Z) (x y : Q)
| EvEditStickyNote (i : nat) (text : string)
| EvRemoveAnnotation (i : nat)
| EvRemoveStickyNote (i : nat).

Definition handle `{Engine} (api : list string) (ver : Version) (s : State)
           (e : Event) : State :=
  match e with
  | EvCommand c => step api ver s c
  | EvNextPage => PDFViewer.nextPage s
  | EvPrevPage => PDFViewer.prevPage s
  | EvFirstPage => PDFViewer.firstPage s
  | EvLastPage => PDFViewer.lastPage s
  | EvThumbnailClick ctrl pageNum => PDFViewer.thumbnailClick ctrl pageNum s
  | EvThumbnailContextMenu pageNum => PDFViewer.thumbnailContextMenu pageNum s
  | EvThumbnailDrop fromPage toPage => thumbnailDrop ver fromPage toPage s
  | EvScroll tracking top height wrappers =>
      match ver with
      | Continuous => PDFViewer.onScroll tracking top height wrappers s
      | SinglePage => s
      end
  | EvMovePageUp => PDFMerge.movePageUp ver s
  | EvMovePageDown => PDFMerge.movePageDown ver s
  | EvToggleEditMode => PDFEditor.toggleEditMode s
  | EvOverlayClick onOverlay x y => PDFEditor.onOverlayClick onOverlay x y s
  | EvRemoveRect i => PDFRedact.removeRect i s
  | EvClearAll => PDFRedact.clearAll s
  | EvAnnotClick tool onOverlay pageNum x y =>
      PDFAnnotate.annotClickHandler tool onOverlay pageNum x y s
  | EvStickyClick onOverlay pageNum x y =>
      PDFAnnotate.stickyClickHandler onOverlay pageNum x y s
  | EvEditStickyNote i text => PDFAnnotate.editStickyNote i text s
  | EvRemoveAnnotation i => PDFAnnotate.removeAnnotation i s
  | EvRemoveStickyNote i => PDFAnnotate.removeStickyNote i s
  end.

Definition handleAll `{Engine} (api : list string) (ver : Version)
           (events : list Event) (s : State) : State :=
  foldl (handle api ver) s events.

(** A scroll event is in step with the state it meets when every wrapper
    it finds carries a page number of the active document (the render
    area shows that document and no other); the listener does not check
    this.  Every other event is in step. *)
Definition inStep (s : State) (e : Event) : bool :=
  match e, PDFViewer.getActiveDoc s with
  | EvScroll _ _ _ wrappers, Some doc =>
      forallb (fun w => (1 <=? PDFViewer.wrapperPage w)
                        && (PDFViewer.wrapperPage w <=? pageCount doc))
              wrappers
  | _, _ => true
  end.

(** Every event of the run is in step with the state it meets. *)
Fixpoint runInStep `{Engine} (api : list string) (ver : Version)
         (events : list Event) (s : State) : bool :=
  match events with
  | [] => true
  | e :: rest => inStep s e && runInStep api ver rest (handle api ver s e)
  end.

(** The pages of [pages], numbered from [first] on, whose number is not
    in [pageNums]. *)
Fixpoint withoutPages (pageNums : list Z) (first : Z) (pages : list Page)
  : list Page :=
  match pages with
  | [] => []
  | p :: rest =>
      if decide (first ∈ pageNums) then withoutPages pageNums (first + 1) rest
      else p :: withoutPages pageNums (first + 1) rest
  end.

(** The zoom factors on the quarter grid: what Zoom In and Zoom Out reach
    from the initial factor 1 and from the entries of the zoom menu.  A
    multiple of 0.25 up to 4.25 is a double, and adding or subtracting
    0.25 on these is exact, so on the grid the rationals of the model are
    the doubles of the code. *)
Definition onQuarterGrid (z : Q) : Prop :=
  exists k : Z, (z == inject_Z k / 4)%Q.

(** A pending redaction rectangle is on a page and at least 5 x 5. *)
Definition rectOk (r : RedactRect) : Prop :=
  rPageNum r <> 0 /\ (5 <= rW r)%Q /\ (5 <= rH r)%Q.

(** A mark or a note is on a page. *)
Definition marksOk (a : AnnotateState) : Prop :=
  Forall (fun m => aPageNum m <> 0) (annotations a)
  /\ Forall (fun n => notePageNum n <> 0) (stickyNotes a).

(** What holds of the tools' stores in every state the events reach. *)
Definition storesOk (s : State) : Prop :=
  invariant s /\ Forall rectOk (redactRects (redact s)) /\ marksOk (annotate s).

(** A session shows a page of its document, has one thumbnail per page
    and selects pages of the document only. *)
Definition docOk (d : Doc) : Prop :=
  pageCount d = len (pdfDoc d)
  /\ 1 <= currentPage d <= pageCount d
  /\ thumbnails d = seqZ 1 (pageCount d)
  /\ forall p, p ∈ selectedPages d -> 1 <= p <= pageCount d.

Definition pagesOk (s : State) : Prop := Forall docOk (openDocs (viewer s)).

(** pdf.js opens no document without pages. *)
Definition opensNoEmptyDocument (E : Engine) : Prop :=
  forall b pdf, getDocument b = Some pdf -> pdf <> [].

(** * Properties *)

(** ** Frame lemmas: which part of the state each helper touches *)

Lemma len_nonneg {A} (l : list A) : 0 <= len l.
Proof. unfold len. lia. Qed.

Lemma len_app {A} (l r : list A) : len (l ++ r) = len l + len r.
Proof. unfold len. rewrite length_app. lia. Qed.

Lemma len_nil_iff {A} (l : list A) : len l = 0 <-> l = [].
Proof.
  unfold len. split.
  - destruct l; [reflexivity | simpl; lia].
  - intros ->. reflexivity.
Qed.

Lemma editor_updateUndoButtons s :
  editor (PDFEditor.updateUndoButtons s) = editor s.
Proof.
  unfold PDFEditor.updateUndoButtons.
  destruct (len (undoStack (editor s)) >? 0);
    match goal with |- context [if ?c then _ else _] => destruct c end;
    reflexivity.
Qed.

Lemma viewer_updateUndoButtons s :
  viewer (PDFEditor.updateUndoButtons s) = viewer s.
Proof.
  unfold PDFEditor.updateUndoButtons.
  destruct (len (undoStack (editor s)) >? 0);
    match goal with |- context [if ?c then _ else _] => destruct c end;
    reflexivity.
Qed.

Lemma engineLog_updateUndoButtons s :
  engineLog (PDFEditor.updateUndoButtons s) = engineLog s.
Proof.
  unfold PDFEditor.updateUndoButtons.
  destruct (len (undoStack (editor s)) >? 0);
    match goal with |- context [if ?c then _ else _] => destruct c end;
    reflexivity.
Qed.

Lemma redact_updateUndoButtons s :
  redact (PDFEditor.updateUndoButtons s) = redact s.
Proof.
  unfold PDFEditor.updateUndoButtons.
  destruct (len (undoStack (editor s)) >? 0);
    match goal with |- context [if ?c then _ else _] => destruct c end;
    reflexivity.
Qed.

Lemma pushUndo_undoStack a s :
  undoStack (editor (PDFEditor.pushUndo a s)) =
  if len (undoStack (editor s) ++ [a]) >? PDFEditor.MAX_UNDO
  then tail (undoStack (editor s) ++ [a])
  else undoStack (editor s) ++ [a].
Proof.
  unfold PDFEditor.pushUndo. rewrite editor_updateUndoButtons.
  cbn [with_editor editor PDFEditor.set_undoStack undoStack]. unfold push.
  destruct (len (undoStack (editor s) ++ [a]) >? PDFEditor.MAX_UNDO); reflexivity.
Qed.

Lemma pushUndo_redoStack a s :
  redoStack (editor (PDFEditor.pushUndo a s)) = [].
Proof.
  unfold PDFEditor.pushUndo. rewrite editor_updateUndoButtons. reflexivity.
Qed.

Lemma pushUndo_textBoxes a s :
  textBoxes (editor (PDFEditor.pushUndo a s)) = textBoxes (editor s)
  /\ nextBoxId (editor (PDFEditor.pushUndo a s)) = nextBoxId (editor s).
Proof.
  unfold PDFEditor.pushUndo. rewrite editor_updateUndoButtons.
  cbn [with_editor editor PDFEditor.set_undoStack PDFEditor.set_redoStack].
  destruct (len _ >? PDFEditor.MAX_UNDO); split; reflexivity.
Qed.

Lemma pushUndo_frame a s :
  viewer (PDFEditor.pushUndo a s) = viewer s
  /\ redact (PDFEditor.pushUndo a s) = redact s
  /\ engineLog (PDFEditor.pushUndo a s) = engineLog s.
Proof.
  unfold PDFEditor.pushUndo.
  rewrite viewer_updateUndoButtons, redact_updateUndoButtons,
    engineLog_updateUndoButtons.
  cbn [with_editor viewer redact engineLog].
  destruct (len _ >? PDFEditor.MAX_UNDO); repeat split; reflexivity.
Qed.

(** The top of the stack after a push is the pushed action. *)
Lemma pushUndo_pop a s :
  exists rest, pop (undoStack (editor (PDFEditor.pushUndo a s))) = Some (a, rest).
Proof.
  rewrite pushUndo_undoStack. unfold pop.
  destruct (Z.gtb_spec (len (undoStack (editor s) ++ [a])) PDFEditor.MAX_UNDO)
    as [Hgt | _].
  - destruct (undoStack (editor s)) as [|b l]; simpl.
    + unfold len, PDFEditor.MAX_UNDO in Hgt. simpl in Hgt. lia.
    + rewrite last_snoc. eexists; reflexivity.
  - rewrite last_snoc. eexists; reflexivity.
Qed.

(** ** The bounded undo stack *)

Lemma lastN_all {A} (n : nat) (l : list A) :
  (length l <= n)%nat -> lastN n l = l.
Proof.
  intros Hle. unfold lastN.
  replace (length l - n)%nat with 0%nat by lia. reflexivity.
Qed.

Lemma lastN_length {A} (n : nat) (l : list A) :
  (length (lastN n l) <= n)%nat.
Proof. unfold lastN. rewrite length_drop. lia. Qed.

Lemma lastN_drop_app {A} (n k : nat) (l r : list A) :
  (k <= length l)%nat -> (k + n <= length l + length r)%nat ->
  lastN n (drop k l ++ r) = lastN n (l ++ r).
Proof.
  intros Hk Hn. unfold lastN.
  rewrite !length_app, length_drop.
  rewrite <- (drop_app_le l r k) by exact Hk.
  rewrite drop_drop. f_equal. lia.
Qed.

Lemma lastN_app_lastN {A} (n : nat) (l r : list A) :
  lastN n (lastN n l ++ r) = lastN n (l ++ r).
Proof.
  destruct (Nat.le_gt_cases (length l) n) as [Hle | Hgt].
  - rewrite (lastN_all n l Hle). reflexivity.
  - unfold lastN at 2. apply lastN_drop_app; lia.
Qed.

Lemma pushUndo_lastN a s :
  len (undoStack (editor s)) <= PDFEditor.MAX_UNDO ->
  undoStack (editor (PDFEditor.pushUndo a s)) =
  lastN 50 (undoStack (editor s) ++ [a]).
Proof.
  unfold PDFEditor.MAX_UNDO. intros Hle. rewrite pushUndo_undoStack.
  unfold PDFEditor.MAX_UNDO, len in *.
  set (l := undoStack (editor s)) in *.
  destruct (Z.gtb_spec (Z.of_nat (length (l ++ [a]))) 50) as [Hgt | Hngt].
  - rewrite length_app in Hgt. simpl in Hgt.
    unfold lastN. rewrite length_app. simpl.
    replace (length l + 1 - 50)%nat with 1%nat by lia.
    destruct (l ++ [a]); reflexivity.
  - symmetry. apply lastN_all. lia.
Qed.

Lemma pushAll_lastN actions : forall s,
  len (undoStack (editor s)) <= PDFEditor.MAX_UNDO ->
  undoStack (editor (pushAll actions s)) =
  lastN 50 (undoStack (editor s) ++ actions).
Proof.
  induction actions as [|a rest IH]; intros s Hle.
  - simpl. rewrite app_nil_r. symmetry. apply lastN_all.
    unfold PDFEditor.MAX_UNDO, len in Hle. lia.
  - change (pushAll (a :: rest) s) with (pushAll rest (PDFEditor.pushUndo a s)).
    rewrite IH.
    + rewrite pushUndo_lastN by exact Hle.
      rewrite lastN_app_lastN, <- app_assoc. reflexivity.
    + rewrite pushUndo_lastN by exact Hle.
      pose proof (lastN_length 50 (undoStack (editor s) ++ [a])).
      unfold PDFEditor.MAX_UNDO, len. lia.
Qed.

Lemma pushAll_redoStack actions : forall s,
  actions <> [] -> redoStack (editor (pushAll actions s)) = [].
Proof.
  induction actions as [|a rest IH] using rev_ind; intros s Hne.
  - congruence.
  - unfold pushAll. rewrite foldl_app. simpl. apply pushUndo_redoStack.
Qed.

Section UndoStack.
Context `{Engine}.
Variable ver : Version.

Lemma editor_refreshDocument b k s :
  editor (stateOf (PDFViewer.refreshDocument ver b k s)) = editor s.
Proof.
  unfold PDFViewer.refreshDocument.
  destruct (PDFViewer.getActiveDoc s) as [doc|]; [|reflexivity].
  destruct (getDocument b) as [pdf|]; [|reflexivity].
  destruct ver; simpl; [reflexivity|].
  unfold PDFViewer.goToPage.
  destruct (PDFViewer.getActiveDoc _); reflexivity.
Qed.

Lemma undo_editor s :
  undoStack (editor (stateOf (PDFEditor.undo ver s))) =
    removelast (undoStack (editor s))
  /\ redoStack (editor (stateOf (PDFEditor.undo ver s))) =
       match last (undoStack (editor s)) with
       | Some a => redoStack (editor s) ++ [a]
       | None => redoStack (editor s)
       end.
Proof.
  unfold PDFEditor.undo, pop.
  destruct (last (undoStack (editor s))) as [a|] eqn:Hlast.
  - set (s1 := with_editor _ (with_editor _ s)).
    assert (Hs1 : undoStack (editor s1) = removelast (undoStack (editor s))
                  /\ redoStack (editor s1) = redoStack (editor s) ++ [a])
      by (split; reflexivity).
    destruct ((actionType a =? "delete")%string || (actionType a =? "reorder")%string).
    + destruct (prevBytes a) as [b|].
      * pose proof (editor_refreshDocument b None s1) as Hed.
        destruct (PDFViewer.refreshDocument ver b None s1) as [s2|s2];
          simpl in *; rewrite ?editor_updateUndoButtons, Hed; exact Hs1.
      * simpl. rewrite editor_updateUndoButtons. exact Hs1.
    + destruct (actionType a =? "add-text")%string.
      * destruct (actionBox a) as [box|]; simpl;
          rewrite ?editor_updateUndoButtons; exact Hs1.
      * simpl. rewrite editor_updateUndoButtons. exact Hs1.
  - simpl. apply last_None in Hlast. rewrite Hlast. split; reflexivity.
Qed.

Lemma undoN_length n : forall s,
  length (undoStack (editor (undoN ver n s))) =
  (length (undoStack (editor s)) - n)%nat.
Proof.
  induction n as [|n IH]; intros s.
  - simpl. lia.
  - unfold undoN in *. simpl.
    destruct (undo_editor (Nat.iter n (fun s => stateOf (PDFEditor.undo ver s)) s))
      as [Hu _].
    rewrite Hu, removelast_firstn_len, length_take, IH. lia.
Qed.

Lemma undo_empty s :
  undoStack (editor s) = [] -> PDFEditor.undo ver s = Returned s.
Proof. intros Hnil. unfold PDFEditor.undo, pop. rewrite Hnil. reflexivity. Qed.

End UndoStack.

(** C7.  Starting from a stack within the bound, any sequence of [pushUndo]
    calls keeps the undo stack at 50 entries or fewer: the stack is always
    the last 50 of everything pushed (the oldest entry is dropped by the
    push that would exceed the bound), and every push leaves the redo stack
    empty.  After 51 pushes on an empty stack the stack is exactly the last
    50 pushed actions, 50 undo commands empty it and a further undo finds
    nothing: the first-pushed action is out of reach. *)
Theorem pushUndo_bounded_history `{Engine} (ver : Version) (s : State)
        (actions : list UndoAction) :
  len (undoStack (editor s)) <= PDFEditor.MAX_UNDO ->
  let s' := pushAll actions s in
  len (undoStack (editor s')) <= PDFEditor.MAX_UNDO
  /\ undoStack (editor s') = lastN 50 (undoStack (editor s) ++ actions)
  /\ (forall a s0, redoStack (editor (PDFEditor.pushUndo a s0)) = [])
  /\ (forall first rest,
        undoStack (editor s) = [] -> actions = first :: rest ->
        length rest = 50%nat ->
        undoStack (editor s') = rest
        /\ undoStack (editor (undoN ver 50 s')) = []
        /\ PDFEditor.undo ver (undoN ver 50 s') = Returned (undoN ver 50 s')).
Proof.
  intros Hle s'.
  assert (Hstack : undoStack (editor s') = lastN 50 (undoStack (editor s) ++ actions))
    by (apply pushAll_lastN; exact Hle).
  assert (Hlen : (length (undoStack (editor s')) <= 50)%nat)
    by (rewrite Hstack; apply lastN_length).
  split; [unfold PDFEditor.MAX_UNDO, len; lia|].
  split; [exact Hstack|].
  split; [intros a s0; apply pushUndo_redoStack|].
  intros first rest Hnil Hact Hrest.
  assert (Hdone : undoStack (editor (undoN ver 50 s')) = []).
  { apply length_zero_iff_nil. rewrite undoN_length. lia. }
  split; [|split].
  - rewrite Hstack, Hnil, Hact. unfold lastN. simpl length. rewrite Hrest.
    replace (S 50 - 50)%nat with 1%nat by lia. reflexivity.
  - exact Hdone.
  - apply undo_empty. exact Hdone.
Qed.

(** ** Text boxes: undo and redo of an additive mark *)

Lemma editTextBox_stacks id x y text s :
  undoStack (editor (PDFEditor.editTextBox id x y text s)) = undoStack (editor s)
  /\ redoStack (editor (PDFEditor.editTextBox id x y text s)) = redoStack (editor s).
Proof. split; reflexivity. Qed.

Lemma filter_ne_not_In (id : Z) (l : list TextBox) :
  forall b, In b (filter (fun b => boxId b ≠ id) l) -> boxId b <> id.
Proof.
  intros b Hin. apply list_elem_of_In, list_elem_of_filter in Hin.
  destruct Hin as [Hne _]. exact Hne.
Qed.

Lemma undo_add_text `{Engine} (ver : Version) s a rest box :
  pop (undoStack (editor s)) = Some (a, rest) ->
  actionType a = "add-text" -> actionBox a = Some box ->
  exists s2,
    PDFEditor.undo ver s = Returned s2
    /\ textBoxes (editor s2) =
         filter (fun b => boxId b ≠ boxId box) (textBoxes (editor s))
    /\ undoStack (editor s2) = rest
    /\ redoStack (editor s2) = redoStack (editor s) ++ [a]
    /\ viewer s2 = viewer s.
Proof.
  intros Hpop Hty Hbox. unfold PDFEditor.undo.
  rewrite Hpop, Hty, Hbox. cbn [orb String.eqb Ascii.eqb Bool.eqb].
  eexists. split; [reflexivity|].
  rewrite editor_updateUndoButtons, viewer_updateUndoButtons.
  repeat split; reflexivity.
Qed.

Lemma redo_add_text s a rest box :
  pop (redoStack (editor s)) = Some (a, rest) ->
  actionType a = "add-text" -> actionBox a = Some box ->
  textBoxes (editor (PDFEditor.redo s)) = textBoxes (editor s) ++ [box]
  /\ undoStack (editor (PDFEditor.redo s)) = undoStack (editor s) ++ [a]
  /\ redoStack (editor (PDFEditor.redo s)) = rest.
Proof.
  intros Hpop Hty Hbox. unfold PDFEditor.redo.
  rewrite Hpop, Hty, Hbox. cbn [String.eqb Ascii.eqb Bool.eqb].
  rewrite editor_updateUndoButtons. repeat split; reflexivity.
Qed.

(** C8.  A text box placed by [createTextBox] (possibly moved or retyped
    afterwards), then undone and redone, is back in [textBoxes] as the copy
    recorded at creation: undo removes every box with its id, redo appends
    a box with the id, page number, x / y position and text given at
    creation. *)
Theorem redo_after_undo_restores_textBox `{Engine} (ver : Version) (s : State)
        (pageNum : Z) (x y : Q) (text : string) (fontSize : Q)
        (id' : Z) (x' y' : Q) (text' : string) :
  let '(s1, box) := PDFEditor.createTextBox pageNum x y text fontSize s in
  let s1' := PDFEditor.editTextBox id' x' y' text' s1 in
  exists s2,
    PDFEditor.undo ver s1' = Returned s2
    /\ (forall b, In b (textBoxes (editor s2)) -> boxId b <> boxId box)
    /\ textBoxes (editor (PDFEditor.redo s2)) = textBoxes (editor s2) ++ [box]
    /\ box = mkTextBox (nextBoxId (editor s)) pageNum x y 150 24 text fontSize
                       "Helvetica".
Proof.
  unfold PDFEditor.createTextBox. cbv zeta.
  set (box := mkTextBox (nextBoxId (editor s)) pageNum x y 150 24 text fontSize
                        "Helvetica").
  set (act := mkAction "add-text" (Some box) None).
  set (s0 := with_editor _ s).
  destruct (pushUndo_pop act s0) as [rest Hpop].
  set (s1 := PDFEditor.pushUndo act s0) in *.
  set (s1' := PDFEditor.editTextBox id' x' y' text' s1).
  assert (Hpop' : pop (undoStack (editor s1')) = Some (act, rest)) by exact Hpop.
  assert (Hredo : redoStack (editor s1') = [])
    by (unfold s1', s1; apply pushUndo_redoStack).
  destruct (undo_add_text ver s1' act rest box Hpop' eq_refl eq_refl)
    as (s2 & Hundo & Hboxes & _ & Hredo2 & _).
  exists s2. split; [exact Hundo|].
  split; [|split; [|reflexivity]].
  - intros b Hin. rewrite Hboxes in Hin. eapply filter_ne_not_In. exact Hin.
  - rewrite Hredo in Hredo2.
    apply (redo_add_text s2 act [] box); [|reflexivity|reflexivity].
    unfold pop. rewrite Hredo2. reflexivity.
Qed.

(** ** The workspace: findIndex, switch and close *)

Lemma findIndex_from_spec {A} (p : A -> bool) (l : list A) : forall i,
  0 <= i ->
  (findIndex_from p l i = -1 /\ Forall (fun x => p x = false) l)
  \/ (exists n x, findIndex_from p l i = i + Z.of_nat n
                 /\ l !! n = Some x /\ p x = true
                 /\ Forall (fun x => p x = false) (take n l)).
Proof.
  induction l as [|a l IH]; intros i Hi; simpl.
  - left. split; [reflexivity | constructor].
  - destruct (p a) eqn:Hpa.
    + right. exists 0%nat, a. repeat split; auto. lia.
    + destruct (IH (i + 1)) as [(Hr & Hall) | (n & x & Hr & Hx & Hpx & Hall)];
        [lia | |].
      * left. split; [exact Hr | constructor; assumption].
      * right. exists (S n), x. repeat split; auto.
        -- rewrite Hr. lia.
        -- simpl. constructor; assumption.
Qed.

Lemma findIndex_spec {A} (p : A -> bool) (l : list A) :
  (findIndex p l = -1 /\ Forall (fun x => p x = false) l)
  \/ (exists n x, findIndex p l = Z.of_nat n
                 /\ l !! n = Some x /\ p x = true
                 /\ Forall (fun x => p x = false) (take n l)).
Proof.
  unfold findIndex.
  destruct (findIndex_from_spec p l 0) as [Hnone | (n & x & Hr & Hrest)]; [lia | |].
  - left. exact Hnone.
  - right. exists n, x. split; [rewrite Hr; lia | exact Hrest].
Qed.

(** With pairwise distinct ids, looking a document up by its id finds the
    index it is stored at. *)
Lemma findIndex_docId (docs : list Doc) (n : nat) (d : Doc) :
  NoDup (docId <$> docs) -> docs !! n = Some d ->
  findIndex (fun x => docId x =? docId d) docs = Z.of_nat n.
Proof.
  intros Hnd Hd.
  destruct (findIndex_spec (fun x => docId x =? docId d) docs)
    as [(_ & Hall) | (m & x & Hr & Hx & Hpx & _)].
  - rewrite Forall_forall in Hall.
    assert (Hin : d ∈ docs) by (apply list_elem_of_lookup; eauto).
    specialize (Hall d Hin). simpl in Hall. lia.
  - rewrite Hr. f_equal.
    apply Z.eqb_eq in Hpx.
    eapply (NoDup_lookup (docId <$> docs) m n (docId d) Hnd).
    + rewrite list_lookup_fmap, Hx. simpl. f_equal. exact Hpx.
    + rewrite list_lookup_fmap, Hd. reflexivity.
Qed.

Lemma at_index_of_nat {A} (l : list A) (n : nat) :
  at_index l (Z.of_nat n) = l !! n.
Proof.
  unfold at_index. destruct (Z.leb_spec 0 (Z.of_nat n)); [|lia].
  rewrite Nat2Z.id. reflexivity.
Qed.

Lemma at_index_Some {A} (l : list A) (i : Z) (x : A) :
  at_index l i = Some x -> 0 <= i < len l /\ l !! Z.to_nat i = Some x.
Proof.
  unfold at_index, len. destruct (Z.leb_spec 0 i) as [Hi|]; [|discriminate].
  intros Hx. split; [|exact Hx].
  apply lookup_lt_Some in Hx. lia.
Qed.

Lemma at_index_in_range {A} (l : list A) (i : Z) :
  0 <= i < len l -> exists x, at_index l i = Some x.
Proof.
  unfold at_index, len. intros Hi.
  destruct (Z.leb_spec 0 i); [|lia].
  destruct (lookup_lt_is_Some_2 l (Z.to_nat i)) as [x Hx]; [lia|].
  exists x. exact Hx.
Qed.

Lemma getActiveDoc_at_index s :
  PDFViewer.getActiveDoc s = at_index (openDocs (viewer s)) (activeDocIndex (viewer s)).
Proof.
  unfold PDFViewer.getActiveDoc.
  destruct (Z.ltb_spec (activeDocIndex (viewer s)) 0) as [Hneg|Hpos]; simpl.
  - unfold at_index. destruct (Z.leb_spec 0 (activeDocIndex (viewer s))); [lia|reflexivity].
  - destruct (Z.geb_spec (activeDocIndex (viewer s)) (len (openDocs (viewer s))))
      as [Hge|Hlt]; [|reflexivity].
    unfold at_index. destruct (Z.leb_spec 0 (activeDocIndex (viewer s))); [|reflexivity].
    symmetry. apply lookup_ge_None. unfold len in Hge. lia.
Qed.

Lemma switchToDocument_openDocs id s :
  openDocs (viewer (PDFViewer.switchToDocument id s)) = openDocs (viewer s).
Proof.
  unfold PDFViewer.switchToDocument.
  destruct (findIndex _ _ =? -1); reflexivity.
Qed.

(** Switching to the id of a stored document makes its index active and
    touches nothing else. *)
Lemma switchToDocument_known s (n : nat) (d : Doc) :
  NoDup (docId <$> openDocs (viewer s)) ->
  openDocs (viewer s) !! n = Some d ->
  PDFViewer.switchToDocument (docId d) s =
  PDFViewer.setActiveDocIndex (Z.of_nat n) s.
Proof.
  intros Hnd Hd. unfold PDFViewer.switchToDocument.
  rewrite (findIndex_docId _ n d Hnd Hd).
  destruct (Z.eqb_spec (Z.of_nat n) (-1)); [lia | reflexivity].
Qed.

Lemma switchToDocument_unknown id s :
  findIndex (fun d => docId d =? id) (openDocs (viewer s)) = -1 ->
  PDFViewer.switchToDocument id s = s.
Proof.
  intros Hidx. unfold PDFViewer.switchToDocument. rewrite Hidx. reflexivity.
Qed.

Lemma NoDup_docId_delete (docs : list Doc) (n : nat) :
  NoDup (docId <$> docs) -> NoDup (docId <$> delete n docs).
Proof.
  intros Hnd. rewrite list_fmap_delete.
  eapply sublist_NoDup; [exact Hnd | apply sublist_delete].
Qed.

Lemma setButtons_frame v ids s :
  viewer (UI.setButtons v ids s) = viewer s
  /\ editor (UI.setButtons v ids s) = editor s
  /\ engineLog (UI.setButtons v ids s) = engineLog s.
Proof. repeat split; reflexivity. Qed.

(** [closeDocument] on the id of the document stored at index [n]. *)
Lemma closeDocument_known (ver : Version) s (n : nat) (d : Doc) :
  NoDup (docId <$> openDocs (viewer s)) ->
  openDocs (viewer s) !! n = Some d ->
  let docs' := delete n (openDocs (viewer s)) in
  viewer (PDFViewer.closeDocument ver (docId d) s) =
    mkViewer docs'
             (if len docs' =? 0 then -1 else Z.min (Z.of_nat n) (len docs' - 1))
             (nextDocId (viewer s))
  /\ toolbar (dom (PDFViewer.closeDocument ver (docId d) s)) =
      (if len docs' =? 0
       then foldl (UI.setDisabled true) (toolbar (dom s))
                  (PDFViewer.PDF_CLOSE_BUTTONS ver)
       else toolbar (dom s))
  /\ editor (PDFViewer.closeDocument ver (docId d) s) = editor s.
Proof.
  intros Hnd Hd docs'. unfold PDFViewer.closeDocument.
  rewrite (findIndex_docId _ n d Hnd Hd).
  destruct (Z.eqb_spec (Z.of_nat n) (-1)) as [|_]; [lia|].
  cbn [with_viewer viewer openDocs]. unfold splice1. rewrite Nat2Z.id.
  fold docs'.
  destruct (Z.eqb_spec (len docs') 0) as [Hz|Hnz].
  - repeat split; reflexivity.
  - cbn [PDFViewer.setActiveDocIndex with_viewer viewer openDocs activeDocIndex].
    fold docs'.
    pose proof (len_nonneg docs') as Hpos.
    destruct (at_index_in_range docs' (Z.min (Z.of_nat n) (len docs' - 1)))
      as [d' Hd']; [lia|].
    rewrite Hd'. apply at_index_Some in Hd'. destruct Hd' as [Hrange Hd'].
    rewrite (switchToDocument_known _ (Z.to_nat (Z.min (Z.of_nat n) (len docs' - 1))) d').
    + rewrite Z2Nat.id by lia. repeat split; reflexivity.
    + cbn [with_viewer viewer openDocs]. apply NoDup_docId_delete. exact Hnd.
    + exact Hd'.
Qed.

Lemma closeDocument_unknown (ver : Version) id s :
  findIndex (fun d => docId d =? id) (openDocs (viewer s)) = -1 ->
  PDFViewer.closeDocument ver id s = s.
Proof.
  intros Hidx. unfold PDFViewer.closeDocument. rewrite Hidx. reflexivity.
Qed.

(** Disabling a list of ids: every listed button that exists ends up
    disabled, and no button appears or disappears. *)
Lemma setDisabled_lookup v tb id b :
  UI.setDisabled v tb id !! b =
  if decide (id = b) then (fun _ => v) <$> tb !! b else tb !! b.
Proof.
  unfold UI.setDisabled. destruct (decide (id = b)) as [->|Hne].
  - destruct (tb !! b) eqn:Hb; simpl.
    + apply lookup_insert_eq.
    + exact Hb.
  - destruct (tb !! id); [apply lookup_insert_ne; exact Hne | reflexivity].
Qed.

Lemma setButtons_lookup v ids : forall tb b,
  is_Some (tb !! b) ->
  (In b ids -> foldl (UI.setDisabled v) tb ids !! b = Some v)
  /\ (tb !! b = Some v -> foldl (UI.setDisabled v) tb ids !! b = Some v)
  /\ is_Some (foldl (UI.setDisabled v) tb ids !! b).
Proof.
  induction ids as [|id ids IH]; intros tb b Hsome.
  - simpl. repeat split; [intros [] | auto | exact Hsome].
  - simpl.
    assert (Hstep : UI.setDisabled v tb id !! b =
                    if decide (id = b) then Some v else tb !! b).
    { rewrite setDisabled_lookup. destruct (decide (id = b)); [|reflexivity].
      destruct Hsome as [x ->]. reflexivity. }
    assert (Hsome' : is_Some (UI.setDisabled v tb id !! b)).
    { rewrite Hstep. destruct (decide (id = b)); [eauto | exact Hsome]. }
    destruct (IH (UI.setDisabled v tb id) b Hsome') as (Hin & Hkeep & Hdom).
    repeat split; [| |exact Hdom].
    + intros [-> | Hin']; [|auto].
      apply Hkeep. rewrite Hstep. destruct (decide (b = b)); congruence.
    + intros Hb. apply Hkeep. rewrite Hstep, Hb.
      destruct (decide (id = b)); reflexivity.
Qed.

Lemma PDF_OPEN_in_CLOSE (ver : Version) b :
  In b (PDFViewer.PDF_OPEN_BUTTONS ver) -> In b (PDFViewer.PDF_CLOSE_BUTTONS ver).
Proof.
  destruct ver; simpl; intros Hin;
    repeat (destruct Hin as [<- | Hin]; [tauto|]); destruct Hin.
Qed.

(** C5.  Closing the session stored at index [n] removes it (no session
    with its id remains); if it was the active one and sessions remain, the
    active session becomes the one now at index [n], or the last one when
    [n] is past the end; if none remains the workspace is empty (active
    index -1, no active session) and every button that opening a document
    enables is disabled. *)
Theorem closeDocument_removes_and_reassigns (ver : Version) (s : State)
        (n : nat) (d : Doc) :
  wfViewer (viewer s) ->
  openDocs (viewer s) !! n = Some d ->
  let s' := PDFViewer.closeDocument ver (docId d) s in
  let docs' := openDocs (viewer s') in
  docs' = delete n (openDocs (viewer s))
  /\ (forall d', d' ∈ docs' -> docId d' <> docId d)
  /\ (docs' <> [] -> activeDocIndex (viewer s) = Z.of_nat n ->
      activeDocIndex (viewer s') = Z.min (Z.of_nat n) (len docs' - 1)
      /\ PDFViewer.getActiveDoc s' =
         match docs' !! n with
         | Some next => Some next
         | None => last docs'
         end)
  /\ (docs' = [] ->
      activeDocIndex (viewer s') = -1
      /\ PDFViewer.getActiveDoc s' = None
      /\ forall b, In b (PDFViewer.PDF_OPEN_BUTTONS ver) ->
                   is_Some (toolbar (dom s) !! b) ->
                   toolbar (dom s') !! b = Some true).
Proof.
  intros (Hnd & _) Hd s' docs'.
  destruct (closeDocument_known ver s n d Hnd Hd) as (Hv & Htb & _).
  fold s' in Hv, Htb.
  assert (Hdocs : docs' = delete n (openDocs (viewer s)))
    by (unfold docs'; rewrite Hv; reflexivity).
  split; [exact Hdocs|].
  split; [|split].
  - intros d' Hin Heq. rewrite Hdocs in Hin.
    apply list_elem_of_lookup in Hin. destruct Hin as [j Hj].
    rewrite list_lookup_delete in Hj.
    destruct (decide (j < n)%nat) as [Hlt | Hge].
    + assert (j = n); [|lia].
      eapply (NoDup_lookup _ j n (docId d) Hnd);
        rewrite list_lookup_fmap; [rewrite Hj | rewrite Hd]; simpl; congruence.
    + assert (S j = n); [|lia].
      eapply (NoDup_lookup _ (S j) n (docId d) Hnd);
        rewrite list_lookup_fmap; [rewrite Hj | rewrite Hd]; simpl; congruence.
  - intros Hne _.
    assert (Hlen : len docs' <> 0) by (rewrite len_nil_iff; exact Hne).
    assert (Hact : activeDocIndex (viewer s') = Z.min (Z.of_nat n) (len docs' - 1)).
    { rewrite Hv. cbn [activeDocIndex]. rewrite <- Hdocs.
      destruct (Z.eqb_spec (len docs') 0); [contradiction | reflexivity]. }
    split; [exact Hact|].
    rewrite getActiveDoc_at_index. fold docs'. rewrite Hact.
    pose proof (len_nonneg docs') as Hpos. unfold len in *.
    destruct (docs' !! n) as [next|] eqn:Hnext.
    + apply lookup_lt_Some in Hnext as Hlt.
      rewrite Z.min_l by lia. rewrite at_index_of_nat. exact Hnext.
    + apply lookup_ge_None in Hnext.
      rewrite Z.min_r by lia. rewrite last_lookup.
      replace (Z.of_nat (length docs') - 1) with (Z.of_nat (pred (length docs'))) by lia.
      apply at_index_of_nat.
  - intros Hnil.
    assert (Hlen : len docs' = 0) by (rewrite Hnil; reflexivity).
    assert (Hact : activeDocIndex (viewer s') = -1).
    { rewrite Hv. cbn [activeDocIndex]. rewrite <- Hdocs, Hlen. reflexivity. }
    split; [exact Hact|]. split.
    + unfold PDFViewer.getActiveDoc. rewrite Hact. reflexivity.
    + intros b Hin Hsome. rewrite Htb, <- Hdocs, Hlen. simpl Z.eqb. cbn iota.
      destruct (setButtons_lookup true (PDFViewer.PDF_CLOSE_BUTTONS ver)
                                  (toolbar (dom s)) b Hsome) as (Hlisted & _).
      apply Hlisted, PDF_OPEN_in_CLOSE. exact Hin.
Qed.

(** C10.  With at least two sessions open, closing the session at index
    [n] always makes index [min n (remaining - 1)] active, whichever
    session was active before; so when the active session lies more than
    one tab to the right of the closed one it stays open but stops being
    the active session. *)
Theorem closeDocument_active_ignores_previous (ver : Version) (s : State)
        (n : nat) (d : Doc) :
  wfViewer (viewer s) ->
  openDocs (viewer s) !! n = Some d ->
  2 <= len (openDocs (viewer s)) ->
  let s' := PDFViewer.closeDocument ver (docId d) s in
  let remaining := len (openDocs (viewer s')) in
  remaining = len (openDocs (viewer s)) - 1
  /\ activeDocIndex (viewer s') = Z.min (Z.of_nat n) (remaining - 1)
  /\ (forall a, PDFViewer.getActiveDoc s = Some a ->
                Z.of_nat n + 1 < activeDocIndex (viewer s) ->
                a ∈ openDocs (viewer s')
                /\ PDFViewer.getActiveDoc s' <> Some a).
Proof.
  intros (Hnd & _) Hd Htwo s' remaining.
  destruct (closeDocument_known ver s n d Hnd Hd) as (Hv & _ & _).
  fold s' in Hv.
  assert (Hdocs : openDocs (viewer s') = delete n (openDocs (viewer s)))
    by (rewrite Hv; reflexivity).
  assert (Hrem : remaining = len (openDocs (viewer s)) - 1).
  { unfold remaining. rewrite Hdocs. unfold len. rewrite length_delete.
    - apply lookup_lt_Some in Hd. lia.
    - eauto. }
  assert (Hact : activeDocIndex (viewer s') = Z.min (Z.of_nat n) (remaining - 1)).
  { rewrite Hv. cbn [activeDocIndex].
    unfold remaining. rewrite Hdocs.
    destruct (Z.eqb_spec (len (delete n (openDocs (viewer s)))) 0) as [Hz|]; [|reflexivity].
    rewrite <- Hdocs in Hz. fold remaining in Hz. lia. }
  split; [exact Hrem|]. split; [exact Hact|].
  intros a Ha Hright.
  rewrite getActiveDoc_at_index in Ha. apply at_index_Some in Ha.
  destruct Ha as [Hrange Ha].
  set (act := Z.to_nat (activeDocIndex (viewer s))) in *.
  assert (Hact' : (S n < act)%nat) by (unfold act; lia).
  split.
  - rewrite Hdocs. apply list_elem_of_lookup. exists (pred act).
    rewrite list_lookup_delete_ge by lia.
    replace (S (pred act)) with act by lia. exact Ha.
  - rewrite getActiveDoc_at_index, Hact, Hdocs.
    rewrite Z.min_l by lia. rewrite at_index_of_nat.
    rewrite list_lookup_delete_ge by lia.
    intros Hsame.
    assert (S n = act); [|lia].
    eapply (NoDup_lookup _ (S n) act (docId a) Hnd);
      rewrite list_lookup_fmap; [rewrite Hsame | rewrite Ha]; reflexivity.
Qed.

(** C9.  From a session [d] that is active, switching to another open
    session [b] and back leaves the workspace as it was: [d] is active
    again with the same current page, zoom and selected pages, and no
    session changed while [b] was active. *)
Theorem switch_away_and_back (s : State) (d other : Doc) :
  wfViewer (viewer s) ->
  PDFViewer.getActiveDoc s = Some d ->
  other ∈ openDocs (viewer s) ->
  docId other <> docId d ->
  let s1 := PDFViewer.switchToDocument (docId other) s in
  let s2 := PDFViewer.switchToDocument (docId d) s1 in
  PDFViewer.getActiveDoc s1 = Some other
  /\ openDocs (viewer s1) = openDocs (viewer s)
  /\ s2 = s
  /\ exists d2, PDFViewer.getActiveDoc s2 = Some d2
                /\ currentPage d2 = currentPage d
                /\ zoom d2 = zoom d
                /\ selectedPages d2 = selectedPages d.
Proof.
  intros (Hnd & _) Hd Hother Hne s1 s2.
  apply list_elem_of_lookup in Hother. destruct Hother as [j Hj].
  rewrite getActiveDoc_at_index in Hd.
  apply at_index_Some in Hd as Hd'. destruct Hd' as [Hrange Hdn].
  assert (Hs1 : s1 = PDFViewer.setActiveDocIndex (Z.of_nat j) s)
    by (apply switchToDocument_known; assumption).
  assert (Hs2 : s2 = s).
  { unfold s2.
    rewrite (switchToDocument_known s1 (Z.to_nat (activeDocIndex (viewer s))) d).
    - rewrite Hs1, Z2Nat.id by lia.
      destruct s as [[docs act next] e r a m l]; reflexivity.
    - rewrite Hs1. exact Hnd.
    - rewrite Hs1. exact Hdn. }
  split; [|split; [|split]].
  - rewrite getActiveDoc_at_index, Hs1.
    cbn [PDFViewer.setActiveDocIndex with_viewer viewer openDocs activeDocIndex].
    rewrite at_index_of_nat. exact Hj.
  - rewrite Hs1. reflexivity.
  - exact Hs2.
  - exists d. rewrite Hs2, getActiveDoc_at_index. auto.
Qed.

(** ** Deleting pages *)

Lemma showDialog_frame d s :
  viewer (UI.showDialog d s) = viewer s
  /\ editor (UI.showDialog d s) = editor s
  /\ engineLog (UI.showDialog d s) = engineLog s
  /\ PDFViewer.getActiveDoc (UI.showDialog d s) = PDFViewer.getActiveDoc s.
Proof. repeat split; reflexivity. Qed.

(** C6.  With a document open, a request to delete [pageNums] with at
    least as many entries as the document has pages only shows the
    'Cannot delete all pages.' dialog: no engine call is made, and the
    sessions (page count, bytes) and the undo stack are untouched.  The
    delete-page command of the application rejects a selection of that
    size in the same way, before asking for confirmation. *)
Theorem deletePages_rejects_full_selection `{Engine} (ver : Version)
        (s : State) (doc : Doc) (pageNums : list Z) :
  PDFViewer.getActiveDoc s = Some doc ->
  len pageNums >= pageCount doc ->
  let s' := PDFEditor.deletePages ver pageNums s in
  s' = UI.showDialog CannotDeleteAll s
  /\ engineLog s' = engineLog s
  /\ viewer s' = viewer s
  /\ editor s' = editor s
  /\ (exists doc', PDFViewer.getActiveDoc s' = Some doc'
                   /\ pageCount doc' = pageCount doc
                   /\ pdfBytes doc' = pdfBytes doc)
  /\ (len (PDFViewer.getSelectedPages s) >= pageCount doc ->
      forall confirmed,
        App.deletePage ver confirmed s = UI.showDialog CannotDeleteAll s).
Proof.
  intros Hdoc Hsize s'.
  assert (Hs' : s' = UI.showDialog CannotDeleteAll s).
  { unfold s', PDFEditor.deletePages. rewrite Hdoc.
    destruct (Z.eqb_spec (len pageNums) 0) as [Hz|Hnz].
    - change (len [currentPage doc]) with 1.
      destruct (Z.geb_spec 1 (pageCount doc)); [reflexivity | lia].
    - destruct (Z.geb_spec (len pageNums) (pageCount doc)); [reflexivity | lia]. }
  split; [exact Hs'|]. rewrite Hs'.
  repeat split.
  - exists doc. change (PDFViewer.getActiveDoc (UI.showDialog CannotDeleteAll s))
      with (PDFViewer.getActiveDoc s). auto.
  - intros Hsel confirmed. unfold App.deletePage. rewrite Hdoc.
    destruct (Z.gtb_spec (len (PDFViewer.getSelectedPages s)) 0) as [Hpos|Hnone].
    + destruct (Z.geb_spec (len (PDFViewer.getSelectedPages s)) (pageCount doc));
        [reflexivity | lia].
    + change (len [currentPage doc]) with 1.
      pose proof (len_nonneg (PDFViewer.getSelectedPages s)).
      destruct (Z.geb_spec 1 (pageCount doc)); [reflexivity | lia].
Qed.

(** ** Zoom *)

Lemma len_mutate_at {A} (f : A -> A) (l : list A) (i : Z) :
  len (mutate_at f l i) = len l.
Proof.
  unfold mutate_at, len. destruct (0 <=? i); [|reflexivity].
  rewrite length_alter. reflexivity.
Qed.

Lemma at_index_mutate_at {A} (f : A -> A) (l : list A) (i : Z) :
  at_index (mutate_at f l i) i = f <$> at_index l i.
Proof.
  unfold mutate_at, at_index. destruct (0 <=? i); [|reflexivity].
  apply list_lookup_alter_eq.
Qed.

Lemma Forall_mutate_at {A} (P : A -> Prop) (f : A -> A) (l : list A) (i : Z) :
  (forall x, P x -> P (f x)) -> Forall P l -> Forall P (mutate_at f l i).
Proof.
  intros Hf Hl. unfold mutate_at. destruct (0 <=? i); [|exact Hl].
  apply Forall_alter; auto.
Qed.

Lemma getActiveDoc_updateActiveDoc f s :
  PDFViewer.getActiveDoc (PDFViewer.updateActiveDoc f s) =
  f <$> PDFViewer.getActiveDoc s.
Proof.
  rewrite !getActiveDoc_at_index.
  cbn [PDFViewer.updateActiveDoc with_viewer viewer openDocs activeDocIndex].
  apply at_index_mutate_at.
Qed.

Lemma openDocs_updateActiveDoc f s :
  openDocs (viewer (PDFViewer.updateActiveDoc f s)) =
  mutate_at f (openDocs (viewer s)) (activeDocIndex (viewer s)).
Proof. reflexivity. Qed.

Lemma goToPage_zoom (P : Q -> Prop) page s :
  Forall (fun d => P (zoom d)) (openDocs (viewer s)) ->
  Forall (fun d => P (zoom d)) (openDocs (viewer (PDFViewer.goToPage page s))).
Proof.
  intros Hall. unfold PDFViewer.goToPage.
  destruct (PDFViewer.getActiveDoc s); [|exact Hall].
  rewrite openDocs_updateActiveDoc. apply Forall_mutate_at; auto.
Qed.

Lemma afterZoom_zoom (P : Q -> Prop) ver page s :
  Forall (fun d => P (zoom d)) (openDocs (viewer s)) ->
  Forall (fun d => P (zoom d)) (openDocs (viewer (PDFViewer.afterZoom ver page s))).
Proof. destruct ver; simpl; [auto | apply goToPage_zoom]. Qed.

Lemma afterZoom_active_zoom ver page s :
  zoom <$> PDFViewer.getActiveDoc (PDFViewer.afterZoom ver page s) =
  zoom <$> PDFViewer.getActiveDoc s.
Proof.
  destruct ver; simpl; [reflexivity|].
  unfold PDFViewer.goToPage.
  destruct (PDFViewer.getActiveDoc s) as [doc|] eqn:Hdoc; [|rewrite Hdoc; reflexivity].
  rewrite getActiveDoc_updateActiveDoc, Hdoc. reflexivity.
Qed.

(** Assigning [z] to the zoom of the active document. *)
Lemma set_zoom_all (P : Q -> Prop) z s :
  (forall doc, PDFViewer.getActiveDoc s = Some doc -> P z) ->
  Forall (fun d => P (zoom d)) (openDocs (viewer s)) ->
  Forall (fun d => P (zoom d))
         (openDocs (viewer (PDFViewer.updateActiveDoc (set_zoom z) s))).
Proof.
  intros Hz Hall. rewrite openDocs_updateActiveDoc.
  rewrite getActiveDoc_at_index in Hz.
  unfold mutate_at, at_index in *.
  destruct (0 <=? activeDocIndex (viewer s)); [|exact Hall].
  apply Forall_alter; [exact Hall|].
  intros x Hx _. simpl. eapply Hz. exact Hx.
Qed.

Lemma zoomIn_in_range z : zoomInRange z -> zoomInRange (Qmin 4 (z + (1 # 4))).
Proof.
  intros [Hlo Hhi]. split.
  - apply Q.min_glb; [discriminate|].
    apply Qle_trans with z; [exact Hlo|].
    rewrite <- (Qplus_0_r z) at 1. apply Qplus_le_r. discriminate.
  - apply Q.le_min_l.
Qed.

Lemma zoomOut_in_range z : zoomInRange z -> zoomInRange (Qmax (1 # 4) (z - (1 # 4))).
Proof.
  intros [Hlo Hhi]. split.
  - apply Q.le_max_l.
  - apply Q.max_lub; [discriminate|].
    apply Qle_trans with z; [|exact Hhi].
    rewrite <- (Qplus_0_r z) at 2. unfold Qminus. apply Qplus_le_r. discriminate.
Qed.

Lemma steppingOp_in_range ver op s :
  steppingOp op ->
  Forall (fun d => zoomInRange (zoom d)) (openDocs (viewer s)) ->
  Forall (fun d => zoomInRange (zoom d)) (openDocs (viewer (runZoomOp ver s op))).
Proof.
  intros Hop Hall.
  assert (Hactive : forall doc, PDFViewer.getActiveDoc s = Some doc ->
                                zoomInRange (zoom doc)).
  { intros doc Hdoc. rewrite getActiveDoc_at_index in Hdoc.
    apply at_index_Some in Hdoc. destruct Hdoc as [_ Hdoc].
    rewrite Forall_forall in Hall. apply Hall.
    apply list_elem_of_lookup. eauto. }
  destruct op as [| | [|v]]; simpl in *.
  - unfold PDFViewer.zoomIn.
    destruct (PDFViewer.getActiveDoc s) as [doc|] eqn:Hdoc; [|exact Hall].
    apply afterZoom_zoom, set_zoom_all; [|exact Hall].
    intros _ _. apply zoomIn_in_range. auto.
  - unfold PDFViewer.zoomOut.
    destruct (PDFViewer.getActiveDoc s) as [doc|] eqn:Hdoc; [|exact Hall].
    apply afterZoom_zoom, set_zoom_all; [|exact Hall].
    intros _ _. apply zoomOut_in_range. auto.
  - contradiction.
  - unfold PDFViewer.setZoom.
    destruct (PDFViewer.getActiveDoc s) as [doc|] eqn:Hdoc; [|exact Hall].
    apply afterZoom_zoom, set_zoom_all; [|exact Hall].
    intros _ _. exact Hop.
Qed.

Lemma setZoom_value_assigns (ver : Version) v s :
  zoom <$> PDFViewer.getActiveDoc
             (PDFViewer.setZoom ver (PDFViewer.ZoomValue v) s) =
  (fun _ => v) <$> PDFViewer.getActiveDoc s.
Proof.
  unfold PDFViewer.setZoom.
  destruct (PDFViewer.getActiveDoc s) as [doc|] eqn:Hdoc.
  - rewrite afterZoom_active_zoom, getActiveDoc_updateActiveDoc, Hdoc.
    reflexivity.
  - rewrite Hdoc. reflexivity.
Qed.

Lemma setZoom_fit_assigns (ver : Version) s doc page :
  PDFViewer.getActiveDoc s = Some doc ->
  at_index (pdfDoc doc) (currentPage doc - 1) = Some page ->
  zoom <$> PDFViewer.getActiveDoc (PDFViewer.setZoom ver PDFViewer.Fit s) =
  Some (Qmin (inject_Z (clientWidth (dom s) - 40) / pageWidth page)
             (inject_Z (clientHeight (dom s) - 40) / pageHeight page)).
Proof.
  intros Hdoc Hpage. unfold PDFViewer.setZoom. rewrite Hdoc, Hpage.
  rewrite afterZoom_active_zoom, getActiveDoc_updateActiveDoc, Hdoc.
  reflexivity.
Qed.

(** C2, as the code has it.  From sessions whose zoom lies in [0.25, 4.0]
    (a newly opened one has zoom 1), every sequence of zoomIn, zoomOut and
    setZoom with a numeric value inside the interval keeps every session's
    zoom in the interval; setZoom itself stores what it is given without
    clamping: the numeric value, or for 'fit' the smaller of the two
    viewport-to-page ratios. *)
Theorem zoom_steps_stay_in_range (ver : Version) (ops : list ZoomOp) (s : State) :
  Forall steppingOp ops ->
  Forall (fun d => zoomInRange (zoom d)) (openDocs (viewer s)) ->
  Forall (fun d => zoomInRange (zoom d))
         (openDocs (viewer (runZoomOps ver ops s)))
  /\ (forall v,
        zoom <$> PDFViewer.getActiveDoc
                   (PDFViewer.setZoom ver (PDFViewer.ZoomValue v) s) =
        (fun _ => v) <$> PDFViewer.getActiveDoc s)
  /\ (forall doc page,
        PDFViewer.getActiveDoc s = Some doc ->
        at_index (pdfDoc doc) (currentPage doc - 1) = Some page ->
        zoom <$> PDFViewer.getActiveDoc (PDFViewer.setZoom ver PDFViewer.Fit s) =
        Some (Qmin (inject_Z (clientWidth (dom s) - 40) / pageWidth page)
                   (inject_Z (clientHeight (dom s) - 40) / pageHeight page))).
Proof.
  intros Hops Hall. split; [|split].
  - revert s Hall. induction Hops as [|op ops Hop _ IH]; intros s Hall.
    + exact Hall.
    + simpl. apply IH. apply steppingOp_in_range; assumption.
  - intros v. apply setZoom_value_assigns.
  - intros doc page. apply setZoom_fit_assigns.
Qed.

(** ** The redaction and annotation commit loops *)

Lemma mutate_at_lookup {A} (f : A -> A) (l : list A) (i : Z) (n : nat) (x : A) :
  l !! n = Some x ->
  mutate_at f l i !! n = Some (if i =? Z.of_nat n then f x else x).
Proof.
  intros Hx. unfold mutate_at.
  destruct (Z.leb_spec 0 i) as [Hi|Hi].
  - destruct (Z.eqb_spec i (Z.of_nat n)) as [->|Hne].
    + rewrite Nat2Z.id, list_lookup_alter_eq, Hx. reflexivity.
    + rewrite list_lookup_alter_ne by lia. exact Hx.
  - destruct (Z.eqb_spec i (Z.of_nat n)); [lia | exact Hx].
Qed.

Lemma at_index_lookup {A} (l : list A) (n : nat) (x : A) :
  l !! n = Some x -> at_index l (Z.of_nat n) = Some x.
Proof. intros Hx. rewrite at_index_of_nat. exact Hx. Qed.

(** One redaction rectangle: the page it names gets the rectangle drawn
    last, every other page is unchanged. *)
Lemma drawRedaction_lookup zoom pages r (n : nat) p :
  pages !! n = Some p ->
  PDFRedact.drawRedaction zoom pages r !! n =
  Some (if rPageNum r - 1 =? Z.of_nat n
        then draw (PDFRedact.redactOp zoom (pageHeight p) r) p else p).
Proof.
  intros Hp. unfold PDFRedact.drawRedaction.
  destruct (Z.eqb_spec (rPageNum r - 1) (Z.of_nat n)) as [Heq|Hne].
  - rewrite Heq, (at_index_lookup _ _ _ Hp).
    rewrite (mutate_at_lookup _ _ _ n p Hp), Z.eqb_refl. reflexivity.
  - destruct (at_index pages (rPageNum r - 1)) as [page|]; [|exact Hp].
    rewrite (mutate_at_lookup _ _ _ n p Hp).
    destruct (Z.eqb_spec (rPageNum r - 1) (Z.of_nat n)); [contradiction | reflexivity].
Qed.

(** The whole loop: page [n + 1] receives, after what it already held and
    in the order of [redactRects], one rectangle per mark placed on it,
    each computed from that mark alone. *)
Lemma drawRedactions_content zoom rects : forall pages (n : nat) p,
  pages !! n = Some p ->
  exists p',
    PDFRedact.drawRedactions zoom rects pages !! n = Some p'
    /\ pageHeight p' = pageHeight p
    /\ content p' =
       content p ++
       map (PDFRedact.redactOp zoom (pageHeight p))
           (filter (fun r => rPageNum r - 1 = Z.of_nat n) rects).
Proof.
  induction rects as [|r rects IH]; intros pages n p Hp.
  - exists p. simpl. rewrite app_nil_r. auto.
  - unfold PDFRedact.drawRedactions. simpl foldl.
    pose proof (drawRedaction_lookup zoom pages r n p Hp) as Hstep.
    destruct (IH _ _ _ Hstep) as (p' & Hp' & Hh & Hc).
    exists p'. split; [exact Hp'|].
    rewrite filter_cons.
    destruct (Z.eqb_spec (rPageNum r - 1) (Z.of_nat n)) as [Heq|Hne].
    + rewrite decide_True by exact Heq.
      simpl in Hh, Hc. split; [exact Hh|].
      rewrite Hc. unfold push. rewrite <- app_assoc. reflexivity.
    + rewrite decide_False by exact Hne. auto.
Qed.

Lemma drawAnnotation_highlight zoom pages a (n : nat) p :
  pages !! n = Some p -> aType a = "highlight" -> aPageNum a - 1 = Z.of_nat n ->
  PDFAnnotate.drawAnnotation zoom pages a !! n =
  Some (draw (DrawRectangle (aX a / zoom)
                            (pageHeight p - (aY a / zoom) - (aH a / zoom))
                            (aW a / zoom) (aH a / zoom)
                            (rgb 1 1 0) (Some (4 # 10))) p).
Proof.
  intros Hp Hty Hpage. unfold PDFAnnotate.drawAnnotation.
  rewrite Hpage, (at_index_lookup _ _ _ Hp), Hty.
  cbn [String.eqb Ascii.eqb Bool.eqb].
  rewrite (mutate_at_lookup _ _ _ n p Hp), Z.eqb_refl. reflexivity.
Qed.

Lemma drawAnnotation_underline zoom pages a (n : nat) p :
  pages !! n = Some p -> aType a = "underline" -> aPageNum a - 1 = Z.of_nat n ->
  PDFAnnotate.drawAnnotation zoom pages a !! n =
  Some (draw (DrawLine (aX a / zoom) (pageHeight p - (aY a / zoom))
                       ((aX a + aW a) / zoom) (pageHeight p - (aY a / zoom))
                       1 (rgb 1 0 0)) p).
Proof.
  intros Hp Hty Hpage. unfold PDFAnnotate.drawAnnotation.
  rewrite Hpage, (at_index_lookup _ _ _ Hp), Hty.
  cbn [String.eqb Ascii.eqb Bool.eqb].
  rewrite (mutate_at_lookup _ _ _ n p Hp), Z.eqb_refl. reflexivity.
Qed.

Lemma rectOf_redactOps zoom height (rects : list RedactRect) :
  omap rectOf (map (PDFRedact.redactOp zoom height) rects) =
  map (fun r => spec_toDocumentSpace (rX r) (rY r) (rW r) (rH r) zoom height) rects.
Proof.
  induction rects as [|r rects IH]; [reflexivity|].
  change (spec_toDocumentSpace (rX r) (rY r) (rW r) (rH r) zoom height
            :: omap rectOf (map (PDFRedact.redactOp zoom height) rects) =
          spec_toDocumentSpace (rX r) (rY r) (rW r) (rH r) zoom height
            :: map (fun r => spec_toDocumentSpace (rX r) (rY r) (rW r) (rH r)
                                                  zoom height) rects).
  rewrite IH. reflexivity.
Qed.

(** C4, as the code has it.  For a redaction rectangle and for a highlight
    mark with screen rectangle (x, y, w, h), placed on an existing page,
    at every zoom in [0.25, 4.0] the commit draws on that page the
    rectangle [toDocumentSpace] of the spec gives: x / zoom,
    pageHeight - y / zoom - h / zoom, w / zoom, h / zoom; the redaction loop
    does so for each of its marks separately, in their order.  An underline
    mark is committed as a line of thickness 1 from
    (x / zoom, pageHeight - y / zoom) to ((x + w) / zoom, pageHeight - y / zoom). *)
Theorem commit_transform_rectangles (zoom : Q) (pages : list Page)
        (n : nat) (p : Page) :
  zoomInRange zoom ->
  pages !! n = Some p ->
  (forall r, rPageNum r = Z.of_nat n + 1 ->
     exists op,
       PDFRedact.drawRedaction zoom pages r !! n = Some (draw op p)
       /\ rectOf op =
          Some (spec_toDocumentSpace (rX r) (rY r) (rW r) (rH r) zoom (pageHeight p)))
  /\ (forall rects,
     exists p',
       PDFRedact.drawRedactions zoom rects pages !! n = Some p'
       /\ omap rectOf (content p') =
          omap rectOf (content p) ++
          map (fun r => spec_toDocumentSpace (rX r) (rY r) (rW r) (rH r)
                                             zoom (pageHeight p))
              (filter (fun r => rPageNum r - 1 = Z.of_nat n) rects))
  /\ (forall a, aType a = "highlight" -> aPageNum a = Z.of_nat n + 1 ->
     exists op,
       PDFAnnotate.drawAnnotation zoom pages a !! n = Some (draw op p)
       /\ rectOf op =
          Some (spec_toDocumentSpace (aX a) (aY a) (aW a) (aH a) zoom (pageHeight p)))
  /\ (forall a, aType a = "underline" -> aPageNum a = Z.of_nat n + 1 ->
     PDFAnnotate.drawAnnotation zoom pages a !! n =
       Some (draw (DrawLine (aX a / zoom) (pageHeight p - aY a / zoom)
                            ((aX a + aW a) / zoom) (pageHeight p - aY a / zoom)
                            1 (rgb 1 0 0)) p)).
Proof.
  intros _ Hp. split; [|split; [|split]].
  - intros r Hpage. eexists. split.
    + rewrite (drawRedaction_lookup zoom pages r n p Hp).
      replace (rPageNum r - 1) with (Z.of_nat n) by lia.
      rewrite Z.eqb_refl. reflexivity.
    + reflexivity.
  - intros rects.
    destruct (drawRedactions_content zoom rects pages n p Hp) as (p' & Hp' & _ & Hc).
    exists p'. split; [exact Hp'|].
    rewrite Hc, omap_app, rectOf_redactOps. reflexivity.
  - intros a Hty Hpage. eexists. split.
    + apply drawAnnotation_highlight; [exact Hp | exact Hty | lia].
    + reflexivity.
  - intros a Hty Hpage.
    apply drawAnnotation_underline; [exact Hp | exact Hty | lia].
Qed.

(** ** Opening a document, committing a redaction, undoing it *)

Lemma getActiveDoc_viewer s s' :
  viewer s = viewer s' -> PDFViewer.getActiveDoc s = PDFViewer.getActiveDoc s'.
Proof. intros Hv. unfold PDFViewer.getActiveDoc. rewrite Hv. reflexivity. Qed.

Lemma at_index_push_last {A} (l : list A) (x : A) :
  at_index (push l x) (len (push l x) - 1) = Some x.
Proof.
  unfold push, len. rewrite length_app. simpl.
  replace (Z.of_nat (length l + 1) - 1) with (Z.of_nat (length l)) by lia.
  rewrite at_index_of_nat. apply list_lookup_middle. reflexivity.
Qed.

Section Commit.
Context `{Engine}.
Variable ver : Version.

Lemma loadPDF_ok b name s pdf :
  getDocument b = Some pdf ->
  PDFViewer.getActiveDoc (PDFViewer.loadPDF ver b name s) =
    Some (mkDoc (nextDocId (viewer s)) name pdf b (len pdf) 1 1
                (seqZ 1 (len pdf)) ∅)
  /\ editor (PDFViewer.loadPDF ver b name s) = editor s
  /\ redact (PDFViewer.loadPDF ver b name s) = redact s
  /\ engineLog (PDFViewer.loadPDF ver b name s) =
     engineLog s ++ [CallGetDocument b].
Proof.
  intros Hget. unfold PDFViewer.loadPDF. rewrite Hget.
  split; [|repeat split; reflexivity].
  match goal with
  | |- PDFViewer.getActiveDoc (UI.enableToolbarButtons _ ?t) = _ =>
      rewrite (getActiveDoc_viewer _ t) by reflexivity
  end.
  unfold PDFViewer.generateThumbnails.
  rewrite getActiveDoc_updateActiveDoc, getActiveDoc_at_index.
  cbn [with_viewer viewer logCall openDocs activeDocIndex].
  rewrite at_index_push_last. reflexivity.
Qed.

(** A zoom command changes neither the bytes of the active session nor
    anything outside the viewer. *)
Lemma afterZoom_frame page s :
  pdfBytes <$> PDFViewer.getActiveDoc (PDFViewer.afterZoom ver page s) =
    pdfBytes <$> PDFViewer.getActiveDoc s
  /\ editor (PDFViewer.afterZoom ver page s) = editor s
  /\ redact (PDFViewer.afterZoom ver page s) = redact s
  /\ engineLog (PDFViewer.afterZoom ver page s) = engineLog s.
Proof.
  destruct ver; simpl; [repeat split; reflexivity|].
  unfold PDFViewer.goToPage.
  destruct (PDFViewer.getActiveDoc s) as [doc|] eqn:Hdoc.
  - rewrite getActiveDoc_updateActiveDoc, Hdoc. repeat split; reflexivity.
  - rewrite Hdoc. repeat split; reflexivity.
Qed.

Lemma setZoom_value_frame v s :
  pdfBytes <$> PDFViewer.getActiveDoc (PDFViewer.setZoom ver (PDFViewer.ZoomValue v) s) =
    pdfBytes <$> PDFViewer.getActiveDoc s
  /\ editor (PDFViewer.setZoom ver (PDFViewer.ZoomValue v) s) = editor s
  /\ redact (PDFViewer.setZoom ver (PDFViewer.ZoomValue v) s) = redact s
  /\ engineLog (PDFViewer.setZoom ver (PDFViewer.ZoomValue v) s) = engineLog s.
Proof.
  unfold PDFViewer.setZoom.
  destruct (PDFViewer.getActiveDoc s) as [doc|] eqn:Hdoc.
  - destruct (afterZoom_frame (currentPage doc)
                (PDFViewer.updateActiveDoc (set_zoom v) s)) as (Hb & He & Hr & Hl).
    rewrite Hb, He, Hr, Hl, getActiveDoc_updateActiveDoc, Hdoc.
    repeat split; reflexivity.
  - rewrite Hdoc. repeat split; reflexivity.
Qed.

(** [refreshDocument] with bytes pdf.js accepts: the active session gets
    exactly these bytes. *)
Lemma refreshDocument_ok b k s doc pdf :
  PDFViewer.getActiveDoc s = Some doc ->
  getDocument b = Some pdf ->
  exists s',
    PDFViewer.refreshDocument ver b k s = Returned s'
    /\ (exists doc', PDFViewer.getActiveDoc s' = Some doc'
                     /\ pdfBytes doc' = b /\ pageCount doc' = len pdf
                     /\ zoom doc' = zoom doc /\ docId doc' = docId doc)
    /\ editor s' = editor s
    /\ redact s' = redact s
    /\ engineLog s' = engineLog s ++ [CallGetDocument b].
Proof.
  intros Hdoc Hget. unfold PDFViewer.refreshDocument. rewrite Hdoc, Hget.
  set (page := match k with
               | Some k0 => if k0 =? 0 then currentPage doc else k0
               | None => currentPage doc
               end).
  set (s1 := PDFViewer.generateThumbnails _).
  assert (Hs1 : PDFViewer.getActiveDoc s1 =
                Some (set_thumbnails (seqZ 1 (len pdf))
                        (mkDoc (docId doc) (docName doc) pdf b (len pdf)
                               (Z.min page (len pdf)) (zoom doc)
                               (thumbnails doc) ∅))).
  { unfold s1, PDFViewer.generateThumbnails.
    rewrite !getActiveDoc_updateActiveDoc.
    rewrite (getActiveDoc_viewer _ s) by reflexivity.
    rewrite Hdoc. reflexivity. }
  destruct ver.
  - exists s1. split; [reflexivity|]. split; [|repeat split; reflexivity].
    eexists. split; [exact Hs1|]. repeat split; reflexivity.
  - eexists. split; [reflexivity|].
    unfold PDFViewer.goToPage. rewrite Hs1.
    split; [|repeat split; reflexivity].
    eexists. split.
    + rewrite getActiveDoc_updateActiveDoc, Hs1. reflexivity.
    + repeat split; reflexivity.
Qed.

Lemma refreshDocument_inactive b k s :
  PDFViewer.getActiveDoc s = None ->
  PDFViewer.refreshDocument ver b k s = Returned s.
Proof. intros Hdoc. unfold PDFViewer.refreshDocument. rewrite Hdoc. reflexivity. Qed.

(** Undo of an action whose type is none of 'delete', 'reorder',
    'add-text': only the stacks and the two buttons change. *)
Lemma undo_other_type s a rest :
  pop (undoStack (editor s)) = Some (a, rest) ->
  (actionType a =? "delete")%string = false ->
  (actionType a =? "reorder")%string = false ->
  (actionType a =? "add-text")%string = false ->
  exists s2,
    PDFEditor.undo ver s = Returned s2
    /\ viewer s2 = viewer s
    /\ textBoxes (editor s2) = textBoxes (editor s)
    /\ undoStack (editor s2) = rest
    /\ redoStack (editor s2) = redoStack (editor s) ++ [a]
    /\ engineLog s2 = engineLog s.
Proof.
  intros Hpop Hd Hr Ht. unfold PDFEditor.undo. rewrite Hpop, Hd, Hr, Ht.
  cbn [orb]. eexists. split; [reflexivity|].
  rewrite viewer_updateUndoButtons, editor_updateUndoButtons,
    engineLog_updateUndoButtons.
  repeat split; reflexivity.
Qed.

(** Undo of a 'delete' or 'reorder' action holding a snapshot that
    pdf.js loads: the active session gets the snapshot back (the bytes
    as a value, see the conventions). *)
Lemma undo_snapshot s a rest b doc pdf :
  pop (undoStack (editor s)) = Some (a, rest) ->
  actionType a = "delete" \/ actionType a = "reorder" ->
  prevBytes a = Some b ->
  PDFViewer.getActiveDoc s = Some doc ->
  getDocument b = Some pdf ->
  exists s2,
    PDFEditor.undo ver s = Returned s2
    /\ activeBytes s2 = Some b.
Proof.
  intros Hpop Hty Hprev Hdoc Hget. unfold PDFEditor.undo. rewrite Hpop.
  assert (Hcond : (actionType a =? "delete")%string
                  || (actionType a =? "reorder")%string = true).
  { destruct Hty as [-> | ->]; reflexivity. }
  rewrite Hcond, Hprev.
  set (s1 := with_editor _ (with_editor _ s)).
  destruct (refreshDocument_ok b None s1 doc pdf) as (s' & Hs' & (doc' & Hdoc' & Hb & _) & _);
    [exact Hdoc | exact Hget |].
  rewrite Hs'. eexists. split; [reflexivity|].
  unfold activeBytes.
  rewrite (getActiveDoc_viewer _ s') by apply viewer_updateUndoButtons.
  rewrite Hdoc'. simpl. congruence.
Qed.

(** [refreshDocument] shows the pages pdf.js reads from the bytes it is
    handed. *)
Lemma refreshDocument_pages b k s doc pdf :
  PDFViewer.getActiveDoc s = Some doc ->
  getDocument b = Some pdf ->
  exists s' doc',
    PDFViewer.refreshDocument ver b k s = Returned s'
    /\ PDFViewer.getActiveDoc s' = Some doc'
    /\ pdfDoc doc' = pdf
    /\ pageCount doc' = len pdf.
Proof.
  intros Hdoc Hget. unfold PDFViewer.refreshDocument. rewrite Hdoc, Hget.
  set (page := match k with
               | Some k0 => if k0 =? 0 then currentPage doc else k0
               | None => currentPage doc
               end).
  set (s1 := PDFViewer.generateThumbnails _).
  assert (Hs1 : PDFViewer.getActiveDoc s1 =
                Some (set_thumbnails (seqZ 1 (len pdf))
                        (mkDoc (docId doc) (docName doc) pdf b (len pdf)
                               (Z.min page (len pdf)) (zoom doc)
                               (thumbnails doc) ∅))).
  { unfold s1, PDFViewer.generateThumbnails.
    rewrite !getActiveDoc_updateActiveDoc.
    rewrite (getActiveDoc_viewer _ s) by reflexivity.
    rewrite Hdoc. reflexivity. }
  destruct ver.
  - exists s1. eexists. split; [reflexivity|]. split; [exact Hs1|].
    split; reflexivity.
  - eexists. eexists. split; [reflexivity|].
    unfold PDFViewer.goToPage. rewrite Hs1.
    split; [rewrite getActiveDoc_updateActiveDoc, Hs1; reflexivity|].
    split; reflexivity.
Qed.

(** Undo of a 'delete' or 'reorder' action: the session shows the pages
    pdf.js reads from the snapshot. *)
Lemma undo_snapshot_pages s a rest b doc pdf :
  pop (undoStack (editor s)) = Some (a, rest) ->
  actionType a = "delete" \/ actionType a = "reorder" ->
  prevBytes a = Some b ->
  PDFViewer.getActiveDoc s = Some doc ->
  getDocument b = Some pdf ->
  exists s2 doc2,
    PDFEditor.undo ver s = Returned s2
    /\ PDFViewer.getActiveDoc s2 = Some doc2
    /\ pdfDoc doc2 = pdf
    /\ pageCount doc2 = len pdf.
Proof.
  intros Hpop Hty Hprev Hdoc Hget. unfold PDFEditor.undo. rewrite Hpop.
  assert (Hcond : (actionType a =? "delete")%string
                  || (actionType a =? "reorder")%string = true).
  { destruct Hty as [-> | ->]; reflexivity. }
  rewrite Hcond, Hprev.
  set (s1 := with_editor _ (with_editor _ s)).
  destruct (refreshDocument_pages b None s1 doc pdf)
    as (s' & doc' & Hs' & Hdoc' & Hpages & Hcount); [exact Hdoc | exact Hget |].
  rewrite Hs'. exists (PDFEditor.updateUndoButtons s'), doc'.
  split; [reflexivity|].
  rewrite (getActiveDoc_viewer _ s') by apply viewer_updateUndoButtons.
  split; [exact Hdoc'|]. split; assumption.
Qed.

(** A [deletePages] that goes through: the session holds the saved bytes
    and has the pages pdf.js reads from them, one 'delete' action holding
    the old bytes is pushed, and the redaction store is as before. *)
Lemma deletePages_ok s doc pageNums pages pages' pdfNew :
  PDFViewer.getActiveDoc s = Some doc ->
  pageNums <> [] ->
  len pageNums < pageCount doc ->
  PDFDocument_load (pdfBytes doc) = Some pages ->
  removePages (merge_sort Z.ge pageNums) pages = Some pages' ->
  getDocument (PDFDocument_save pages') = Some pdfNew ->
  let act := mkAction "delete" None (Some (pdfBytes doc)) in
  let s1 := PDFEditor.deletePages ver pageNums s in
  (exists doc', PDFViewer.getActiveDoc s1 = Some doc'
                /\ pdfBytes doc' = PDFDocument_save pages'
                /\ pageCount doc' = len pdfNew
                /\ zoom doc' = zoom doc)
  /\ undoStack (editor s1) =
     (if len (undoStack (editor s) ++ [act]) >? PDFEditor.MAX_UNDO
      then tail (undoStack (editor s) ++ [act])
      else undoStack (editor s) ++ [act])
  /\ redoStack (editor s1) = []
  /\ redact s1 = redact s.
Proof.
  intros Hdoc Hne Hlt Hload Hrem Hnew act s1.
  unfold s1, PDFEditor.deletePages, PDFEditor.deletePages_try. rewrite Hdoc.
  destruct (Z.eqb_spec (len pageNums) 0) as [Hz|_];
    [apply len_nil_iff in Hz; contradiction|].
  destruct (Z.geb_spec (len pageNums) (pageCount doc)) as [Hge|_]; [lia|].
  rewrite Hload, Hrem. fold act.
  set (sl := logCall (CallSave pages') (logCall (CallLoad (pdfBytes doc)) s)).
  destruct (pushUndo_frame act sl) as (Hv & Hr & _).
  pose proof (pushUndo_undoStack act sl) as Hu.
  pose proof (pushUndo_redoStack act sl) as Hre.
  change (editor sl) with (editor s) in Hu.
  set (s0 := PDFEditor.pushUndo act sl) in *.
  assert (Hdoc0 : PDFViewer.getActiveDoc s0 = Some doc).
  { rewrite (getActiveDoc_viewer s0 s); [exact Hdoc|]. rewrite Hv. reflexivity. }
  destruct (refreshDocument_ok (PDFDocument_save pages') None s0 doc pdfNew
              Hdoc0 Hnew)
    as (s' & Hs' & (doc' & Hdoc' & Hb & Hc & Hz & _) & Hed & Hred & _).
  rewrite Hs'. split; [|split; [|split]].
  - exists doc'. repeat split; assumption.
  - rewrite Hed. exact Hu.
  - rewrite Hed. exact Hre.
  - rewrite Hred, Hr. reflexivity.
Qed.

End Commit.

Section Redaction.
Context `{Engine}.
Variable api : list string.
Variable ver : Version.

Lemma refreshDocument_log b k s doc :
  PDFViewer.getActiveDoc s = Some doc ->
  engineLog (stateOf (PDFViewer.refreshDocument ver b k s)) =
  engineLog s ++ [CallGetDocument b].
Proof.
  intros Hdoc. unfold PDFViewer.refreshDocument. rewrite Hdoc.
  destruct (getDocument b) as [pdf|]; [|reflexivity].
  destruct ver; [reflexivity|].
  cbn [stateOf]. unfold PDFViewer.goToPage.
  match goal with
  | |- engineLog (match ?g with _ => _ end) = _ => destruct g
  end; reflexivity.
Qed.

Lemma lastSaved_after log (tail : list EngineCall) pages s :
  engineLog s = log ++ CallSave pages :: tail ->
  omap (fun c => match c with CallSave p => Some p | _ => None end) tail = [] ->
  lastSaved s = Some pages.
Proof.
  intros Hlog Htail. unfold lastSaved. rewrite Hlog.
  change (CallSave pages :: tail) with ([CallSave pages] ++ tail).
  rewrite !omap_app, Htail, app_nil_r. apply last_snoc.
Qed.

(** With [pushUndo] among the members: the state in which
    [applyRedactions] calls [refreshDocument]. *)
Lemma applyRedactions_unfold s doc pages :
  "pushUndo" ∈ api ->
  PDFViewer.getActiveDoc s = Some doc ->
  redactRects (redact s) <> [] ->
  PDFDocument_load (pdfBytes doc) = Some pages ->
  let pages' := PDFRedact.drawRedactions (zoom doc) (redactRects (redact s)) pages in
  let newBytes := PDFDocument_save pages' in
  exists s0,
    PDFViewer.getActiveDoc s0 = Some doc
    /\ (exists rest, pop (undoStack (editor s0)) =
                     Some (mkAction "redact" None (Some (pdfBytes doc)), rest))
    /\ redoStack (editor s0) = []
    /\ engineLog s0 = engineLog s ++ [CallLoad (pdfBytes doc); CallSave pages']
    /\ PDFRedact.applyRedactions api ver s =
       match PDFViewer.refreshDocument ver newBytes None s0 with
       | Returned s1 => UI.showDialog RedactionApplied s1
       | Threw s1 => UI.showDialog RedactFailed s1
       end.
Proof.
  intros Hapi Hdoc Hrects Hload pages' newBytes.
  unfold PDFRedact.applyRedactions, PDFRedact.applyRedactions_try,
    PDFEditor.callPushUndo.
  rewrite Hdoc, Hload.
  destruct (Z.eqb_spec (len (redactRects (redact s))) 0) as [Hz|_];
    [apply len_nil_iff in Hz; contradiction|].
  rewrite decide_True by exact Hapi.
  change (redactRects (redact (logCall (CallLoad (pdfBytes doc)) s)))
    with (redactRects (redact s)).
  fold pages'. fold newBytes.
  set (act := mkAction "redact" None (Some (pdfBytes doc))).
  set (sl := logCall (CallSave pages') (logCall (CallLoad (pdfBytes doc)) s)).
  set (s0 := with_redact (PDFRedact.set_redactRects []) (PDFEditor.pushUndo act sl)).
  destruct (pushUndo_frame act sl) as (Hv & _ & Hl).
  exists s0. split; [|split; [|split; [|split]]].
  - rewrite (getActiveDoc_viewer s0 s); [exact Hdoc|].
    unfold s0. cbn [with_redact viewer]. rewrite Hv. reflexivity.
  - unfold s0. cbn [with_redact editor]. apply pushUndo_pop.
  - unfold s0. cbn [with_redact editor]. apply pushUndo_redoStack.
  - unfold s0. cbn [with_redact engineLog]. rewrite Hl.
    unfold sl, logCall, push. cbn [engineLog]. rewrite <- app_assoc. reflexivity.
  - unfold s0, sl.
    destruct (PDFViewer.refreshDocument ver newBytes None _); reflexivity.
Qed.

(** Without that member the call throws after [save()]: the [catch]
    shows the failure dialog and nothing else has changed. *)
Lemma applyRedactions_aborts s doc pages :
  "pushUndo" ∉ api ->
  PDFViewer.getActiveDoc s = Some doc ->
  redactRects (redact s) <> [] ->
  PDFDocument_load (pdfBytes doc) = Some pages ->
  PDFRedact.applyRedactions api ver s =
  UI.showDialog RedactFailed
    (logCall (CallSave (PDFRedact.drawRedactions (zoom doc)
                          (redactRects (redact s)) pages))
             (logCall (CallLoad (pdfBytes doc)) s)).
Proof.
  intros Hapi Hdoc Hrects Hload.
  unfold PDFRedact.applyRedactions, PDFRedact.applyRedactions_try,
    PDFEditor.callPushUndo.
  rewrite Hdoc, Hload.
  destruct (Z.eqb_spec (len (redactRects (redact s))) 0) as [Hz|_];
    [apply len_nil_iff in Hz; contradiction|].
  rewrite decide_False by exact Hapi. reflexivity.
Qed.

Lemma applyRedactions_lastSaved s doc pages :
  PDFViewer.getActiveDoc s = Some doc ->
  redactRects (redact s) <> [] ->
  PDFDocument_load (pdfBytes doc) = Some pages ->
  lastSaved (PDFRedact.applyRedactions api ver s) =
  Some (PDFRedact.drawRedactions (zoom doc) (redactRects (redact s)) pages).
Proof.
  intros Hdoc Hrects Hload.
  destruct (decide ("pushUndo" ∈ api)) as [Hapi|Hapi].
  - destruct (applyRedactions_unfold s doc pages Hapi Hdoc Hrects Hload)
      as (s0 & Hdoc0 & _ & _ & Hlog & Heq).
    pose proof (refreshDocument_log
                  (PDFDocument_save
                     (PDFRedact.drawRedactions (zoom doc) (redactRects (redact s)) pages))
                  None s0 doc Hdoc0) as Hlog1.
    rewrite Heq.
    eapply (lastSaved_after (engineLog s ++ [CallLoad (pdfBytes doc)])
                            [CallGetDocument _]); [|reflexivity].
    destruct (PDFViewer.refreshDocument ver _ None s0) as [s1|s1];
      simpl in Hlog1; cbn [UI.showDialog with_dom engineLog];
      rewrite Hlog1, Hlog, <- !app_assoc; reflexivity.
  - rewrite (applyRedactions_aborts s doc pages Hapi Hdoc Hrects Hload).
    eapply (lastSaved_after (engineLog s ++ [CallLoad (pdfBytes doc)]) []);
      [|reflexivity].
    unfold UI.showDialog, logCall, push. cbn [with_dom engineLog].
    rewrite <- app_assoc. reflexivity.
Qed.

End Redaction.

Lemma pushUndo_not_exported : "pushUndo" ∉ PDFEditor.exports.
Proof.
  intros Hin. unfold PDFEditor.exports in Hin.
  repeat (apply elem_of_cons in Hin; destruct Hin as [Heq | Hin];
          [discriminate Heq|]).
  apply elem_of_nil in Hin. exact Hin.
Qed.

(** A completed drag of at least 5 x 5 pixels on the overlay of a page
    stores one rectangle: top-left corner, absolute width and height. *)
Lemma onMouseUp_adds s start x y :
  drawStart (redact s) = Some start ->
  isDrawing (redact s) = true ->
  Qle_bool 5 (Qabs (x - startX start)) = true ->
  Qle_bool 5 (Qabs (y - startY start)) = true ->
  overlayPage start <> 0 ->
  viewer (PDFRedact.onMouseUp x y s) = viewer s
  /\ redactRects (redact (PDFRedact.onMouseUp x y s)) =
     redactRects (redact s) ++
     [mkRedactRect (overlayPage start)
                   (Qmin (startX start) x) (Qmin (startY start) y)
                   (Qabs (x - startX start)) (Qabs (y - startY start))
                   (currentColor (redact s))].
Proof.
  intros Hstart Hdrawing Hw Hh Hpage. unfold PDFRedact.onMouseUp.
  rewrite Hstart, Hdrawing, Hw, Hh. cbn [negb orb].
  destruct (Z.eqb_spec (overlayPage start) 0); [contradiction|].
  split; reflexivity.
Qed.

(** C3, as the code has it.  Open a 3-page document, zoom to 2.0, drag a
    redaction box from (100,100) to (150,120) on page 2 and apply: the
    document handed to [save] has pages 1 and 3 unchanged and, drawn last
    on page 2, the black rectangle (50, pageHeight - 60, 25, 10). *)
Theorem scenario_redaction_rectangle (E : Engine) (file : bytes)
        (p1 p2 p3 : Page) :
  getDocument file = Some [p1; p2; p3] ->
  PDFDocument_load file = Some [p1; p2; p3] ->
  exists x y w h,
    lastSaved (scenarioApplied E file) =
      Some [p1; draw (DrawRectangle x y w h (rgb 0 0 0) None) p2; p3]
    /\ rectEq (x, y, w, h) (50, pageHeight p2 - 60, 25, 10)%Q.
Proof.
  intros Hget Hload. unfold scenarioApplied, scenarioMarked.
  set (s0 := initialState demoToolbar 1040 840).
  destruct (loadPDF_ok Continuous file "a.pdf" s0 [p1; p2; p3] Hget)
    as (Hdoc1 & _ & Hred1 & _).
  set (s1 := PDFViewer.loadPDF Continuous file "a.pdf" s0) in *.
  destruct (setZoom_value_frame Continuous 2 s1) as (Hb2 & _ & Hred2 & _).
  pose proof (setZoom_value_assigns Continuous 2 s1) as Hz2.
  set (s2 := PDFViewer.setZoom Continuous (PDFViewer.ZoomValue 2) s1) in *.
  rewrite Hdoc1 in Hb2, Hz2. simpl in Hb2, Hz2.
  destruct (PDFViewer.getActiveDoc s2) as [d2|] eqn:Hdoc2; [|discriminate].
  injection Hb2 as Hbytes2. injection Hz2 as Hzoom2.
  set (sd := PDFRedact.onMouseDown true 2 100 100 (PDFRedact.toggleRedactMode s2)).
  destruct (onMouseUp_adds sd (mkDrawStart 100 100 2) 150 120)
    as (Hv3 & Hrects3); try reflexivity; [discriminate|].
  set (s3 := PDFRedact.onMouseUp 150 120 sd) in *.
  assert (Hsd : redactRects (redact sd) = [] /\ currentColor (redact sd) = "black").
  { unfold sd, PDFRedact.onMouseDown, PDFRedact.toggleRedactMode.
    cbn [negb with_redact redact PDFRedact.set_drawStart PDFRedact.set_isDrawing
         redactRects currentColor].
    rewrite Hred2, Hred1. split; reflexivity. }
  destruct Hsd as (Hnone & Hcolor). rewrite Hnone, Hcolor in Hrects3.
  assert (Hdoc3 : PDFViewer.getActiveDoc s3 = Some d2).
  { rewrite (getActiveDoc_viewer s3 s2); [exact Hdoc2|].
    rewrite Hv3. reflexivity. }
  rewrite (applyRedactions_lastSaved PDFEditor.exports Continuous s3 d2
             [p1; p2; p3] Hdoc3).
  - rewrite Hrects3, Hzoom2. cbn [app].
    do 4 eexists. split; [reflexivity|].
    unfold rectEq. cbn [rPageNum rX rY rW rH].
    assert (Hx : (Qmin 100 150 / 2 == 50)%Q) by reflexivity.
    assert (Hy : (Qmin 100 120 / 2 == 50)%Q) by reflexivity.
    assert (Hw : (Qabs (150 - 100) / 2 == 25)%Q) by reflexivity.
    assert (Hh : (Qabs (120 - 100) / 2 == 10)%Q) by reflexivity.
    rewrite Hx, Hy, Hw, Hh. repeat split; try reflexivity. ring.
  - rewrite Hrects3. discriminate.
  - rewrite Hbytes2. exact Hload.
Qed.


(** ** The properties on concrete inputs *)

Lemma pushUndo_bounded_history_witness :
  len (undoStack (editor demoStart)) <= PDFEditor.MAX_UNDO
  /\ undoStack (editor (pushAll demoActions demoStart)) = tail demoActions
  /\ undoStack (editor (undoN (H := demoEngine) Continuous 50
                              (pushAll demoActions demoStart))) = [].
Proof.
  assert (Hle : len (undoStack (editor demoStart)) <= PDFEditor.MAX_UNDO)
    by (vm_compute; discriminate).
  destruct (pushUndo_bounded_history (H := demoEngine) Continuous demoStart
              demoActions Hle) as (_ & _ & _ & Hfirst).
  destruct (Hfirst (mkAction "stamp" None (Some [x00])) (tail demoActions)
                   eq_refl eq_refl eq_refl) as (Hstack & Hempty & _).
  split; [exact Hle|]. split; [exact Hstack | exact Hempty].
Defined.

Lemma deletePages_rejects_full_selection_witness :
  PDFViewer.getActiveDoc demoOne = Some demoDocA
  /\ len [1; 2; 3] >= pageCount demoDocA
  /\ PDFEditor.deletePages (H := demoEngine) Continuous [1; 2; 3] demoOne =
     UI.showDialog CannotDeleteAll demoOne.
Proof.
  assert (Hdoc : PDFViewer.getActiveDoc demoOne = Some demoDocA)
    by (vm_compute; reflexivity).
  assert (Hsize : len [1; 2; 3] >= pageCount demoDocA)
    by (vm_compute; discriminate).
  split; [exact Hdoc|]. split; [exact Hsize|].
  exact (proj1 (deletePages_rejects_full_selection (H := demoEngine) Continuous
                  demoOne demoDocA [1; 2; 3] Hdoc Hsize)).
Defined.

(** ** The workspace invariant holds in every reachable state *)

Lemma wfViewer_initial tb cw ch : wfViewer (viewer (initialState tb cw ch)).
Proof.
  unfold wfViewer. simpl. repeat split; try constructor; try congruence.
Qed.

Lemma fmap_docId_mutate_at (f : Doc -> Doc) (l : list Doc) (i : Z) :
  (forall d, docId (f d) = docId d) ->
  docId <$> mutate_at f l i = docId <$> l.
Proof.
  intros Hf. unfold mutate_at. destruct (0 <=? i); [|reflexivity].
  rewrite (list_fmap_alter docId f (fun x => x)).
  - apply list_alter_id. reflexivity.
  - apply Forall_forall. intros d _. apply Hf.
Qed.

Lemma wfViewer_mutate (f : Doc -> Doc) (v : ViewerState) :
  (forall d, docId (f d) = docId d) ->
  wfViewer v ->
  wfViewer (mkViewer (mutate_at f (openDocs v) (activeDocIndex v))
                     (activeDocIndex v) (nextDocId v)).
Proof.
  intros Hf (Hnd & Hlt & Hempty & Hvalid). unfold wfViewer. simpl.
  assert (Hnil : mutate_at f (openDocs v) (activeDocIndex v) = [] <-> openDocs v = []).
  { rewrite <- !len_nil_iff, len_mutate_at. reflexivity. }
  split; [|split; [|split]].
  - rewrite fmap_docId_mutate_at by exact Hf. exact Hnd.
  - apply Forall_mutate_at; [|exact Hlt]. intros d Hd. rewrite Hf. exact Hd.
  - intros Hn. apply Hempty, Hnil, Hn.
  - intros Hn. rewrite len_mutate_at. apply Hvalid. intros Hn'. apply Hn, Hnil, Hn'.
Qed.

Lemma wfViewer_updateActiveDoc (f : Doc -> Doc) s :
  (forall d, docId (f d) = docId d) ->
  wfViewer (viewer s) -> wfViewer (viewer (PDFViewer.updateActiveDoc f s)).
Proof. intros Hf Hwf. apply (wfViewer_mutate f (viewer s) Hf Hwf). Qed.

Lemma wfViewer_goToPage page s :
  wfViewer (viewer s) -> wfViewer (viewer (PDFViewer.goToPage page s)).
Proof.
  intros Hwf. unfold PDFViewer.goToPage.
  destruct (PDFViewer.getActiveDoc s); [|exact Hwf].
  apply wfViewer_updateActiveDoc; [reflexivity | exact Hwf].
Qed.

Lemma wfViewer_runZoomOp ver op s :
  wfViewer (viewer s) -> wfViewer (viewer (runZoomOp ver s op)).
Proof.
  intros Hwf.
  assert (Hafter : forall page z,
             wfViewer (viewer (PDFViewer.afterZoom ver page
                                 (PDFViewer.updateActiveDoc (set_zoom z) s)))).
  { intros page z. destruct ver; simpl; [|apply wfViewer_goToPage];
      (apply wfViewer_updateActiveDoc; [reflexivity | exact Hwf]). }
  destruct op as [| | [|v]]; simpl;
    [unfold PDFViewer.zoomIn | unfold PDFViewer.zoomOut
     | unfold PDFViewer.setZoom | unfold PDFViewer.setZoom];
    destruct (PDFViewer.getActiveDoc s) as [doc|]; try exact Hwf; try apply Hafter.
  destruct (at_index (pdfDoc doc) (currentPage doc - 1)); [apply Hafter | exact Hwf].
Qed.

Lemma wfViewer_switchToDocument id s :
  wfViewer (viewer s) -> wfViewer (viewer (PDFViewer.switchToDocument id s)).
Proof.
  intros (Hnd & Hlt & Hempty & Hvalid). unfold PDFViewer.switchToDocument.
  destruct (findIndex_spec (fun d => docId d =? id) (openDocs (viewer s)))
    as [(Hr & _) | (n & x & Hr & Hx & _)]; rewrite Hr.
  - change (-1 =? -1) with true. cbn iota. unfold wfViewer. auto.
  - destruct (Z.eqb_spec (Z.of_nat n) (-1)); [lia|].
    unfold wfViewer. simpl. repeat split; try assumption.
    + intros Hnil. rewrite Hnil in Hx. discriminate.
    + lia.
    + apply lookup_lt_Some in Hx. unfold len. lia.
Qed.

Lemma wfViewer_closeDocument ver id s :
  wfViewer (viewer s) -> wfViewer (viewer (PDFViewer.closeDocument ver id s)).
Proof.
  intros Hwf. pose proof Hwf as (Hnd & Hlt & Hempty & Hvalid).
  destruct (findIndex_spec (fun d => docId d =? id) (openDocs (viewer s)))
    as [(Hr & _) | (n & d & Hr & Hd & Hp & _)].
  - rewrite closeDocument_unknown by exact Hr. exact Hwf.
  - apply Z.eqb_eq in Hp. subst id.
    destruct (closeDocument_known ver s n d Hnd Hd) as (Hv & _).
    rewrite Hv. unfold wfViewer. simpl.
    set (docs' := delete n (openDocs (viewer s))).
    pose proof (len_nonneg docs') as Hpos.
    split; [|split; [|split]].
    + apply NoDup_docId_delete. exact Hnd.
    + apply Forall_delete. exact Hlt.
    + intros Hnil. rewrite Hnil. reflexivity.
    + intros Hne. destruct (Z.eqb_spec (len docs') 0) as [Hz|Hnz].
      * apply len_nil_iff in Hz. contradiction.
      * lia.
Qed.

Lemma wfViewer_loadPDF `{Engine} ver b name s :
  wfViewer (viewer s) -> wfViewer (viewer (PDFViewer.loadPDF ver b name s)).
Proof.
  intros Hwf. pose proof Hwf as (Hnd & Hlt & _).
  unfold PDFViewer.loadPDF.
  destruct (getDocument b) as [pdf|]; [|exact Hwf].
  change (viewer (UI.enableToolbarButtons ?ids ?t)) with (viewer t).
  unfold PDFViewer.generateThumbnails.
  apply wfViewer_updateActiveDoc; [reflexivity|].
  cbn [with_viewer viewer logCall].
  set (doc := mkDoc _ _ _ _ _ _ _ _ _).
  unfold wfViewer, push. cbn [openDocs activeDocIndex nextDocId].
  split; [|split; [|split]].
  - rewrite fmap_app. apply NoDup_app. split; [exact Hnd|]. split.
    + intros x Hx Hx'. apply list_elem_of_singleton in Hx'. subst x.
      apply list_elem_of_fmap in Hx. destruct Hx as (d & Hid & Hd).
      rewrite Forall_forall in Hlt. specialize (Hlt d Hd).
      unfold doc in Hid. simpl in Hid. lia.
    + apply NoDup_singleton.
  - apply Forall_app. split.
    + eapply Forall_impl; [exact Hlt|]. intros d Hd. simpl in Hd. lia.
    + constructor; [unfold doc; simpl; lia | constructor].
  - intros Hnil. destruct (openDocs (viewer s)); discriminate.
  - intros _. unfold len. rewrite length_app. simpl. lia.
Qed.

Lemma wfViewer_demoThree : wfViewer (viewer demoThree).
Proof.
  unfold demoThree, demoOne, demoStart.
  repeat apply wfViewer_loadPDF. apply wfViewer_initial.
Qed.

Lemma closeDocument_removes_and_reassigns_witness :
  wfViewer (viewer demoThree)
  /\ openDocs (viewer demoThree) !! 2%nat = Some demoDocC
  /\ activeDocIndex (viewer (PDFViewer.closeDocument Continuous 3 demoThree)) = 1
  /\ (forall d', d' ∈ openDocs (viewer (PDFViewer.closeDocument Continuous 3 demoThree)) ->
                 docId d' <> 3).
Proof.
  assert (Hd : openDocs (viewer demoThree) !! 2%nat = Some demoDocC)
    by (vm_compute; reflexivity).
  destruct (closeDocument_removes_and_reassigns Continuous demoThree 2 demoDocC
              wfViewer_demoThree Hd) as (_ & Hgone & Hactive & _).
  destruct Hactive as [Hidx _]; [vm_compute; discriminate | reflexivity |].
  split; [exact wfViewer_demoThree|]. split; [exact Hd|].
  split; [exact Hidx | exact Hgone].
Defined.

Lemma closeDocument_active_ignores_previous_witness :
  wfViewer (viewer demoThree)
  /\ openDocs (viewer demoThree) !! 0%nat = Some demoDocA
  /\ 2 <= len (openDocs (viewer demoThree))
  /\ PDFViewer.getActiveDoc demoThree = Some demoDocC
  /\ activeDocIndex (viewer (PDFViewer.closeDocument Continuous 1 demoThree)) = 0
  /\ demoDocC ∈ openDocs (viewer (PDFViewer.closeDocument Continuous 1 demoThree))
  /\ PDFViewer.getActiveDoc (PDFViewer.closeDocument Continuous 1 demoThree)
     <> Some demoDocC.
Proof.
  assert (Hd : openDocs (viewer demoThree) !! 0%nat = Some demoDocA)
    by (vm_compute; reflexivity).
  assert (Htwo : 2 <= len (openDocs (viewer demoThree)))
    by (vm_compute; discriminate).
  assert (Hc : PDFViewer.getActiveDoc demoThree = Some demoDocC)
    by (vm_compute; reflexivity).
  destruct (closeDocument_active_ignores_previous Continuous demoThree 0 demoDocA
              wfViewer_demoThree Hd Htwo) as (_ & Hidx & Hprev).
  destruct (Hprev demoDocC Hc) as (Hopen & Hother); [vm_compute; reflexivity|].
  repeat (split; [assumption || exact wfViewer_demoThree|]).
  exact Hother.
Defined.

Lemma switch_away_and_back_witness :
  wfViewer (viewer demoThree)
  /\ PDFViewer.getActiveDoc demoThree = Some demoDocC
  /\ demoDocA ∈ openDocs (viewer demoThree)
  /\ docId demoDocA <> docId demoDocC
  /\ PDFViewer.getActiveDoc (PDFViewer.switchToDocument 1 demoThree) = Some demoDocA
  /\ PDFViewer.switchToDocument 3 (PDFViewer.switchToDocument 1 demoThree) = demoThree.
Proof.
  assert (Hc : PDFViewer.getActiveDoc demoThree = Some demoDocC)
    by (vm_compute; reflexivity).
  assert (Ha : demoDocA ∈ openDocs (viewer demoThree)).
  { apply list_elem_of_lookup. exists 0%nat. vm_compute. reflexivity. }
  assert (Hne : docId demoDocA <> docId demoDocC) by (vm_compute; discriminate).
  destruct (switch_away_and_back demoThree demoDocC demoDocA
              wfViewer_demoThree Hc Ha Hne) as (Haway & _ & Hback & _).
  repeat (split; [assumption || exact wfViewer_demoThree|]).
  exact Hback.
Defined.

(** C2 as stated fails: on a freshly opened document, setZoom(5) leaves
    the zoom at 5, and 'fit' in a 5040 x 5040 viewport leaves it at
    5000/792; both are above 4.0. *)
Lemma setZoom_leaves_zoom_interval :
  zoom <$> PDFViewer.getActiveDoc demoOne = Some 1%Q
  /\ zoom <$> PDFViewer.getActiveDoc
               (runZoomOps Continuous [SetZoom (PDFViewer.ZoomValue 5)] demoOne)
     = Some 5%Q
  /\ ~ zoomInRange 5
  /\ zoom <$> PDFViewer.getActiveDoc
               (runZoomOps Continuous [SetZoom PDFViewer.Fit]
                  (PDFViewer.loadPDF (H := demoEngine) Continuous threePages "a.pdf"
                                     (initialState demoToolbar 5040 5040)))
     = Some (5000 # 792)%Q
  /\ ~ zoomInRange (5000 # 792).
Proof.
  split; [vm_compute; reflexivity|].
  split; [vm_compute; reflexivity|].
  split; [intros [_ Hhi]; vm_compute in Hhi; apply Hhi; reflexivity|].
  split; [vm_compute; reflexivity|].
  intros [_ Hhi]. vm_compute in Hhi. apply Hhi. reflexivity.
Qed.

Lemma zoom_steps_stay_in_range_witness :
  Forall steppingOp [ZoomIn; ZoomIn; SetZoom (PDFViewer.ZoomValue (7 # 2)); ZoomIn;
                     ZoomIn; ZoomIn; ZoomOut]
  /\ Forall (fun d => zoomInRange (zoom d)) (openDocs (viewer demoOne))
  /\ Forall (fun d => zoomInRange (zoom d))
            (openDocs (viewer (runZoomOps Continuous
                                 [ZoomIn; ZoomIn; SetZoom (PDFViewer.ZoomValue (7 # 2));
                                  ZoomIn; ZoomIn; ZoomIn; ZoomOut] demoOne))).
Proof.
  assert (Hops : Forall steppingOp
                        [ZoomIn; ZoomIn; SetZoom (PDFViewer.ZoomValue (7 # 2)); ZoomIn;
                         ZoomIn; ZoomIn; ZoomOut]).
  { repeat constructor; simpl; discriminate. }
  assert (Hstart : Forall (fun d => zoomInRange (zoom d)) (openDocs (viewer demoOne))).
  { change (openDocs (viewer demoOne)) with [demoDocA].
    repeat constructor; simpl; discriminate. }
  split; [exact Hops|]. split; [exact Hstart|].
  exact (proj1 (zoom_steps_stay_in_range Continuous _ demoOne Hops Hstart)).
Defined.

(** C3 as stated fails: on US-Letter pages (height 792) the rectangle
    drawn in the scenario has y = 732 = pageHeight - 60, not
    pageHeight - 70. *)
Lemma scenario_rectangle_not_pageHeight_minus_70 :
  exists x y w h,
    lastSaved (scenarioApplied demoEngine threePages) =
      Some [blankPage; draw (DrawRectangle x y w h (rgb 0 0 0) None) blankPage;
            blankPage]
    /\ (y == 732)%Q
    /\ ~ rectEq (x, y, w, h) (50, pageHeight blankPage - 70, 25, 10)%Q.
Proof.
  do 4 eexists. split; [vm_compute; reflexivity|].
  split; [reflexivity|].
  unfold rectEq. intros (_ & Hy & _). vm_compute in Hy. discriminate.
Qed.

Lemma scenario_redaction_rectangle_witness :
  getDocument (Engine := demoEngine) threePages = Some [blankPage; blankPage; blankPage]
  /\ PDFDocument_load (Engine := demoEngine) threePages =
     Some [blankPage; blankPage; blankPage]
  /\ exists x y w h,
       lastSaved (scenarioApplied demoEngine threePages) =
         Some [blankPage; draw (DrawRectangle x y w h (rgb 0 0 0) None) blankPage;
               blankPage]
       /\ rectEq (x, y, w, h) (50, pageHeight blankPage - 60, 25, 10)%Q.
Proof.
  assert (Hget : getDocument (Engine := demoEngine) threePages =
                 Some [blankPage; blankPage; blankPage]) by reflexivity.
  assert (Hload : PDFDocument_load (Engine := demoEngine) threePages =
                  Some [blankPage; blankPage; blankPage]) by reflexivity.
  split; [exact Hget|]. split; [exact Hload|].
  exact (scenario_redaction_rectangle demoEngine threePages
           blankPage blankPage blankPage Hget Hload).
Defined.

(** C4 as stated fails for an underline mark, which also carries a screen
    rectangle (x, y, w, h): at zoom 1 on a page of height 792 the commit
    draws a line of thickness 1 at y = 792 - 96 = 696, where the transform
    of the claim gives docY = 694 and docH = 2. *)
Lemma underline_commit_is_not_the_rectangle_transform :
  zoomInRange 1
  /\ exists sx sy ex ey t c,
       PDFAnnotate.drawAnnotation 1 [blankPage] demoUnderline =
         [draw (DrawLine sx sy ex ey t c) blankPage]
       /\ rectOf (DrawLine sx sy ex ey t c) = None
       /\ let '(docX, docY, docW, docH) :=
            spec_toDocumentSpace (aX demoUnderline) (aY demoUnderline)
                                 (aW demoUnderline) (aH demoUnderline)
                                 1 (pageHeight blankPage) in
          ~ (sy == docY)%Q /\ ~ (t == docH)%Q.
Proof.
  split; [split; discriminate|].
  do 6 eexists. split; [vm_compute; reflexivity|].
  split; [reflexivity|].
  split; intros Heq; vm_compute in Heq; discriminate.
Qed.

Lemma commit_transform_rectangles_witness :
  zoomInRange 2
  /\ [blankPage] !! 0%nat = Some blankPage
  /\ exists op,
       PDFAnnotate.drawAnnotation 2 [blankPage] demoHighlight !! 0%nat =
         Some (draw op blankPage)
       /\ rectOf op = Some (spec_toDocumentSpace 60 96 80 16 2 792).
Proof.
  assert (Hz : zoomInRange 2) by (split; discriminate).
  assert (Hp : [blankPage] !! 0%nat = Some blankPage) by reflexivity.
  split; [exact Hz|]. split; [exact Hp|].
  exact (proj1 (proj2 (proj2 (commit_transform_rectangles 2 [blankPage] 0 blankPage
                                                           Hz Hp)))
               demoHighlight eq_refl eq_refl).
Defined.


(** ** The history invariant in every reachable state *)

Lemma redo_editor s :
  undoStack (editor (PDFEditor.redo s)) =
    match last (redoStack (editor s)) with
    | Some a => undoStack (editor s) ++ [a]
    | None => undoStack (editor s)
    end
  /\ redoStack (editor (PDFEditor.redo s)) = removelast (redoStack (editor s)).
Proof.
  unfold PDFEditor.redo, pop.
  destruct (last (redoStack (editor s))) as [a|] eqn:Hlast.
  - rewrite editor_updateUndoButtons.
    destruct (actionType a =? "add-text")%string;
      [destruct (actionBox a)|]; split; reflexivity.
  - apply last_None in Hlast. rewrite Hlast. split; reflexivity.
Qed.

Lemma len_removelast {A} (l : list A) (x : A) :
  last l = Some x -> len (removelast l) = len l - 1.
Proof.
  intros Hlast. unfold len.
  rewrite removelast_firstn_len, length_take.
  destruct l; [discriminate | simpl; lia].
Qed.

Lemma historyBounded_pushUndo a s :
  historyBounded (editor s) -> historyBounded (editor (PDFEditor.pushUndo a s)).
Proof.
  unfold historyBounded, PDFEditor.MAX_UNDO. intros Hb.
  pose proof (len_nonneg (redoStack (editor s))) as Hr.
  rewrite pushUndo_redoStack, pushUndo_lastN
    by (unfold PDFEditor.MAX_UNDO; lia).
  pose proof (lastN_length 50 (undoStack (editor s) ++ [a])).
  unfold len in *. simpl. lia.
Qed.

Lemma historyBounded_undo `{Engine} ver s :
  historyBounded (editor s) ->
  historyBounded (editor (stateOf (PDFEditor.undo ver s))).
Proof.
  unfold historyBounded. intros Hb.
  destruct (undo_editor ver s) as (Hu & Hr). rewrite Hu, Hr.
  destruct (last (undoStack (editor s))) as [a|] eqn:Hlast.
  - rewrite (len_removelast _ a Hlast), len_app. change (len [a]) with 1. lia.
  - apply last_None in Hlast. rewrite Hlast in *. exact Hb.
Qed.

Lemma historyBounded_redo s :
  historyBounded (editor s) -> historyBounded (editor (PDFEditor.redo s)).
Proof.
  unfold historyBounded. intros Hb.
  destruct (redo_editor s) as (Hu & Hr). rewrite Hu, Hr.
  destruct (last (redoStack (editor s))) as [a|] eqn:Hlast.
  - rewrite (len_removelast _ a Hlast), len_app. change (len [a]) with 1. lia.
  - apply last_None in Hlast. rewrite Hlast in *. exact Hb.
Qed.

Lemma historyBounded_undoStack e :
  historyBounded e -> len (undoStack e) <= PDFEditor.MAX_UNDO.
Proof.
  unfold historyBounded. pose proof (len_nonneg (redoStack e)). lia.
Qed.

(** ** Every reachable state satisfies the invariants *)

Lemma invariant_frame s s' :
  viewer s' = viewer s -> editor s' = editor s -> invariant s -> invariant s'.
Proof. unfold invariant. intros -> ->. auto. Qed.

Lemma invariant_showDialog d s : invariant s -> invariant (UI.showDialog d s).
Proof. apply invariant_frame; reflexivity. Qed.

Lemma invariant_logCall c s : invariant s -> invariant (logCall c s).
Proof. apply invariant_frame; reflexivity. Qed.

Lemma invariant_with_redact f s : invariant s -> invariant (with_redact f s).
Proof. apply invariant_frame; reflexivity. Qed.

Lemma invariant_setButtons v ids s : invariant s -> invariant (UI.setButtons v ids s).
Proof. apply invariant_frame; reflexivity. Qed.

Lemma invariant_initial tb cw ch : invariant (initialState tb cw ch).
Proof.
  split; [apply wfViewer_initial|]. split.
  - unfold historyBounded, PDFEditor.MAX_UNDO, len. simpl. lia.
  - repeat split; constructor.
Qed.

(** Operations that only touch the viewer. *)
Lemma invariant_viewer_only s s' :
  editor s' = editor s -> wfViewer (viewer s') -> invariant s -> invariant s'.
Proof. unfold invariant. intros -> Hwf (_ & Hh & He). auto. Qed.

Lemma invariant_updateActiveDoc (f : Doc -> Doc) s :
  (forall d, docId (f d) = docId d) ->
  invariant s -> invariant (PDFViewer.updateActiveDoc f s).
Proof.
  intros Hf Hinv. apply (invariant_viewer_only s); [reflexivity | | exact Hinv].
  apply wfViewer_updateActiveDoc; [exact Hf | apply Hinv].
Qed.

Lemma invariant_goToPage page s :
  invariant s -> invariant (PDFViewer.goToPage page s).
Proof.
  intros Hinv. unfold PDFViewer.goToPage.
  destruct (PDFViewer.getActiveDoc s); [|exact Hinv].
  apply invariant_updateActiveDoc; [reflexivity | exact Hinv].
Qed.

Lemma invariant_runZoomOp ver op s :
  invariant s -> invariant (runZoomOp ver s op).
Proof.
  intros Hinv.
  assert (Hafter : forall page z,
             invariant (PDFViewer.afterZoom ver page
                          (PDFViewer.updateActiveDoc (set_zoom z) s))).
  { intros page z. destruct ver; simpl; [|apply invariant_goToPage];
      (apply invariant_updateActiveDoc; [reflexivity | exact Hinv]). }
  destruct op as [| | [|v]]; simpl;
    [unfold PDFViewer.zoomIn | unfold PDFViewer.zoomOut
     | unfold PDFViewer.setZoom | unfold PDFViewer.setZoom];
    destruct (PDFViewer.getActiveDoc s) as [doc|]; try exact Hinv; try apply Hafter.
  destruct (at_index (pdfDoc doc) (currentPage doc - 1)); [apply Hafter | exact Hinv].
Qed.

Lemma invariant_switchToDocument id s :
  invariant s -> invariant (PDFViewer.switchToDocument id s).
Proof.
  intros Hinv. apply (invariant_viewer_only s); [| | exact Hinv].
  - unfold PDFViewer.switchToDocument. destruct (_ =? -1); reflexivity.
  - apply wfViewer_switchToDocument, Hinv.
Qed.

Lemma editor_closeDocument ver id s :
  editor (PDFViewer.closeDocument ver id s) = editor s.
Proof.
  unfold PDFViewer.closeDocument.
  destruct (_ =? -1); [reflexivity|].
  destruct (_ =? 0); [reflexivity|].
  match goal with
  | |- editor (match ?o with _ => _ end) = _ => destruct o; [|reflexivity]
  end.
  unfold PDFViewer.switchToDocument. destruct (_ =? -1); reflexivity.
Qed.

Lemma invariant_closeDocument ver id s :
  invariant s -> invariant (PDFViewer.closeDocument ver id s).
Proof.
  intros Hinv. apply (invariant_viewer_only s); [| | exact Hinv].
  - apply editor_closeDocument.
  - apply wfViewer_closeDocument, Hinv.
Qed.

Section Reachable.
Context `{Engine}.
Variable api : list string.
Variable ver : Version.

Lemma invariant_loadPDF b name s :
  invariant s -> invariant (PDFViewer.loadPDF ver b name s).
Proof.
  intros Hinv. apply (invariant_viewer_only s); [| | exact Hinv].
  - unfold PDFViewer.loadPDF. destruct (getDocument b); reflexivity.
  - apply wfViewer_loadPDF, Hinv.
Qed.

Lemma invariant_refreshDocument b k s :
  invariant s -> invariant (stateOf (PDFViewer.refreshDocument ver b k s)).
Proof.
  intros Hinv. unfold PDFViewer.refreshDocument.
  destruct (PDFViewer.getActiveDoc s) as [doc|]; [|exact Hinv].
  destruct (getDocument b) as [pdf|]; [|apply invariant_logCall, Hinv].
  assert (Hgen : invariant
                   (PDFViewer.generateThumbnails
                      (PDFViewer.updateActiveDoc
                         (fun d => mkDoc (docId d) (docName d) pdf b (len pdf)
                                         (Z.min
                                            match k with
                                            | Some k0 => if k0 =? 0 then currentPage doc else k0
                                            | None => currentPage doc
                                            end (len pdf))
                                         (zoom d) (thumbnails d) ∅)
                         (logCall (CallGetDocument b) s)))).
  { unfold PDFViewer.generateThumbnails.
    apply invariant_updateActiveDoc; [reflexivity|].
    apply invariant_updateActiveDoc; [reflexivity|].
    apply invariant_logCall, Hinv. }
  destruct ver; simpl; [exact Hgen | apply invariant_goToPage, Hgen].
Qed.

End Reachable.

Lemma Forall_tail_list {A} (P : A -> Prop) (l : list A) :
  Forall P l -> Forall P (tail l).
Proof. intros Hl. destruct l; [exact Hl | inversion Hl; assumption]. Qed.

Lemma Forall_removelast_list {A} (P : A -> Prop) (l : list A) :
  Forall P l -> Forall P (removelast l).
Proof. intros Hl. rewrite removelast_firstn_len. apply Forall_take, Hl. Qed.

Lemma Forall_last_list {A} (P : A -> Prop) (l : list A) (x : A) :
  Forall P l -> last l = Some x -> P x.
Proof.
  intros Hl Hlast. rewrite Forall_forall in Hl. apply Hl.
  rewrite last_lookup in Hlast. apply list_elem_of_lookup. eauto.
Qed.

Lemma boxBelow_mono (n m : Z) (a : UndoAction) :
  n <= m -> boxBelow n a -> boxBelow m a.
Proof. intros Hle Ha box Hbox. specialize (Ha box Hbox). lia. Qed.

Lemma invariant_pushUndo a s :
  boxBelow (nextBoxId (editor s)) a ->
  invariant s -> invariant (PDFEditor.pushUndo a s).
Proof.
  intros Ha (Hv & Hh & Hboxes & Hundo & Hredo).
  destruct (pushUndo_frame a s) as (Hviewer & _).
  destruct (pushUndo_textBoxes a s) as (Htb & Hnext).
  split; [rewrite Hviewer; exact Hv|].
  split; [apply historyBounded_pushUndo; exact Hh|].
  unfold wfEditor. rewrite Htb, Hnext, pushUndo_redoStack, pushUndo_undoStack.
  split; [exact Hboxes|]. split; [|constructor].
  assert (Hall : Forall (boxBelow (nextBoxId (editor s))) (undoStack (editor s) ++ [a])).
  { apply Forall_app. split; [exact Hundo | constructor; [exact Ha | constructor]]. }
  destruct (len _ >? PDFEditor.MAX_UNDO); [apply Forall_tail_list|]; exact Hall.
Qed.

Lemma boxBelow_snapshot n ty b : boxBelow n (mkAction ty None b).
Proof. intros box Hbox. discriminate. Qed.

Lemma invariant_createTextBox page x y text size s :
  invariant s -> invariant (fst (PDFEditor.createTextBox page x y text size s)).
Proof.
  intros (Hv & Hh & Hboxes & Hundo & Hredo).
  unfold PDFEditor.createTextBox. cbn [fst].
  apply invariant_pushUndo.
  - intros box Hbox. injection Hbox as <-. simpl. lia.
  - split; [exact Hv|]. split; [exact Hh|].
    unfold wfEditor. cbn [with_editor editor textBoxes nextBoxId undoStack redoStack].
    split; [|split].
    + unfold push. apply Forall_app. split.
      * eapply Forall_impl; [exact Hboxes|]. intros b Hb. simpl in Hb. lia.
      * constructor; [simpl; lia | constructor].
    + eapply Forall_impl; [exact Hundo|]. intros a. apply boxBelow_mono. lia.
    + eapply Forall_impl; [exact Hredo|]. intros a. apply boxBelow_mono. lia.
Qed.

Lemma invariant_editTextBox id x y text s :
  invariant s -> invariant (PDFEditor.editTextBox id x y text s).
Proof.
  intros (Hv & Hh & Hboxes & Hundo & Hredo).
  split; [exact Hv|]. split; [exact Hh|].
  unfold wfEditor, PDFEditor.editTextBox.
  cbn [with_editor editor PDFEditor.set_textBoxes textBoxes nextBoxId undoStack
       redoStack].
  split; [|split; assumption].
  rewrite Forall_forall in Hboxes. apply Forall_forall. intros b Hb.
  apply list_elem_of_In, in_map_iff in Hb. destruct Hb as (b0 & <- & Hb0).
  apply list_elem_of_In in Hb0. specialize (Hboxes b0 Hb0).
  destruct (boxId b0 =? id); exact Hboxes.
Qed.

Lemma invariant_redo s : invariant s -> invariant (PDFEditor.redo s).
Proof.
  intros Hinv. pose proof Hinv as (Hv & Hh & Hboxes & Hundo & Hredo).
  split; [|split; [apply historyBounded_redo; exact Hh|]].
  - unfold PDFEditor.redo. destruct (pop _) as [[a rest]|]; [|exact Hv].
    rewrite viewer_updateUndoButtons.
    destruct (actionType a =? "add-text")%string; [destruct (actionBox a)|]; exact Hv.
  - unfold PDFEditor.redo, pop.
    destruct (last (redoStack (editor s))) as [a|] eqn:Hlast; [|exact (proj2 (proj2 Hinv))].
    pose proof (Forall_last_list _ _ _ Hredo Hlast) as Ha.
    rewrite editor_updateUndoButtons. unfold wfEditor.
    assert (Hu : Forall (boxBelow (nextBoxId (editor s))) (undoStack (editor s) ++ [a])).
    { apply Forall_app. split; [exact Hundo | constructor; [exact Ha | constructor]]. }
    assert (Hr : Forall (boxBelow (nextBoxId (editor s))) (removelast (redoStack (editor s))))
      by (apply Forall_removelast_list; exact Hredo).
    destruct (actionType a =? "add-text")%string; [destruct (actionBox a) as [box|] eqn:Hbox|];
      cbn [with_editor editor PDFEditor.set_textBoxes PDFEditor.set_redoStack
           PDFEditor.set_undoStack textBoxes nextBoxId undoStack redoStack push];
      (split; [|split; assumption]); try exact Hboxes.
    apply Forall_app. split; [exact Hboxes|].
    constructor; [apply Ha; exact Hbox | constructor].
Qed.

Section ReachableEditor.
Context `{Engine}.
Variable api : list string.
Variable ver : Version.

Lemma invariant_undo s : invariant s -> invariant (stateOf (PDFEditor.undo ver s)).
Proof.
  intros Hinv. pose proof Hinv as (Hv & Hh & Hboxes & Hundo & Hredo).
  unfold PDFEditor.undo, pop.
  destruct (last (undoStack (editor s))) as [a|] eqn:Hlast; [|exact Hinv].
  pose proof (Forall_last_list _ _ _ Hundo Hlast) as Ha.
  set (s1 := with_editor _ (with_editor _ s)).
  assert (Hs1 : invariant s1).
  { split; [exact Hv|]. split.
    - pose proof (historyBounded_undo ver s Hh) as Hb.
      destruct (undo_editor ver s) as (Hu & Hr). rewrite Hlast in Hr.
      unfold historyBounded in *. rewrite Hu, Hr in Hb. exact Hb.
    - unfold wfEditor, s1.
      cbn [with_editor editor PDFEditor.set_redoStack PDFEditor.set_undoStack
           textBoxes nextBoxId undoStack redoStack push].
      split; [exact Hboxes|]. split.
      + apply Forall_removelast_list. exact Hundo.
      + apply Forall_app. split; [exact Hredo | constructor; [exact Ha | constructor]]. }
  assert (Hbtn : forall t, invariant t -> invariant (PDFEditor.updateUndoButtons t)).
  { intros t. apply invariant_frame;
      [apply viewer_updateUndoButtons | apply editor_updateUndoButtons]. }
  destruct ((actionType a =? "delete")%string || (actionType a =? "reorder")%string).
  - destruct (prevBytes a) as [b|]; [|apply Hbtn, Hs1].
    pose proof (invariant_refreshDocument ver b None s1 Hs1) as Href.
    destruct (PDFViewer.refreshDocument ver b None s1) as [s2|s2]; simpl in *;
      [apply Hbtn|]; exact Href.
  - destruct (actionType a =? "add-text")%string; [|apply Hbtn, Hs1].
    destruct (actionBox a) as [box|]; [|exact Hs1].
    apply Hbtn. destruct Hs1 as (Hv1 & Hh1 & Hb1 & Hu1 & Hr1).
    split; [exact Hv1|]. split; [exact Hh1|].
    split; [|split; assumption].
    cbn [with_editor editor PDFEditor.set_textBoxes textBoxes nextBoxId].
    rewrite Forall_forall in Hb1. apply Forall_forall. intros b Hb.
    apply list_elem_of_filter in Hb. apply Hb1, Hb.
Qed.

Lemma invariant_outcome (o : Outcome) d :
  invariant (stateOf o) ->
  invariant (match o with Returned s => s | Threw s => UI.showDialog d s end).
Proof. destruct o; simpl; [auto | apply invariant_showDialog]. Qed.

Lemma invariant_deletePages pageNums s :
  invariant s -> invariant (PDFEditor.deletePages ver pageNums s).
Proof.
  intros Hinv. unfold PDFEditor.deletePages.
  destruct (PDFViewer.getActiveDoc s) as [doc|]; [|exact Hinv].
  destruct (_ >=? _); [apply invariant_showDialog, Hinv|].
  apply invariant_outcome. unfold PDFEditor.deletePages_try.
  destruct (PDFDocument_load (pdfBytes doc)) as [pages|];
    [|apply invariant_logCall, Hinv].
  destruct (removePages _ pages) as [pages'|]; [|apply invariant_logCall, Hinv].
  apply invariant_refreshDocument, invariant_pushUndo; [apply boxBelow_snapshot|].
  apply invariant_logCall, invariant_logCall, Hinv.
Qed.

Lemma invariant_reorderPage fromPage toPage s :
  invariant s -> invariant (PDFEditor.reorderPage ver fromPage toPage s).
Proof.
  intros Hinv. unfold PDFEditor.reorderPage.
  destruct (PDFViewer.getActiveDoc s) as [doc|]; [|exact Hinv].
  apply invariant_outcome. unfold PDFEditor.reorderPage_try.
  destruct (PDFDocument_load (pdfBytes doc)) as [pages|];
    [|apply invariant_logCall, Hinv].
  destruct (_ || _); [apply invariant_logCall, Hinv|].
  destruct (removePage _ pages) as [pages1|]; [|apply invariant_logCall, Hinv].
  destruct (at_index pages _) as [copied|];
    [|apply invariant_logCall, invariant_logCall, Hinv].
  destruct (insertPage _ copied pages1) as [pages2|];
    [|apply invariant_logCall, invariant_logCall, Hinv].
  apply invariant_refreshDocument, invariant_pushUndo; [apply boxBelow_snapshot|].
  repeat apply invariant_logCall. exact Hinv.
Qed.

Lemma invariant_applyRedactions s :
  invariant s -> invariant (PDFRedact.applyRedactions api ver s).
Proof.
  intros Hinv. unfold PDFRedact.applyRedactions.
  destruct (PDFViewer.getActiveDoc s) as [doc|]; [|exact Hinv].
  destruct (_ =? 0); [exact Hinv|].
  apply invariant_outcome. unfold PDFRedact.applyRedactions_try, PDFEditor.callPushUndo.
  destruct (PDFDocument_load (pdfBytes doc)) as [pages|];
    [|apply invariant_logCall, Hinv].
  destruct (decide ("pushUndo" ∈ api)); [|apply invariant_logCall, invariant_logCall, Hinv].
  match goal with
  | |- invariant (stateOf (match PDFViewer.refreshDocument ver ?b None ?t with _ => _ end)) =>
      pose proof (invariant_refreshDocument ver b None t) as Href;
      destruct (PDFViewer.refreshDocument ver b None t) as [s2|s2]; simpl in *;
      [apply invariant_showDialog|]; apply Href
  end;
    apply invariant_with_redact, invariant_pushUndo;
    try apply boxBelow_snapshot;
    apply invariant_logCall, invariant_logCall, Hinv.
Qed.

(** Every command keeps the invariants. *)
Lemma step_invariant s c : invariant s -> invariant (step api ver s c).
Proof.
  intros Hinv. destruct c; simpl.
  - apply invariant_loadPDF, Hinv.
  - apply invariant_switchToDocument, Hinv.
  - apply invariant_closeDocument, Hinv.
  - apply invariant_runZoomOp, Hinv.
  - apply invariant_goToPage, Hinv.
  - unfold PDFEditor.selectAllPages.
    destruct (PDFViewer.getActiveDoc s); [|exact Hinv].
    apply invariant_updateActiveDoc; [reflexivity | exact Hinv].
  - apply invariant_createTextBox, Hinv.
  - apply invariant_editTextBox, Hinv.
  - apply invariant_undo, Hinv.
  - apply invariant_redo, Hinv.
  - apply invariant_deletePages, Hinv.
  - unfold App.deletePage.
    destruct (PDFViewer.getActiveDoc s) as [doc|]; [|exact Hinv].
    destruct (_ >=? _); [apply invariant_showDialog, Hinv|].
    destruct confirmed; [apply invariant_deletePages|]; apply invariant_showDialog, Hinv.
  - apply invariant_reorderPage, Hinv.
  - apply invariant_with_redact, Hinv.
  - unfold PDFRedact.onMouseDown. destruct (negb onOverlay); [exact Hinv|].
    apply invariant_with_redact, Hinv.
  - unfold PDFRedact.onMouseUp.
    destruct (drawStart (redact s)); [|exact Hinv].
    destruct (negb (isDrawing (redact s))); [exact Hinv|].
    destruct (_ || _); [|destruct (_ =? 0)];
      repeat apply invariant_with_redact; exact Hinv.
  - apply invariant_applyRedactions, Hinv.
Qed.

(** From the initial state, whatever the commands: document ids are
    distinct and the active index is valid, the two history stacks hold at
    most 50 actions together, and box ids are fresh. *)
Theorem reachable_invariant tb cw ch (cmds : list Command) :
  invariant (run api ver cmds (initialState tb cw ch)).
Proof.
  unfold run. generalize (invariant_initial tb cw ch).
  generalize (initialState tb cw ch).
  induction cmds as [|c cmds IH]; intros s Hinv; simpl.
  - exact Hinv.
  - apply IH, step_invariant, Hinv.
Qed.

End ReachableEditor.

(** ** Undo / redo of a fresh text box is a round trip on [textBoxes] *)

Lemma filter_fresh_id (next : Z) (l : list TextBox) :
  Forall (fun b => boxId b < next) l ->
  filter (fun b => boxId b ≠ next) l = l.
Proof.
  induction 1 as [|b l Hb _ IH]; [reflexivity|].
  rewrite filter_cons, decide_True by lia. rewrite IH. reflexivity.
Qed.

Lemma undo_redo_textBox_roundtrip `{Engine} (ver : Version) (s : State)
      (pageNum : Z) (x y : Q) (text : string) (fontSize : Q) :
  wfEditor (editor s) ->
  let '(s1, box) := PDFEditor.createTextBox pageNum x y text fontSize s in
  exists s2,
    PDFEditor.undo ver s1 = Returned s2
    /\ textBoxes (editor s1) = textBoxes (editor s) ++ [box]
    /\ textBoxes (editor s2) = textBoxes (editor s)
    /\ textBoxes (editor (PDFEditor.redo s2)) = textBoxes (editor s1).
Proof.
  intros (Hboxes & _). unfold PDFEditor.createTextBox. cbv zeta.
  set (box := mkTextBox (nextBoxId (editor s)) pageNum x y 150 24 text fontSize
                        "Helvetica").
  set (act := mkAction "add-text" (Some box) None).
  set (s0 := with_editor _ s).
  destruct (pushUndo_pop act s0) as [rest Hpop].
  destruct (pushUndo_textBoxes act s0) as (Htb & _).
  pose proof (pushUndo_redoStack act s0) as Hredo.
  set (s1 := PDFEditor.pushUndo act s0) in *.
  assert (Htb1 : textBoxes (editor s1) = textBoxes (editor s) ++ [box])
    by (rewrite Htb; reflexivity).
  destruct (undo_add_text ver s1 act rest box Hpop eq_refl eq_refl)
    as (s2 & Hundo & Hfilter & _ & Hredo2 & _).
  assert (Htb2 : textBoxes (editor s2) = textBoxes (editor s)).
  { rewrite Hfilter, Htb1, filter_app.
    change (boxId box) with (nextBoxId (editor s)).
    rewrite (filter_fresh_id _ _ Hboxes).
    rewrite filter_cons, decide_False by (simpl; lia).
    rewrite filter_nil. apply app_nil_r. }
  exists s2. split; [exact Hundo|]. split; [exact Htb1|]. split; [exact Htb2|].
  rewrite Hredo in Hredo2.
  destruct (redo_add_text s2 act [] box) as (Hback & _);
    [unfold pop; rewrite Hredo2; reflexivity | reflexivity | reflexivity |].
  rewrite Hback, Htb2, Htb1. reflexivity.
Qed.

(** * The listeners and tools around the core *)

(** ** What the commands leave alone *)

Ltac split_cases :=
  repeat match goal with
         | |- context [match ?x with _ => _ end] => destruct x
         end.

Lemma annotate_goToPage page s : annotate (PDFViewer.goToPage page s) = annotate s.
Proof. unfold PDFViewer.goToPage. destruct (PDFViewer.getActiveDoc s); reflexivity. Qed.

Lemma redact_goToPage page s : redact (PDFViewer.goToPage page s) = redact s.
Proof. unfold PDFViewer.goToPage. destruct (PDFViewer.getActiveDoc s); reflexivity. Qed.

Lemma annotate_updateUndoButtons s :
  annotate (PDFEditor.updateUndoButtons s) = annotate s.
Proof. unfold PDFEditor.updateUndoButtons. split_cases; reflexivity. Qed.

Lemma annotate_pushUndo a s : annotate (PDFEditor.pushUndo a s) = annotate s.
Proof.
  unfold PDFEditor.pushUndo. rewrite annotate_updateUndoButtons.
  cbn [with_editor annotate]. destruct (len _ >? PDFEditor.MAX_UNDO); reflexivity.
Qed.

Lemma tools_refreshDocument `{Engine} ver b k s :
  redact (stateOf (PDFViewer.refreshDocument ver b k s)) = redact s
  /\ annotate (stateOf (PDFViewer.refreshDocument ver b k s)) = annotate s.
Proof.
  unfold PDFViewer.refreshDocument.
  destruct (PDFViewer.getActiveDoc s) as [doc|]; [|split; reflexivity].
  destruct (getDocument b) as [pdf|]; [|split; reflexivity].
  destruct ver; simpl; [split; reflexivity|].
  rewrite redact_goToPage, annotate_goToPage. split; reflexivity.
Qed.

Lemma tools_runZoomOp ver op s :
  redact (runZoomOp ver s op) = redact s
  /\ annotate (runZoomOp ver s op) = annotate s.
Proof.
  assert (Hafter : forall page t,
             redact (PDFViewer.afterZoom ver page t) = redact t
             /\ annotate (PDFViewer.afterZoom ver page t) = annotate t).
  { intros page t. destruct ver; simpl; [split; reflexivity|].
    rewrite redact_goToPage, annotate_goToPage. split; reflexivity. }
  destruct op as [| | [|v]]; simpl;
    [unfold PDFViewer.zoomIn | unfold PDFViewer.zoomOut
     | unfold PDFViewer.setZoom | unfold PDFViewer.setZoom];
    destruct (PDFViewer.getActiveDoc s) as [doc|]; try (split; reflexivity);
    try (destruct (at_index (pdfDoc doc) (currentPage doc - 1));
         [|split; reflexivity]);
    match goal with
    | |- context [PDFViewer.afterZoom ver ?p ?t] =>
        destruct (Hafter p t) as (-> & ->); split; reflexivity
    end.
Qed.

Lemma tools_closeDocument ver id s :
  redact (PDFViewer.closeDocument ver id s) = redact s
  /\ annotate (PDFViewer.closeDocument ver id s) = annotate s.
Proof.
  unfold PDFViewer.closeDocument.
  destruct (_ =? -1); [split; reflexivity|].
  destruct (_ =? 0); [split; reflexivity|].
  match goal with
  | |- context [match ?o with _ => _ end] => destruct o; [|split; reflexivity]
  end.
  unfold PDFViewer.switchToDocument. destruct (_ =? -1); split; reflexivity.
Qed.

Lemma tools_undo `{Engine} ver s :
  redact (stateOf (PDFEditor.undo ver s)) = redact s
  /\ annotate (stateOf (PDFEditor.undo ver s)) = annotate s.
Proof.
  unfold PDFEditor.undo.
  destruct (pop _) as [[a rest]|]; [|split; reflexivity].
  set (s1 := with_editor _ (with_editor _ s)).
  change (redact s) with (redact s1). change (annotate s) with (annotate s1).
  destruct (_ || _).
  - destruct (prevBytes a) as [b|].
    + destruct (tools_refreshDocument ver b None s1) as (Hr & Ha).
      destruct (PDFViewer.refreshDocument ver b None s1) as [s2|s2]; simpl in *;
        rewrite ?redact_updateUndoButtons, ?annotate_updateUndoButtons; auto.
    + simpl. rewrite redact_updateUndoButtons, annotate_updateUndoButtons. auto.
  - destruct (_ =? _)%string; [destruct (actionBox a)|]; simpl;
      rewrite ?redact_updateUndoButtons, ?annotate_updateUndoButtons;
      split; reflexivity.
Qed.

Lemma tools_redo s :
  redact (PDFEditor.redo s) = redact s /\ annotate (PDFEditor.redo s) = annotate s.
Proof.
  unfold PDFEditor.redo.
  destruct (pop _) as [[a rest]|]; [|split; reflexivity].
  rewrite redact_updateUndoButtons, annotate_updateUndoButtons.
  destruct (_ =? _)%string; [destruct (actionBox a)|]; split; reflexivity.
Qed.

Lemma tools_pushUndo a s :
  redact (PDFEditor.pushUndo a s) = redact s
  /\ annotate (PDFEditor.pushUndo a s) = annotate s.
Proof.
  split; [apply (pushUndo_frame a s) | apply annotate_pushUndo].
Qed.

Lemma tools_outcome (o : Outcome) d s :
  redact (stateOf o) = redact s /\ annotate (stateOf o) = annotate s ->
  redact (match o with Returned t => t | Threw t => UI.showDialog d t end) = redact s
  /\ annotate (match o with Returned t => t | Threw t => UI.showDialog d t end)
     = annotate s.
Proof. destruct o; simpl; auto. Qed.

Section ToolsKept.
Context `{Engine}.
Variable api : list string.
Variable ver : Version.

Lemma tools_commit ty b newBytes k s0 s :
  redact s0 = redact s -> annotate s0 = annotate s ->
  let s1 := PDFEditor.pushUndo (mkAction ty None b) s0 in
  redact (stateOf (PDFViewer.refreshDocument ver newBytes k s1)) = redact s
  /\ annotate (stateOf (PDFViewer.refreshDocument ver newBytes k s1)) = annotate s.
Proof.
  intros Hr Ha s1.
  destruct (tools_refreshDocument ver newBytes k s1) as (-> & ->).
  unfold s1. destruct (tools_pushUndo (mkAction ty None b) s0) as (-> & ->). auto.
Qed.

Lemma tools_deletePages pageNums s :
  redact (PDFEditor.deletePages ver pageNums s) = redact s
  /\ annotate (PDFEditor.deletePages ver pageNums s) = annotate s.
Proof.
  unfold PDFEditor.deletePages.
  destruct (PDFViewer.getActiveDoc s) as [doc|]; [|split; reflexivity].
  destruct (_ >=? _); [split; reflexivity|].
  apply tools_outcome. unfold PDFEditor.deletePages_try.
  destruct (PDFDocument_load (pdfBytes doc)) as [pages|]; [|split; reflexivity].
  destruct (removePages _ pages) as [pages'|]; [|split; reflexivity].
  apply (tools_commit "delete" (Some (pdfBytes doc))); reflexivity.
Qed.

Lemma tools_reorderPage fromPage toPage s :
  redact (PDFEditor.reorderPage ver fromPage toPage s) = redact s
  /\ annotate (PDFEditor.reorderPage ver fromPage toPage s) = annotate s.
Proof.
  unfold PDFEditor.reorderPage.
  destruct (PDFViewer.getActiveDoc s) as [doc|]; [|split; reflexivity].
  apply tools_outcome. unfold PDFEditor.reorderPage_try.
  destruct (PDFDocument_load (pdfBytes doc)) as [pages|]; [|split; reflexivity].
  destruct (_ || _); [split; reflexivity|].
  destruct (removePage _ pages) as [pages1|]; [|split; reflexivity].
  destruct (at_index pages _) as [copied|]; [|split; reflexivity].
  destruct (insertPage _ copied pages1) as [pages2|]; [|split; reflexivity].
  apply (tools_commit "reorder" (Some (pdfBytes doc))); reflexivity.
Qed.

Lemma tools_deletePage confirmed s :
  redact (App.deletePage ver confirmed s) = redact s
  /\ annotate (App.deletePage ver confirmed s) = annotate s.
Proof.
  unfold App.deletePage.
  destruct (PDFViewer.getActiveDoc s) as [doc|]; [|split; reflexivity].
  destruct (_ >=? _); [split; reflexivity|].
  destruct confirmed; [|split; reflexivity].
  match goal with
  | |- context [PDFEditor.deletePages ver ?l ?t] =>
      destruct (tools_deletePages l t) as (-> & ->)
  end.
  split; reflexivity.
Qed.

(** [applyRedactions] keeps the pending rectangles or empties the list. *)
Lemma tools_applyRedactions s :
  (redactRects (redact (PDFRedact.applyRedactions api ver s)) = redactRects (redact s)
   \/ redactRects (redact (PDFRedact.applyRedactions api ver s)) = [])
  /\ annotate (PDFRedact.applyRedactions api ver s) = annotate s.
Proof.
  unfold PDFRedact.applyRedactions.
  destruct (PDFViewer.getActiveDoc s) as [doc|]; [|split; [left|]; reflexivity].
  destruct (_ =? 0); [split; [left|]; reflexivity|].
  unfold PDFRedact.applyRedactions_try, PDFEditor.callPushUndo.
  destruct (PDFDocument_load (pdfBytes doc)) as [pages|];
    [|split; [left|]; reflexivity].
  destruct (decide ("pushUndo" ∈ api)); [|split; [left|]; reflexivity].
  match goal with
  | |- context [PDFViewer.refreshDocument ver ?b None ?t] =>
      destruct (tools_refreshDocument ver b None t) as (Hr & Ha);
      destruct (PDFViewer.refreshDocument ver b None t) as [s2|s2]; simpl in *;
      rewrite Hr, Ha
  end;
    (split; [right; reflexivity|]);
    cbn [with_redact annotate]; rewrite annotate_pushUndo; reflexivity.
Qed.

Lemma rectOk_onMouseUp x y s :
  Forall rectOk (redactRects (redact s)) ->
  Forall rectOk (redactRects (redact (PDFRedact.onMouseUp x y s))).
Proof.
  intros Hok. unfold PDFRedact.onMouseUp.
  destruct (drawStart (redact s)) as [start|]; [|exact Hok].
  destruct (negb (isDrawing (redact s))); [exact Hok|].
  destruct (Qle_bool 5 (Qabs (x - startX start))) eqn:Hw; cbn [negb orb];
    [|exact Hok].
  destruct (Qle_bool 5 (Qabs (y - startY start))) eqn:Hh; cbn [negb orb];
    [|exact Hok].
  destruct (Z.eqb_spec (overlayPage start) 0) as [|Hpage]; [exact Hok|].
  cbn [with_redact redact PDFRedact.set_isDrawing PDFRedact.set_drawStart
       PDFRedact.set_redactRects drawStart redactRects currentColor].
  unfold push. apply Forall_app. split; [exact Hok|].
  constructor; [|constructor].
  split; [exact Hpage|].
  split; apply Qle_bool_iff; assumption.
Qed.

(** Every command keeps the marks and notes, and keeps the pending
    rectangles on a page and at least 5 x 5. *)
Lemma stores_step s c :
  Forall rectOk (redactRects (redact s)) ->
  Forall rectOk (redactRects (redact (step api ver s c)))
  /\ annotate (step api ver s c) = annotate s.
Proof.
  intros Hok.
  assert (Hkeep : forall s', redact s' = redact s /\ annotate s' = annotate s ->
                             Forall rectOk (redactRects (redact s'))
                             /\ annotate s' = annotate s).
  { intros s' (-> & ->). auto. }
  destruct c; simpl.
  - apply Hkeep. unfold PDFViewer.loadPDF. destruct (getDocument arrayBuffer);
      split; reflexivity.
  - apply Hkeep. unfold PDFViewer.switchToDocument. destruct (_ =? -1);
      split; reflexivity.
  - apply Hkeep, tools_closeDocument.
  - apply Hkeep, tools_runZoomOp.
  - apply Hkeep. rewrite redact_goToPage, annotate_goToPage. auto.
  - apply Hkeep. unfold PDFEditor.selectAllPages.
    destruct (PDFViewer.getActiveDoc s); split; reflexivity.
  - apply Hkeep. unfold PDFEditor.createTextBox. cbn [fst].
    destruct (tools_pushUndo
                (mkAction "add-text"
                   (Some (mkTextBox (nextBoxId (editor s)) pageNum x y 150 24 text
                                    fontSize "Helvetica")) None)
                (with_editor
                   (fun e => mkEditor (editMode e)
                               (push (textBoxes e)
                                  (mkTextBox (nextBoxId (editor s)) pageNum x y 150 24
                                             text fontSize "Helvetica"))
                               (nextBoxId (editor s) + 1) (undoStack e) (redoStack e))
                   s)) as (-> & ->).
    split; reflexivity.
  - apply Hkeep. split; reflexivity.
  - apply Hkeep, tools_undo.
  - apply Hkeep, tools_redo.
  - apply Hkeep, tools_deletePages.
  - apply Hkeep, tools_deletePage.
  - apply Hkeep, tools_reorderPage.
  - split; [exact Hok | reflexivity].
  - unfold PDFRedact.onMouseDown. destruct (negb onOverlay);
      (split; [exact Hok | reflexivity]).
  - split; [apply rectOk_onMouseUp, Hok|].
    unfold PDFRedact.onMouseUp.
    destruct (drawStart (redact s)); [|reflexivity].
    destruct (negb (isDrawing (redact s))); [reflexivity|].
    destruct (_ || _); [|destruct (_ =? 0)]; reflexivity.
  - destruct (tools_applyRedactions s) as ([-> | ->] & ->); auto.
Qed.

End ToolsKept.

(** ** The stores in every state the events reach *)

Lemma invariant_with_annotate f s :
  invariant s -> invariant (PDFAnnotate.with_annotate f s).
Proof. apply invariant_frame; reflexivity. Qed.

Section Stores.
Context `{Engine}.
Variable api : list string.
Variable ver : Version.

Lemma invariant_handle s e : invariant s -> invariant (handle api ver s e).
Proof.
  intros Hinv. destruct e; simpl.
  - apply step_invariant, Hinv.
  - unfold PDFViewer.nextPage. destruct (PDFViewer.getActiveDoc s) as [doc|];
      [|exact Hinv]. destruct (_ <? _); [apply invariant_goToPage|]; exact Hinv.
  - unfold PDFViewer.prevPage. destruct (PDFViewer.getActiveDoc s) as [doc|];
      [|exact Hinv]. destruct (_ >? _); [apply invariant_goToPage|]; exact Hinv.
  - apply invariant_goToPage, Hinv.
  - unfold PDFViewer.lastPage. destruct (PDFViewer.getActiveDoc s) as [doc|];
      [apply invariant_goToPage|]; exact Hinv.
  - unfold PDFViewer.thumbnailClick.
    destruct (PDFViewer.getActiveDoc s) as [doc|]; [|exact Hinv].
    destruct (negb _); [exact Hinv|].
    destruct ctrl.
    + apply invariant_updateActiveDoc; [|exact Hinv].
      intros d. destruct (decide _); reflexivity.
    + apply invariant_goToPage, invariant_updateActiveDoc; [reflexivity | exact Hinv].
  - unfold PDFViewer.thumbnailContextMenu.
    destruct (PDFViewer.getActiveDoc s) as [doc|]; [|exact Hinv].
    destruct (negb _); [exact Hinv|].
    apply invariant_goToPage, invariant_updateActiveDoc; [|exact Hinv].
    intros d. destruct (decide _); reflexivity.
  - unfold thumbnailDrop.
    destruct (PDFViewer.getActiveDoc s) as [doc|]; [|exact Hinv].
    destruct (negb _); [exact Hinv|].
    destruct (_ =? _); [exact Hinv | apply (invariant_reorderPage ver), Hinv].
  - destruct ver; [exact Hinv|].
    unfold PDFViewer.onScroll.
    destruct (negb scrollTracking); [exact Hinv|].
    destruct (PDFViewer.getActiveDoc s) as [doc|]; [|exact Hinv].
    destruct (_ =? 0); [exact Hinv|].
    destruct (_ =? _); [exact Hinv|].
    apply invariant_updateActiveDoc; [reflexivity | exact Hinv].
  - unfold PDFMerge.movePageUp.
    destruct (PDFViewer.getActiveDoc s) as [doc|]; [|exact Hinv].
    destruct (_ <=? _); [exact Hinv | apply (invariant_reorderPage ver), Hinv].
  - unfold PDFMerge.movePageDown.
    destruct (PDFViewer.getActiveDoc s) as [doc|]; [|exact Hinv].
    destruct (_ >=? _); [exact Hinv | apply (invariant_reorderPage ver), Hinv].
  - destruct Hinv as (Hv & Hh & He). split; [exact Hv|]. split; [exact Hh | exact He].
  - unfold PDFEditor.onOverlayClick. destruct (negb onOverlay); [exact Hinv|].
    destruct (PDFViewer.getActiveDoc s) as [doc|]; [|exact Hinv].
    apply invariant_createTextBox, Hinv.
  - apply invariant_with_redact, Hinv.
  - apply invariant_with_redact, Hinv.
  - unfold PDFAnnotate.annotClickHandler. destruct (negb onOverlay); [exact Hinv|].
    destruct (_ =? 0); [exact Hinv | apply invariant_with_annotate, Hinv].
  - unfold PDFAnnotate.stickyClickHandler. destruct (negb onOverlay); [exact Hinv|].
    destruct (_ =? 0); [exact Hinv | apply invariant_with_annotate, Hinv].
  - apply invariant_with_annotate, Hinv.
  - apply invariant_with_annotate, Hinv.
  - apply invariant_with_annotate, Hinv.
Qed.

Lemma tools_handle_viewer s e :
  match e with
  | EvNextPage | EvPrevPage | EvFirstPage | EvLastPage | EvThumbnailClick _ _
  | EvThumbnailContextMenu _ | EvThumbnailDrop _ _ | EvScroll _ _ _ _
  | EvMovePageUp | EvMovePageDown | EvToggleEditMode | EvOverlayClick _ _ _ =>
      redact (handle api ver s e) = redact s
      /\ annotate (handle api ver s e) = annotate s
  | _ => True
  end.
Proof.
  destruct e; simpl; try exact I.
  - unfold PDFViewer.nextPage. destruct (PDFViewer.getActiveDoc s);
      [destruct (_ <? _)|]; rewrite ?redact_goToPage, ?annotate_goToPage; auto.
  - unfold PDFViewer.prevPage. destruct (PDFViewer.getActiveDoc s);
      [destruct (_ >? _)|]; rewrite ?redact_goToPage, ?annotate_goToPage; auto.
  - unfold PDFViewer.firstPage. rewrite redact_goToPage, annotate_goToPage. auto.
  - unfold PDFViewer.lastPage. destruct (PDFViewer.getActiveDoc s);
      rewrite ?redact_goToPage, ?annotate_goToPage; auto.
  - unfold PDFViewer.thumbnailClick.
    destruct (PDFViewer.getActiveDoc s); [|auto].
    destruct (negb _); [auto|].
    destruct ctrl; rewrite ?redact_goToPage, ?annotate_goToPage; auto.
  - unfold PDFViewer.thumbnailContextMenu.
    destruct (PDFViewer.getActiveDoc s); [|auto].
    destruct (negb _); [auto|].
    rewrite redact_goToPage, annotate_goToPage. auto.
  - unfold thumbnailDrop.
    destruct (PDFViewer.getActiveDoc s); [|auto].
    destruct (negb _); [auto|].
    destruct (_ =? _); [auto | apply tools_reorderPage].
  - destruct ver; [auto|].
    unfold PDFViewer.onScroll.
    destruct (negb scrollTracking); [auto|].
    destruct (PDFViewer.getActiveDoc s) as [doc|]; [|auto].
    destruct (_ =? 0); [auto|]. destruct (_ =? _); auto.
  - unfold PDFMerge.movePageUp.
    destruct (PDFViewer.getActiveDoc s); [|auto].
    destruct (_ <=? _); [auto | apply tools_reorderPage].
  - unfold PDFMerge.movePageDown.
    destruct (PDFViewer.getActiveDoc s); [|auto].
    destruct (_ >=? _); [auto | apply tools_reorderPage].
  - auto.
  - unfold PDFEditor.onOverlayClick. destruct (negb onOverlay); [auto|].
    destruct (PDFViewer.getActiveDoc s) as [doc|]; [|auto].
    unfold PDFEditor.createTextBox. cbn [fst].
    match goal with
    | |- context [PDFEditor.pushUndo ?a ?t] =>
        destruct (tools_pushUndo a t) as (-> & ->)
    end.
    auto.
Qed.

Lemma storesOk_handle s e : storesOk s -> storesOk (handle api ver s e).
Proof.
  intros (Hinv & Hrects & Hannots & Hnotes).
  split; [apply invariant_handle, Hinv|].
  pose proof (tools_handle_viewer s e) as Hview.
  destruct e; try (destruct Hview as (Hr & Ha); rewrite Hr, Ha;
                   split; [exact Hrects | split; assumption]).
  - destruct (stores_step api ver s c Hrects) as (Hr & Ha).
    simpl. rewrite Ha. split; [exact Hr | split; assumption].
  - split; [|split; assumption]. apply Forall_delete, Hrects.
  - split; [constructor | split; assumption].
  - simpl. unfold PDFAnnotate.annotClickHandler.
    destruct (negb onOverlay); [split; [exact Hrects | split; assumption]|].
    destruct (Z.eqb_spec pageNum 0) as [|Hpage];
      [split; [exact Hrects | split; assumption]|].
    split; [exact Hrects|]. split; [|exact Hnotes].
    apply Forall_app. split; [exact Hannots | constructor; [exact Hpage | constructor]].
  - simpl. unfold PDFAnnotate.stickyClickHandler.
    destruct (negb onOverlay); [split; [exact Hrects | split; assumption]|].
    destruct (Z.eqb_spec pageNum 0) as [|Hpage];
      [split; [exact Hrects | split; assumption]|].
    split; [exact Hrects|]. split; [exact Hannots|].
    apply Forall_app. split; [exact Hnotes | constructor; [exact Hpage | constructor]].
  - split; [exact Hrects|]. split; [exact Hannots|].
    apply Forall_alter; [exact Hnotes|]. intros n _ Hn. exact Hn.
  - split; [exact Hrects|]. split; [|exact Hnotes]. apply Forall_delete, Hannots.
  - split; [exact Hrects|]. split; [exact Hannots|]. apply Forall_delete, Hnotes.
Qed.

(** X1.  From the initial state, whatever the user does (commands,
    navigation, thumbnail clicks and drops, scrolling, moving pages,
    text boxes, marks, notes, editing the pending rectangles): document
    ids stay distinct and the active index valid, the two history stacks
    hold at most 50 actions together, box ids stay fresh, every pending
    redaction rectangle is on a page and at least 5 x 5 pixels, and every
    mark and note is on a page. *)
Theorem stores_ok_in_every_reachable_state tb cw ch (events : list Event) :
  storesOk (handleAll api ver events (initialState tb cw ch)).
Proof.
  unfold handleAll.
  assert (Hinit : storesOk (initialState tb cw ch)).
  { split; [apply invariant_initial|]. split; [constructor|].
    split; constructor. }
  revert Hinit. generalize (initialState tb cw ch).
  induction events as [|e events IH]; intros s Hs; simpl.
  - exact Hs.
  - apply IH, storesOk_handle, Hs.
Qed.

End Stores.

(** ** Pages, thumbnails and selection stay inside the document *)

Lemma Forall_mutate_at_active {A} (P : A -> Prop) (f : A -> A) (l : list A)
      (i : Z) (x : A) :
  at_index l i = Some x -> (P x -> P (f x)) -> Forall P l ->
  Forall P (mutate_at f l i).
Proof.
  intros Hx Hf Hl. unfold mutate_at.
  apply at_index_Some in Hx. destruct Hx as (Hi & Hx).
  destruct (0 <=? i); [|exact Hl].
  apply Forall_alter; [exact Hl|]. intros y Hy. rewrite Hx in Hy.
  injection Hy as <-. exact Hf.
Qed.

Lemma pagesOk_frame s s' :
  openDocs (viewer s') = openDocs (viewer s) -> pagesOk s -> pagesOk s'.
Proof. unfold pagesOk. intros ->. auto. Qed.

Lemma pagesOk_updateActiveDoc (f : Doc -> Doc) s doc :
  PDFViewer.getActiveDoc s = Some doc ->
  (docOk doc -> docOk (f doc)) ->
  pagesOk s -> pagesOk (PDFViewer.updateActiveDoc f s).
Proof.
  intros Hdoc Hf Hok. unfold pagesOk. rewrite openDocs_updateActiveDoc.
  rewrite getActiveDoc_at_index in Hdoc.
  apply (Forall_mutate_at_active _ _ _ _ doc Hdoc Hf Hok).
Qed.

Lemma updateActiveDoc_compose (f g : Doc -> Doc) s :
  PDFViewer.updateActiveDoc g (PDFViewer.updateActiveDoc f s) =
  PDFViewer.updateActiveDoc (g ∘ f) s.
Proof.
  unfold PDFViewer.updateActiveDoc, with_viewer. cbn [viewer openDocs activeDocIndex
    nextDocId editor redact annotate dom engineLog].
  f_equal. f_equal. unfold mutate_at.
  destruct (0 <=? activeDocIndex (viewer s)); [|reflexivity].
  apply list_alter_alter_eq.
Qed.

Lemma docOk_set_currentPage (p : Z) d :
  1 <= p <= pageCount d -> docOk d -> docOk (set_currentPage p d).
Proof.
  intros Hp (Hc & _ & Ht & Hs).
  split; [exact Hc|]. split; [exact Hp|]. split; [exact Ht | exact Hs].
Qed.

Lemma docOk_set_zoom (z : Q) d : docOk d -> docOk (set_zoom z d).
Proof. intros H. exact H. Qed.

Lemma docOk_set_selectedPages (sel : gset Z) d :
  (forall p, p ∈ sel -> 1 <= p <= pageCount d) ->
  docOk d -> docOk (set_selectedPages sel d).
Proof.
  intros Hsel (Hc & Hp & Ht & _).
  split; [exact Hc|]. split; [exact Hp|]. split; [exact Ht | exact Hsel].
Qed.

Lemma docOk_positive d : docOk d -> 1 <= pageCount d.
Proof. intros (_ & Hp & _). lia. Qed.

Lemma pagesOk_active s doc :
  PDFViewer.getActiveDoc s = Some doc -> pagesOk s -> docOk doc.
Proof.
  intros Hdoc Hok. rewrite getActiveDoc_at_index in Hdoc.
  apply at_index_Some in Hdoc. destruct Hdoc as (_ & Hdoc).
  unfold pagesOk in Hok. rewrite Forall_forall in Hok. apply Hok.
  apply list_elem_of_lookup. eauto.
Qed.

Lemma pagesOk_goToPage page s : pagesOk s -> pagesOk (PDFViewer.goToPage page s).
Proof.
  intros Hok. unfold PDFViewer.goToPage.
  destruct (PDFViewer.getActiveDoc s) as [doc|] eqn:Hdoc; [|exact Hok].
  apply (pagesOk_updateActiveDoc _ s doc Hdoc); [|exact Hok].
  intros Hd. apply docOk_set_currentPage; [|exact Hd].
  apply docOk_positive in Hd. lia.
Qed.

Lemma pagesOk_runZoomOp ver op s : pagesOk s -> pagesOk (runZoomOp ver s op).
Proof.
  intros Hok.
  assert (Hafter : forall page z doc,
             PDFViewer.getActiveDoc s = Some doc ->
             pagesOk (PDFViewer.afterZoom ver page
                        (PDFViewer.updateActiveDoc (set_zoom z) s))).
  { intros page z doc Hdoc.
    assert (pagesOk (PDFViewer.updateActiveDoc (set_zoom z) s))
      by (apply (pagesOk_updateActiveDoc _ s doc Hdoc); [apply docOk_set_zoom | exact Hok]).
    destruct ver; simpl; [assumption | apply pagesOk_goToPage; assumption]. }
  destruct op as [| | [|v]]; simpl;
    [unfold PDFViewer.zoomIn | unfold PDFViewer.zoomOut
     | unfold PDFViewer.setZoom | unfold PDFViewer.setZoom];
    destruct (PDFViewer.getActiveDoc s) as [doc|] eqn:Hdoc; try exact Hok;
    try (apply (Hafter _ _ doc); reflexivity).
  destruct (at_index (pdfDoc doc) (currentPage doc - 1));
    [apply (Hafter _ _ doc); reflexivity | exact Hok].
Qed.

Lemma pagesOk_switchToDocument id s :
  pagesOk s -> pagesOk (PDFViewer.switchToDocument id s).
Proof.
  apply pagesOk_frame. unfold PDFViewer.switchToDocument.
  destruct (_ =? -1); reflexivity.
Qed.

Lemma pagesOk_closeDocument ver id s :
  pagesOk s -> pagesOk (PDFViewer.closeDocument ver id s).
Proof.
  intros Hok. unfold PDFViewer.closeDocument.
  destruct (_ =? -1); [exact Hok|].
  set (s1 := with_viewer _ s).
  assert (Hs1 : pagesOk s1) by (apply Forall_delete, Hok).
  destruct (_ =? 0); [exact Hs1|].
  match goal with
  | |- context [match ?o with _ => _ end] => destruct o; [|exact Hs1]
  end.
  apply pagesOk_switchToDocument. exact Hs1.
Qed.

Lemma pagesOk_selectAllPages s : pagesOk s -> pagesOk (PDFEditor.selectAllPages s).
Proof.
  intros Hok. unfold PDFEditor.selectAllPages.
  destruct (PDFViewer.getActiveDoc s) as [doc|] eqn:Hdoc; [|exact Hok].
  apply (pagesOk_updateActiveDoc _ s doc Hdoc); [|exact Hok].
  intros Hd. apply docOk_set_selectedPages; [|exact Hd].
  intros p Hp. apply elem_of_union in Hp. destruct Hp as [Hp|Hp].
  - destruct Hd as (_ & _ & _ & Hsel). apply Hsel, Hp.
  - apply elem_of_list_to_set, elem_of_seqZ in Hp. lia.
Qed.

Lemma mutate_at_push_last {A} (f : A -> A) (l : list A) (x : A) :
  mutate_at f (l ++ [x]) (len l) = l ++ [f x].
Proof.
  unfold mutate_at, len.
  destruct (Z.leb_spec 0 (Z.of_nat (length l))); [|lia].
  rewrite Nat2Z.id. replace (length l) with (length l + 0)%nat at 1 by lia.
  rewrite alter_app_r. reflexivity.
Qed.

Lemma len_pos {A} (l : list A) : l <> [] -> 1 <= len l.
Proof. destruct l; [contradiction | unfold len; simpl; lia]. Qed.

Section Pages.
Context `{Engine}.
Variable api : list string.
Variable ver : Version.
Hypothesis Hopen : opensNoEmptyDocument H.

Lemma pagesOk_loadPDF b name s :
  pagesOk s -> pagesOk (PDFViewer.loadPDF ver b name s).
Proof.
  intros Hok. unfold PDFViewer.loadPDF.
  destruct (getDocument b) as [pdf|] eqn:Hget; [|exact Hok].
  match goal with
  | |- pagesOk (UI.enableToolbarButtons _ ?t) =>
      apply (pagesOk_frame t); [reflexivity|]
  end.
  unfold pagesOk, PDFViewer.generateThumbnails.
  rewrite openDocs_updateActiveDoc.
  cbn [with_viewer viewer openDocs activeDocIndex logCall].
  unfold push. rewrite len_app.
  match goal with |- context [len [?d]] => set (doc := d) end.
  change (len [doc]) with 1.
  replace (len (openDocs (viewer s)) + 1 - 1) with (len (openDocs (viewer s))) by lia.
  rewrite mutate_at_push_last.
  apply Forall_app. split; [exact Hok|]. constructor; [|constructor].
  pose proof (len_pos pdf (Hopen b pdf Hget)).
  split; [reflexivity|]. split; [simpl; lia|]. split; [reflexivity|].
  intros p Hp. simpl in Hp. set_solver.
Qed.

Lemma pagesOk_refreshDocument b k s :
  (forall k', k = Some k' -> 0 <= k') ->
  pagesOk s -> pagesOk (stateOf (PDFViewer.refreshDocument ver b k s)).
Proof.
  intros Hk Hok. unfold PDFViewer.refreshDocument.
  destruct (PDFViewer.getActiveDoc s) as [doc|] eqn:Hdoc; [|exact Hok].
  destruct (getDocument b) as [pdf|] eqn:Hget; [|exact Hok].
  set (page := match k with
               | Some k0 => if k0 =? 0 then currentPage doc else k0
               | None => currentPage doc
               end).
  assert (Hgen : pagesOk
                   (PDFViewer.generateThumbnails
                      (PDFViewer.updateActiveDoc
                         (fun d => mkDoc (docId d) (docName d) pdf b (len pdf)
                                         (Z.min page (len pdf))
                                         (zoom d) (thumbnails d) ∅)
                         (logCall (CallGetDocument b) s)))).
  { unfold PDFViewer.generateThumbnails. rewrite updateActiveDoc_compose.
    apply (pagesOk_updateActiveDoc _ _ doc); [exact Hdoc | | exact Hok].
    intros (_ & Hcur & _). pose proof (len_pos pdf (Hopen b pdf Hget)).
    assert (1 <= page).
    { unfold page. destruct k as [k0|]; [|lia].
      specialize (Hk k0 eq_refl). destruct (Z.eqb_spec k0 0); lia. }
    split; [reflexivity|]. split; [simpl; lia|]. split; [reflexivity|].
    intros p Hp. simpl in Hp. set_solver. }
  destruct ver; simpl; [exact Hgen | apply pagesOk_goToPage, Hgen].
Qed.

Lemma pagesOk_pushUndo a s : pagesOk s -> pagesOk (PDFEditor.pushUndo a s).
Proof.
  apply pagesOk_frame. destruct (pushUndo_frame a s) as (-> & _). reflexivity.
Qed.

Lemma pagesOk_updateUndoButtons s :
  pagesOk s -> pagesOk (PDFEditor.updateUndoButtons s).
Proof. apply pagesOk_frame. rewrite viewer_updateUndoButtons. reflexivity. Qed.

Lemma pagesOk_undo s : pagesOk s -> pagesOk (stateOf (PDFEditor.undo ver s)).
Proof.
  intros Hok. unfold PDFEditor.undo.
  destruct (pop _) as [[a rest]|]; [|exact Hok].
  set (s1 := with_editor _ (with_editor _ s)).
  assert (Hs1 : pagesOk s1) by exact Hok.
  destruct (_ || _).
  - destruct (prevBytes a) as [b|]; [|apply pagesOk_updateUndoButtons, Hs1].
    pose proof (pagesOk_refreshDocument b None s1) as Href.
    destruct (PDFViewer.refreshDocument ver b None s1) as [s2|s2]; simpl in *;
      [apply pagesOk_updateUndoButtons|]; apply Href; try exact Hs1; discriminate.
  - destruct (_ =? _)%string; [destruct (actionBox a)|]; simpl;
      try apply pagesOk_updateUndoButtons; exact Hs1.
Qed.

Lemma pagesOk_redo s : pagesOk s -> pagesOk (PDFEditor.redo s).
Proof.
  apply pagesOk_frame. unfold PDFEditor.redo.
  destruct (pop _) as [[a rest]|]; [|reflexivity].
  rewrite viewer_updateUndoButtons.
  destruct (_ =? _)%string; [destruct (actionBox a)|]; reflexivity.
Qed.

Lemma pagesOk_outcome (o : Outcome) d :
  pagesOk (stateOf o) ->
  pagesOk (match o with Returned s => s | Threw s => UI.showDialog d s end).
Proof. destruct o; simpl; auto. Qed.

Lemma pagesOk_deletePages pageNums s :
  pagesOk s -> pagesOk (PDFEditor.deletePages ver pageNums s).
Proof.
  intros Hok. unfold PDFEditor.deletePages.
  destruct (PDFViewer.getActiveDoc s) as [doc|]; [|exact Hok].
  destruct (_ >=? _); [exact Hok|].
  apply pagesOk_outcome. unfold PDFEditor.deletePages_try.
  destruct (PDFDocument_load (pdfBytes doc)) as [pages|]; [|exact Hok].
  destruct (removePages _ pages) as [pages'|]; [|exact Hok].
  apply pagesOk_refreshDocument; [discriminate|].
  apply pagesOk_pushUndo. exact Hok.
Qed.

Lemma pagesOk_reorderPage fromPage toPage s :
  pagesOk s -> pagesOk (PDFEditor.reorderPage ver fromPage toPage s).
Proof.
  intros Hok. unfold PDFEditor.reorderPage.
  destruct (PDFViewer.getActiveDoc s) as [doc|]; [|exact Hok].
  apply pagesOk_outcome. unfold PDFEditor.reorderPage_try.
  destruct (PDFDocument_load (pdfBytes doc)) as [pages|]; [|exact Hok].
  destruct (Z.ltb_spec fromPage 1); [exact Hok|].
  destruct (Z.gtb_spec fromPage (len pages)); [exact Hok|].
  destruct (Z.ltb_spec toPage 1); [exact Hok|].
  destruct (Z.gtb_spec toPage (len pages)); [exact Hok|].
  cbn [orb].
  destruct (removePage _ pages) as [pages1|]; [|exact Hok].
  destruct (at_index pages _) as [copied|]; [|exact Hok].
  destruct (insertPage _ copied pages1) as [pages2|]; [|exact Hok].
  apply pagesOk_refreshDocument; [intros k' [= <-]; lia|].
  apply pagesOk_pushUndo. exact Hok.
Qed.

Lemma pagesOk_applyRedactions s :
  pagesOk s -> pagesOk (PDFRedact.applyRedactions api ver s).
Proof.
  intros Hok. unfold PDFRedact.applyRedactions.
  destruct (PDFViewer.getActiveDoc s) as [doc|]; [|exact Hok].
  destruct (_ =? 0); [exact Hok|].
  unfold PDFRedact.applyRedactions_try, PDFEditor.callPushUndo.
  destruct (PDFDocument_load (pdfBytes doc)) as [pages|]; [|exact Hok].
  destruct (decide ("pushUndo" ∈ api)); [|exact Hok].
  match goal with
  | |- context [PDFViewer.refreshDocument ver ?b None ?t] =>
      pose proof (pagesOk_refreshDocument b None t) as Href;
      destruct (PDFViewer.refreshDocument ver b None t) as [s2|s2]; simpl in *;
      apply Href; try discriminate
  end;
    match goal with
    | |- pagesOk (with_redact _ ?t) => apply (pagesOk_frame t); [reflexivity|]
    end;
    apply pagesOk_pushUndo; exact Hok.
Qed.

Lemma pagesOk_step s c : pagesOk s -> pagesOk (step api ver s c).
Proof.
  intros Hok. destruct c; simpl.
  - apply pagesOk_loadPDF, Hok.
  - apply pagesOk_switchToDocument, Hok.
  - apply pagesOk_closeDocument, Hok.
  - apply pagesOk_runZoomOp, Hok.
  - apply pagesOk_goToPage, Hok.
  - apply pagesOk_selectAllPages, Hok.
  - unfold PDFEditor.createTextBox. cbn [fst]. apply pagesOk_pushUndo. exact Hok.
  - exact Hok.
  - apply pagesOk_undo, Hok.
  - apply pagesOk_redo, Hok.
  - apply pagesOk_deletePages, Hok.
  - unfold App.deletePage.
    destruct (PDFViewer.getActiveDoc s) as [doc|]; [|exact Hok].
    destruct (_ >=? _); [exact Hok|].
    destruct confirmed; [apply pagesOk_deletePages|]; exact Hok.
  - apply pagesOk_reorderPage, Hok.
  - exact Hok.
  - unfold PDFRedact.onMouseDown. destruct (negb onOverlay); exact Hok.
  - unfold PDFRedact.onMouseUp.
    destruct (drawStart (redact s)); [|exact Hok].
    destruct (negb (isDrawing (redact s))); [exact Hok|].
    destruct (_ || _); [|destruct (_ =? 0)]; exact Hok.
  - apply pagesOk_applyRedactions, Hok.
Qed.

End Pages.

(** ** Scroll tracking picks the page nearest to the middle of the viewport *)

Lemma closer_Some dist d :
  PDFViewer.closer dist (Some d) = true <-> (dist < d)%Q.
Proof.
  unfold PDFViewer.closer. destruct (Qle_bool d dist) eqn:Hle; simpl.
  - apply Qle_bool_iff in Hle. split; [discriminate|].
    intros Hlt. exfalso. exact (Qlt_not_le _ _ Hlt Hle).
  - split; [intros _|reflexivity].
    apply Qnot_le_lt. intros Hle'. apply Qle_bool_iff in Hle'. congruence.
Qed.

(** The loop of the scroll listener: on wrappers [ws], not empty, it ends
    on the first wrapper at the least distance. *)
Lemma foldl_scrollStep_spec mid (ws : list PDFViewer.Wrapper) :
  ws <> [] ->
  exists (i : nat) w,
    ws !! i = Some w
    /\ foldl (PDFViewer.scrollStep mid) (1, None) ws =
       (PDFViewer.wrapperPage w, Some (PDFViewer.wrapperDist mid w))
    /\ (forall j w', ws !! j = Some w' ->
                     (PDFViewer.wrapperDist mid w <= PDFViewer.wrapperDist mid w')%Q)
    /\ (forall j w', (j < i)%nat -> ws !! j = Some w' ->
                     (PDFViewer.wrapperDist mid w < PDFViewer.wrapperDist mid w')%Q).
Proof.
  induction ws as [|x ws IH] using rev_ind; [congruence|]. intros _.
  rewrite foldl_app. simpl foldl.
  destruct ws as [|y ws'].
  - exists 0%nat, x. simpl. split; [reflexivity|]. split; [reflexivity|]. split.
    + intros [|j] w' Hw'; simpl in Hw'; [|discriminate].
      injection Hw' as <-. apply Qle_refl.
    + intros j w' Hj. lia.
  - destruct IH as (i & w & Hw & Hfold & Hmin & Hfirst); [discriminate|].
    set (ws := y :: ws') in *. rewrite Hfold. unfold PDFViewer.scrollStep at 1.
    cbn [snd].
    destruct (PDFViewer.closer (PDFViewer.wrapperDist mid x)
                               (Some (PDFViewer.wrapperDist mid w))) eqn:Hc.
    + apply closer_Some in Hc.
      exists (length ws), x.
      split; [apply list_lookup_middle; reflexivity|]. split; [reflexivity|]. split.
      * intros j w' Hw'. apply lookup_app_Some in Hw'.
        destruct Hw' as [Hw' | (Hge & Hw')].
        -- apply Qlt_le_weak. eapply Qlt_le_trans; [exact Hc | eapply Hmin, Hw'].
        -- destruct (j - length ws)%nat; simpl in Hw'; [|discriminate].
           injection Hw' as <-. apply Qle_refl.
      * intros j w' Hj Hw'. rewrite lookup_app_l in Hw' by exact Hj.
        eapply Qlt_le_trans; [exact Hc | eapply Hmin, Hw'].
    + assert (Hle : (PDFViewer.wrapperDist mid w <= PDFViewer.wrapperDist mid x)%Q).
      { apply Qnot_lt_le. intros Hlt. apply closer_Some in Hlt. congruence. }
      exists i, w.
      split; [apply lookup_app_l_Some; exact Hw|]. split; [reflexivity|]. split.
      * intros j w' Hw'. apply lookup_app_Some in Hw'.
        destruct Hw' as [Hw' | (Hge & Hw')]; [eapply Hmin, Hw'|].
        destruct (j - length ws)%nat; simpl in Hw'; [|discriminate].
        injection Hw' as <-. exact Hle.
      * intros j w' Hj Hw'. apply lookup_lt_Some in Hw as Hi.
        rewrite lookup_app_l in Hw' by lia. eapply Hfirst; eassumption.
Qed.

Lemma wrappersOf_page doc geometry w :
  w ∈ wrappersOf doc geometry -> 1 <= PDFViewer.wrapperPage w <= pageCount doc.
Proof.
  unfold wrappersOf. intros Hw. apply elem_of_zip_with in Hw.
  destruct Hw as (p & g & -> & Hp & _). apply elem_of_seqZ in Hp. simpl. lia.
Qed.

Lemma hasThumbnail_in_range doc pageNum :
  docOk doc -> PDFViewer.hasThumbnail doc pageNum = true ->
  1 <= pageNum <= pageCount doc.
Proof.
  intros (_ & Hcur & Hth & _) Hhas. unfold PDFViewer.hasThumbnail in Hhas.
  apply andb_prop in Hhas. destruct Hhas as (H1 & H2).
  apply Z.leb_le in H1, H2. rewrite Hth in H2. unfold len in H2.
  rewrite length_seqZ in H2. lia.
Qed.

Section PagesEvents.
Context `{Engine}.
Variable api : list string.
Variable ver : Version.
Hypothesis Hopen : opensNoEmptyDocument H.

Lemma pagesOk_handle s e :
  inStep s e = true -> pagesOk s -> pagesOk (handle api ver s e).
Proof.
  intros Hstep Hok. destruct e; simpl.
  - apply pagesOk_step; assumption.
  - unfold PDFViewer.nextPage. destruct (PDFViewer.getActiveDoc s) as [doc|];
      [|exact Hok]. destruct (_ <? _); [apply pagesOk_goToPage|]; exact Hok.
  - unfold PDFViewer.prevPage. destruct (PDFViewer.getActiveDoc s) as [doc|];
      [|exact Hok]. destruct (_ >? _); [apply pagesOk_goToPage|]; exact Hok.
  - apply pagesOk_goToPage, Hok.
  - unfold PDFViewer.lastPage. destruct (PDFViewer.getActiveDoc s) as [doc|];
      [apply pagesOk_goToPage|]; exact Hok.
  - unfold PDFViewer.thumbnailClick.
    destruct (PDFViewer.getActiveDoc s) as [doc|] eqn:Hdoc; [|exact Hok].
    destruct (PDFViewer.hasThumbnail doc pageNum) eqn:Hhas; [|exact Hok].
    cbn [negb].
    pose proof (hasThumbnail_in_range doc pageNum (pagesOk_active s doc Hdoc Hok) Hhas)
      as Hrange.
    destruct ctrl.
    + apply (pagesOk_updateActiveDoc _ s doc Hdoc); [|exact Hok].
      intros Hd. pose proof Hd as (_ & _ & _ & Hsel).
      destruct (decide _); (apply docOk_set_selectedPages; [|exact Hd]);
        intros p Hp.
      * apply elem_of_difference in Hp. apply Hsel, Hp.
      * apply elem_of_union in Hp. destruct Hp as [Hp|Hp]; [apply Hsel, Hp|].
        apply elem_of_singleton in Hp. lia.
    + apply pagesOk_goToPage.
      apply (pagesOk_updateActiveDoc _ s doc Hdoc); [|exact Hok].
      intros Hd. apply docOk_set_selectedPages; [|exact Hd]. set_solver.
  - unfold PDFViewer.thumbnailContextMenu.
    destruct (PDFViewer.getActiveDoc s) as [doc|] eqn:Hdoc; [|exact Hok].
    destruct (PDFViewer.hasThumbnail doc pageNum) eqn:Hhas; [|exact Hok].
    cbn [negb].
    pose proof (hasThumbnail_in_range doc pageNum (pagesOk_active s doc Hdoc Hok) Hhas)
      as Hrange.
    apply pagesOk_goToPage.
    apply (pagesOk_updateActiveDoc _ s doc Hdoc); [|exact Hok].
    intros Hd. destruct (decide _); [exact Hd|].
    apply docOk_set_selectedPages; [|exact Hd].
    intros p Hp. apply elem_of_union in Hp. destruct Hp as [Hp|Hp]; [set_solver|].
    apply elem_of_singleton in Hp. lia.
  - unfold thumbnailDrop.
    destruct (PDFViewer.getActiveDoc s) as [doc|]; [|exact Hok].
    destruct (negb _); [exact Hok|].
    destruct (_ =? _); [exact Hok | apply pagesOk_reorderPage; assumption].
  - destruct ver; [exact Hok|].
    unfold PDFViewer.onScroll.
    destruct (negb scrollTracking); [exact Hok|].
    unfold inStep in Hstep.
    destruct (PDFViewer.getActiveDoc s) as [doc|] eqn:Hdoc; [|exact Hok].
    destruct (Z.eqb_spec (len wrappers) 0) as [|Hne]; [exact Hok|].
    destruct (_ =? _); [exact Hok|].
    apply (pagesOk_updateActiveDoc _ s doc Hdoc); [|exact Hok].
    intros Hd. apply docOk_set_currentPage; [|exact Hd].
    destruct (foldl_scrollStep_spec
                (viewportTop + viewportHeight / 2)%Q wrappers)
      as (i & w & Hw & Hfold & _).
    { intros Hnil. rewrite Hnil in Hne. apply Hne. reflexivity. }
    unfold PDFViewer.closestPage. rewrite Hfold. cbn [fst].
    rewrite forallb_forall in Hstep.
    assert (Hin : In w wrappers)
      by (apply list_elem_of_In, list_elem_of_lookup; eauto).
    specialize (Hstep w Hin). apply andb_prop in Hstep.
    destruct Hstep as (H1 & H2). apply Z.leb_le in H1, H2. lia.
  - unfold PDFMerge.movePageUp.
    destruct (PDFViewer.getActiveDoc s) as [doc|]; [|exact Hok].
    destruct (_ <=? _); [exact Hok | apply pagesOk_reorderPage; assumption].
  - unfold PDFMerge.movePageDown.
    destruct (PDFViewer.getActiveDoc s) as [doc|]; [|exact Hok].
    destruct (_ >=? _); [exact Hok | apply pagesOk_reorderPage; assumption].
  - exact Hok.
  - unfold PDFEditor.onOverlayClick. destruct (negb onOverlay); [exact Hok|].
    destruct (PDFViewer.getActiveDoc s) as [doc|]; [|exact Hok].
    unfold PDFEditor.createTextBox. cbn [fst]. apply pagesOk_pushUndo. exact Hok.
  - exact Hok.
  - exact Hok.
  - unfold PDFAnnotate.annotClickHandler. destruct (negb onOverlay); [exact Hok|].
    destruct (_ =? 0); exact Hok.
  - unfold PDFAnnotate.stickyClickHandler. destruct (negb onOverlay); [exact Hok|].
    destruct (_ =? 0); exact Hok.
  - exact Hok.
  - exact Hok.
  - exact Hok.
Qed.

End PagesEvents.

(** The wrappers of the active document are in step with it. *)
Lemma inStep_wrappersOf s doc tracking top height geometry :
  PDFViewer.getActiveDoc s = Some doc ->
  inStep s (EvScroll tracking top height (wrappersOf doc geometry)) = true.
Proof.
  intros Hdoc. unfold inStep. rewrite Hdoc. apply forallb_forall. intros w Hw.
  apply list_elem_of_In, wrappersOf_page in Hw.
  apply andb_true_intro. split; apply Z.leb_le; lia.
Qed.


Lemma demoEngine_opensNoEmptyDocument : opensNoEmptyDocument demoEngine.
Proof.
  intros b pdf Hget. simpl in Hget. unfold demoDecode in Hget.
  destruct b as [|c b]; [discriminate|]. injection Hget as <-. discriminate.
Qed.


(** A scroll event out of step.  Two documents are open, of 3 pages and
    of 1 page; the user switches to the first and at once to the second.
    [switchToDocument] does not await [renderAllPages], so both renders
    fill the render area: beside the wrapper of the active 1-page
    document it holds the three of the other.  The scroll listener then
    makes page 3 current in the 1-page session. *)
Example stale_wrapper_sets_a_page_outside_the_document :
  let s := handleAll (H := demoEngine) PDFEditor.exports Continuous
             [EvCommand (CmdLoadPDF threePages "a.pdf");
              EvCommand (CmdLoadPDF [x00] "c.pdf");
              EvCommand (CmdSwitchToDocument 1);
              EvCommand (CmdSwitchToDocument 2);
              EvScroll true 0 800 [PDFViewer.mkWrapper 1 (-2400) 792;
                                   PDFViewer.mkWrapper 1 (-1600) 792;
                                   PDFViewer.mkWrapper 2 (-800) 792;
                                   PDFViewer.mkWrapper 3 0 792]]
             demoStart in
  (fun d => (docName d, pageCount d, currentPage d)) <$> PDFViewer.getActiveDoc s =
  Some ("c.pdf", 1, 3).
Proof. vm_compute. reflexivity. Qed.

(** X3.  With scroll tracking on and at least one page wrapper in the
    render area, the scroll listener makes current the page of the first
    wrapper whose middle is nearest to the middle of the viewport: no
    wrapper is nearer and every earlier wrapper is farther.  With scroll
    tracking off it changes nothing. *)
Theorem onScroll_selects_nearest_wrapper (viewportTop viewportHeight : Q)
        (wrappers : list PDFViewer.Wrapper) (s : State) (doc : Doc) :
  PDFViewer.getActiveDoc s = Some doc ->
  wrappers <> [] ->
  let mid := (viewportTop + viewportHeight / 2)%Q in
  let s' := PDFViewer.onScroll true viewportTop viewportHeight wrappers s in
  (exists (i : nat) w,
      wrappers !! i = Some w
      /\ currentPage <$> PDFViewer.getActiveDoc s' = Some (PDFViewer.wrapperPage w)
      /\ (forall j w', wrappers !! j = Some w' ->
                       (PDFViewer.wrapperDist mid w <= PDFViewer.wrapperDist mid w')%Q)
      /\ (forall j w', (j < i)%nat -> wrappers !! j = Some w' ->
                       (PDFViewer.wrapperDist mid w < PDFViewer.wrapperDist mid w')%Q))
  /\ PDFViewer.onScroll false viewportTop viewportHeight wrappers s = s.
Proof.
  intros Hdoc Hne mid s'. split; [|reflexivity].
  destruct (foldl_scrollStep_spec mid wrappers Hne) as (i & w & Hw & Hfold & Hmin & Hfirst).
  exists i, w. split; [exact Hw|]. split; [|split; assumption].
  unfold s', PDFViewer.onScroll. cbn [negb]. rewrite Hdoc.
  destruct (Z.eqb_spec (len wrappers) 0) as [Hz|_];
    [apply len_nil_iff in Hz; contradiction|].
  unfold PDFViewer.closestPage. fold mid. rewrite Hfold. cbn [fst].
  destruct (Z.eqb_spec (PDFViewer.wrapperPage w) (currentPage doc)) as [Heq|_].
  - rewrite Hdoc. simpl. congruence.
  - rewrite getActiveDoc_updateActiveDoc, Hdoc. reflexivity.
Qed.

Lemma onScroll_selects_nearest_wrapper_witness :
  let wrappers := [PDFViewer.mkWrapper 1 (-900) 792;
                   PDFViewer.mkWrapper 2 (-100) 792;
                   PDFViewer.mkWrapper 3 700 792] in
  PDFViewer.getActiveDoc demoOne = Some demoDocA
  /\ wrappers <> []
  /\ currentPage <$> PDFViewer.getActiveDoc (PDFViewer.onScroll true 0 800 wrappers demoOne)
     = Some 2.
Proof.
  intros wrappers.
  assert (Hdoc : PDFViewer.getActiveDoc demoOne = Some demoDocA)
    by (vm_compute; reflexivity).
  assert (Hne : wrappers <> []) by discriminate.
  split; [exact Hdoc|]. split; [exact Hne|].
  destruct (onScroll_selects_nearest_wrapper 0 800 wrappers demoOne demoDocA Hdoc Hne)
    as ((i & w & Hw & Hpage & Hmin & _) & _).
  vm_compute. reflexivity.
Defined.

(** ** Navigation *)

Lemma mutate_at_id {A} (f : A -> A) (l : list A) (i : Z) (x : A) :
  at_index l i = Some x -> f x = x -> mutate_at f l i = l.
Proof.
  intros Hx Hf. apply at_index_Some in Hx. destruct Hx as (Hi & Hx).
  unfold mutate_at. destruct (0 <=? i); [|reflexivity].
  apply list_eq. intros n. destruct (decide (n = Z.to_nat i)) as [->|Hn].
  - rewrite list_lookup_alter_eq, Hx. simpl. rewrite Hf. reflexivity.
  - rewrite list_lookup_alter_ne by congruence. reflexivity.
Qed.

Lemma updateActiveDoc_id (f : Doc -> Doc) s doc :
  PDFViewer.getActiveDoc s = Some doc -> f doc = doc ->
  PDFViewer.updateActiveDoc f s = s.
Proof.
  intros Hdoc Hf. rewrite getActiveDoc_at_index in Hdoc.
  unfold PDFViewer.updateActiveDoc, with_viewer.
  rewrite (mutate_at_id f _ _ doc Hdoc Hf).
  destruct s as [[docs idx next] e r a d l]. reflexivity.
Qed.

(** X4.  While the current page is inside the document, [nextPage] and
    [prevPage] undo each other: from a page that is not the last, next
    then previous gives back the very same state, and from a page that
    is not the first so does previous then next; at the last page
    [nextPage], and at the first page [prevPage], change nothing. *)
Theorem nextPage_prevPage_roundtrip (s : State) (doc : Doc) :
  PDFViewer.getActiveDoc s = Some doc ->
  1 <= currentPage doc <= pageCount doc ->
  (currentPage doc < pageCount doc ->
   PDFViewer.prevPage (PDFViewer.nextPage s) = s)
  /\ (1 < currentPage doc -> PDFViewer.nextPage (PDFViewer.prevPage s) = s)
  /\ (currentPage doc = pageCount doc -> PDFViewer.nextPage s = s)
  /\ (currentPage doc = 1 -> PDFViewer.prevPage s = s).
Proof.
  intros Hdoc Hrange.
  assert (Hgo : forall p, 1 <= p <= pageCount doc ->
                PDFViewer.getActiveDoc (PDFViewer.goToPage p s) =
                  Some (set_currentPage p doc)
                /\ PDFViewer.goToPage (currentPage doc) (PDFViewer.goToPage p s) = s).
  { intros p Hp. unfold PDFViewer.goToPage at 1 3. rewrite Hdoc.
    replace (Z.max 1 (Z.min (pageCount doc) p)) with p by lia.
    assert (Hact : PDFViewer.getActiveDoc
                     (PDFViewer.updateActiveDoc (set_currentPage p) s) =
                   Some (set_currentPage p doc))
      by (rewrite getActiveDoc_updateActiveDoc, Hdoc; reflexivity).
    split; [exact Hact|].
    unfold PDFViewer.goToPage. rewrite Hact. cbn [set_currentPage pageCount].
    replace (Z.max 1 (Z.min (pageCount doc) (currentPage doc)))
      with (currentPage doc) by lia.
    rewrite updateActiveDoc_compose.
    apply (updateActiveDoc_id _ s doc Hdoc). destruct doc; reflexivity. }
  split; [|split; [|split]].
  - intros Hlt. unfold PDFViewer.nextPage. rewrite Hdoc.
    destruct (Z.ltb_spec (currentPage doc) (pageCount doc)); [|lia].
    destruct (Hgo (currentPage doc + 1)) as (Hact & Hback); [lia|].
    unfold PDFViewer.prevPage. rewrite Hact. cbn [set_currentPage currentPage].
    destruct (Z.gtb_spec (currentPage doc + 1) 1); [|lia].
    replace (currentPage doc + 1 - 1) with (currentPage doc) by lia.
    exact Hback.
  - intros Hgt. unfold PDFViewer.prevPage. rewrite Hdoc.
    destruct (Z.gtb_spec (currentPage doc) 1); [|lia].
    destruct (Hgo (currentPage doc - 1)) as (Hact & Hback); [lia|].
    unfold PDFViewer.nextPage. rewrite Hact.
    cbn [set_currentPage currentPage pageCount].
    destruct (Z.ltb_spec (currentPage doc - 1) (pageCount doc)); [|lia].
    replace (currentPage doc - 1 + 1) with (currentPage doc) by lia.
    exact Hback.
  - intros Heq. unfold PDFViewer.nextPage. rewrite Hdoc.
    destruct (Z.ltb_spec (currentPage doc) (pageCount doc)); [lia | reflexivity].
  - intros Heq. unfold PDFViewer.prevPage. rewrite Hdoc.
    destruct (Z.gtb_spec (currentPage doc) 1); [lia | reflexivity].
Qed.

Lemma nextPage_prevPage_roundtrip_witness :
  PDFViewer.getActiveDoc demoOne = Some demoDocA
  /\ 1 <= currentPage demoDocA <= pageCount demoDocA
  /\ PDFViewer.prevPage (PDFViewer.nextPage demoOne) = demoOne.
Proof.
  assert (Hdoc : PDFViewer.getActiveDoc demoOne = Some demoDocA)
    by (vm_compute; reflexivity).
  assert (Hrange : 1 <= currentPage demoDocA <= pageCount demoDocA)
    by (simpl; lia).
  split; [exact Hdoc|]. split; [exact Hrange|].
  apply (proj1 (nextPage_prevPage_roundtrip demoOne demoDocA Hdoc Hrange)).
  simpl. lia.
Defined.

(** ** Page selection from the thumbnails *)

Lemma updateActiveDoc_involution (f : Doc -> Doc) s doc :
  PDFViewer.getActiveDoc s = Some doc ->
  (forall d, f (f d) = d) ->
  PDFViewer.updateActiveDoc f (PDFViewer.updateActiveDoc f s) = s.
Proof.
  intros Hdoc Hf. rewrite updateActiveDoc_compose.
  apply (updateActiveDoc_id _ s doc Hdoc). apply Hf.
Qed.

Lemma thumbnailClick_ctrl_involution (pageNum : Z) (s : State) :
  PDFViewer.thumbnailClick true pageNum (PDFViewer.thumbnailClick true pageNum s) = s.
Proof.
  unfold PDFViewer.thumbnailClick at 2.
  destruct (PDFViewer.getActiveDoc s) as [doc|] eqn:Hdoc.
  - destruct (PDFViewer.hasThumbnail doc pageNum) eqn:Hhas; cbn [negb].
    + set (toggle := fun d : Doc => if decide (pageNum ∈ selectedPages d)
                                    then set_selectedPages (selectedPages d ∖ {[pageNum]}) d
                                    else set_selectedPages (selectedPages d ∪ {[pageNum]}) d).
      unfold PDFViewer.thumbnailClick.
      rewrite getActiveDoc_updateActiveDoc, Hdoc. cbn [fmap option_fmap option_map].
      replace (PDFViewer.hasThumbnail (toggle doc) pageNum) with true
        by (unfold toggle; destruct (decide _); symmetry; exact Hhas).
      cbn [negb]. fold toggle. apply (updateActiveDoc_involution _ s doc Hdoc).
      intros [i n p b c cp z th sel]. unfold toggle. cbn [selectedPages].
      destruct (decide (pageNum ∈ sel)) as [Hin|Hout];
        unfold set_selectedPages;
        cbn [selectedPages docId docName pdfDoc pdfBytes pageCount
             currentPage zoom thumbnails].
      * rewrite decide_False.
        2:{ intros Hx. apply elem_of_difference in Hx. destruct Hx as (_ & Hx).
            apply Hx, elem_of_singleton. reflexivity. }
        cbn [selectedPages docId docName pdfDoc pdfBytes pageCount
             currentPage zoom thumbnails].
        f_equal. apply set_eq. intros x.
        rewrite elem_of_union, elem_of_difference, elem_of_singleton.
        destruct (decide (x = pageNum)) as [->|Hx]; tauto.
      * rewrite decide_True
          by (apply elem_of_union; right; apply elem_of_singleton; reflexivity).
        cbn [selectedPages docId docName pdfDoc pdfBytes pageCount
             currentPage zoom thumbnails].
        f_equal. apply set_eq. intros x.
        rewrite elem_of_difference, elem_of_union, elem_of_singleton.
        destruct (decide (x = pageNum)) as [->|Hx]; tauto.
    + unfold PDFViewer.thumbnailClick. rewrite Hdoc, Hhas. reflexivity.
  - unfold PDFViewer.thumbnailClick. rewrite Hdoc. reflexivity.
Qed.

(** X5.  A ctrl-click on the thumbnail of page [pageNum] toggles that
    page in the selection of the active session and changes nothing else:
    the page is selected afterwards exactly when it was not before, every
    other page keeps its status, and putting the old selection back gives
    the old state (current page, zoom, the other sessions, the history
    and the stores are untouched).  A second ctrl-click on the same
    thumbnail gives back the very same state. *)
Theorem thumbnailClick_ctrl_toggles (pageNum : Z) (s : State) (doc : Doc) :
  PDFViewer.getActiveDoc s = Some doc ->
  1 <= pageNum <= len (thumbnails doc) ->
  let s1 := PDFViewer.thumbnailClick true pageNum s in
  (exists doc1,
     PDFViewer.getActiveDoc s1 = Some doc1
     /\ (pageNum ∈ selectedPages doc1 <-> pageNum ∉ selectedPages doc)
     /\ (forall p, p <> pageNum ->
                   (p ∈ selectedPages doc1 <-> p ∈ selectedPages doc)))
  /\ PDFViewer.updateActiveDoc (set_selectedPages (selectedPages doc)) s1 = s
  /\ PDFViewer.thumbnailClick true pageNum s1 = s.
Proof.
  intros Hdoc Hrange s1.
  assert (Hhas : PDFViewer.hasThumbnail doc pageNum = true).
  { unfold PDFViewer.hasThumbnail. apply andb_true_intro. split; apply Z.leb_le; lia. }
  split; [|split; [|apply thumbnailClick_ctrl_involution]].
  - unfold s1, PDFViewer.thumbnailClick. rewrite Hdoc, Hhas. cbn [negb].
    rewrite getActiveDoc_updateActiveDoc, Hdoc. cbn [fmap option_fmap option_map].
    eexists. split; [reflexivity|].
    destruct (decide (pageNum ∈ selectedPages doc)) as [Hin|Hout];
      unfold set_selectedPages; cbn [selectedPages]; split.
    + rewrite elem_of_difference, elem_of_singleton. tauto.
    + intros p Hp. rewrite elem_of_difference, elem_of_singleton. tauto.
    + rewrite elem_of_union, elem_of_singleton. tauto.
    + intros p Hp. rewrite elem_of_union, elem_of_singleton. tauto.
  - unfold s1, PDFViewer.thumbnailClick. rewrite Hdoc, Hhas. cbn [negb].
    rewrite updateActiveDoc_compose.
    apply (updateActiveDoc_id _ s doc Hdoc).
    unfold compose. destruct doc as [i n p b c cp z th sel]. cbn [selectedPages].
    destruct (decide (pageNum ∈ sel)); reflexivity.
Qed.

Lemma thumbnailClick_ctrl_toggles_witness :
  let s := PDFViewer.thumbnailClick true 3 demoOne in
  let s1 := PDFViewer.thumbnailClick true 2 s in
  PDFViewer.getSelectedPages s = [3]
  /\ PDFViewer.getSelectedPages s1 = [2; 3]
  /\ PDFViewer.getSelectedPages (PDFViewer.thumbnailClick true 3 s1) = [2]
  /\ PDFViewer.thumbnailClick true 2 s1 = s.
Proof.
  intros s s1.
  split; [vm_compute; reflexivity|].
  split; [vm_compute; reflexivity|].
  split; [vm_compute; reflexivity|].
  set (doc := mkDoc 1 "a.pdf" [blankPage; blankPage; blankPage] threePages 3 1 1
                    [1; 2; 3] {[3]}).
  assert (Hdoc : PDFViewer.getActiveDoc s = Some doc) by (vm_compute; reflexivity).
  assert (Hrange : 1 <= 2 <= len (thumbnails doc)) by (vm_compute; split; discriminate).
  exact (proj2 (proj2 (thumbnailClick_ctrl_toggles 2 s doc Hdoc Hrange))).
Defined.

Lemma getSelectedPages_active s doc :
  PDFViewer.getActiveDoc s = Some doc ->
  PDFViewer.getSelectedPages s = merge_sort Z.le (elements (selectedPages doc)).
Proof. intros Hdoc. unfold PDFViewer.getSelectedPages. rewrite Hdoc. reflexivity. Qed.

Lemma elem_of_getSelectedPages (s : State) (doc : Doc) (p : Z) :
  PDFViewer.getActiveDoc s = Some doc ->
  p ∈ PDFViewer.getSelectedPages s <-> p ∈ selectedPages doc.
Proof.
  intros Hdoc. rewrite (getSelectedPages_active s doc Hdoc).
  rewrite (merge_sort_Permutation Z.le (elements (selectedPages doc))).
  apply elem_of_elements.
Qed.

(** X6.  What [getSelectedPages] hands to the page tools: the selected
    page numbers, each once, in ascending order. *)
Theorem getSelectedPages_sorted_selection (s : State) (doc : Doc) :
  PDFViewer.getActiveDoc s = Some doc ->
  StronglySorted Z.le (PDFViewer.getSelectedPages s)
  /\ NoDup (PDFViewer.getSelectedPages s)
  /\ (forall p, p ∈ PDFViewer.getSelectedPages s <-> p ∈ selectedPages doc)
  /\ len (PDFViewer.getSelectedPages s) = Z.of_nat (size (selectedPages doc)).
Proof.
  intros Hdoc.
  split; [|split; [|split]].
  - rewrite (getSelectedPages_active s doc Hdoc).
    apply StronglySorted_merge_sort.
    + intros x y z. apply Z.le_trans.
    + intros x y. lia.
  - rewrite (getSelectedPages_active s doc Hdoc).
    rewrite (merge_sort_Permutation Z.le (elements (selectedPages doc))).
    apply NoDup_elements.
  - intros p. apply elem_of_getSelectedPages. exact Hdoc.
  - rewrite (getSelectedPages_active s doc Hdoc). unfold len.
    rewrite (merge_sort_Permutation Z.le (elements (selectedPages doc))).
    reflexivity.
Qed.

Lemma getSelectedPages_sorted_selection_witness :
  PDFViewer.getActiveDoc (PDFViewer.thumbnailClick true 1
                            (PDFViewer.thumbnailClick true 3 demoOne)) =
    Some (set_selectedPages {[3; 1]} demoDocA)
  /\ PDFViewer.getSelectedPages (PDFViewer.thumbnailClick true 1
                                   (PDFViewer.thumbnailClick true 3 demoOne)) = [1; 3]
  /\ StronglySorted Z.le
       (PDFViewer.getSelectedPages (PDFViewer.thumbnailClick true 1
                                      (PDFViewer.thumbnailClick true 3 demoOne))).
Proof.
  assert (Hdoc : PDFViewer.getActiveDoc (PDFViewer.thumbnailClick true 1
                                           (PDFViewer.thumbnailClick true 3 demoOne)) =
                 Some (set_selectedPages {[3; 1]} demoDocA))
    by (vm_compute; reflexivity).
  split; [exact Hdoc|]. split; [vm_compute; reflexivity|].
  exact (proj1 (getSelectedPages_sorted_selection _ _ Hdoc)).
Defined.

Lemma getActiveDoc_goToPage page s doc :
  PDFViewer.getActiveDoc s = Some doc ->
  PDFViewer.getActiveDoc (PDFViewer.goToPage page s) =
    Some (set_currentPage (Z.max 1 (Z.min (pageCount doc) page)) doc).
Proof.
  intros Hdoc. unfold PDFViewer.goToPage. rewrite Hdoc.
  rewrite getActiveDoc_updateActiveDoc, Hdoc. reflexivity.
Qed.

(** X7.  A right-click on a thumbnail outside the selection replaces the
    selection by that page; on a thumbnail inside the selection it keeps
    the selection.  Either way the page tools then receive a list that
    holds the clicked page, and the clicked page is the current one when
    the document has that page. *)
Theorem thumbnailContextMenu_selection (pageNum : Z) (s : State) (doc : Doc) :
  PDFViewer.getActiveDoc s = Some doc ->
  PDFViewer.hasThumbnail doc pageNum = true ->
  let s' := PDFViewer.thumbnailContextMenu pageNum s in
  (pageNum ∉ selectedPages doc -> PDFViewer.getSelectedPages s' = [pageNum])
  /\ (pageNum ∈ selectedPages doc ->
      PDFViewer.getSelectedPages s' = PDFViewer.getSelectedPages s)
  /\ pageNum ∈ PDFViewer.getSelectedPages s'
  /\ (pageNum <= pageCount doc ->
      currentPage <$> PDFViewer.getActiveDoc s' = Some pageNum).
Proof.
  intros Hdoc Hhas s'.
  set (pick := fun d : Doc => if decide (pageNum ∈ selectedPages d) then d
                              else set_selectedPages (∅ ∪ {[pageNum]}) d).
  assert (Hs' : PDFViewer.getActiveDoc s' =
                Some (set_currentPage (Z.max 1 (Z.min (pageCount (pick doc)) pageNum))
                                      (pick doc))).
  { unfold s', PDFViewer.thumbnailContextMenu. rewrite Hdoc, Hhas. cbn [negb].
    apply getActiveDoc_goToPage. rewrite getActiveDoc_updateActiveDoc, Hdoc.
    reflexivity. }
  assert (Hout : pageNum ∉ selectedPages doc ->
                 PDFViewer.getSelectedPages s' = [pageNum]).
  { intros Hnot. rewrite (getSelectedPages_active _ _ Hs'). unfold pick.
    rewrite decide_False by exact Hnot. cbn [set_currentPage set_selectedPages selectedPages].
    rewrite (left_id_L ∅ (∪)), elements_singleton. reflexivity. }
  assert (Hin : pageNum ∈ selectedPages doc ->
                PDFViewer.getSelectedPages s' = PDFViewer.getSelectedPages s).
  { intros Hsel. rewrite (getSelectedPages_active _ _ Hs'),
      (getSelectedPages_active _ _ Hdoc). unfold pick.
    rewrite decide_True by exact Hsel. reflexivity. }
  split; [exact Hout|]. split; [exact Hin|]. split.
  - destruct (decide (pageNum ∈ selectedPages doc)) as [Hsel|Hnot].
    + rewrite (Hin Hsel).
      apply (elem_of_getSelectedPages s doc pageNum Hdoc). exact Hsel.
    + rewrite (Hout Hnot). apply elem_of_cons. left. reflexivity.
  - intros Hle. rewrite Hs'. cbn [fmap option_fmap option_map]. f_equal.
    unfold PDFViewer.hasThumbnail in Hhas. apply andb_prop in Hhas.
    destruct Hhas as (H1 & _). apply Z.leb_le in H1.
    assert (Hpc : pageCount (pick doc) = pageCount doc)
      by (unfold pick; destruct (decide _); reflexivity).
    cbn [set_currentPage currentPage]. rewrite Hpc. lia.
Qed.

Lemma thumbnailContextMenu_selection_witness :
  PDFViewer.getActiveDoc demoOne = Some demoDocA
  /\ PDFViewer.hasThumbnail demoDocA 2 = true
  /\ PDFViewer.getSelectedPages (PDFViewer.thumbnailContextMenu 2 demoOne) = [2].
Proof.
  assert (Hdoc : PDFViewer.getActiveDoc demoOne = Some demoDocA)
    by (vm_compute; reflexivity).
  assert (Hhas : PDFViewer.hasThumbnail demoDocA 2 = true) by reflexivity.
  split; [exact Hdoc|]. split; [exact Hhas|].
  apply (proj1 (thumbnailContextMenu_selection 2 demoOne demoDocA Hdoc Hhas)).
  apply not_elem_of_empty.
Defined.

(** X8.  After Select All the delete-page command is always refused:
    the selection then holds at least as many pages as the document has,
    so only the 'Cannot delete all pages.' dialog is shown, whatever the
    answer to the confirmation would have been. *)
Theorem selectAll_then_deletePage_refused `{Engine} (ver : Version)
        (confirmed : bool) (s : State) (doc : Doc) :
  PDFViewer.getActiveDoc s = Some doc ->
  App.deletePage ver confirmed (PDFEditor.selectAllPages s) =
  UI.showDialog CannotDeleteAll (PDFEditor.selectAllPages s).
Proof.
  intros Hdoc.
  set (all := fun d : Doc =>
                set_selectedPages
                  (selectedPages d ∪ list_to_set (seqZ 1 (pageCount doc))) d).
  assert (Hs1 : PDFViewer.getActiveDoc (PDFEditor.selectAllPages s) = Some (all doc)).
  { unfold PDFEditor.selectAllPages. rewrite Hdoc.
    rewrite getActiveDoc_updateActiveDoc, Hdoc. reflexivity. }
  unfold App.deletePage. rewrite Hs1.
  set (selected := PDFViewer.getSelectedPages (PDFEditor.selectAllPages s)).
  assert (Hsize : pageCount doc <= len selected \/ pageCount doc <= 0).
  { destruct (Z.le_gt_cases (pageCount doc) 0) as [|Hpos]; [right; assumption|left].
    unfold selected, len.
    rewrite (getSelectedPages_active _ _ Hs1), merge_sort_Permutation.
    change (length (elements (selectedPages (all doc))))
      with (size (selectedPages (all doc))).
    assert (Hsub : (list_to_set (seqZ 1 (pageCount doc)) : gset Z)
                   ⊆ selectedPages (all doc))
      by (unfold all; cbn [set_selectedPages selectedPages]; apply union_subseteq_r).
    apply subseteq_size in Hsub.
    rewrite size_list_to_set in Hsub by apply NoDup_seqZ.
    rewrite length_seqZ in Hsub. lia. }
  assert (Hlen : len (if len selected >? 0 then selected else [currentPage (all doc)])
                 >= pageCount (all doc)).
  { change (pageCount (all doc)) with (pageCount doc).
    destruct (Z.gtb_spec (len selected) 0) as [Hs|Hs].
    - lia.
    - change (len [currentPage (all doc)]) with 1. pose proof (len_nonneg selected). lia. }
  apply Z.ge_le, Z.geb_le in Hlen. rewrite Hlen. reflexivity.
Qed.

Lemma selectAll_then_deletePage_refused_witness :
  PDFViewer.getActiveDoc demoOne = Some demoDocA
  /\ dialogs (dom (App.deletePage (H := demoEngine) Continuous true
                     (PDFEditor.selectAllPages demoOne))) = [CannotDeleteAll].
Proof.
  assert (Hdoc : PDFViewer.getActiveDoc demoOne = Some demoDocA)
    by (vm_compute; reflexivity).
  split; [exact Hdoc|].
  rewrite (selectAll_then_deletePage_refused (H := demoEngine) Continuous true
             demoOne demoDocA Hdoc).
  reflexivity.
Defined.

(** ** Deleting pages *)

Lemma withoutPages_none (l : list Z) : forall (pages : list Page) (i : Z),
  (forall p, p ∈ l -> p < i \/ i + len pages <= p) ->
  withoutPages l i pages = pages.
Proof.
  induction pages as [|x pages IH]; intros i Hl; [reflexivity|]. simpl.
  unfold len in Hl. simpl length in Hl.
  rewrite decide_False by (intros Hin; specialize (Hl i Hin); lia).
  rewrite IH; [reflexivity|]. intros p Hp. specialize (Hl p Hp). unfold len. lia.
Qed.

Lemma withoutPages_delete (p : Z) (rest : list Z) : forall (pages : list Page) (i : Z),
  i <= p < i + len pages ->
  (forall q, q ∈ rest -> q < p) ->
  withoutPages (p :: rest) i pages =
  withoutPages rest i (delete (Z.to_nat (p - i)) pages).
Proof.
  induction pages as [|x pages IH]; intros i Hp Hrest.
  - unfold len in Hp. simpl in Hp. lia.
  - unfold len in Hp. simpl length in Hp. simpl withoutPages at 1.
    destruct (Z.eq_dec i p) as [->|Hne].
    + rewrite decide_True by (apply elem_of_cons; left; reflexivity).
      replace (Z.to_nat (p - p)) with 0%nat by lia. simpl delete.
      rewrite withoutPages_none.
      * symmetry. apply withoutPages_none. intros q Hq. left. apply Hrest, Hq.
      * intros q Hq. left. apply elem_of_cons in Hq.
        destruct Hq as [->|Hq]; [lia | specialize (Hrest q Hq); lia].
    + replace (Z.to_nat (p - i)) with (S (Z.to_nat (p - (i + 1)))) by lia.
      simpl delete. cbn [withoutPages].
      rewrite <- IH by (unfold len; first [lia | exact Hrest]).
      destruct (decide (i ∈ p :: rest)) as [Hin|Hout];
        destruct (decide (i ∈ rest)) as [Hin'|Hout']; try reflexivity.
      * apply elem_of_cons in Hin. destruct Hin; [congruence | contradiction].
      * exfalso. apply Hout. apply elem_of_cons. right. exact Hin'.
Qed.

Lemma removePages_descending (l : list Z) : forall (pages : list Page),
  StronglySorted Z.gt l ->
  Forall (fun p => 1 <= p <= len pages) l ->
  removePages l pages = Some (withoutPages l 1 pages).
Proof.
  induction l as [|p rest IH]; intros pages Hsorted Hrange.
  - simpl. rewrite withoutPages_none; [reflexivity|]. intros p Hp.
    apply elem_of_nil in Hp. contradiction.
  - apply StronglySorted_inv in Hsorted. destruct Hsorted as (Hs & Hgt).
    apply Forall_cons in Hrange. destruct Hrange as (Hp & Hrange).
    rewrite Forall_forall in Hgt, Hrange.
    simpl. unfold removePage.
    destruct (Z.leb_spec 0 (p - 1)); [|lia].
    destruct (Z.ltb_spec (p - 1) (len pages)); [|lia]. cbn [andb].
    assert (Hlen : len (delete (Z.to_nat (p - 1)) pages) = len pages - 1).
    { unfold len in *. rewrite length_delete; [lia|]. apply lookup_lt_is_Some. lia. }
    rewrite IH.
    + f_equal. symmetry. apply withoutPages_delete; [lia|].
      intros q Hq. specialize (Hgt q Hq). lia.
    + exact Hs.
    + apply Forall_forall. intros q Hq.
      specialize (Hgt q Hq). specialize (Hrange q Hq). lia.
Qed.

Lemma withoutPages_Permutation (l l' : list Z) :
  l ≡ₚ l' -> forall (pages : list Page) (i : Z),
  withoutPages l i pages = withoutPages l' i pages.
Proof.
  intros Hperm. induction pages as [|x pages IH]; intros i; [reflexivity|]. simpl.
  rewrite IH.
  destruct (decide (i ∈ l)) as [Hin|Hout]; destruct (decide (i ∈ l')) as [Hin'|Hout'];
    try reflexivity.
  - exfalso. apply Hout'. rewrite <- Hperm. exact Hin.
  - exfalso. apply Hout. rewrite Hperm. exact Hin'.
Qed.

Lemma descending_strict (l : list Z) :
  NoDup l -> StronglySorted Z.ge l -> StronglySorted Z.gt l.
Proof.
  induction l as [|p l IH]; intros Hnd Hs; [constructor|].
  apply NoDup_cons in Hnd. destruct Hnd as (Hnotin & Hnd).
  apply StronglySorted_inv in Hs. destruct Hs as (Hs & Hge).
  constructor; [apply IH; assumption|].
  rewrite Forall_forall in *. intros q Hq. specialize (Hge q Hq).
  assert (q <> p) by (intros ->; contradiction). lia.
Qed.

Lemma removePages_sorted_spec (pageNums : list Z) (pages : list Page) :
  NoDup pageNums ->
  Forall (fun p => 1 <= p <= len pages) pageNums ->
  removePages (merge_sort Z.ge pageNums) pages = Some (withoutPages pageNums 1 pages).
Proof.
  intros Hnd Hrange.
  pose proof (merge_sort_Permutation Z.ge pageNums) as Hperm.
  rewrite removePages_descending.
  - f_equal. apply withoutPages_Permutation. exact Hperm.
  - apply descending_strict.
    + rewrite Hperm. exact Hnd.
    + apply StronglySorted_merge_sort.
      * intros x y z. lia.
      * intros x y. lia.
  - rewrite Hperm. exact Hrange.
Qed.

Lemma removePages_len (l : list Z) : forall (pages pages' : list Page),
  removePages l pages = Some pages' ->
  len pages' = len pages - len l
  /\ Forall (fun p => 1 <= p <= len pages) l.
Proof.
  induction l as [|p rest IH]; intros pages pages' Hrem; simpl in Hrem.
  - injection Hrem as <-. unfold len. simpl. split; [lia | constructor].
  - unfold removePage in Hrem.
    destruct (Z.leb_spec 0 (p - 1)); [|discriminate].
    destruct (Z.ltb_spec (p - 1) (len pages)); [|discriminate]. cbn [andb] in Hrem.
    destruct (IH _ _ Hrem) as (Hlen & Hrange).
    assert (Hdel : len (delete (Z.to_nat (p - 1)) pages) = len pages - 1).
    { unfold len in *. rewrite length_delete; [lia|]. apply lookup_lt_is_Some. lia. }
    split.
    + rewrite Hlen, Hdel. unfold len. simpl length. lia.
    + constructor; [lia|]. eapply Forall_impl; [exact Hrange|].
      intros q Hq. simpl in Hq. lia.
Qed.

Section PageTree.
Context `{Engine}.
Variable ver : Version.

(** What a commit leaves once the pages [pages'] are saved, the snapshot
    action [act] pushed and the document refreshed. *)
Lemma commit_effect (s : State) (doc : Doc) (pages' : list Page) (act : UndoAction)
      (k : option Z) (d : Dialog) :
  PDFViewer.getActiveDoc s = Some doc ->
  let s0 := PDFEditor.pushUndo act
              (logCall (CallSave pages') (logCall (CallLoad (pdfBytes doc)) s)) in
  let s' := match PDFViewer.refreshDocument ver (PDFDocument_save pages') k s0 with
            | Returned s1 => s1
            | Threw s1 => UI.showDialog d s1
            end in
  lastSaved s' = Some pages'
  /\ (exists rest, pop (undoStack (editor s')) = Some (act, rest))
  /\ redoStack (editor s') = [].
Proof.
  intros Hdoc s0 s'.
  set (sl := logCall (CallSave pages') (logCall (CallLoad (pdfBytes doc)) s)) in *.
  destruct (pushUndo_frame act sl) as (Hv & _ & Hl).
  assert (Hdoc0 : PDFViewer.getActiveDoc s0 = Some doc).
  { rewrite (getActiveDoc_viewer s0 s); [exact Hdoc|]. unfold s0. rewrite Hv. reflexivity. }
  pose proof (refreshDocument_log ver (PDFDocument_save pages') k s0 doc Hdoc0) as Hlog.
  pose proof (editor_refreshDocument ver (PDFDocument_save pages') k s0) as Hed.
  assert (Hs' : engineLog s' = engineLog s ++ [CallLoad (pdfBytes doc)]
                                 ++ CallSave pages' :: [CallGetDocument (PDFDocument_save pages')]
                /\ editor s' = editor s0).
  { unfold s'. destruct (PDFViewer.refreshDocument ver _ k s0) as [s1|s1];
      simpl in Hlog, Hed; cbn [UI.showDialog with_dom engineLog editor];
      rewrite Hlog, Hed; (split; [|reflexivity]);
      unfold s0; rewrite Hl; unfold sl, logCall, push; cbn [engineLog];
      rewrite <- !app_assoc; reflexivity. }
  destruct Hs' as (Hlog' & Hed').
  split; [|split].
  - eapply (lastSaved_after (engineLog s ++ [CallLoad (pdfBytes doc)])
                            [CallGetDocument _]); [|reflexivity].
    rewrite Hlog', <- app_assoc. reflexivity.
  - rewrite Hed'. apply pushUndo_pop.
  - rewrite Hed'. apply pushUndo_redoStack.
Qed.

(** X9.  [deletePages] on distinct page numbers of the document, fewer
    than the document has pages: the pages handed to [save()] are the
    loaded pages without the listed ones, in their old order (the
    descending order of removal keeps the remaining indexes right), and
    one 'delete' action holding the old bytes is on top of the undo
    stack, the redo stack being empty. *)
Theorem deletePages_removes_listed_pages (s : State) (doc : Doc)
        (pageNums : list Z) (pages : list Page) :
  PDFViewer.getActiveDoc s = Some doc ->
  PDFDocument_load (pdfBytes doc) = Some pages ->
  pageNums <> [] ->
  NoDup pageNums ->
  Forall (fun p => 1 <= p <= len pages) pageNums ->
  len pageNums < pageCount doc ->
  let s' := PDFEditor.deletePages ver pageNums s in
  lastSaved s' = Some (withoutPages pageNums 1 pages)
  /\ len (withoutPages pageNums 1 pages) = len pages - len pageNums
  /\ (exists rest, pop (undoStack (editor s')) =
                   Some (mkAction "delete" None (Some (pdfBytes doc)), rest))
  /\ redoStack (editor s') = [].
Proof.
  intros Hdoc Hload Hne Hnd Hrange Hlt s'.
  pose proof (removePages_sorted_spec pageNums pages Hnd Hrange) as Hrem.
  pose proof (removePages_len _ _ _ Hrem) as (Hlen & _).
  assert (Hs' : s' = match PDFViewer.refreshDocument ver
                             (PDFDocument_save (withoutPages pageNums 1 pages)) None
                             (PDFEditor.pushUndo
                                (mkAction "delete" None (Some (pdfBytes doc)))
                                (logCall (CallSave (withoutPages pageNums 1 pages))
                                         (logCall (CallLoad (pdfBytes doc)) s))) with
                     | Returned s1 => s1
                     | Threw s1 => UI.showDialog DeleteFailed s1
                     end).
  { unfold s', PDFEditor.deletePages, PDFEditor.deletePages_try. rewrite Hdoc.
    destruct (Z.eqb_spec (len pageNums) 0) as [Hz|_];
      [apply len_nil_iff in Hz; contradiction|].
    destruct (Z.geb_spec (len pageNums) (pageCount doc)) as [Hge|_]; [lia|].
    rewrite Hload, Hrem. reflexivity. }
  rewrite Hs'.
  destruct (commit_effect s doc (withoutPages pageNums 1 pages)
              (mkAction "delete" None (Some (pdfBytes doc))) None DeleteFailed Hdoc)
    as (Hsaved & Hpop & Hredo).
  split; [exact Hsaved|]. split; [|split; assumption].
  rewrite Hlen. unfold len. rewrite merge_sort_Permutation. reflexivity.
Qed.

(** X10.  [deletePages] with a page number the document does not have
    (and fewer numbers than pages): pdf-lib throws, the 'Failed to
    delete pages.' dialog is shown, and nothing else has changed but the
    one load recorded: the sessions, the history and the stores are
    those of before and nothing was saved. *)
Theorem deletePages_page_out_of_range_fails (s : State) (doc : Doc)
        (pageNums : list Z) (pages : list Page) (p : Z) :
  PDFViewer.getActiveDoc s = Some doc ->
  PDFDocument_load (pdfBytes doc) = Some pages ->
  len pageNums < pageCount doc ->
  p ∈ pageNums ->
  p < 1 \/ len pages < p ->
  PDFEditor.deletePages ver pageNums s =
  UI.showDialog DeleteFailed (logCall (CallLoad (pdfBytes doc)) s).
Proof.
  intros Hdoc Hload Hlt Hin Hout.
  unfold PDFEditor.deletePages, PDFEditor.deletePages_try. rewrite Hdoc.
  destruct (Z.eqb_spec (len pageNums) 0) as [Hz|_].
  { apply len_nil_iff in Hz. subst pageNums. apply elem_of_nil in Hin. contradiction. }
  destruct (Z.geb_spec (len pageNums) (pageCount doc)) as [Hge|_]; [lia|].
  rewrite Hload.
  destruct (removePages (merge_sort Z.ge pageNums) pages) as [pages'|] eqn:Hrem;
    [|reflexivity].
  exfalso. apply removePages_len in Hrem. destruct Hrem as (_ & Hrange).
  rewrite Forall_forall in Hrange. specialize (Hrange p).
  rewrite merge_sort_Permutation in Hrange. specialize (Hrange Hin). lia.
Qed.

End PageTree.

Lemma deletePages_removes_listed_pages_witness :
  PDFViewer.getActiveDoc demoNumbered = Some demoNumberedDoc
  /\ PDFDocument_load (Engine := demoEngine) (pdfBytes demoNumberedDoc) =
     Some numberedPages
  /\ lastSaved (PDFEditor.deletePages (H := demoEngine) Continuous [3; 1] demoNumbered) =
     Some [markedPage 2].
Proof.
  assert (Hdoc : PDFViewer.getActiveDoc demoNumbered = Some demoNumberedDoc)
    by (vm_compute; reflexivity).
  assert (Hload : PDFDocument_load (Engine := demoEngine) (pdfBytes demoNumberedDoc) =
                  Some numberedPages) by reflexivity.
  split; [exact Hdoc|]. split; [exact Hload|].
  refine (proj1 (deletePages_removes_listed_pages (H := demoEngine) Continuous
                   demoNumbered demoNumberedDoc [3; 1] numberedPages
                   Hdoc Hload _ _ _ _)).
  - discriminate.
  - repeat constructor; rewrite ?elem_of_cons, ?elem_of_nil; intuition discriminate.
  - repeat constructor; vm_compute; discriminate.
  - vm_compute. reflexivity.
Defined.

Lemma deletePages_page_out_of_range_fails_witness :
  PDFViewer.getActiveDoc demoOne = Some demoDocA
  /\ dialogs (dom (PDFEditor.deletePages (H := demoEngine) Continuous [7] demoOne)) =
     [DeleteFailed]
  /\ activeBytes (PDFEditor.deletePages (H := demoEngine) Continuous [7] demoOne) =
     Some threePages.
Proof.
  assert (Hdoc : PDFViewer.getActiveDoc demoOne = Some demoDocA)
    by (vm_compute; reflexivity).
  split; [exact Hdoc|].
  rewrite (deletePages_page_out_of_range_fails (H := demoEngine) Continuous demoOne
             demoDocA [7] [blankPage; blankPage; blankPage] 7 Hdoc eq_refl).
  - split; vm_compute; reflexivity.
  - vm_compute. reflexivity.
  - apply elem_of_cons. left. reflexivity.
  - right. vm_compute. reflexivity.
Defined.

(** ** Moving a page *)

Section PageMove.
Context `{Engine}.
Variable ver : Version.

(** The page list [reorderPage] saves. *)
Lemma reorderPage_saves (s : State) (doc : Doc) (pages : list Page)
      (fromPage toPage : Z) (copied : Page) :
  PDFViewer.getActiveDoc s = Some doc ->
  PDFDocument_load (pdfBytes doc) = Some pages ->
  1 <= fromPage <= len pages ->
  1 <= toPage <= len pages ->
  pages !! Z.to_nat (fromPage - 1) = Some copied ->
  let pages1 := delete (Z.to_nat (fromPage - 1)) pages in
  let pages2 := take (Z.to_nat (toPage - 1)) pages1
                ++ copied :: drop (Z.to_nat (toPage - 1)) pages1 in
  let s' := PDFEditor.reorderPage ver fromPage toPage s in
  s' = match PDFViewer.refreshDocument ver (PDFDocument_save pages2) (Some toPage)
               (PDFEditor.pushUndo
                  (mkAction "reorder" None (Some (pdfBytes doc)))
                  (logCall (CallSave pages2)
                     (logCall (CallLoad (pdfBytes doc))
                        (logCall (CallLoad (pdfBytes doc)) s)))) with
       | Returned s1 => s1
       | Threw s1 => UI.showDialog ReorderFailed s1
       end
  /\ lastSaved s' = Some pages2
  /\ (exists rest, pop (undoStack (editor s')) =
                   Some (mkAction "reorder" None (Some (pdfBytes doc)), rest)).
Proof.
  intros Hdoc Hload Hfrom Hto Hcopied pages1 pages2 s'.
  assert (Hlen1 : len pages1 = len pages - 1).
  { unfold pages1, len in *. rewrite length_delete; [lia|].
    apply lookup_lt_is_Some. lia. }
  assert (Hs' : s' = match PDFViewer.refreshDocument ver (PDFDocument_save pages2)
                             (Some toPage)
                             (PDFEditor.pushUndo
                                (mkAction "reorder" None (Some (pdfBytes doc)))
                                (logCall (CallSave pages2)
                                   (logCall (CallLoad (pdfBytes doc))
                                      (logCall (CallLoad (pdfBytes doc)) s)))) with
                     | Returned s1 => s1
                     | Threw s1 => UI.showDialog ReorderFailed s1
                     end).
  { unfold s', PDFEditor.reorderPage, PDFEditor.reorderPage_try. rewrite Hdoc, Hload.
    destruct (Z.ltb_spec fromPage 1); [lia|].
    destruct (Z.gtb_spec fromPage (len pages)); [lia|].
    destruct (Z.ltb_spec toPage 1); [lia|].
    destruct (Z.gtb_spec toPage (len pages)); [lia|].
    cbn [orb]. unfold removePage.
    destruct (Z.leb_spec 0 (fromPage - 1)); [|lia].
    destruct (Z.ltb_spec (fromPage - 1) (len pages)); [|lia]. cbn [andb].
    fold pages1. unfold at_index.
    destruct (Z.leb_spec 0 (fromPage - 1)); [|lia]. rewrite Hcopied.
    unfold insertPage.
    destruct (Z.leb_spec 0 (toPage - 1)); [|lia].
    destruct (Z.leb_spec (toPage - 1) (len pages1)); [|lia]. cbn [andb].
    reflexivity. }
  split; [exact Hs'|]. rewrite Hs'.
  assert (Hdoc1 : PDFViewer.getActiveDoc (logCall (CallLoad (pdfBytes doc)) s) = Some doc)
    by exact Hdoc.
  destruct (commit_effect ver (logCall (CallLoad (pdfBytes doc)) s) doc pages2
              (mkAction "reorder" None (Some (pdfBytes doc))) (Some toPage)
              ReorderFailed Hdoc1) as (Hsaved & Hpop & _).
  split; assumption.
Qed.

(** X11.  [reorderPage(fromPage, toPage)] with both numbers in the
    document saves a page list in which the page that was at [fromPage]
    is at [toPage] and the other pages keep their order: taking the
    moved page out of the new list, or out of the old one, leaves the
    same list.  The new list is a permutation of the old one, and a
    'reorder' action holding the old bytes is on top of the undo
    stack. *)
Theorem reorderPage_moves_one_page (s : State) (doc : Doc) (pages : list Page)
        (fromPage toPage : Z) :
  PDFViewer.getActiveDoc s = Some doc ->
  PDFDocument_load (pdfBytes doc) = Some pages ->
  1 <= fromPage <= len pages ->
  1 <= toPage <= len pages ->
  let s' := PDFEditor.reorderPage ver fromPage toPage s in
  exists pages2,
    lastSaved s' = Some pages2
    /\ pages2 !! Z.to_nat (toPage - 1) = pages !! Z.to_nat (fromPage - 1)
    /\ delete (Z.to_nat (toPage - 1)) pages2 = delete (Z.to_nat (fromPage - 1)) pages
    /\ pages2 ≡ₚ pages
    /\ (exists rest, pop (undoStack (editor s')) =
                     Some (mkAction "reorder" None (Some (pdfBytes doc)), rest)).
Proof.
  intros Hdoc Hload Hfrom Hto s'.
  destruct (lookup_lt_is_Some_2 pages (Z.to_nat (fromPage - 1))) as [copied Hcopied];
    [unfold len in *; lia|].
  destruct (reorderPage_saves s doc pages fromPage toPage copied Hdoc Hload Hfrom Hto
              Hcopied) as (_ & Hsaved & Hpop).
  set (pages1 := delete (Z.to_nat (fromPage - 1)) pages) in *.
  assert (Hlen1 : (Z.to_nat (toPage - 1) <= length pages1)%nat).
  { unfold pages1. rewrite length_delete by (apply lookup_lt_is_Some; unfold len in *; lia).
    unfold len in *. lia. }
  assert (Htake : length (take (Z.to_nat (toPage - 1)) pages1) = Z.to_nat (toPage - 1))
    by (rewrite length_take; lia).
  eexists. split; [exact Hsaved|]. split; [|split; [|split]].
  - rewrite Hcopied. rewrite <- Htake at 1. apply list_lookup_middle. reflexivity.
  - rewrite <- Htake at 1. rewrite delete_middle. apply take_drop.
  - rewrite <- Permutation_middle, take_drop. unfold pages1.
    symmetry. apply delete_Permutation. exact Hcopied.
  - exact Hpop.
Qed.

End PageMove.

Section PageSwap.
Context `{Engine}.
Variable ver : Version.

(** X12.  Move Up and Move Down swap the current page with its
    neighbour in the saved file: with pages [A ++ x :: y :: B], Move Up
    on [y] and Move Down on [x] both save [A ++ y :: x :: B].  On the
    first page Move Up, and on the last page Move Down, do nothing. *)
Theorem movePage_swaps_neighbours (s : State) (doc : Doc)
        (A B : list Page) (x y : Page) :
  PDFViewer.getActiveDoc s = Some doc ->
  PDFDocument_load (pdfBytes doc) = Some (A ++ x :: y :: B) ->
  pageCount doc = len (A ++ x :: y :: B) ->
  (currentPage doc = len A + 2 ->
   lastSaved (PDFMerge.movePageUp ver s) = Some (A ++ y :: x :: B))
  /\ (currentPage doc = len A + 1 ->
      lastSaved (PDFMerge.movePageDown ver s) = Some (A ++ y :: x :: B))
  /\ (currentPage doc <= 1 -> PDFMerge.movePageUp ver s = s)
  /\ (currentPage doc >= pageCount doc -> PDFMerge.movePageDown ver s = s).
Proof.
  intros Hdoc Hload Hcount.
  assert (Hlen : len (A ++ x :: y :: B) = len A + 2 + len B).
  { unfold len. rewrite length_app. simpl. lia. }
  pose proof (len_nonneg A) as HA. pose proof (len_nonneg B) as HB.
  split; [|split; [|split]].
  - intros Hcur. unfold PDFMerge.movePageUp. rewrite Hdoc.
    destruct (Z.leb_spec (currentPage doc) 1); [lia|].
    destruct (reorderPage_saves ver s doc (A ++ x :: y :: B) (currentPage doc)
                (currentPage doc - 1) y Hdoc Hload) as (_ & Hsaved & _); [lia | lia | |].
    { rewrite Hcur. replace (Z.to_nat (len A + 2 - 1)) with (length (A ++ [x]))
        by (rewrite length_app; unfold len; simpl; lia).
      change (A ++ x :: y :: B) with (A ++ [x] ++ y :: B). rewrite app_assoc.
      apply list_lookup_middle. reflexivity. }
    rewrite Hsaved. f_equal. rewrite Hcur.
    replace (Z.to_nat (len A + 2 - 1)) with (length (A ++ [x]))
      by (rewrite length_app; unfold len; simpl; lia).
    replace (Z.to_nat (len A + 2 - 1 - 1)) with (length A) by (unfold len; lia).
    change (A ++ x :: y :: B) with (A ++ [x] ++ y :: B). rewrite app_assoc.
    rewrite delete_middle, <- app_assoc. simpl.
    rewrite take_app_length, drop_app_length. reflexivity.
  - intros Hcur. unfold PDFMerge.movePageDown. rewrite Hdoc.
    destruct (Z.geb_spec (currentPage doc) (pageCount doc)); [lia|].
    destruct (reorderPage_saves ver s doc (A ++ x :: y :: B) (currentPage doc)
                (currentPage doc + 1) x Hdoc Hload) as (_ & Hsaved & _); [lia | lia | |].
    { rewrite Hcur. replace (Z.to_nat (len A + 1 - 1)) with (length A)
        by (unfold len; lia).
      apply list_lookup_middle. reflexivity. }
    rewrite Hsaved. f_equal. rewrite Hcur.
    replace (Z.to_nat (len A + 1 - 1)) with (length A) by (unfold len; lia).
    replace (Z.to_nat (len A + 1 + 1 - 1)) with (length (A ++ [y]))
      by (rewrite length_app; unfold len; simpl; lia).
    rewrite delete_middle.
    change (A ++ y :: B) with (A ++ [y] ++ B). rewrite app_assoc.
    rewrite take_app_length, drop_app_length, <- app_assoc. reflexivity.
  - intros Hcur. unfold PDFMerge.movePageUp. rewrite Hdoc.
    destruct (Z.leb_spec (currentPage doc) 1); [reflexivity | lia].
  - intros Hcur. unfold PDFMerge.movePageDown. rewrite Hdoc.
    destruct (Z.geb_spec (currentPage doc) (pageCount doc)); [reflexivity | lia].
Qed.

End PageSwap.

Lemma reorderPage_moves_one_page_witness :
  PDFViewer.getActiveDoc demoNumbered = Some demoNumberedDoc
  /\ PDFDocument_load (Engine := demoEngine) (pdfBytes demoNumberedDoc) =
     Some numberedPages
  /\ exists pages2,
       lastSaved (PDFEditor.reorderPage (H := demoEngine) Continuous 1 3 demoNumbered) =
         Some pages2
       /\ pages2 !! 2%nat = Some (markedPage 1)
       /\ delete 2%nat pages2 = [markedPage 2; markedPage 3].
Proof.
  assert (Hdoc : PDFViewer.getActiveDoc demoNumbered = Some demoNumberedDoc)
    by (vm_compute; reflexivity).
  assert (Hload : PDFDocument_load (Engine := demoEngine) (pdfBytes demoNumberedDoc) =
                  Some numberedPages) by reflexivity.
  split; [exact Hdoc|]. split; [exact Hload|].
  destruct (reorderPage_moves_one_page (H := demoEngine) Continuous demoNumbered
              demoNumberedDoc numberedPages 1 3 Hdoc Hload)
    as (pages2 & Hsaved & Hat & Hrest & _).
  - vm_compute. split; discriminate.
  - vm_compute. split; discriminate.
  - exists pages2. split; [exact Hsaved|]. split; [exact Hat | exact Hrest].
Defined.

Lemma movePage_swaps_neighbours_witness :
  let s := PDFViewer.goToPage 2 demoNumbered in
  let doc := set_currentPage 2 demoNumberedDoc in
  PDFViewer.getActiveDoc s = Some doc
  /\ PDFDocument_load (Engine := demoEngine) (pdfBytes doc) =
     Some ([] ++ markedPage 1 :: markedPage 2 :: [markedPage 3])
  /\ pageCount doc = len ([] ++ markedPage 1 :: markedPage 2 :: [markedPage 3])
  /\ lastSaved (PDFMerge.movePageUp (H := demoEngine) Continuous s) =
     Some [markedPage 2; markedPage 1; markedPage 3].
Proof.
  intros s doc.
  assert (Hdoc : PDFViewer.getActiveDoc s = Some doc) by (vm_compute; reflexivity).
  assert (Hload : PDFDocument_load (Engine := demoEngine) (pdfBytes doc) =
                  Some ([] ++ markedPage 1 :: markedPage 2 :: [markedPage 3]))
    by reflexivity.
  assert (Hcount : pageCount doc =
                   len ([] ++ markedPage 1 :: markedPage 2 :: [markedPage 3]))
    by reflexivity.
  split; [exact Hdoc|]. split; [exact Hload|]. split; [exact Hcount|].
  apply (proj1 (movePage_swaps_neighbours (H := demoEngine) Continuous s doc
                  [] [markedPage 3] (markedPage 1) (markedPage 2) Hdoc Hload Hcount)).
  reflexivity.
Defined.

(** ** Commit loops that draw one thing per stored item *)

Section DrawLoop.
Context {A : Type}.
Variable pageOf : A -> Z.
Variable opOf : Q -> A -> DrawOp.
Variable drawOne : list Page -> A -> list Page.
Hypothesis drawOne_eq : forall pages a,
  drawOne pages a =
  match at_index pages (pageOf a - 1) with
  | None => pages
  | Some page => mutate_at (draw (opOf (pageHeight page) a)) pages (pageOf a - 1)
  end.

Lemma drawOne_lookup pages a (n : nat) p :
  pages !! n = Some p ->
  drawOne pages a !! n =
  Some (if pageOf a - 1 =? Z.of_nat n then draw (opOf (pageHeight p) a) p else p).
Proof.
  intros Hp. rewrite drawOne_eq.
  destruct (Z.eqb_spec (pageOf a - 1) (Z.of_nat n)) as [Heq|Hne].
  - rewrite Heq, (at_index_lookup _ _ _ Hp).
    rewrite (mutate_at_lookup _ _ _ n p Hp), Z.eqb_refl. reflexivity.
  - destruct (at_index pages (pageOf a - 1)) as [page|]; [|exact Hp].
    rewrite (mutate_at_lookup _ _ _ n p Hp).
    destruct (Z.eqb_spec (pageOf a - 1) (Z.of_nat n)); [contradiction | reflexivity].
Qed.

Lemma drawOne_length pages a : length (drawOne pages a) = length pages.
Proof.
  rewrite drawOne_eq. destruct (at_index pages (pageOf a - 1)); [|reflexivity].
  pose proof (len_mutate_at (draw (opOf (pageHeight p) a)) pages (pageOf a - 1)) as Hl.
  unfold len in Hl. lia.
Qed.

(** Page [n + 1] keeps its size and rotation and receives, after what it
    held and in the order of the items, one drawing per item placed on
    it; items on pages the document does not have leave no trace. *)
Lemma foldl_draw_content (items : list A) : forall pages (n : nat) p,
  pages !! n = Some p ->
  exists p',
    foldl drawOne pages items !! n = Some p'
    /\ pageWidth p' = pageWidth p
    /\ pageHeight p' = pageHeight p
    /\ rotation p' = rotation p
    /\ content p' =
       content p ++
       map (opOf (pageHeight p)) (filter (fun a => pageOf a - 1 = Z.of_nat n) items).
Proof.
  induction items as [|a items IH]; intros pages n p Hp.
  - exists p. simpl. rewrite app_nil_r. auto.
  - simpl foldl.
    pose proof (drawOne_lookup pages a n p Hp) as Hstep.
    destruct (IH _ _ _ Hstep) as (p' & Hp' & Hw & Hh & Hr & Hc).
    exists p'. split; [exact Hp'|].
    rewrite filter_cons.
    destruct (Z.eqb_spec (pageOf a - 1) (Z.of_nat n)) as [Heq|Hne].
    + rewrite decide_True by exact Heq.
      simpl in Hw, Hh, Hr, Hc. repeat (split; [assumption|]).
      rewrite Hc. unfold push. rewrite <- app_assoc. reflexivity.
    + rewrite decide_False by exact Hne. auto.
Qed.

Lemma foldl_draw_length (items : list A) : forall pages,
  length (foldl drawOne pages items) = length pages.
Proof.
  induction items as [|a items IH]; intros pages; [reflexivity|].
  simpl. rewrite IH. apply drawOne_length.
Qed.

End DrawLoop.

(** ** Saving the text boxes *)

Section TextEdits.
Context `{Engine} `{JS : StringBuiltins}.

Lemma drawTextBox_Exception zoom (boxes : list TextBox) :
  foldl (PDFEditorSave.drawTextBox zoom) Exception boxes = Exception.
Proof. induction boxes as [|b boxes IH]; [reflexivity | exact IH]. Qed.

Lemma at_index_page {A} (l : list A) (i : Z) :
  1 <= i <= len l <-> exists x, at_index l (i - 1) = Some x.
Proof.
  split.
  - intros Hi. apply at_index_in_range. lia.
  - intros (x & Hx). apply at_index_Some in Hx. lia.
Qed.

(** The loop of [applyTextEdits] when no [drawText] throws. *)
Lemma drawTextBox_loop zoom (boxes : list TextBox) : forall pages,
  Forall (fun b => 1 <= boxPageNum b <= len pages ->
                   drawText_accepts (boxText b) = true) boxes ->
  foldl (PDFEditorSave.drawTextBox zoom) (Value pages) boxes =
  Value (foldl (fun pages b =>
                  match at_index pages (boxPageNum b - 1) with
                  | None => pages
                  | Some page =>
                      mutate_at
                        (draw (DrawText (boxText b) (boxX b / zoom)
                                        (pageHeight page - boxY b / zoom - boxFontSize b)
                                        (boxFontSize b) (rgb 0 0 0)))
                        pages (boxPageNum b - 1)
                  end) pages boxes).
Proof.
  induction boxes as [|b boxes IH]; intros pages Hok; [reflexivity|].
  apply Forall_cons in Hok. destruct Hok as (Hb & Hok).
  simpl foldl.
  destruct (at_index pages (boxPageNum b - 1)) as [page|] eqn:Hpage.
  - rewrite Hb by (apply at_index_page; eauto).
    apply IH. rewrite len_mutate_at. exact Hok.
  - apply IH, Hok.
Qed.

(** ... and when one does. *)
Lemma drawTextBox_loop_throws zoom (boxes : list TextBox) : forall pages,
  Exists (fun b => 1 <= boxPageNum b <= len pages
                   /\ drawText_accepts (boxText b) = false) boxes ->
  foldl (PDFEditorSave.drawTextBox zoom) (Value pages) boxes = Exception.
Proof.
  induction boxes as [|b boxes IH]; intros pages Hex.
  - apply Exists_nil in Hex. contradiction.
  - simpl foldl. apply Exists_cons in Hex.
    destruct (at_index pages (boxPageNum b - 1)) as [page|] eqn:Hpage.
    + destruct (drawText_accepts (boxText b)) eqn:Hacc.
      * destruct Hex as [(_ & Hno) | Hex]; [congruence|].
        apply IH. rewrite len_mutate_at. exact Hex.
      * apply drawTextBox_Exception.
    + destruct Hex as [(Hrange & _) | Hex]; [|apply IH, Hex].
      apply at_index_page in Hrange. destruct Hrange as (x & Hx). congruence.
Qed.

(** X13.  What [applyTextEdits] writes.  The boxes whose trimmed text is
    empty are left out, the others keep their order; if none remains the
    stored bytes are answered as they are.  Otherwise every remaining
    box on a page of the document is handed to [drawText].
    - If pdf-lib accepts all these texts, page [n + 1] of the saved
      document holds, after its old content and in the order of
      [textBoxes], one black text per remaining box of that page, at
      [(x / zoom, height - y / zoom - fontSize)] in the box's font size;
      the saved document has as many pages as the loaded one, and boxes
      on pages it does not have leave no trace.
    - If pdf-lib rejects one of them, [applyTextEdits] throws and
      nothing is answered. *)
Theorem applyTextEdits_writes_nonblank_boxes (s : State) (doc : Doc)
        (pages : list Page) :
  PDFViewer.getActiveDoc s = Some doc ->
  ~ (zoom doc == 0)%Q ->
  PDFDocument_load (pdfBytes doc) = Some pages ->
  let textOp := fun (height : Q) (b : TextBox) =>
                  DrawText (boxText b) (boxX b / zoom doc)
                           (height - boxY b / zoom doc - boxFontSize b)
                           (boxFontSize b) (rgb 0 0 0) in
  let boxes := PDFEditorSave.pageBoxes s in
  let drawn := filter (fun b => 1 <= boxPageNum b <= len pages) boxes in
  boxes = filter (fun b => trim (boxText b) <> "") (textBoxes (editor s))
  /\ (boxes = [] -> PDFEditorSave.applyTextEdits s = Value (Some (pdfBytes doc)))
  /\ (boxes <> [] ->
      Forall (fun b => drawText_accepts (boxText b) = true) drawn ->
      exists saved,
        PDFEditorSave.applyTextEdits s = Value (Some (PDFDocument_save saved))
        /\ length saved = length pages
        /\ forall (n : nat) p,
             pages !! n = Some p ->
             exists p',
               saved !! n = Some p'
               /\ pageHeight p' = pageHeight p
               /\ content p' =
                  content p ++
                  map (textOp (pageHeight p))
                      (filter (fun b => boxPageNum b - 1 = Z.of_nat n) boxes))
  /\ (Exists (fun b => drawText_accepts (boxText b) = false) drawn ->
      PDFEditorSave.applyTextEdits s = Exception).
Proof.
  intros Hdoc _ Hload textOp boxes drawn.
  set (place := fun pages b =>
                  match at_index pages (boxPageNum b - 1) with
                  | None => pages
                  | Some page =>
                      mutate_at (draw (textOp (pageHeight page) b)) pages
                                (boxPageNum b - 1)
                  end).
  assert (Hnonempty : boxes <> [] -> (len boxes =? 0) = false).
  { intros Hne. apply Z.eqb_neq. intros Hz. apply len_nil_iff in Hz. contradiction. }
  split; [|split; [|split]].
  - unfold boxes, PDFEditorSave.pageBoxes.
    induction (textBoxes (editor s)) as [|b l IH]; [reflexivity|].
    rewrite filter_cons. simpl List.filter. rewrite IH.
    destruct (String.eqb_spec (trim (boxText b)) "") as [Heq|Hne]; simpl.
    + rewrite decide_False by (intros Hn; exact (Hn Heq)). reflexivity.
    + rewrite decide_True by exact Hne. reflexivity.
  - intros Hnil. unfold PDFEditorSave.applyTextEdits. rewrite Hdoc.
    fold boxes. rewrite Hnil. reflexivity.
  - intros Hne Hacc.
    exists (foldl place pages boxes).
    split; [|split].
    + unfold PDFEditorSave.applyTextEdits. rewrite Hdoc. fold boxes.
      rewrite (Hnonempty Hne), Hload.
      rewrite (drawTextBox_loop (zoom doc) boxes pages); [reflexivity|].
      apply Forall_forall. intros b Hb Hrange.
      rewrite Forall_forall in Hacc. apply Hacc.
      apply list_elem_of_filter. split; assumption.
    + apply (foldl_draw_length boxPageNum textOp). reflexivity.
    + intros n p Hp.
      destruct (foldl_draw_content boxPageNum textOp place (fun _ _ => eq_refl)
                  boxes pages n p Hp) as (p' & Hp' & _ & Hh & _ & Hc).
      exists p'. auto.
  - intros Hex.
    assert (Hne : boxes <> []).
    { intros Hnil. unfold drawn in Hex. rewrite Hnil in Hex.
      apply Exists_nil in Hex. exact Hex. }
    unfold PDFEditorSave.applyTextEdits. rewrite Hdoc. fold boxes.
    rewrite (Hnonempty Hne), Hload.
    rewrite (drawTextBox_loop_throws (zoom doc) boxes pages); [reflexivity|].
    apply Exists_exists in Hex. destruct Hex as (b & Hb & Hno).
    apply list_elem_of_filter in Hb. destruct Hb as (Hrange & Hb).
    apply Exists_exists. exists b. auto.
Qed.

End TextEdits.

Lemma applyTextEdits_writes_nonblank_boxes_witness :
  let s := fst (PDFEditor.createTextBox 2 120 80 "Paid" 14
                  (fst (PDFEditor.createTextBox 1 10 10 "  " 14 demoOne))) in
  let bell := String (ascii_of_nat 7) "x" in
  PDFViewer.getActiveDoc s = Some demoDocA
  /\ ~ (zoom demoDocA == 0)%Q
  /\ PDFDocument_load (Engine := demoEngine) (pdfBytes demoDocA) =
     Some [blankPage; blankPage; blankPage]
  /\ PDFEditorSave.applyTextEdits (H := demoEngine) (JS := asciiStrings) s =
     Value (Some [x00; x01; x00])
  /\ PDFEditorSave.applyTextEdits (H := demoEngine) (JS := asciiStrings)
       (fst (PDFEditor.createTextBox 3 0 0 bell 14 s)) = Exception.
Proof.
  intros s bell.
  assert (Hdoc : PDFViewer.getActiveDoc s = Some demoDocA) by (vm_compute; reflexivity).
  assert (Hload : PDFDocument_load (Engine := demoEngine) (pdfBytes demoDocA) =
                  Some [blankPage; blankPage; blankPage]) by reflexivity.
  assert (Hzoom : ~ (zoom demoDocA == 0)%Q) by discriminate.
  split; [exact Hdoc|]. split; [exact Hzoom|]. split; [exact Hload|]. split.
  - destruct (applyTextEdits_writes_nonblank_boxes (H := demoEngine)
                (JS := asciiStrings) s demoDocA
                [blankPage; blankPage; blankPage] Hdoc Hzoom Hload)
      as (_ & _ & Hsaved & _).
    destruct Hsaved as (saved & Heq & _);
      [vm_compute; discriminate | repeat constructor|].
    vm_compute. reflexivity.
  - set (s' := fst (PDFEditor.createTextBox 3 0 0 bell 14 s)).
    assert (Hdoc' : PDFViewer.getActiveDoc s' = Some demoDocA)
      by (vm_compute; reflexivity).
    apply (applyTextEdits_writes_nonblank_boxes (H := demoEngine)
             (JS := asciiStrings) s' demoDocA
             [blankPage; blankPage; blankPage] Hdoc' Hzoom Hload).
    vm_compute. apply Exists_cons_tl, Exists_cons_hd. reflexivity.
Defined.

(** ** An undone text box is not saved *)

Lemma applyTextEdits_ext `{Engine} `{JS : StringBuiltins} (s s' : State) :
  viewer s' = viewer s -> textBoxes (editor s') = textBoxes (editor s) ->
  PDFEditorSave.applyTextEdits s' = PDFEditorSave.applyTextEdits s.
Proof.
  intros Hv Ht. unfold PDFEditorSave.applyTextEdits, PDFEditorSave.pageBoxes.
  rewrite (getActiveDoc_viewer s' s Hv), Ht. reflexivity.
Qed.

Lemma viewer_redo s : viewer (PDFEditor.redo s) = viewer s.
Proof.
  unfold PDFEditor.redo. destruct (pop _) as [[a rest]|]; [|reflexivity].
  rewrite viewer_updateUndoButtons.
  destruct (_ =? _)%string; [destruct (actionBox a)|]; reflexivity.
Qed.

(** X14.  A text box that was placed and then undone is not written by
    the save path: the save data after create-and-undo is the save data
    of before; after a redo it is again the save data of the state with
    the box. *)
Theorem undone_textBox_is_not_saved `{Engine} `{JS : StringBuiltins}
        (ver : Version) (s : State)
        (pageNum : Z) (x y : Q) (text : string) (fontSize : Q) :
  wfEditor (editor s) ->
  let s1 := fst (PDFEditor.createTextBox pageNum x y text fontSize s) in
  exists s2,
    PDFEditor.undo ver s1 = Returned s2
    /\ PDFEditorSave.applyTextEdits s2 = PDFEditorSave.applyTextEdits s
    /\ PDFEditorSave.applyTextEdits (PDFEditor.redo s2) =
       PDFEditorSave.applyTextEdits s1.
Proof.
  intros (Hboxes & _) s1. unfold s1, PDFEditor.createTextBox. cbn [fst].
  set (box := mkTextBox (nextBoxId (editor s)) pageNum x y 150 24 text fontSize
                        "Helvetica").
  set (act := mkAction "add-text" (Some box) None).
  set (s0 := with_editor _ s).
  destruct (pushUndo_pop act s0) as [rest Hpop].
  destruct (pushUndo_textBoxes act s0) as (Htb & _).
  destruct (pushUndo_frame act s0) as (Hv1 & _).
  pose proof (pushUndo_redoStack act s0) as Hredo.
  set (s1' := PDFEditor.pushUndo act s0) in *.
  assert (Htb1 : textBoxes (editor s1') = textBoxes (editor s) ++ [box])
    by (rewrite Htb; reflexivity).
  destruct (undo_add_text ver s1' act rest box Hpop eq_refl eq_refl)
    as (s2 & Hundo & Hfilter & _ & Hredo2 & Hv2).
  assert (Htb2 : textBoxes (editor s2) = textBoxes (editor s)).
  { rewrite Hfilter, Htb1, filter_app.
    change (boxId box) with (nextBoxId (editor s)).
    rewrite (filter_fresh_id _ _ Hboxes).
    rewrite filter_cons, decide_False by (simpl; lia).
    rewrite filter_nil. apply app_nil_r. }
  exists s2. split; [exact Hundo|]. split.
  - apply applyTextEdits_ext; [|exact Htb2]. rewrite Hv2, Hv1. reflexivity.
  - rewrite Hredo in Hredo2.
    destruct (redo_add_text s2 act [] box) as (Hback & _);
      [unfold pop; rewrite Hredo2; reflexivity | reflexivity | reflexivity |].
    apply applyTextEdits_ext.
    + rewrite viewer_redo. exact Hv2.
    + rewrite Hback, Htb2, Htb1. reflexivity.
Qed.

Lemma undone_textBox_is_not_saved_witness :
  wfEditor (editor demoOne)
  /\ PDFEditorSave.applyTextEdits (H := demoEngine) (JS := asciiStrings)
       (stateOf (PDFEditor.undo (H := demoEngine) Continuous
                   (fst (PDFEditor.createTextBox 2 120 80 "Paid" 14 demoOne)))) =
     PDFEditorSave.applyTextEdits (H := demoEngine) (JS := asciiStrings) demoOne.
Proof.
  assert (Hwf : wfEditor (editor demoOne)) by (repeat split; constructor).
  split; [exact Hwf|].
  destruct (undone_textBox_is_not_saved (H := demoEngine) (JS := asciiStrings)
              Continuous demoOne 2 120 80 "Paid" 14 Hwf) as (s2 & Hundo & Hsame & _).
  rewrite Hundo. exact Hsame.
Defined.

(** ** Drawing a redaction box *)

(** X15.  Releasing the mouse after a drag shorter than 5 pixels in
    width or in height stores no rectangle and ends the drag; and a
    release is final: a second release, wherever it is, changes nothing
    more. *)
Theorem onMouseUp_discards_small_drag (x y x' y' : Q) (s : State) (start : DrawStart) :
  drawStart (redact s) = Some start ->
  isDrawing (redact s) = true ->
  (Qabs (x - startX start) < 5 \/ Qabs (y - startY start) < 5)%Q ->
  let s1 := PDFRedact.onMouseUp x y s in
  redactRects (redact s1) = redactRects (redact s)
  /\ drawStart (redact s1) = None
  /\ isDrawing (redact s1) = false
  /\ PDFRedact.onMouseUp x' y' s1 = s1.
Proof.
  intros Hstart Hdrawing Hsmall s1.
  assert (Hs1 : s1 = with_redact (PDFRedact.set_drawStart None)
                       (with_redact (PDFRedact.set_isDrawing false) s)).
  { unfold s1, PDFRedact.onMouseUp. rewrite Hstart, Hdrawing. cbn [negb].
    destruct (Qle_bool 5 (Qabs (x - startX start))) eqn:Hw; cbn [negb orb];
      [|reflexivity].
    destruct (Qle_bool 5 (Qabs (y - startY start))) eqn:Hh; cbn [negb orb];
      [|reflexivity].
    apply Qle_bool_iff in Hw, Hh. exfalso.
    destruct Hsmall as [Hlt|Hlt]; eapply Qlt_not_le; eassumption. }
  rewrite Hs1. repeat split.
Qed.

Lemma onMouseUp_discards_small_drag_witness :
  let s := PDFRedact.onMouseDown true 2 100 100 (PDFRedact.toggleRedactMode demoOne) in
  drawStart (redact s) = Some (mkDrawStart 100 100 2)
  /\ isDrawing (redact s) = true
  /\ redactRects (redact (PDFRedact.onMouseUp 150 104 s)) = [].
Proof.
  intros s.
  assert (Hstart : drawStart (redact s) = Some (mkDrawStart 100 100 2)) by reflexivity.
  assert (Hdrawing : isDrawing (redact s) = true) by reflexivity.
  split; [exact Hstart|]. split; [exact Hdrawing|].
  refine (proj1 (onMouseUp_discards_small_drag 150 104 0 0 s _ Hstart Hdrawing _)).
  right. reflexivity.
Defined.

Lemma Qabs_swap (a b : Q) : (Qabs (a - b) == Qabs (b - a))%Q.
Proof.
  rewrite <- (Qabs_opp (b - a)). apply Qabs_wd. ring.
Qed.

Lemma Qmin_swap (a b : Q) : (Qmin a b == Qmin b a)%Q.
Proof. apply Q.min_comm. Qed.

Lemma Qle_bool_Qeq (a b c : Q) : (b == c)%Q -> Qle_bool a b = Qle_bool a c.
Proof.
  intros Heq. destruct (Qle_bool a b) eqn:Hb; destruct (Qle_bool a c) eqn:Hc;
    try reflexivity.
  - apply Qle_bool_iff in Hb. rewrite Heq in Hb. apply Qle_bool_iff in Hb. congruence.
  - apply Qle_bool_iff in Hc. rewrite <- Heq in Hc. apply Qle_bool_iff in Hc. congruence.
Qed.

(** The rectangle a complete drag stores, if any. *)
Lemma drag_result (page : Z) (x1 y1 x2 y2 : Q) (s : State) :
  let s' := PDFRedact.onMouseUp x2 y2 (PDFRedact.onMouseDown true page x1 y1 s) in
  redactRects (redact s') =
  if Qle_bool 5 (Qabs (x2 - x1)) && Qle_bool 5 (Qabs (y2 - y1)) && negb (page =? 0)
  then redactRects (redact s) ++
       [mkRedactRect page (Qmin x1 x2) (Qmin y1 y2) (Qabs (x2 - x1)) (Qabs (y2 - y1))
                     (currentColor (redact s))]
  else redactRects (redact s).
Proof.
  intros s'. unfold s', PDFRedact.onMouseUp, PDFRedact.onMouseDown.
  cbn [negb with_redact redact PDFRedact.set_drawStart PDFRedact.set_isDrawing
       drawStart isDrawing startX startY overlayPage redactRects currentColor].
  destruct (Qle_bool 5 (Qabs (x2 - x1))); cbn [negb orb andb]; [|reflexivity].
  destruct (Qle_bool 5 (Qabs (y2 - y1))); cbn [negb orb andb]; [|reflexivity].
  destruct (page =? 0); reflexivity.
Qed.

(** X16.  The rectangle a drag stores does not depend on the direction
    of the drag: dragging from one corner to the opposite one, or back,
    stores rectangles with equal page, position, size and colour (or
    both store nothing); the stored position is the corner nearest to
    the origin and the size is not negative. *)
Theorem drag_direction_does_not_matter (page : Z) (x1 y1 x2 y2 : Q) (s : State) :
  let forth := PDFRedact.onMouseUp x2 y2 (PDFRedact.onMouseDown true page x1 y1 s) in
  let back := PDFRedact.onMouseUp x1 y1 (PDFRedact.onMouseDown true page x2 y2 s) in
  (redactRects (redact forth) = redactRects (redact s)
   /\ redactRects (redact back) = redactRects (redact s))
  \/ exists r1 r2,
       redactRects (redact forth) = redactRects (redact s) ++ [r1]
       /\ redactRects (redact back) = redactRects (redact s) ++ [r2]
       /\ rPageNum r1 = page /\ rPageNum r2 = page
       /\ rColor r1 = rColor r2
       /\ (rX r1 == rX r2 /\ rY r1 == rY r2 /\ rW r1 == rW r2 /\ rH r1 == rH r2)%Q
       /\ (rX r1 <= x1 /\ rX r1 <= x2 /\ rY r1 <= y1 /\ rY r1 <= y2)%Q
       /\ (5 <= rW r1 /\ 5 <= rH r1)%Q.
Proof.
  intros forth back.
  pose proof (drag_result page x1 y1 x2 y2 s) as Hforth.
  pose proof (drag_result page x2 y2 x1 y1 s) as Hback.
  fold forth in Hforth. fold back in Hback.
  rewrite (Qle_bool_Qeq 5 _ _ (Qabs_swap x1 x2)) in Hback.
  rewrite (Qle_bool_Qeq 5 _ _ (Qabs_swap y1 y2)) in Hback.
  destruct (Qle_bool 5 (Qabs (x2 - x1))) eqn:Hw; cbn [andb] in *; [|left; auto].
  destruct (Qle_bool 5 (Qabs (y2 - y1))) eqn:Hh; cbn [andb] in *; [|left; auto].
  destruct (page =? 0); cbn [negb] in *; [left; auto|].
  right. eexists. eexists. split; [exact Hforth|]. split; [exact Hback|].
  cbn [rPageNum rColor rX rY rW rH].
  split; [reflexivity|]. split; [reflexivity|]. split; [reflexivity|]. split.
  - split; [apply Qmin_swap|]. split; [apply Qmin_swap|].
    split; apply Qabs_swap.
  - split.
    + split; [apply Q.le_min_l|]. split; [apply Q.le_min_r|].
      split; [apply Q.le_min_l | apply Q.le_min_r].
    + split; apply Qle_bool_iff; assumption.
Qed.

(** ** Search and redact *)

Lemma filter_all {A} (P : A -> Prop) `{forall x, Decision (P x)} (l : list A) :
  Forall P l -> filter P l = l.
Proof.
  induction 1 as [|x l Hx _ IH]; [reflexivity|].
  rewrite filter_cons, decide_True by exact Hx. rewrite IH. reflexivity.
Qed.

Lemma filter_none {A} (P : A -> Prop) `{forall x, Decision (P x)} (l : list A) :
  Forall (fun x => ~ P x) l -> filter P l = [].
Proof.
  induction 1 as [|x l Hx _ IH]; [reflexivity|].
  rewrite filter_cons, decide_False by exact Hx. exact IH.
Qed.

(** Of matches made page by page, those of one page. *)
Lemma filter_page_join (found : nat -> Page -> list PDFRedact.Match) :
  (forall j page m, m ∈ found j page -> PDFRedact.mPageNum m = Z.of_nat j + 1) ->
  forall (pages : list Page) (k i : nat),
    filter (fun m => PDFRedact.mPageNum m = Z.of_nat i + 1)
           (mjoin (imap (fun j page => found (k + j)%nat page) pages)) =
    if decide (k <= i)%nat
    then from_option (found i) [] (pages !! (i - k)%nat)
    else [].
Proof.
  intros Hpage.
  induction pages as [|page pages IH]; intros k i.
  - simpl. destruct (decide _); reflexivity.
  - rewrite imap_cons. simpl mjoin. rewrite filter_app.
    rewrite (imap_ext _ (fun j page => found (S k + j)%nat page))
      by (intros j x _; simpl; f_equal; lia).
    rewrite IH, Nat.add_0_r.
    destruct (decide (k = i)) as [->|Hne].
    + rewrite filter_all.
      2:{ apply Forall_forall. intros m Hm. apply (Hpage _ _ _ Hm). }
      rewrite decide_False by lia. rewrite decide_True by lia.
      rewrite Nat.sub_diag, app_nil_r. reflexivity.
    + rewrite filter_none.
      2:{ apply Forall_forall. intros m Hm Heq.
          rewrite (Hpage _ _ _ Hm) in Heq. lia. }
      simpl app. destruct (decide (S k <= i)%nat) as [Hle|Hgt].
      * rewrite decide_True by lia.
        replace (i - k)%nat with (S (i - S k)) by lia. reflexivity.
      * rewrite decide_False by lia. reflexivity.
Qed.

Section SearchRedact.
Context `{JS : StringBuiltins}.
Variable getTextContent : Page -> list PDFRedact.TextItem.

(** The inner loop pushes one match per item whose lower-cased text
    includes the term, in the order of the items. *)
Lemma pageMatches_spec (lowerTerm : string) (i : Z) (page : Page) :
  forall (items : list PDFRedact.TextItem) (matches : list PDFRedact.Match),
    foldl (PDFRedact.pushMatch lowerTerm i page) matches items =
    matches ++
    map (PDFRedact.matchOf i page)
        (List.filter (fun item => includes (toLowerCase (PDFRedact.itemStr item))
                                           lowerTerm) items).
Proof.
  induction items as [|item items IH]; intros matches; simpl.
  - rewrite app_nil_r. reflexivity.
  - rewrite IH. unfold PDFRedact.pushMatch.
    destruct (includes _ lowerTerm); [|reflexivity].
    unfold push. rewrite <- app_assoc. reflexivity.
Qed.

Lemma findTextPositions_loop (lowerTerm : string) (docPages : list Page) :
  forall (rest pre : list Page) (acc : list PDFRedact.Match),
    docPages = pre ++ rest ->
    foldl (fun acc i =>
             match acc with
             | Exception => Exception
             | Value matches =>
                 match at_index docPages (i - 1) with
                 | None => Exception
                 | Some page =>
                     Value (PDFRedact.pageMatches getTextContent lowerTerm i page
                                                  matches)
                 end
             end)
          (Value acc) (seqZ (len pre + 1) (len rest)) =
    Value (acc ++ mjoin (imap (fun i page =>
                                 PDFRedact.pageMatches getTextContent lowerTerm
                                   (len pre + 1 + Z.of_nat i) page []) rest)).
Proof.
  induction rest as [|page rest IH]; intros pre acc Hdoc.
  - simpl. rewrite app_nil_r. reflexivity.
  - unfold len at 2. simpl length. rewrite Nat2Z.inj_succ.
    rewrite seqZ_cons by lia. simpl foldl.
    replace (len pre + 1 - 1) with (Z.of_nat (length pre)) by (unfold len; lia).
    rewrite at_index_of_nat, Hdoc, list_lookup_middle by reflexivity.
    replace (Z.pred (Z.succ (Z.of_nat (length rest)))) with (len rest)
      by (unfold len; lia).
    replace (Z.succ (len pre + 1)) with (len (pre ++ [page]) + 1)
      by (unfold len; rewrite length_app; simpl; lia).
    rewrite <- Hdoc.
    rewrite (IH (pre ++ [page])) by (rewrite <- app_assoc; exact Hdoc).
    f_equal. unfold PDFRedact.pageMatches at 1. rewrite pageMatches_spec.
    rewrite <- app_assoc. f_equal. rewrite imap_cons. simpl mjoin.
    rewrite Z.add_0_r. unfold PDFRedact.pageMatches at 2.
    rewrite pageMatches_spec. simpl app. f_equal.
    f_equal. apply imap_ext. intros i x _. simpl. f_equal.
    unfold len. rewrite length_app. simpl. lia.
Qed.

(** X17.  In a session whose [pageCount] is the number of pages of its
    document, [findTextPositions] does not throw and answers, page by
    page and on each page in the order of the text items, exactly one
    match for every item whose lower-cased text includes the lower-cased
    search term ([toLowerCase] and [includes] of JavaScript), and
    nothing else.  The match carries the number of the page, the text of
    the item, its origin with the y axis flipped on the page height,
    and its width and height, an item without width being taken 6 units
    wide per UTF-16 code unit and an item without height 12 units
    high. *)
Theorem findTextPositions_finds_matching_items (searchTerm : string) (s : State)
        (doc : Doc) :
  PDFViewer.getActiveDoc s = Some doc ->
  pageCount doc = len (pdfDoc doc) ->
  let hit := fun item =>
               includes (toLowerCase (PDFRedact.itemStr item))
                        (toLowerCase searchTerm) in
  let found := fun (i : nat) (page : Page) =>
    map (fun item =>
           PDFRedact.mkMatch
             (Z.of_nat i + 1) (PDFRedact.itemStr item) (PDFRedact.itemTx4 item)
             (pageHeight page - PDFRedact.itemTx5 item)
             (PDFRedact.orElse (PDFRedact.itemWidth item)
                (inject_Z (strLength (PDFRedact.itemStr item) * 6)))
             (PDFRedact.orElse (PDFRedact.itemHeight item) 12))
        (List.filter hit (getTextContent page)) in
  exists matches,
    PDFRedact.findTextPositions getTextContent searchTerm s = Value matches
    /\ matches = mjoin (imap found (pdfDoc doc))
    /\ (forall (i : nat) page,
          pdfDoc doc !! i = Some page ->
          filter (fun m => PDFRedact.mPageNum m = Z.of_nat i + 1) matches =
          found i page)
    /\ forall m, m ∈ matches -> 1 <= PDFRedact.mPageNum m <= pageCount doc.
Proof.
  intros Hdoc Hcount hit found.
  assert (Hfound : forall (i : nat) page,
             PDFRedact.pageMatches getTextContent (toLowerCase searchTerm)
               (len (@nil Page) + 1 + Z.of_nat i) page [] = found i page).
  { intros i page. unfold PDFRedact.pageMatches. rewrite pageMatches_spec.
    simpl app. unfold found, PDFRedact.matchOf.
    replace (len (@nil Page) + 1 + Z.of_nat i) with (Z.of_nat i + 1)
      by (unfold len; simpl; lia).
    reflexivity. }
  assert (Hpage : forall j page m, m ∈ found j page ->
                                   PDFRedact.mPageNum m = Z.of_nat j + 1).
  { intros j page m Hm. unfold found in Hm.
    apply list_elem_of_In, in_map_iff in Hm. destruct Hm as (item & <- & _).
    reflexivity. }
  exists (mjoin (imap found (pdfDoc doc))). split; [|split; [|split]].
  - unfold PDFRedact.findTextPositions. rewrite Hdoc, Hcount.
    rewrite (findTextPositions_loop (toLowerCase searchTerm) (pdfDoc doc)
               (pdfDoc doc) [] []) by reflexivity.
    simpl app. f_equal. f_equal. apply imap_ext. intros i page _. apply Hfound.
  - reflexivity.
  - intros i page Hi.
    pose proof (filter_page_join found Hpage (pdfDoc doc) 0 i) as Hfilter.
    simpl in Hfilter. rewrite Nat.sub_0_r, Hi in Hfilter. exact Hfilter.
  - intros m Hm. apply list_elem_of_join in Hm. destruct Hm as (l & Hm & Hl).
    apply elem_of_lookup_imap in Hl. destruct Hl as (i & page & -> & Hi).
    rewrite (Hpage _ _ _ Hm), Hcount.
    apply lookup_lt_Some in Hi. unfold len. lia.
Qed.

End SearchRedact.

Lemma findTextPositions_finds_matching_items_witness :
  let getText := fun _ : Page => [PDFRedact.mkTextItem "Total DUE" 72 700 0 0;
                                  PDFRedact.mkTextItem "Paid" 72 680 20 10;
                                  PDFRedact.mkTextItem "overdue" 72 660 40 0] in
  PDFViewer.getActiveDoc (PDFEditor.deletePages (H := demoEngine) Continuous [3]
                            demoOne) =
    Some (mkDoc 1 "a.pdf" [blankPage; blankPage] [x00; x00] 2 1 1 [1; 2] ∅)
  /\ PDFRedact.findTextPositions (JS := asciiStrings) getText "Due"
       (PDFEditor.deletePages (H := demoEngine) Continuous [3] demoOne) =
     Value [PDFRedact.mkMatch 1 "Total DUE" 72 (792 - 700) (inject_Z 54) 12;
            PDFRedact.mkMatch 1 "overdue" 72 (792 - 660) 40 12;
            PDFRedact.mkMatch 2 "Total DUE" 72 (792 - 700) (inject_Z 54) 12;
            PDFRedact.mkMatch 2 "overdue" 72 (792 - 660) 40 12].
Proof.
  intros getText.
  set (s := PDFEditor.deletePages (H := demoEngine) Continuous [3] demoOne).
  set (doc := mkDoc 1 "a.pdf" [blankPage; blankPage] [x00; x00] 2 1 1 [1; 2] ∅).
  assert (Hdoc : PDFViewer.getActiveDoc s = Some doc) by (vm_compute; reflexivity).
  assert (Hcount : pageCount doc = len (pdfDoc doc)) by reflexivity.
  split; [exact Hdoc|].
  destruct (findTextPositions_finds_matching_items (JS := asciiStrings) getText "Due"
              s doc Hdoc Hcount) as (matches & Heq & Hmatches & _).
  rewrite Heq, Hmatches. vm_compute. reflexivity.
Defined.

(** X18.  The rectangles of Search and Redact.  Page [n + 1] receives,
    after its old content and in the order of the matches, one
    rectangle per match found on it.  For a match made from a text item
    at [(tx4, tx5)] of a page as high as the page drawn on, the
    rectangle has its lower-left corner at [(tx4 - 1, tx5 - h)] and the
    size [(w + 2, h + 2)], [w] and [h] being the width and height taken
    for the item: it spans from [h] below the item's origin to 2 above
    it, whatever the zoom of the session. *)
Theorem searchRedact_rectangles `{JS : StringBuiltins} (color : string)
        (matches : list PDFRedact.Match) (pages : list Page) (n : nat) (p : Page) :
  pages !! n = Some p ->
  (exists p',
      PDFRedact.drawSearchRedactions color matches pages !! n = Some p'
      /\ content p' =
         content p ++
         map (PDFRedact.searchRedactOp color (pageHeight p))
             (filter (fun m => PDFRedact.mPageNum m - 1 = Z.of_nat n) matches))
  /\ forall (i : Z) (page : Page) (item : PDFRedact.TextItem),
       (pageHeight page == pageHeight p)%Q ->
       let w := PDFRedact.orElse (PDFRedact.itemWidth item)
                  (inject_Z (strLength (PDFRedact.itemStr item) * 6)) in
       let h := PDFRedact.orElse (PDFRedact.itemHeight item) 12 in
       exists r,
         rectOf (PDFRedact.searchRedactOp color (pageHeight p)
                   (PDFRedact.matchOf i page item)) = Some r
         /\ rectEq r (PDFRedact.itemTx4 item - 1, PDFRedact.itemTx5 item - h,
                      w + 2, h + 2)%Q.
Proof.
  intros Hp. split.
  - destruct (foldl_draw_content PDFRedact.mPageNum (PDFRedact.searchRedactOp color)
                (PDFRedact.drawSearchRedaction color) (fun _ _ => eq_refl)
                matches pages n p Hp) as (p' & Hp' & _ & _ & _ & Hc).
    exists p'. split; assumption.
  - intros i page item Hh w h. eexists. split; [reflexivity|].
    unfold rectEq, PDFRedact.matchOf.
    cbn [PDFRedact.mX PDFRedact.mY PDFRedact.mW PDFRedact.mH].
    fold w. fold h.
    split; [reflexivity|]. split; [rewrite Hh; ring|]. split; reflexivity.
Qed.

Lemma searchRedact_rectangles_witness :
  let item := PDFRedact.mkTextItem "Total DUE" 72 700 0 0 in
  [blankPage] !! 0%nat = Some blankPage
  /\ exists r,
       rectOf (PDFRedact.searchRedactOp "black" (pageHeight blankPage)
                 (PDFRedact.matchOf (JS := asciiStrings) 1 blankPage item)) = Some r
       /\ rectEq r (71, 688, 56, 14)%Q.
Proof.
  intros item.
  assert (Hp : [blankPage] !! 0%nat = Some blankPage) by reflexivity.
  split; [exact Hp|].
  destruct (proj2 (searchRedact_rectangles (JS := asciiStrings) "black" []
                     [blankPage] 0 blankPage Hp)
                  1 blankPage item (Qeq_refl _)) as (r & Hr & Hrect).
  exists r. split; [exact Hr|].
  destruct r as [[[rx ry] rw] rh]. destruct Hrect as (Hx & Hy & Hw & Hh).
  repeat split; [rewrite Hx | rewrite Hy | rewrite Hw | rewrite Hh]; reflexivity.
Defined.

(** ** Marks: from the click to the file *)

(** X19.  A click with the highlight tool at [(x, y)] on the overlay of
    a page stores one mark, and the commit draws for it a yellow
    rectangle at opacity 0.4 that is centred on the click horizontally
    ([80 / zoom] wide) and reaches from 4 pixels above the click to 12
    pixels below it ([16 / zoom] high), in document units. *)
Theorem highlight_click_is_drawn_around_the_click (pageNum : Z) (n : nat)
        (x y zoom : Q) (s : State) (pages : list Page) (p : Page) :
  pageNum - 1 = Z.of_nat n ->
  pages !! n = Some p ->
  ~ (zoom == 0)%Q ->
  let s' := PDFAnnotate.annotClickHandler "highlight" true pageNum x y s in
  exists a,
    annotations (annotate s') = annotations (annotate s) ++ [a]
    /\ exists X Y W H0,
         PDFAnnotate.drawAnnotation zoom pages a !! n =
           Some (draw (DrawRectangle X Y W H0 (rgb 1 1 0) (Some (4 # 10))) p)
         /\ (X + W / 2 == x / zoom)%Q
         /\ (W == 80 / zoom)%Q
         /\ (H0 == 16 / zoom)%Q
         /\ (Y == pageHeight p - (y + 12) / zoom)%Q
         /\ (Y + H0 == pageHeight p - (y - 4) / zoom)%Q.
Proof.
  intros Hpage Hp Hzoom s'.
  set (a := mkAnnotation "highlight" pageNum (x - 40) (y - 4) 80 16).
  exists a. split.
  - unfold s', PDFAnnotate.annotClickHandler. cbn [negb].
    destruct (Z.eqb_spec pageNum 0) as [Hz|_]; [lia|]. reflexivity.
  - do 4 eexists. split.
    + apply drawAnnotation_highlight; [exact Hp | reflexivity | exact Hpage].
    + cbn [aX aY aW aH a]. repeat split; field; exact Hzoom.
Qed.

Lemma highlight_click_is_drawn_around_the_click_witness :
  2 - 1 = Z.of_nat 1
  /\ [blankPage; blankPage] !! 1%nat = Some blankPage
  /\ ~ (2 == 0)%Q
  /\ exists a,
       annotations (annotate (PDFAnnotate.annotClickHandler "highlight" true 2 100 100
                                demoOne)) = [a].
Proof.
  assert (Hpage : 2 - 1 = Z.of_nat 1) by reflexivity.
  assert (Hp : [blankPage; blankPage] !! 1%nat = Some blankPage) by reflexivity.
  assert (Hzoom : ~ (2 == 0)%Q) by discriminate.
  split; [exact Hpage|]. split; [exact Hp|]. split; [exact Hzoom|].
  destruct (highlight_click_is_drawn_around_the_click 2 1 100 100 2 demoOne
              [blankPage; blankPage] blankPage Hpage Hp Hzoom)
    as (a & Hstore & _).
  exists a. exact Hstore.
Defined.

(** ** Freehand strokes *)

Lemma pathSegments_length zoom height width : forall pts a,
  length (PDFAnnotate.pathSegments zoom height width (a :: pts)) = length pts.
Proof.
  induction pts as [|b pts IH]; intros a; [reflexivity|].
  cbn [PDFAnnotate.pathSegments length]. f_equal. apply IH.
Qed.

Lemma pathSegments_lookup zoom height width : forall pts (i : nat) a b,
  pts !! i = Some a -> pts !! S i = Some b ->
  PDFAnnotate.pathSegments zoom height width pts !! i =
  Some (DrawLine (fst a / zoom) (height - snd a / zoom)
                 (fst b / zoom) (height - snd b / zoom)
                 (width / zoom) (rgb 1 0 0)).
Proof.
  induction pts as [|c pts IH]; intros i a b Ha Hb; [discriminate|].
  destruct pts as [|d pts]; [destruct i; discriminate|].
  destruct i as [|i].
  - simpl in Ha, Hb. injection Ha as <-. injection Hb as <-. reflexivity.
  - cbn [PDFAnnotate.pathSegments]. simpl lookup. apply IH; assumption.
Qed.

Lemma onDrawMove_fold (moves : list (Q * Q)) : forall (pageNum : Z) (pts : list (Q * Q)),
  foldl (fun k m => PDFAnnotate.onDrawMove (fst m) (snd m) k)
        (PDFAnnotate.mkStroke true (Some (mkDrawPath pageNum pts 2))) moves =
  PDFAnnotate.mkStroke true (Some (mkDrawPath pageNum (pts ++ moves) 2)).
Proof.
  induction moves as [|m moves IH]; intros pageNum pts; simpl.
  - rewrite app_nil_r. reflexivity.
  - unfold PDFAnnotate.onDrawMove at 2. cbn [negb PDFAnnotate.strokeIsDrawing
      PDFAnnotate.currentPath pathPageNum points pathWidth]. unfold push.
    rewrite IH, <- app_assoc. destruct m. reflexivity.
Qed.

Lemma content_foldl_draw (ops : list DrawOp) : forall pg,
  content (foldl (fun pg op => draw op pg) pg ops) = content pg ++ ops
  /\ pageHeight (foldl (fun pg op => draw op pg) pg ops) = pageHeight pg.
Proof.
  induction ops as [|op ops IH]; intros pg; simpl.
  - rewrite app_nil_r. auto.
  - destruct (IH (draw op pg)) as (-> & ->). simpl. unfold push.
    rewrite <- app_assoc. auto.
Qed.

(** X20.  A freehand stroke: press, [k] mouse moves, release.  Without a
    move nothing is stored.  With moves one path is stored, on the page
    of the canvas and through the press point and the move points in
    order; the commit draws it as exactly [k] red line segments after
    the old content of the page, segment [i] joining point [i] to point
    [i + 1] in document space, so that each segment starts where the
    one before ends. *)
Theorem stroke_commits_one_segment_per_move (pageNum : Z) (n : nat) (p0 : Q * Q)
        (moves : list (Q * Q)) (zoom : Q) (s : State) (pages : list Page) (p : Page) :
  pageNum - 1 = Z.of_nat n ->
  pages !! n = Some p ->
  let '(k, s') := PDFAnnotate.stroke pageNum p0 moves s in
  k = PDFAnnotate.mkStroke false None
  /\ (moves = [] -> drawPaths (annotate s') = drawPaths (annotate s))
  /\ (moves <> [] ->
      exists path,
        drawPaths (annotate s') = drawPaths (annotate s) ++ [path]
        /\ pathPageNum path = pageNum
        /\ points path = p0 :: moves
        /\ exists p' segments,
             PDFAnnotate.drawPath zoom pages path !! n = Some p'
             /\ content p' = content p ++ segments
             /\ length segments = length moves
             /\ forall (i : nat) a b,
                  (p0 :: moves) !! i = Some a -> (p0 :: moves) !! S i = Some b ->
                  segments !! i =
                  Some (DrawLine (fst a / zoom) (pageHeight p - snd a / zoom)
                                 (fst b / zoom) (pageHeight p - snd b / zoom)
                                 (2 / zoom) (rgb 1 0 0))).
Proof.
  intros Hpage Hp. unfold PDFAnnotate.stroke, PDFAnnotate.onDrawStart.
  destruct (Z.eqb_spec pageNum 0) as [Hz|_]; [lia|].
  rewrite onDrawMove_fold. destruct p0 as [x0 y0]. cbn [fst snd app].
  unfold PDFAnnotate.onDrawEnd.
  cbn [negb PDFAnnotate.strokeIsDrawing PDFAnnotate.currentPath points].
  destruct moves as [|m moves].
  - cbn [len length]. split; [reflexivity|]. split; [reflexivity|].
    intros Hne. contradiction.
  - replace (len ((x0, y0) :: m :: moves) >? 1) with true
      by (symmetry; apply Z.gtb_lt; unfold len; simpl length; lia).
    split; [reflexivity|]. split; [discriminate|]. intros _.
    set (path := mkDrawPath pageNum ((x0, y0) :: m :: moves) 2).
    exists path. split; [reflexivity|]. split; [reflexivity|]. split; [reflexivity|].
    set (segments := PDFAnnotate.pathSegments zoom (pageHeight p) 2
                       ((x0, y0) :: m :: moves)).
    exists (foldl (fun pg op => draw op pg) p segments), segments.
    split; [|split; [|split]].
    + unfold PDFAnnotate.drawPath. cbn [pathPageNum path points pathWidth].
      rewrite Hpage, (at_index_lookup _ _ _ Hp).
      rewrite (mutate_at_lookup _ _ _ n p Hp), Z.eqb_refl. reflexivity.
    + apply content_foldl_draw.
    + unfold segments. apply pathSegments_length.
    + intros i a b Ha Hb. unfold segments. apply pathSegments_lookup; assumption.
Qed.

Lemma stroke_commits_one_segment_per_move_witness :
  2 - 1 = Z.of_nat 1
  /\ [blankPage; blankPage] !! 1%nat = Some blankPage
  /\ length (drawPaths (annotate (snd (PDFAnnotate.stroke 2 (10, 10)%Q
                                         [(20, 15)%Q; (30, 25)%Q] demoOne)))) = 1%nat.
Proof.
  assert (Hpage : 2 - 1 = Z.of_nat 1) by reflexivity.
  assert (Hp : [blankPage; blankPage] !! 1%nat = Some blankPage) by reflexivity.
  split; [exact Hpage|]. split; [exact Hp|].
  pose proof (stroke_commits_one_segment_per_move 2 1 (10, 10)%Q [(20, 15)%Q; (30, 25)%Q] 2
                demoOne [blankPage; blankPage] blankPage Hpage Hp) as Hstroke.
  destruct (PDFAnnotate.stroke 2 (10, 10)%Q [(20, 15)%Q; (30, 25)%Q] demoOne) as [k s'].
  destruct Hstroke as (_ & _ & Hpath).
  destruct Hpath as (path & Hstored & _); [discriminate|].
  cbn [snd]. rewrite Hstored. rewrite length_app. reflexivity.
Defined.

(** ** Rotating pages *)

Lemma rem_360_multiple_of_90 (a : Z) : Z.rem a 90 = 0 -> Z.rem (Z.rem a 360) 90 = 0.
Proof.
  intros Ha. apply Z.rem_divide in Ha; [|lia]. apply Z.rem_divide; [lia|].
  rewrite Z.rem_eq by lia. destruct Ha as [k ->].
  exists (k - 4 * (k * 90 ÷ 360)). lia.
Qed.

Lemma rotatePages_lookup (degrees : Z) (pageNums : list Z) : forall (pages : list Page),
  Z.rem degrees 90 = 0 ->
  Forall (fun p => Z.rem (rotation p) 90 = 0) pages ->
  NoDup pageNums ->
  exists pages',
    PDFPages.rotatePages degrees pageNums pages = Some pages'
    /\ length pages' = length pages
    /\ forall (n : nat) p,
         pages !! n = Some p ->
         pages' !! n =
         Some (if decide (Z.of_nat n + 1 ∈ pageNums)
               then mkPage (pageWidth p) (pageHeight p)
                           (Z.rem (rotation p + degrees) 360) (content p)
               else p).
Proof.
  induction pageNums as [|q rest IH]; intros pages Hdeg Hrot Hnd.
  - exists pages. split; [reflexivity|]. split; [reflexivity|].
    intros n p Hp. rewrite decide_False by (apply not_elem_of_nil). exact Hp.
  - apply NoDup_cons in Hnd. destruct Hnd as (Hq & Hnd). cbn [PDFPages.rotatePages].
    destruct (at_index pages (q - 1)) as [page|] eqn:Hpage.
    + apply at_index_Some in Hpage. destruct Hpage as (Hrange & Hpage).
      assert (Hpage90 : Z.rem (rotation page) 90 = 0).
      { rewrite Forall_forall in Hrot. apply Hrot. apply list_elem_of_lookup. eauto. }
      unfold PDFPages.setRotation.
      replace (Z.rem (Z.rem (rotation page + degrees) 360) 90 =? 0) with true.
      2:{ symmetry. apply Z.eqb_eq, rem_360_multiple_of_90.
          apply Z.rem_divide; [lia|]. apply Z.rem_divide in Hpage90, Hdeg; try lia.
          apply Z.divide_add_r; assumption. }
      set (page' := mkPage _ _ _ _).
      destruct (IH (mutate_at (fun _ => page') pages (q - 1)) Hdeg) as (pages' & Hrot' & Hlen & Hlook).
      * apply Forall_mutate_at_active with (x := page).
        -- unfold at_index. destruct (Z.leb_spec 0 (q - 1)); [exact Hpage | lia].
        -- intros _. unfold page'. cbn [rotation]. apply rem_360_multiple_of_90.
           apply Z.rem_divide; [lia|]. apply Z.rem_divide in Hpage90, Hdeg; try lia.
           apply Z.divide_add_r; assumption.
        -- exact Hrot.
      * exact Hnd.
      * exists pages'. split; [exact Hrot'|]. split.
        -- rewrite Hlen. pose proof (len_mutate_at (fun _ => page') pages (q - 1)) as Hl.
           unfold len in Hl. lia.
        -- intros n p Hp.
           rewrite (Hlook n _ (mutate_at_lookup _ _ _ n p Hp)).
           destruct (Z.eqb_spec (q - 1) (Z.of_nat n)) as [Heq|Hne].
           ++ assert (Hq' : Z.of_nat n + 1 = q) by lia.
              rewrite decide_False by (rewrite Hq'; exact Hq).
              rewrite decide_True by (apply elem_of_cons; left; exact Hq').
              assert (p = page).
              { replace (Z.to_nat (q - 1)) with n in Hpage by lia. congruence. }
              subst p. reflexivity.
           ++ destruct (decide (Z.of_nat n + 1 ∈ rest)) as [Hin|Hout].
              ** rewrite decide_True by (apply elem_of_cons; right; exact Hin).
                 reflexivity.
              ** rewrite decide_False; [reflexivity|].
                 intros Hin. apply elem_of_cons in Hin. destruct Hin; [lia | contradiction].
    + destruct (IH pages Hdeg Hrot Hnd) as (pages' & Hrot' & Hlen & Hlook).
      exists pages'. split; [exact Hrot'|]. split; [exact Hlen|].
      intros n p Hp. rewrite (Hlook n p Hp).
      assert (Hne : Z.of_nat n + 1 <> q).
      { intros <-. replace (Z.of_nat n + 1 - 1) with (Z.of_nat n) in Hpage by lia.
        rewrite at_index_of_nat in Hpage. congruence. }
      destruct (decide (Z.of_nat n + 1 ∈ rest)) as [Hin|Hout].
      * rewrite decide_True by (apply elem_of_cons; right; exact Hin). reflexivity.
      * rewrite decide_False; [reflexivity|].
        intros Hin. apply elem_of_cons in Hin. destruct Hin; [lia | contradiction].
Qed.

(** X21.  The rotation loop of [rotatePage].  For a multiple of 90
    degrees, pages whose rotation is a multiple of 90 and distinct page
    numbers, pdf-lib does not throw; the document keeps its number of
    pages; every listed page of the document gets the rotation
    [(rotation + degrees) % 360] (congruent to [rotation + degrees]
    modulo 360 and strictly between -360 and 360) and keeps its size and
    content; every other page is untouched; page numbers outside the
    document are skipped. *)
Theorem rotatePages_turns_listed_pages (degrees : Z) (pageNums : list Z)
        (pages : list Page) :
  Z.rem degrees 90 = 0 ->
  Forall (fun p => Z.rem (rotation p) 90 = 0) pages ->
  NoDup pageNums ->
  exists pages',
    PDFPages.rotatePages degrees pageNums pages = Some pages'
    /\ length pages' = length pages
    /\ forall (n : nat) p,
         pages !! n = Some p ->
         exists p',
           pages' !! n = Some p'
           /\ pageWidth p' = pageWidth p /\ pageHeight p' = pageHeight p
           /\ content p' = content p
           /\ (Z.of_nat n + 1 ∈ pageNums ->
               rotation p' = Z.rem (rotation p + degrees) 360
               /\ (rotation p' - (rotation p + degrees)) mod 360 = 0
               /\ -360 < rotation p' < 360)
           /\ (Z.of_nat n + 1 ∉ pageNums -> p' = p).
Proof.
  intros Hdeg Hrot Hnd.
  destruct (rotatePages_lookup degrees pageNums pages Hdeg Hrot Hnd)
    as (pages' & Heq & Hlen & Hlook).
  exists pages'. split; [exact Heq|]. split; [exact Hlen|].
  intros n p Hp. specialize (Hlook n p Hp).
  destruct (decide (Z.of_nat n + 1 ∈ pageNums)) as [Hin|Hout].
  - eexists. split; [exact Hlook|]. cbn [pageWidth pageHeight content rotation].
    repeat (split; [reflexivity|]). split; [|intros; contradiction].
    intros _. split; [reflexivity|]. split.
    + rewrite Z.rem_eq by lia.
      replace (rotation p + degrees - 360 * ((rotation p + degrees) ÷ 360)
               - (rotation p + degrees))
        with (- ((rotation p + degrees) ÷ 360) * 360) by lia.
      apply Z.mod_mul. lia.
    + pose proof (Z.rem_bound_abs (rotation p + degrees) 360). lia.
  - exists p. split; [exact Hlook|]. repeat (split; [reflexivity|]).
    split; [intros; contradiction | reflexivity].
Qed.

Lemma rotatePages_turns_listed_pages_witness :
  Z.rem 90 90 = 0
  /\ Forall (fun p => Z.rem (rotation p) 90 = 0)
            [blankPage; mkPage 612 792 270 []; blankPage]
  /\ NoDup [2; 3]
  /\ PDFPages.rotatePages 90 [2; 3] [blankPage; mkPage 612 792 270 []; blankPage] =
     Some [blankPage; mkPage 612 792 0 []; mkPage 612 792 90 []].
Proof.
  assert (Hdeg : Z.rem 90 90 = 0) by reflexivity.
  assert (Hrot : Forall (fun p => Z.rem (rotation p) 90 = 0)
                        [blankPage; mkPage 612 792 270 []; blankPage])
    by (repeat constructor).
  assert (Hnd : NoDup [2; 3]).
  { repeat constructor; rewrite ?elem_of_cons, ?elem_of_nil; intuition discriminate. }
  split; [exact Hdeg|]. split; [exact Hrot|]. split; [exact Hnd|].
  destruct (rotatePages_turns_listed_pages 90 [2; 3]
              [blankPage; mkPage 612 792 270 []; blankPage] Hdeg Hrot Hnd)
    as (pages' & Heq & _).
  reflexivity.
Defined.

Lemma quarter_rotation_cases (r : Z) :
  Z.rem r 90 = 0 -> 0 <= r < 360 -> r = 0 \/ r = 90 \/ r = 180 \/ r = 270.
Proof.
  intros Hr Hrange. apply Z.rem_divide in Hr; [|lia]. destruct Hr as [k ->]. lia.
Qed.

Lemma rotatePages_quarter (pageNums : list Z) (pages : list Page) :
  Forall (fun p => Z.rem (rotation p) 90 = 0 /\ 0 <= rotation p < 360) pages ->
  NoDup pageNums ->
  exists pages',
    PDFPages.rotatePages 90 pageNums pages = Some pages'
    /\ Forall (fun p => Z.rem (rotation p) 90 = 0 /\ 0 <= rotation p < 360) pages'
    /\ length pages' = length pages
    /\ forall (n : nat) p,
         pages !! n = Some p ->
         pages' !! n =
         Some (if decide (Z.of_nat n + 1 ∈ pageNums)
               then mkPage (pageWidth p) (pageHeight p)
                           (Z.rem (rotation p + 90) 360) (content p)
               else p).
Proof.
  intros Hgood Hnd.
  destruct (rotatePages_lookup 90 pageNums pages eq_refl) as (pages' & Heq & Hlen & Hlook);
    [eapply Forall_impl; [exact Hgood|]; intros p Hp; apply Hp | exact Hnd |].
  exists pages'. split; [exact Heq|]. split; [|split; assumption].
  apply Forall_lookup. intros n p' Hp'.
  destruct (lookup_lt_is_Some_2 pages n) as [p Hp].
  { rewrite <- Hlen. apply lookup_lt_is_Some. eauto. }
  rewrite (Hlook n p Hp) in Hp'. injection Hp' as <-.
  rewrite Forall_lookup in Hgood. specialize (Hgood n p Hp).
  destruct (decide _); [|exact Hgood]. cbn [rotation].
  destruct Hgood as (H90 & Hrange).
  destruct (quarter_rotation_cases _ H90 Hrange) as [-> | [-> | [-> | ->]]];
    (split; [reflexivity | split; [vm_compute; discriminate | vm_compute; reflexivity]]).
Qed.

(** X22.  Four quarter turns give the document back: rotating the same
    distinct pages by 90 degrees four times, on pages whose rotation is
    one of 0, 90, 180 and 270, never throws and ends on the very page
    list it started from. *)
Theorem four_quarter_turns_restore_the_pages (pageNums : list Z) (pages : list Page) :
  Forall (fun p => Z.rem (rotation p) 90 = 0 /\ 0 <= rotation p < 360) pages ->
  NoDup pageNums ->
  let turn := fun o : option (list Page) =>
                match o with
                | Some pg => PDFPages.rotatePages 90 pageNums pg
                | None => None
                end in
  turn (turn (turn (turn (Some pages)))) = Some pages.
Proof.
  intros Hgood Hnd turn. unfold turn.
  destruct (rotatePages_quarter pageNums pages Hgood Hnd)
    as (pages1 & -> & Hgood1 & Hlen1 & Hlook1).
  destruct (rotatePages_quarter pageNums pages1 Hgood1 Hnd)
    as (pages2 & -> & Hgood2 & Hlen2 & Hlook2).
  destruct (rotatePages_quarter pageNums pages2 Hgood2 Hnd)
    as (pages3 & -> & Hgood3 & Hlen3 & Hlook3).
  destruct (rotatePages_quarter pageNums pages3 Hgood3 Hnd)
    as (pages4 & -> & _ & Hlen4 & Hlook4).
  f_equal. apply list_eq. intros n.
  destruct (pages !! n) as [p|] eqn:Hp.
  - pose proof (Hlook1 n p Hp) as H1.
    pose proof (Hlook2 n _ H1) as H2.
    pose proof (Hlook3 n _ H2) as H3.
    rewrite (Hlook4 n _ H3).
    rewrite Forall_lookup in Hgood. destruct (Hgood n p Hp) as (H90 & Hrange).
    destruct (decide _); [|reflexivity].
    destruct p as [w h r c]. cbn [pageWidth pageHeight rotation content] in *.
    destruct (quarter_rotation_cases _ H90 Hrange) as [-> | [-> | [-> | ->]]];
      reflexivity.
  - apply lookup_ge_None in Hp. apply lookup_ge_None. lia.
Qed.

Lemma four_quarter_turns_restore_the_pages_witness :
  let pages := [blankPage; mkPage 612 792 270 []; blankPage] in
  Forall (fun p => Z.rem (rotation p) 90 = 0 /\ 0 <= rotation p < 360) pages
  /\ NoDup [2; 3]
  /\ match PDFPages.rotatePages 90 [2; 3] pages with
     | Some pages1 =>
         match PDFPages.rotatePages 90 [2; 3] pages1 with
         | Some pages2 =>
             match PDFPages.rotatePages 90 [2; 3] pages2 with
             | Some pages3 => PDFPages.rotatePages 90 [2; 3] pages3
             | None => None
             end
         | None => None
         end
     | None => None
     end = Some pages.
Proof.
  intros pages.
  assert (Hgood : Forall (fun p => Z.rem (rotation p) 90 = 0 /\ 0 <= rotation p < 360)
                         pages)
    by (repeat constructor; vm_compute; discriminate).
  assert (Hnd : NoDup [2; 3]).
  { repeat constructor; rewrite ?elem_of_cons, ?elem_of_nil; intuition discriminate. }
  split; [exact Hgood|]. split; [exact Hnd|].
  exact (four_quarter_turns_restore_the_pages [2; 3] pages Hgood Hnd).
Defined.

(** ** The page tools and the module object of pdf-editor.js *)

Lemma callPushUndo_exports a s : PDFEditor.callPushUndo PDFEditor.exports a s = Threw s.
Proof.
  unfold PDFEditor.callPushUndo. rewrite decide_False; [reflexivity|].
  unfold PDFEditor.exports.
  rewrite !elem_of_cons, elem_of_nil. intuition discriminate.
Qed.

(** X23.  [rotatePage] and [insertBlankPage] against the module object
    pdf-editor.js returns, which has no [pushUndo] member: once the new
    document is built and handed to [save()], the call of
    [PDFEditor.pushUndo] throws, so [refreshDocument] is never reached.
    Whatever the state and the argument, the [try] body leaves the
    sessions, the history, the stores and the page as they were; only
    the engine calls made are on record. *)
Theorem page_tools_leave_the_sessions_alone `{Engine} (ver : Version) (degrees : Z)
        (s : State) :
  let s1 := stateOf (PDFPages.rotatePage_try PDFEditor.exports ver degrees s) in
  let s2 := stateOf (PDFPages.insertBlankPage_try PDFEditor.exports ver s) in
  (viewer s1 = viewer s /\ editor s1 = editor s /\ redact s1 = redact s
   /\ annotate s1 = annotate s /\ dom s1 = dom s)
  /\ (viewer s2 = viewer s /\ editor s2 = editor s /\ redact s2 = redact s
      /\ annotate s2 = annotate s /\ dom s2 = dom s)
  /\ (forall doc allPages allPages',
        PDFViewer.getActiveDoc s = Some doc ->
        PDFDocument_load (pdfBytes doc) = Some allPages ->
        PDFPages.rotatePages degrees
          (if len (PDFViewer.getSelectedPages s) >? 0
           then PDFViewer.getSelectedPages s else [currentPage doc]) allPages =
          Some allPages' ->
        PDFPages.rotatePage_try PDFEditor.exports ver degrees s =
        Threw (logCall (CallSave allPages') (logCall (CallLoad (pdfBytes doc)) s))).
Proof.
  intros s1 s2. split; [|split].
  - unfold s1, PDFPages.rotatePage_try.
    destruct (PDFViewer.getActiveDoc s) as [doc|]; [|repeat split].
    destruct (PDFDocument_load (pdfBytes doc)) as [allPages|]; [|repeat split].
    destruct (PDFPages.rotatePages _ _ allPages) as [allPages'|]; [|repeat split].
    rewrite callPushUndo_exports. repeat split.
  - unfold s2, PDFPages.insertBlankPage_try.
    destruct (PDFViewer.getActiveDoc s) as [doc|]; [|repeat split].
    destruct (PDFDocument_load (pdfBytes doc)) as [pages|]; [|repeat split].
    destruct (insertPage _ _ pages) as [pages'|]; [|repeat split].
    rewrite callPushUndo_exports. repeat split.
  - intros doc allPages allPages' Hdoc Hload Hrot.
    unfold PDFPages.rotatePage_try.
    rewrite Hdoc, Hload.
    change (PDFViewer.getSelectedPages (logCall (CallLoad (pdfBytes doc)) s))
      with (PDFViewer.getSelectedPages s).
    rewrite Hrot, callPushUndo_exports. reflexivity.
Qed.

(** ** Zoom steps *)

Lemma onQuarterGrid_min (z : Q) :
  onQuarterGrid z -> onQuarterGrid (Qmin 4 (z + (1 # 4))).
Proof.
  intros (k & Hk).
  destruct (Q.min_spec 4 (z + (1 # 4))) as [(_ & Heq) | (_ & Heq)].
  - exists 16. rewrite Heq. reflexivity.
  - exists (k + 1). rewrite Heq, Hk, inject_Z_plus. field.
Qed.

Lemma onQuarterGrid_max (z : Q) :
  onQuarterGrid z -> onQuarterGrid (Qmax (1 # 4) (z - (1 # 4))).
Proof.
  intros (k & Hk).
  destruct (Q.max_spec (1 # 4) (z - (1 # 4))) as [(_ & Heq) | (_ & Heq)].
  - exists (k - 1). rewrite Heq, Hk. unfold Z.sub.
    rewrite inject_Z_plus, inject_Z_opp. field.
  - exists 1. rewrite Heq. reflexivity.
Qed.

(** X24.  On the quarter grid Zoom In and Zoom Out undo each other away
    from the limits.  From a factor on the grid both buttons lead to a
    factor on the grid; from one between 0.25 and 3.75, Zoom In then
    Zoom Out gives back the factor; from one between 0.5 and 4, so does
    Zoom Out then Zoom In; at 4 Zoom In, and at 0.25 Zoom Out, keep the
    factor.  (Off the grid, at a factor Fit page has computed, the sums
    round in doubles and nothing is stated.) *)
Theorem zoomIn_zoomOut_roundtrip (ver : Version) (s : State) (doc : Doc) :
  PDFViewer.getActiveDoc s = Some doc ->
  onQuarterGrid (zoom doc) ->
  let after := fun t => zoom <$> PDFViewer.getActiveDoc t in
  (exists z, after (PDFViewer.zoomIn ver s) = Some z /\ onQuarterGrid z)
  /\ (exists z, after (PDFViewer.zoomOut ver s) = Some z /\ onQuarterGrid z)
  /\ (((1 # 4) <= zoom doc <= (15 # 4))%Q ->
      exists z, after (PDFViewer.zoomOut ver (PDFViewer.zoomIn ver s)) = Some z
                /\ (z == zoom doc)%Q)
  /\ (((1 # 2) <= zoom doc <= 4)%Q ->
      exists z, after (PDFViewer.zoomIn ver (PDFViewer.zoomOut ver s)) = Some z
                /\ (z == zoom doc)%Q)
  /\ ((zoom doc == 4)%Q ->
      exists z, after (PDFViewer.zoomIn ver s) = Some z /\ (z == zoom doc)%Q)
  /\ ((zoom doc == (1 # 4))%Q ->
      exists z, after (PDFViewer.zoomOut ver s) = Some z /\ (z == zoom doc)%Q).
Proof.
  intros Hdoc Hgrid after.
  assert (Hin : forall t d, PDFViewer.getActiveDoc t = Some d ->
                after (PDFViewer.zoomIn ver t) = Some (Qmin 4 (zoom d + (1 # 4)))).
  { intros t d Hd. unfold after, PDFViewer.zoomIn. rewrite Hd.
    rewrite afterZoom_active_zoom, getActiveDoc_updateActiveDoc, Hd. reflexivity. }
  assert (Hout : forall t d, PDFViewer.getActiveDoc t = Some d ->
                 after (PDFViewer.zoomOut ver t) = Some (Qmax (1 # 4) (zoom d - (1 # 4)))).
  { intros t d Hd. unfold after, PDFViewer.zoomOut. rewrite Hd.
    rewrite afterZoom_active_zoom, getActiveDoc_updateActiveDoc, Hd. reflexivity. }
  split; [|split; [|split; [|split; [|split]]]].
  - eexists. split; [apply (Hin s doc Hdoc)|]. apply onQuarterGrid_min, Hgrid.
  - eexists. split; [apply (Hout s doc Hdoc)|]. apply onQuarterGrid_max, Hgrid.
  - intros (Hlo & Hhi).
    pose proof (Hin s doc Hdoc) as H1. unfold after in H1.
    destruct (PDFViewer.getActiveDoc (PDFViewer.zoomIn ver s)) as [d1|] eqn:Hd1;
      [|discriminate].
    simpl in H1. injection H1 as Hz1.
    eexists. split; [apply (Hout _ d1 Hd1)|]. rewrite Hz1.
    rewrite (Q.min_r 4 (zoom doc + (1 # 4))) by lra.
    rewrite Q.max_r; [ring | lra].
  - intros (Hlo & Hhi).
    pose proof (Hout s doc Hdoc) as H1. unfold after in H1.
    destruct (PDFViewer.getActiveDoc (PDFViewer.zoomOut ver s)) as [d1|] eqn:Hd1;
      [|discriminate].
    simpl in H1. injection H1 as Hz1.
    eexists. split; [apply (Hin _ d1 Hd1)|]. rewrite Hz1.
    rewrite (Q.max_r (1 # 4) (zoom doc - (1 # 4))) by lra.
    rewrite Q.min_r; [ring | lra].
  - intros Hz. eexists. split; [apply (Hin s doc Hdoc)|].
    rewrite Q.min_l; [symmetry; exact Hz | lra].
  - intros Hz. eexists. split; [apply (Hout s doc Hdoc)|].
    rewrite Q.max_l; [symmetry; exact Hz | lra].
Qed.

Lemma zoomIn_zoomOut_roundtrip_witness :
  let s := runZoomOps Continuous [SetZoom (PDFViewer.ZoomValue (5 # 2)); ZoomIn]
                      demoOne in
  (exists doc, PDFViewer.getActiveDoc s = Some doc /\ onQuarterGrid (zoom doc))
  /\ exists z,
       zoom <$> PDFViewer.getActiveDoc
                  (PDFViewer.zoomOut Continuous (PDFViewer.zoomIn Continuous s)) =
         Some z
       /\ (z == 11 # 4)%Q.
Proof.
  intros s.
  set (doc := mkDoc 1 "a.pdf" [blankPage; blankPage; blankPage] threePages 3 1
                    (Qmin 4 ((5 # 2) + (1 # 4))) [1; 2; 3] ∅).
  assert (Hdoc : PDFViewer.getActiveDoc s = Some doc) by (vm_compute; reflexivity).
  assert (Hgrid : onQuarterGrid (zoom doc)) by (exists 11; reflexivity).
  split; [exists doc; split; assumption|].
  destruct (zoomIn_zoomOut_roundtrip Continuous s doc Hdoc Hgrid)
    as (_ & _ & Hround & _).
  destruct Hround as (z & Hz & Heq); [split; discriminate|].
  exists z. split; [exact Hz|]. rewrite Heq. reflexivity.
Defined.

(** ** Text written into the .docx *)

Lemma append_assoc (r t u : string) :
  (r ++ (t ++ u))%string = ((r ++ t) ++ u)%string.
Proof.
  induction r as [|b r IHr]; [reflexivity|].
  change (String b (r ++ (t ++ u)) = String b ((r ++ t) ++ u))%string.
  rewrite IHr. reflexivity.
Qed.

Lemma replaceAll_app (c : ascii) (r : string) (t u : string) :
  PDFConvert.replaceAll c r (t ++ u)%string =
  (PDFConvert.replaceAll c r t ++ PDFConvert.replaceAll c r u)%string.
Proof.
  induction t as [|a t IH]; [reflexivity|]. simpl.
  destruct (Ascii.eqb a c); rewrite IH; [apply append_assoc | reflexivity].
Qed.

Lemma escapeXml_app (t u : string) :
  PDFConvert.escapeXml (t ++ u)%string =
  (PDFConvert.escapeXml t ++ PDFConvert.escapeXml u)%string.
Proof. unfold PDFConvert.escapeXml. rewrite !replaceAll_app. reflexivity. Qed.

Lemma escapeXml_char (c : ascii) :
  PDFConvert.escapeXml (String c EmptyString) = xmlEntity c.
Proof.
  unfold PDFConvert.escapeXml, xmlEntity. cbn [PDFConvert.replaceAll].
  destruct (Ascii.eqb_spec c "&") as [->|H1]; [reflexivity|].
  cbn [PDFConvert.replaceAll].
  destruct (Ascii.eqb_spec c "<") as [->|H2]; [reflexivity|].
  cbn [PDFConvert.replaceAll].
  destruct (Ascii.eqb_spec c ">") as [->|H3]; [reflexivity|].
  cbn [PDFConvert.replaceAll].
  destruct (Ascii.eqb_spec c PDFConvert.dquote) as [->|H4]; [reflexivity|].
  cbn [PDFConvert.replaceAll].
  destruct (Ascii.eqb_spec c "'") as [->|H5]; reflexivity.
Qed.

Lemma escapeXml_escapeEach (str : string) :
  PDFConvert.escapeXml str = escapeEach str.
Proof.
  induction str as [|c str IH]; [reflexivity|].
  change (String c str) with (String c EmptyString ++ str)%string.
  rewrite escapeXml_app, escapeXml_char, IH. reflexivity.
Qed.

Lemma list_ascii_of_string_app (t u : string) :
  list_ascii_of_string (t ++ u)%string =
  list_ascii_of_string t ++ list_ascii_of_string u.
Proof.
  induction t as [|a t IH]; [reflexivity|].
  change (a :: list_ascii_of_string (t ++ u)%string =
          a :: (list_ascii_of_string t ++ list_ascii_of_string u)).
  rewrite IH. reflexivity.
Qed.

Ltac entity_cases c :=
  unfold xmlEntity;
  destruct (Ascii.eqb_spec c "&") as [->|?];
  [|destruct (Ascii.eqb_spec c "<") as [->|?];
    [|destruct (Ascii.eqb_spec c ">") as [->|?];
      [|destruct (Ascii.eqb_spec c PDFConvert.dquote) as [->|?];
        [|destruct (Ascii.eqb_spec c "'") as [->|?]]]]].

Lemma xmlEntity_chars (c a : ascii) :
  In a (list_ascii_of_string (xmlEntity c)) ->
  a <> "<"%char /\ a <> ">"%char /\ a <> PDFConvert.dquote /\ a <> "'"%char.
Proof.
  entity_cases c; simpl; intros Hin;
    repeat match goal with
           | H : _ \/ _ |- _ => destruct H as [<-|H]
           | H : False |- _ => contradiction
           end;
    repeat split; try discriminate; congruence.
Qed.

(** X25.  [escapeXml] escapes every character exactly once: the chain
    of five [replace] calls gives what replacing each character by its
    entity in one pass gives (the ampersands of the entities written by
    the later calls are not escaped again, [&] being replaced first),
    the result of a concatenation is the concatenation of the results,
    and no [<], [>], double quote or apostrophe is left in the
    result. *)
Theorem escapeXml_escapes_each_character_once (str other : string) :
  PDFConvert.escapeXml str = escapeEach str
  /\ PDFConvert.escapeXml (str ++ other)%string =
     (PDFConvert.escapeXml str ++ PDFConvert.escapeXml other)%string
  /\ forall a, In a (list_ascii_of_string (PDFConvert.escapeXml str)) ->
               a <> "<"%char /\ a <> ">"%char /\ a <> PDFConvert.dquote
               /\ a <> "'"%char.
Proof.
  split; [apply escapeXml_escapeEach|]. split; [apply escapeXml_app|].
  rewrite escapeXml_escapeEach.
  induction str as [|c str IH]; intros a Hin; [contradiction|].
  cbn [escapeEach] in Hin. rewrite list_ascii_of_string_app in Hin.
  apply in_app_or in Hin. destruct Hin as [Hin|Hin].
  - exact (xmlEntity_chars c a Hin).
  - exact (IH a Hin).
Qed.

Lemma escapeEach_nonempty (c : ascii) (r : string) :
  escapeEach (String c r) <> EmptyString.
Proof. cbn [escapeEach]. entity_cases c; discriminate. Qed.

Lemma escapeEach_injective : forall a b : string,
  escapeEach a = escapeEach b -> a = b.
Proof.
  induction a as [|c1 a IH]; intros [|c2 b] Heq.
  - reflexivity.
  - symmetry in Heq. apply escapeEach_nonempty in Heq. contradiction.
  - apply escapeEach_nonempty in Heq. contradiction.
  - cbn [escapeEach] in Heq. revert Heq.
    entity_cases c1; entity_cases c2; intros Heq;
      try discriminate Heq;
      try (injection Heq as Heq; f_equal; apply IH; exact Heq);
      try (injection Heq as Hc Heq; congruence).
    injection Heq as -> Heq. f_equal. apply IH. exact Heq.
Qed.

(** X26.  [escapeXml] loses nothing: two texts with the same escaped
    form are the same text. *)
Theorem escapeXml_injective (a b : string) :
  PDFConvert.escapeXml a = PDFConvert.escapeXml b -> a = b.
Proof.
  rewrite !escapeXml_escapeEach. apply escapeEach_injective.
Qed.

Lemma escapeXml_injective_witness :
  PDFConvert.escapeXml "a<b" = PDFConvert.escapeXml "a<b" /\ "a<b" = "a<b".
Proof.
  split; [reflexivity|].
  exact (escapeXml_injective "a<b" "a<b" eq_refl).
Defined.

(** ** Undo and redo of a page deletion *)

Lemma pop_snoc {A} (l : list A) (x : A) : pop (l ++ [x]) = Some (x, l).
Proof. unfold pop. rewrite last_snoc, removelast_last. reflexivity. Qed.

Lemma pop_last {A} (l rest : list A) (x : A) :
  pop l = Some (x, rest) -> last l = Some x.
Proof. unfold pop. destruct (last l); [|discriminate]. intros [= -> _]. reflexivity. Qed.

Lemma removelast_snoc_last {A} (l : list A) (x : A) :
  last l = Some x -> removelast l ++ [x] = l.
Proof.
  induction l as [|a l IH] using rev_ind; [discriminate|].
  rewrite last_snoc. intros [= ->]. rewrite removelast_last. reflexivity.
Qed.

Section DeleteUndoRedo.
Context `{Engine}.
Variable ver : Version.

Lemma deletePages_commits (s : State) (doc : Doc) (pageNums : list Z)
      (pages : list Page) :
  PDFViewer.getActiveDoc s = Some doc ->
  PDFDocument_load (pdfBytes doc) = Some pages ->
  pageNums <> [] ->
  NoDup pageNums ->
  Forall (fun p => 1 <= p <= len pages) pageNums ->
  len pageNums < pageCount doc ->
  PDFEditor.deletePages ver pageNums s =
  match PDFViewer.refreshDocument ver
          (PDFDocument_save (withoutPages pageNums 1 pages)) None
          (PDFEditor.pushUndo
             (mkAction "delete" None (Some (pdfBytes doc)))
             (logCall (CallSave (withoutPages pageNums 1 pages))
                      (logCall (CallLoad (pdfBytes doc)) s))) with
  | Returned s1 => s1
  | Threw s1 => UI.showDialog DeleteFailed s1
  end.
Proof.
  intros Hdoc Hload Hne Hnd Hrange Hlt.
  unfold PDFEditor.deletePages, PDFEditor.deletePages_try. rewrite Hdoc.
  destruct (Z.eqb_spec (len pageNums) 0) as [Hz|_];
    [apply len_nil_iff in Hz; contradiction|].
  destruct (Z.geb_spec (len pageNums) (pageCount doc)) as [Hge|_]; [lia|].
  rewrite Hload, (removePages_sorted_spec pageNums pages Hnd Hrange). reflexivity.
Qed.

(** X27.  Redo does not delete the pages again.  After a [deletePages]
    that went through the session has the pages pdf.js reads from the
    saved bytes.  Undo reloads the snapshot: the session has the pages
    pdf.js reads from it, the deleted ones included.  Redo then moves the
    'delete' action back onto the undo stack and empties the redo stack,
    but leaves every session as undo left it: the deleted pages are still
    there, although the history says the deletion is done. *)
Theorem redo_does_not_redo_a_page_deletion (s : State) (doc : Doc)
        (pageNums : list Z) (pages pdfNew pdfOld : list Page) :
  PDFViewer.getActiveDoc s = Some doc ->
  PDFDocument_load (pdfBytes doc) = Some pages ->
  pageNums <> [] ->
  NoDup pageNums ->
  Forall (fun p => 1 <= p <= len pages) pageNums ->
  len pageNums < pageCount doc ->
  getDocument (PDFDocument_save (withoutPages pageNums 1 pages)) = Some pdfNew ->
  getDocument (pdfBytes doc) = Some pdfOld ->
  let act := mkAction "delete" None (Some (pdfBytes doc)) in
  let s1 := PDFEditor.deletePages ver pageNums s in
  pageCount <$> PDFViewer.getActiveDoc s1 = Some (len pdfNew)
  /\ last (undoStack (editor s1)) = Some act
  /\ exists s2 doc2,
       PDFEditor.undo ver s1 = Returned s2
       /\ PDFViewer.getActiveDoc s2 = Some doc2
       /\ pdfDoc doc2 = pdfOld
       /\ pageCount doc2 = len pdfOld
       /\ viewer (PDFEditor.redo s2) = viewer s2
       /\ undoStack (editor (PDFEditor.redo s2)) = undoStack (editor s1)
       /\ redoStack (editor (PDFEditor.redo s2)) = [].
Proof.
  intros Hdoc Hload Hne Hnd Hrange Hlt Hnew Hold act s1.
  pose proof (removePages_sorted_spec pageNums pages Hnd Hrange) as Hrem.
  destruct (deletePages_ok ver s doc pageNums pages (withoutPages pageNums 1 pages)
              pdfNew Hdoc Hne Hlt Hload Hrem Hnew)
    as ((doc1 & Hdoc1 & _ & Hcount1 & _) & _ & Hredo1 & _).
  fold s1 in Hdoc1, Hredo1.
  assert (Hpop : exists rest, pop (undoStack (editor s1)) = Some (act, rest)).
  { unfold s1. rewrite (deletePages_commits s doc pageNums pages Hdoc Hload Hne Hnd
                          Hrange Hlt).
    destruct (commit_effect ver s doc (withoutPages pageNums 1 pages) act None
                DeleteFailed Hdoc) as (_ & Hpop & _).
    exact Hpop. }
  destruct Hpop as (rest & Hpop).
  pose proof (pop_last _ _ _ Hpop) as Hlast.
  split; [rewrite Hdoc1; simpl; rewrite Hcount1; reflexivity|].
  split; [exact Hlast|].
  destruct (undo_snapshot_pages ver s1 act rest (pdfBytes doc) doc1 pdfOld Hpop)
    as (s2 & doc2 & Hundo & Hdoc2 & Hpages2 & Hcount2);
    [left; reflexivity | reflexivity | exact Hdoc1 | exact Hold |].
  exists s2, doc2.
  split; [exact Hundo|]. split; [exact Hdoc2|]. split; [exact Hpages2|].
  split; [exact Hcount2|]. split; [apply viewer_redo|].
  destruct (undo_editor ver s1) as (Hundo2 & Hredo2).
  rewrite Hundo, Hlast, Hredo1 in Hredo2. simpl in Hredo2, Hundo2.
  rewrite Hundo in Hundo2. simpl in Hundo2.
  destruct (redo_editor s2) as (Hu & Hr). rewrite Hredo2 in Hu, Hr. simpl in Hu, Hr.
  split; [|exact Hr].
  rewrite Hu, Hundo2. apply removelast_snoc_last. exact Hlast.
Qed.

End DeleteUndoRedo.

Lemma redo_does_not_redo_a_page_deletion_witness :
  let s1 := PDFEditor.deletePages (H := demoEngine) Continuous [3] demoNumbered in
  PDFViewer.getActiveDoc demoNumbered = Some demoNumberedDoc
  /\ pageCount <$> PDFViewer.getActiveDoc s1 = Some 2
  /\ exists s2 doc2,
       PDFEditor.undo (H := demoEngine) Continuous s1 = Returned s2
       /\ PDFViewer.getActiveDoc (PDFEditor.redo s2) = Some doc2
       /\ pdfDoc doc2 = numberedPages
       /\ undoStack (editor (PDFEditor.redo s2)) =
          [mkAction "delete" None (Some [x01; x02; x03])].
Proof.
  intros s1.
  assert (Hdoc : PDFViewer.getActiveDoc demoNumbered = Some demoNumberedDoc)
    by (vm_compute; reflexivity).
  split; [exact Hdoc|].
  destruct (redo_does_not_redo_a_page_deletion (H := demoEngine) Continuous
              demoNumbered demoNumberedDoc [3] numberedPages
              [markedPage 1; markedPage 2] numberedPages Hdoc eq_refl)
    as (Hcount1 & _ & s2 & doc2 & Hundo & Hdoc2 & Hpages2 & _ & Hv & Hu & _).
  - discriminate.
  - repeat constructor. apply not_elem_of_nil.
  - repeat constructor; vm_compute; discriminate.
  - vm_compute. reflexivity.
  - reflexivity.
  - reflexivity.
  - fold s1 in Hcount1, Hundo, Hu. split; [exact Hcount1|].
    exists s2, doc2. split; [exact Hundo|].
    split; [rewrite (getActiveDoc_viewer _ s2 Hv); exact Hdoc2|].
    split; [exact Hpages2|].
    rewrite Hu. vm_compute. reflexivity.
Defined.

(** ** Closing every document *)

Lemma delete_other_id (docs : list Doc) (n : nat) (x d : Doc) :
  NoDup (docId <$> docs) -> docs !! n = Some x -> d ∈ delete n docs ->
  d ∈ docs /\ docId d <> docId x.
Proof.
  intros Hnd Hx Hd. split.
  - eapply elem_of_sublist; [exact Hd | apply sublist_delete].
  - rewrite <- (take_drop_middle docs n x Hx) in Hnd.
    rewrite fmap_app, fmap_cons in Hnd.
    apply NoDup_app in Hnd. destruct Hnd as (_ & Hdisj & Hnd).
    apply NoDup_cons in Hnd. destruct Hnd as (Hnotin & _).
    rewrite delete_take_drop in Hd. apply elem_of_app in Hd.
    intros Heq. destruct Hd as [Hd|Hd].
    + apply (Hdisj (docId x)).
      * rewrite <- Heq. apply list_elem_of_fmap. eauto.
      * apply elem_of_cons. left. reflexivity.
    + apply Hnotin. rewrite <- Heq. apply list_elem_of_fmap. eauto.
Qed.

Lemma closeDocument_remaining (ver : Version) (id : Z) (s : State) (d : Doc) :
  NoDup (docId <$> openDocs (viewer s)) ->
  d ∈ openDocs (viewer (PDFViewer.closeDocument ver id s)) ->
  d ∈ openDocs (viewer s) /\ docId d <> id.
Proof.
  intros Hnd Hd.
  destruct (findIndex_spec (fun x => docId x =? id) (openDocs (viewer s)))
    as [(Hidx & Hall) | (n & x & Hidx & Hx & Hpx & _)].
  - rewrite (closeDocument_unknown ver id s Hidx) in Hd. split; [exact Hd|].
    rewrite Forall_forall in Hall. specialize (Hall d Hd). simpl in Hall. lia.
  - apply Z.eqb_eq in Hpx. subst id.
    destruct (closeDocument_known ver s n x Hnd Hx) as (Hv & _).
    rewrite Hv in Hd. cbn [openDocs] in Hd.
    apply (delete_other_id _ n x d Hnd Hx Hd).
Qed.

(** X28.  Closing every open document, in any order and even with ids
    that are repeated or unknown, empties the workspace: when the ids
    closed cover the open sessions, no session is left and the active
    index is -1. *)
Theorem closing_every_document_empties_the_workspace (ver : Version) (ids : list Z)
        (s : State) :
  wfViewer (viewer s) ->
  (forall d, d ∈ openDocs (viewer s) -> docId d ∈ ids) ->
  let s' := foldl (fun t id => PDFViewer.closeDocument ver id t) s ids in
  openDocs (viewer s') = [] /\ activeDocIndex (viewer s') = -1
  /\ PDFViewer.getActiveDoc s' = None.
Proof.
  revert s. induction ids as [|id ids IH]; intros s Hwf Hcover s'.
  - assert (Hnil : openDocs (viewer s) = []).
    { destruct (openDocs (viewer s)) as [|d l] eqn:Hdocs; [reflexivity|].
      exfalso. specialize (Hcover d).
      eapply not_elem_of_nil, Hcover. apply elem_of_cons. left. reflexivity. }
    destruct Hwf as (_ & _ & Hempty & _). simpl in s'. unfold s'.
    split; [exact Hnil|]. split; [exact (Hempty Hnil)|].
    unfold PDFViewer.getActiveDoc. rewrite (Hempty Hnil). reflexivity.
  - apply (IH (PDFViewer.closeDocument ver id s)).
    + apply wfViewer_closeDocument, Hwf.
    + intros d Hd. destruct Hwf as (Hnd & _).
      destruct (closeDocument_remaining ver id s d Hnd Hd) as (Hin & Hne).
      specialize (Hcover d Hin). apply elem_of_cons in Hcover.
      destruct Hcover; [contradiction | assumption].
Qed.

Lemma closing_every_document_empties_the_workspace_witness :
  wfViewer (viewer demoThree)
  /\ (forall d, d ∈ openDocs (viewer demoThree) -> docId d ∈ [2; 9; 3; 1; 2])
  /\ openDocs (viewer (foldl (fun t id => PDFViewer.closeDocument Continuous id t)
                             demoThree [2; 9; 3; 1; 2])) = [].
Proof.
  assert (Hwf : wfViewer (viewer demoThree)) by exact wfViewer_demoThree.
  assert (Hcover : forall d, d ∈ openDocs (viewer demoThree) ->
                             docId d ∈ [2; 9; 3; 1; 2]).
  { intros d Hd. vm_compute in Hd.
    repeat (apply elem_of_cons in Hd; destruct Hd as [->|Hd]);
      [| | |apply elem_of_nil in Hd; contradiction];
      cbn [docId]; rewrite !elem_of_cons; auto. }
  split; [exact Hwf|]. split; [exact Hcover|].
  exact (proj1 (closing_every_document_empties_the_workspace Continuous
                  [2; 9; 3; 1; 2] demoThree Hwf Hcover)).
Defined.

(** ** The two history stacks move together *)

(** X29.  Undo and redo move one action between the two stacks and undo
    each other on them, whatever the kind of the action and even when
    the reload of an undo fails: with an action to undo, undo then redo
    gives back both stacks; with an action to redo, redo then undo
    does. *)
Theorem undo_redo_restore_the_stacks `{Engine} (ver : Version) (s : State) :
  (undoStack (editor s) <> [] ->
   let s' := PDFEditor.redo (stateOf (PDFEditor.undo ver s)) in
   undoStack (editor s') = undoStack (editor s)
   /\ redoStack (editor s') = redoStack (editor s))
  /\ (redoStack (editor s) <> [] ->
      let s' := stateOf (PDFEditor.undo ver (PDFEditor.redo s)) in
      undoStack (editor s') = undoStack (editor s)
      /\ redoStack (editor s') = redoStack (editor s)).
Proof.
  split.
  - intros Hne s'.
    destruct (undo_editor ver s) as (Hu & Hr).
    destruct (redo_editor (stateOf (PDFEditor.undo ver s))) as (Hu' & Hr').
    destruct (last (undoStack (editor s))) as [a|] eqn:Hlast;
      [|apply last_None in Hlast; contradiction].
    unfold s'. rewrite Hu', Hr', Hr, Hu, last_snoc, removelast_last.
    split; [|reflexivity].
    apply last_Some in Hlast. destruct Hlast as [l' ->].
    rewrite removelast_last. reflexivity.
  - intros Hne s'.
    destruct (redo_editor s) as (Hu & Hr).
    destruct (undo_editor ver (PDFEditor.redo s)) as (Hu' & Hr').
    destruct (last (redoStack (editor s))) as [a|] eqn:Hlast;
      [|apply last_None in Hlast; contradiction].
    unfold s'. rewrite Hu', Hr', Hr, Hu, last_snoc, removelast_last.
    split; [reflexivity|].
    apply last_Some in Hlast. destruct Hlast as [l' ->].
    rewrite removelast_last. reflexivity.
Qed.
